(** * shopcart: the persistent cart state manager and its data recovery

    A shallow embedding of the cart core of the repository:
    - the data models [Product] and [CartItem] (models file),
    - the catalog lookup [getProductById] and the catalog queries
      (products.js),
    - the input validator, the data recovery engine with its backup
      rotation and the graceful-degradation storage (validation file),
    - the cart manager [CartModule] (cart.js),
    - the configurations of the notifications (error-handler.js) and the
      quantity controls of the page (ui.js),
    - the order of initialization of the modules (application script).

    Conventions of the embedding.
    - A JavaScript number is [NaN] or a finite rational. The sum, the
      difference, the product and the quotient of two numbers, a decimal
      literal and the number that [parseFloat] reads are rounded to
      binary64 by [Num.b64]: to the nearest number of 53 significant
      bits, a tie going to the even one. The exponent is not bounded
      and the infinities are not represented: a statement about numbers
      that come from outside is made for finite numbers, and for texts
      short enough to be read as one. [parseInt] and the numbers of a
      JSON text are read exactly, which is what the engine does for
      integers of at most 53 bits. [String] writes an integer with all
      its digits and a binary64 fraction with the fewest digits that
      are read back as the same number, in plain notation: the
      exponent notation of the numbers from 10^21 on and below 10^-6 is
      not represented.
    - A string is a [string] of 8-bit characters.
    - A JavaScript value is a [value]; plain objects are association lists
      in insertion order, and a [Map] is an association list in insertion
      order with unique keys.
    - Code with effects runs in the monad [M]: it threads the [World] (the
      manager's fields, the listeners' log, the three storages) and either
      returns or throws an [Error]. *)

From Stdlib Require Import ZArith QArith Qround Qabs Bool List String Ascii Lia Lqa.
From Stdlib Require Import DecimalString Permutation Sorted.
From Stdlib Require Qcanon DecimalPos DecimalFacts OrderedTypeEx.
Import ListNotations.

Set Warnings "-register-all".

Open Scope string_scope.
Open Scope Z_scope.

(** ** Characters and strings *)

Module Str.

Definition is_digit (c : ascii) : bool :=
  let n := nat_of_ascii c in (48 <=? n)%nat && (n <=? 57)%nat.

(** white space and line terminators among the first 256 code units: tab,
    line feed, vertical tab, form feed, carriage return, space and the
    no-break space *)
Definition is_space (c : ascii) : bool :=
  let n := nat_of_ascii c in
  ((9 <=? n)%nat && (n <=? 13)%nat) || (n =? 32)%nat || (n =? 160)%nat.

(** [[a-zA-Z_$]] *)
Definition is_ident_start (c : ascii) : bool :=
  let n := nat_of_ascii c in
  ((97 <=? n)%nat && (n <=? 122)%nat) || ((65 <=? n)%nat && (n <=? 90)%nat)
  || (n =? 95)%nat || (n =? 36)%nat.

(** [[a-zA-Z0-9_$]] *)
Definition is_ident_char (c : ascii) : bool := is_ident_start c || is_digit c.

Definition digit_val (c : ascii) : Z := Z.of_nat (nat_of_ascii c) - 48.

Definition digit_char (d : Z) : ascii := ascii_of_nat (Z.to_nat (d + 48)).

Fixpoint filter (p : ascii -> bool) (s : string) : string :=
  match s with
  | EmptyString => EmptyString
  | String c r => if p c then String c (filter p r) else filter p r
  end.

Fixpoint count (p : ascii -> bool) (s : string) : nat :=
  match s with
  | EmptyString => O
  | String c r => if p c then S (count p r) else count p r
  end.

Fixpoint drop_while (p : ascii -> bool) (s : string) : string :=
  match s with
  | EmptyString => EmptyString
  | String c r => if p c then drop_while p r else s
  end.

Fixpoint take_while (p : ascii -> bool) (s : string) : string :=
  match s with
  | EmptyString => EmptyString
  | String c r => if p c then String c (take_while p r) else EmptyString
  end.

Fixpoint rev_onto (s acc : string) : string :=
  match s with
  | EmptyString => acc
  | String c r => rev_onto r (String c acc)
  end.

Definition rev (s : string) : string := rev_onto s EmptyString.

(** [String.prototype.trim] *)
Definition trim (s : string) : string :=
  rev (drop_while is_space (rev (drop_while is_space s))).

Fixpoint repeat (c : ascii) (n : nat) : string :=
  match n with
  | O => EmptyString
  | S k => String c (repeat c k)
  end.

(** the digits of [s] read as a decimal numeral, most significant first *)
Fixpoint digits_val (acc : Z) (s : string) : Z :=
  match s with
  | EmptyString => acc
  | String c r => digits_val (10 * acc + digit_val c) r
  end.

Definition of_Z (z : Z) : string := NilZero.string_of_int (Z.to_int z).

Fixpoint join (sep : string) (l : list string) : string :=
  match l with
  | [] => EmptyString
  | [x] => x
  | x :: r => x ++ sep ++ join sep r
  end.

(** [s.includes(t)] *)
Definition includes (t s : string) : bool :=
  match index 0 t s with Some _ => true | None => false end.

(** [s.startsWith(t)] *)
Definition startsWith (t s : string) : bool := prefix t s.

(** [s.split(sep)[1]] for a non-empty separator: the text between the
    first and the second occurrence of [sep]; [None] is [undefined]. *)
Definition split_second (sep s : string) : option string :=
  match index 0 sep s with
  | None => None
  | Some i =>
      let start := (i + length sep)%nat in
      let rest := substring start (length s - start) s in
      match index 0 sep rest with
      | None => Some rest
      | Some j => Some (substring 0 j rest)
      end
  end.

End Str.

(** ** Numbers *)

Inductive num : Type :=
| NaN
| Fin (q : Q).

Definition num_of_Z (z : Z) : num := Fin (inject_Z z).

Coercion num_of_Z : Z >-> num.

Definition Qlt_bool (a b : Q) : bool := negb (Qle_bool b a).

Module Num.

(** [a < b], [a <= b], [a > b], [a >= b]: any comparison with NaN is false *)
Definition lt (a b : num) : bool :=
  match a, b with Fin x, Fin y => Qlt_bool x y | _, _ => false end.
Definition le (a b : num) : bool :=
  match a, b with Fin x, Fin y => Qle_bool x y | _, _ => false end.
Definition gt (a b : num) : bool := lt b a.
Definition ge (a b : num) : bool := le b a.

(** [a === b] on numbers *)
Definition eqb (a b : num) : bool :=
  match a, b with Fin x, Fin y => Qeq_bool x y | _, _ => false end.

(** SameValueZero, the key equality of [Map] *)
Definition same (a b : num) : bool :=
  match a, b with
  | Fin x, Fin y => Qeq_bool x y
  | NaN, NaN => true
  | _, _ => false
  end.

(** the exponent [e] at which [a / d] has a significand of 53 bits:
    [2^52 <= a / d / 2^e < 2^53] *)
Definition b64_exp (a d : Z) : Z :=
  let e0 := Z.log2 a - Z.log2 d - 52 in
  if (a * 2 ^ Z.max 0 (- e0)) / (d * 2 ^ Z.max 0 e0) <? 2 ^ 52
  then e0 - 1 else e0.

(** the significand: [a / d / 2^e] rounded to the nearest integer, a tie
    going to the even one *)
Definition b64_sig (a d e : Z) : Z :=
  let N := a * 2 ^ Z.max 0 (- e) in
  let D := d * 2 ^ Z.max 0 e in
  let q := N / D in
  let r := N mod D in
  if (D <? 2 * r) || ((D =? 2 * r) && Z.odd q) then q + 1 else q.

(** the binary64 number nearest to [x], a tie going to the even
    significand. An integer of at most 53 bits is such a number. The
    exponent is not bounded: the infinities and the subnormal numbers of
    binary64 are not represented. *)
Definition b64 (x : Q) : Q :=
  let x := Qred x in
  let n := Qnum x in
  let d := Zpos (Qden x) in
  if (d =? 1) && (Z.abs n <=? 9007199254740992) then x
  else
    let e := b64_exp (Z.abs n) d in
    let m := b64_sig (Z.abs n) d e in
    Qred (Qmake ((if n <? 0 then - m else m) * 2 ^ Z.max 0 e)
            (Z.to_pos (2 ^ Z.max 0 (- e)))).

(** [a + b], [a - b], [a * b]: the exact result rounded to binary64 *)
Definition add (a b : num) : num :=
  match a, b with Fin x, Fin y => Fin (b64 (x + y)) | _, _ => NaN end.

Definition sub (a b : num) : num :=
  match a, b with Fin x, Fin y => Fin (b64 (x - y)) | _, _ => NaN end.

Definition mul (a b : num) : num :=
  match a, b with Fin x, Fin y => Fin (b64 (x * y)) | _, _ => NaN end.

(** [a / b]; a zero divisor, whose quotient is an infinity or NaN, gives NaN *)
Definition div (a b : num) : num :=
  match a, b with
  | Fin x, Fin y => if Qeq_bool y 0 then NaN else Fin (b64 (x / y))
  | _, _ => NaN
  end.

Definition isNaN (a : num) : bool :=
  match a with NaN => true | Fin _ => false end.

Definition floor (a : num) : num :=
  match a with NaN => NaN | Fin x => Fin (inject_Z (Qfloor x)) end.

Definition abs (a : num) : num :=
  match a with NaN => NaN | Fin x => Fin (Qabs x) end.

(** [Math.round]: the nearest integer, a tie going up *)
Definition round (a : num) : num :=
  match a with NaN => NaN | Fin x => Fin (inject_Z (Qfloor (x + (1 # 2)))) end.

Definition isInteger (a : num) : bool :=
  match a with NaN => false | Fin x => Qeq_bool (inject_Z (Qfloor x)) x end.

(** at most 20 digits of the fraction [r / d], [0 <= r < d] *)
Fixpoint frac_digits (fuel : nat) (r : Z) (d : Z) : string :=
  match fuel with
  | O => EmptyString
  | S f =>
      if r =? 0 then EmptyString
      else String (Str.digit_char (10 * r / d)) (frac_digits f (10 * r mod d) d)
  end.

(** the shortest decimal [m / 10^f], with [f] digits or more after the
    point, that is read back as [x], and of two of them the nearer *)
Fixpoint shortest (fuel : nat) (f : Z) (x : Q) : option (Z * Z) :=
  match fuel with
  | O => None
  | S k =>
      let p := 10 ^ f in
      let lo := Qfloor (x * inject_Z p) in
      let near := Qfloor (x * inject_Z p + (1 # 2)) in
      let far := if near =? lo then lo + 1 else lo in
      if Qeq_bool (b64 (near # Z.to_pos p)) x then Some (near, p)
      else if Qeq_bool (b64 (far # Z.to_pos p)) x then Some (far, p)
      else shortest k (f + 1) x
  end.

(** [String(n)] in plain decimal notation: all the digits of an integer,
    and of a fraction that is a binary64 number the fewest digits that
    are read back as the same number *)
Definition to_string (a : num) : string :=
  match a with
  | NaN => "NaN"
  | Fin x =>
      let n := Z.abs (Qnum x) in
      let d := Zpos (Qden x) in
      let sign := if (Qnum x <? 0) then "-" else EmptyString in
      if n mod d =? 0 then sign ++ Str.of_Z (n / d)
      else
        match shortest 25 1 (n # Qden x) with
        | Some (m, p) =>
            sign ++ Str.of_Z (m / p) ++ "." ++ frac_digits 25 (m mod p) p
        | None =>
            sign ++ Str.of_Z (n / d) ++ "." ++ frac_digits 20 (n mod d) d
        end
  end.

(** the value is truthy: neither NaN nor zero *)
Definition truthy (a : num) : bool :=
  match a with NaN => false | Fin x => negb (Qeq_bool x 0) end.

End Num.

(** a decimal literal [m / 10^k] as a number: the binary64 number nearest
    to it *)
Definition dec (m : Z) (k : nat) : num :=
  Fin (Num.b64 (m # Pos.of_nat (10 ^ k))).


(** ** Values and errors *)

Inductive value : Type :=
| VUndef
| VNull
| VBool (b : bool)
| VNum (n : num)
| VStr (s : string)
| VArr (elems : list value)
| VObj (fields : list (string * value)).

Inductive jstype : Type := TUndefined | TObject | TBoolean | TNumber | TString.

Definition typeof (v : value) : jstype :=
  match v with
  | VUndef => TUndefined
  | VNull | VArr _ | VObj _ => TObject
  | VBool _ => TBoolean
  | VNum _ => TNumber
  | VStr _ => TString
  end.

Definition is_number (v : value) : bool :=
  match v with VNum _ => true | _ => false end.

Definition truthy (v : value) : bool :=
  match v with
  | VUndef | VNull => false
  | VBool b => b
  | VNum n => Num.truthy n
  | VStr s => negb (s =? EmptyString)%string
  | VArr _ | VObj _ => true
  end.

Record Error : Type := mkErr { err_name : string; err_message : string }.

(** [new Error(msg)] *)
Definition error (msg : string) : Error := mkErr "Error" msg.

Definition TypeError (msg : string) : Error := mkErr "TypeError" msg.

Definition SyntaxError (msg : string) : Error := mkErr "SyntaxError" msg.

Inductive outcome (A : Type) : Type :=
| Ok (a : A)
| Throw (e : Error).

Arguments Ok {A} a.
Arguments Throw {A} e.

Fixpoint assoc {A : Type} (k : string) (l : list (string * A)) : option A :=
  match l with
  | [] => None
  | (k', v) :: r => if (k =? k')%string then Some v else assoc k r
  end.

(** assignment to a key: an existing key keeps its place *)
Fixpoint assoc_set {A : Type} (k : string) (v : A) (l : list (string * A))
  : list (string * A) :=
  match l with
  | [] => [(k, v)]
  | (k', v') :: r =>
      if (k =? k')%string then (k, v) :: r else (k', v') :: assoc_set k v r
  end.

Fixpoint assoc_remove {A : Type} (k : string) (l : list (string * A))
  : list (string * A) :=
  match l with
  | [] => []
  | (k', v') :: r =>
      if (k =? k')%string then r else (k', v') :: assoc_remove k r
  end.

(** [v.name] for the data properties the code reads ([productId],
    [quantity], [addedAt], [items], [timestamp], [data]): a missing one is
    [undefined], and reading a property of [null] or [undefined] throws. *)
Definition prop (name : string) (v : value) : outcome value :=
  match v with
  | VUndef =>
      Throw (TypeError ("Cannot read properties of undefined (reading '" ++ name ++ "')"))
  | VNull =>
      Throw (TypeError ("Cannot read properties of null (reading '" ++ name ++ "')"))
  | VObj fields =>
      Ok (match assoc name fields with Some x => x | None => VUndef end)
  | _ => Ok VUndef
  end.

(** [String(v)] *)
Fixpoint js_String (v : value) : string :=
  match v with
  | VUndef => "undefined"
  | VNull => "null"
  | VBool true => "true"
  | VBool false => "false"
  | VNum n => Num.to_string n
  | VStr s => s
  | VArr elems =>
      Str.join ","
        (map (fun e => match e with
                       | VUndef | VNull => EmptyString
                       | _ => js_String e
                       end) elems)
  | VObj _ => "[object Object]"
  end.

(** [a + b]: text is joined when an operand is a string or an object,
    and numbers are added otherwise *)
Definition joins_as_text (v : value) : bool :=
  match v with
  | VStr _ | VArr _ | VObj _ => true
  | _ => false
  end.

Definition primitive_to_number (v : value) : num :=
  match v with
  | VNum n => n
  | VNull => num_of_Z 0
  | VBool true => num_of_Z 1
  | VBool false => num_of_Z 0
  | _ => NaN
  end.

Definition js_plus (a b : value) : value :=
  if joins_as_text a || joins_as_text b then VStr (js_String a ++ js_String b)
  else VNum (Num.add (primitive_to_number a) (primitive_to_number b)).

(** [v === n] for a number [n] *)
Definition strict_eq_num (v : value) (n : num) : bool :=
  match v with
  | VNum m => Num.eqb m n
  | _ => false
  end.

(** ** JSON *)

Module JSON.

Definition dquote : ascii := "034"%char.
Definition backslash : ascii := "092"%char.

Definition hex_char (n : nat) : ascii :=
  if (n <? 10)%nat then ascii_of_nat (48 + n) else ascii_of_nat (87 + n).

Definition hex_val (c : ascii) : option nat :=
  let n := nat_of_ascii c in
  if ((48 <=? n) && (n <=? 57))%nat then Some (n - 48)%nat
  else if ((97 <=? n) && (n <=? 102))%nat then Some (n - 87)%nat
  else if ((65 <=? n) && (n <=? 70))%nat then Some (n - 55)%nat
  else None.

Definition escape_char (c : ascii) : string :=
  let n := nat_of_ascii c in
  if (n =? 34)%nat then String backslash (String dquote EmptyString)
  else if (n =? 92)%nat then String backslash (String backslash EmptyString)
  else if (n =? 8)%nat then String backslash "b"
  else if (n =? 12)%nat then String backslash "f"
  else if (n =? 10)%nat then String backslash "n"
  else if (n =? 13)%nat then String backslash "r"
  else if (n =? 9)%nat then String backslash "t"
  else if (n <? 32)%nat then
    String backslash ("u00" ++ String (hex_char (n / 16)) (String (hex_char (n mod 16)) EmptyString))
  else String c EmptyString.

Fixpoint escape (s : string) : string :=
  match s with
  | EmptyString => EmptyString
  | String c r => escape_char c ++ escape r
  end.

Definition quote (s : string) : string :=
  String dquote (escape s ++ String dquote EmptyString).

(** [s] between two quotes, as it is *)
Definition quote_plain (s : string) : string :=
  String dquote (s ++ String dquote EmptyString).

(** [JSON.stringify(v)]; [None] is the result [undefined] *)
Fixpoint stringify (v : value) : option string :=
  match v with
  | VUndef => None
  | VNull => Some "null"
  | VBool true => Some "true"
  | VBool false => Some "false"
  | VNum NaN => Some "null"
  | VNum n => Some (Num.to_string n)
  | VStr s => Some (quote s)
  | VArr elems =>
      Some ("[" ++ Str.join ","
                     (map (fun e => match stringify e with
                                    | Some s => s
                                    | None => "null"
                                    end) elems) ++ "]")
  | VObj fields =>
      Some ("{" ++ Str.join ","
                     (flat_map (fun kv => match stringify (snd kv) with
                                          | Some s => [quote (fst kv) ++ ":" ++ s]
                                          | None => []
                                          end) fields) ++ "}")
  end.

Inductive token : Type :=
| TLBrace | TRBrace | TLBracket | TRBracket | TColon | TComma
| TString (s : string) | TNumber (q : Q) | TTrue | TFalse | TNull.

(** a JSON number: an optional minus; an integer part without a leading
    zero, unless it is the digit 0 alone; an optional fraction of at least
    one digit; an optional exponent, signed or not, of at least one digit *)
Definition number_of_word (w : string) : option Q :=
  let '(neg, r0) :=
    match w with
    | String "-" r => (true, r)
    | _ => (false, w)
    end in
  let ip := Str.take_while Str.is_digit r0 in
  let r1 := Str.drop_while Str.is_digit r0 in
  let ip_ok :=
    match ip with
    | EmptyString => false
    | String "0" (String _ _) => false
    | _ => true
    end in
  let '(fp, fp_ok, r2) :=
    match r1 with
    | String "." r =>
        let f := Str.take_while Str.is_digit r in
        (f, negb (f =? EmptyString)%string, Str.drop_while Str.is_digit r)
    | _ => (EmptyString, true, r1)
    end in
  let '(ex, ex_ok) :=
    match r2 with
    | EmptyString => (0, true)
    | String c r =>
        if ((c =? "e") || (c =? "E"))%char then
          let '(eneg, r3) :=
            match r with
            | String "-" r' => (true, r')
            | String "+" r' => (false, r')
            | _ => (false, r)
            end in
          let ed := Str.take_while Str.is_digit r3 in
          ((if eneg then - Str.digits_val 0 ed else Str.digits_val 0 ed),
           negb (ed =? EmptyString)%string
           && (Str.drop_while Str.is_digit r3 =? EmptyString)%string)
        else (0, false)
    end in
  if ip_ok && fp_ok && ex_ok then
    let m := Str.digits_val 0 (ip ++ fp) in
    let m := if neg then - m else m in
    let e := ex - Z.of_nat (length fp) in
    Some (Qred (if 0 <=? e then inject_Z (m * 10 ^ e)
                else m # Z.to_pos (10 ^ (- e))))
  else None.

Definition token_of_word (w : string) : option token :=
  if (w =? "true")%string then Some TTrue
  else if (w =? "false")%string then Some TFalse
  else if (w =? "null")%string then Some TNull
  else option_map TNumber (number_of_word w).

Inductive lexstate : Type :=
| LIdle
| LWord (acc : string)
| LStr (acc : string)
| LEsc (acc : string)
| LUni (acc : string) (hex : list nat).

Definition is_json_space (c : ascii) : bool :=
  let n := nat_of_ascii c in
  (n =? 32)%nat || (n =? 9)%nat || (n =? 10)%nat || (n =? 13)%nat.

Definition is_word_char (c : ascii) : bool :=
  Str.is_ident_char c || (c =? "+")%char || (c =? "-")%char || (c =? ".")%char.

Definition punct (c : ascii) : option token :=
  if (c =? "{")%char then Some TLBrace
  else if (c =? "}")%char then Some TRBrace
  else if (c =? "[")%char then Some TLBracket
  else if (c =? "]")%char then Some TRBracket
  else if (c =? ":")%char then Some TColon
  else if (c =? ",")%char then Some TComma
  else None.

(** one character outside a word or string; tokens are kept newest first *)
Definition lex_idle (c : ascii) (toks : list token)
  : option (lexstate * list token) :=
  if is_json_space c then Some (LIdle, toks)
  else if (c =? dquote)%char then Some (LStr EmptyString, toks)
  else if is_word_char c then Some (LWord (String c EmptyString), toks)
  else match punct c with
       | Some t => Some (LIdle, t :: toks)
       | None => None
       end.

Definition unescape (c : ascii) : option ascii :=
  if (c =? dquote)%char then Some dquote
  else if (c =? backslash)%char then Some backslash
  else if (c =? "/")%char then Some "/"%char
  else if (c =? "b")%char then Some "008"%char
  else if (c =? "f")%char then Some "012"%char
  else if (c =? "n")%char then Some "010"%char
  else if (c =? "r")%char then Some "013"%char
  else if (c =? "t")%char then Some "009"%char
  else None.

Definition lex_step (st : lexstate) (toks : list token) (c : ascii)
  : option (lexstate * list token) :=
  match st with
  | LIdle => lex_idle c toks
  | LWord acc =>
      if is_word_char c then Some (LWord (String c acc), toks)
      else match token_of_word (Str.rev acc) with
           | Some t => lex_idle c (t :: toks)
           | None => None
           end
  | LStr acc =>
      if (c =? dquote)%char then Some (LIdle, TString (Str.rev acc) :: toks)
      else if (c =? backslash)%char then Some (LEsc acc, toks)
      else if (nat_of_ascii c <? 32)%nat then None
      else Some (LStr (String c acc), toks)
  | LEsc acc =>
      if (c =? "u")%char then Some (LUni acc [], toks)
      else match unescape c with
           | Some d => Some (LStr (String d acc), toks)
           | None => None
           end
  | LUni acc hex =>
      match hex_val c with
      | None => None
      | Some h =>
          match hex with
          | [h2; h1; h0] =>
              (* the code unit [h0 h1 h2 h], kept modulo 256 in 8-bit text *)
              Some (LStr (String (ascii_of_nat (16 * h2 + h)) acc), toks)
          | _ => Some (LUni acc (h :: hex), toks)
          end
      end
  end.

Fixpoint lex_from (st : lexstate) (toks : list token) (s : string)
  : option (list token) :=
  match s with
  | EmptyString =>
      match st with
      | LIdle => Some (List.rev toks)
      | LWord acc =>
          option_map (fun t => List.rev (t :: toks)) (token_of_word (Str.rev acc))
      | _ => None
      end
  | String c r =>
      match lex_step st toks c with
      | Some (st', toks') => lex_from st' toks' r
      | None => None
      end
  end.

Definition lex (s : string) : option (list token) := lex_from LIdle [] s.

(** The parser is a pushdown automaton over the tokens. A frame is a
    container that waits for its next value. *)
Inductive frame : Type :=
| InArr (rev_elems : list value)
| InObj (fields : list (string * value)) (key : string).

Inductive pstate : Type :=
| PValue (stk : list frame)
| PArrStart (stk : list frame)
| PObjStart (stk : list frame)
| PObjKey (fields : list (string * value)) (stk : list frame)
| PColon (fields : list (string * value)) (key : string) (stk : list frame)
| PArrNext (rev_elems : list value) (stk : list frame)
| PObjNext (fields : list (string * value)) (stk : list frame)
| PDone (v : value).

(** a value is complete inside the containers [stk] *)
Definition deliver (v : value) (stk : list frame) : pstate :=
  match stk with
  | [] => PDone v
  | InArr rev_elems :: stk' => PArrNext (v :: rev_elems) stk'
  | InObj fields key :: stk' => PObjNext (assoc_set key v fields) stk'
  end.

(** a token that starts a value inside the containers [stk] *)
Definition start_value (t : token) (stk : list frame) : option pstate :=
  match t with
  | TString s => Some (deliver (VStr s) stk)
  | TNumber q => Some (deliver (VNum (Fin q)) stk)
  | TTrue => Some (deliver (VBool true) stk)
  | TFalse => Some (deliver (VBool false) stk)
  | TNull => Some (deliver VNull stk)
  | TLBracket => Some (PArrStart stk)
  | TLBrace => Some (PObjStart stk)
  | _ => None
  end.

Definition parse_step (st : pstate) (t : token) : option pstate :=
  match st with
  | PValue stk => start_value t stk
  | PArrStart stk =>
      match t with
      | TRBracket => Some (deliver (VArr []) stk)
      | _ => start_value t (InArr [] :: stk)
      end
  | PObjStart stk =>
      match t with
      | TRBrace => Some (deliver (VObj []) stk)
      | TString k => Some (PColon [] k stk)
      | _ => None
      end
  | PObjKey fields stk =>
      match t with
      | TString k => Some (PColon fields k stk)
      | _ => None
      end
  | PColon fields k stk =>
      match t with
      | TColon => Some (PValue (InObj fields k :: stk))
      | _ => None
      end
  | PArrNext rev_elems stk =>
      match t with
      | TComma => Some (PValue (InArr rev_elems :: stk))
      | TRBracket => Some (deliver (VArr (List.rev rev_elems)) stk)
      | _ => None
      end
  | PObjNext fields stk =>
      match t with
      | TComma => Some (PObjKey fields stk)
      | TRBrace => Some (deliver (VObj fields) stk)
      | _ => None
      end
  | PDone _ => None
  end.

Fixpoint parse_tokens (st : pstate) (toks : list token) : option value :=
  match toks with
  | [] => match st with PDone v => Some v | _ => None end
  | t :: r =>
      match parse_step st t with
      | Some st' => parse_tokens st' r
      | None => None
      end
  end.

(** the text of the engine's message is not fixed by the language *)
Definition parse_error : Error := SyntaxError "Unexpected token in JSON".

(** [JSON.parse(text)] *)
Definition parse (text : string) : outcome value :=
  match lex text with
  | Some toks =>
      match parse_tokens (PValue []) toks with
      | Some v => Ok v
      | None => Throw parse_error
      end
  | None => Throw parse_error
  end.

End JSON.

(** ** Number parsing *)

(** [parseFloat(s)] on a text of digits, [.] and [-] (the number sanitizer
    removes every other character first): the longest prefix that is an
    optional minus, digits, and an optional point and digits, with a digit
    somewhere. *)
Definition parseFloat (s : string) : num :=
  let '(neg, r0) :=
    match s with
    | String "-" r => (true, r)
    | _ => (false, s)
    end in
  let ip := Str.take_while Str.is_digit r0 in
  let r1 := Str.drop_while Str.is_digit r0 in
  let fp :=
    match r1 with
    | String "." r => Str.take_while Str.is_digit r
    | _ => EmptyString
    end in
  match (ip ++ fp)%string with
  | EmptyString => NaN
  | ds =>
      let m := Str.digits_val 0 ds in
      Fin (Num.b64
             ((if neg then - m else m) # Z.to_pos (10 ^ Z.of_nat (length fp))))
  end.

Fixpoint hex_digits_val (acc : Z) (s : string) : Z :=
  match s with
  | EmptyString => acc
  | String c r =>
      match JSON.hex_val c with
      | Some h => hex_digits_val (16 * acc + Z.of_nat h) r
      | None => acc
      end
  end.

Definition is_hex_digit (c : ascii) : bool :=
  match JSON.hex_val c with Some _ => true | None => false end.

(** [parseInt(s)] without a radix: leading white space, an optional sign,
    then the longest run of digits, in base 16 after a [0x] prefix and in
    base 10 otherwise; NaN without a digit. *)
Definition parseInt (s : string) : num :=
  let r := Str.drop_while Str.is_space s in
  let '(neg, r0) :=
    match r with
    | String "-" r' => (true, r')
    | String "+" r' => (false, r')
    | _ => (false, r)
    end in
  let signed (m : Z) : num := num_of_Z (if neg then - m else m) in
  let decimal :=
    match Str.take_while Str.is_digit r0 with
    | EmptyString => NaN
    | ds => signed (Str.digits_val 0 ds)
    end in
  match r0 with
  | String "0" (String x r1) =>
      if ((x =? "x") || (x =? "X"))%char then
        match Str.take_while is_hex_digit r1 with
        | EmptyString => NaN
        | hs => signed (hex_digits_val 0 hs)
        end
      else decimal
  | _ => decimal
  end.

(** ** The exception monad of pure code *)

Definition obind {A B : Type} (m : outcome A) (k : A -> outcome B) : outcome B :=
  match m with
  | Ok a => k a
  | Throw e => Throw e
  end.

Notation "'let!' x ':=' m 'in' k" := (obind m (fun x => k))
  (at level 10, x pattern, m at level 100, k at level 200).

(** [l.every(f)] *)
Fixpoint every {A : Type} (f : A -> outcome bool) (l : list A) : outcome bool :=
  match l with
  | [] => Ok true
  | x :: r => let! b := f x in if b then every f r else Ok false
  end.

(** ** Data models *)

Module Product.

Record t : Type := mk {
  id : num;
  name : string;
  description : string;
  price : num;
  image : string;
  category : string
}.

(** [Product.validate]; the fields are typed, so the type tests of the
    source hold and the content tests remain. *)
Definition validate (p : t) : outcome unit :=
  if negb (Num.truthy (id p)) then
    Throw (error "Product ID must be a valid number")
  else if (name p =? EmptyString)%string
          || (Str.trim (name p) =? EmptyString)%string then
    Throw (error "Product name must be a non-empty string")
  else if (description p =? EmptyString)%string then
    Throw (error "Product description must be a string")
  else if Num.lt (price p) 0 then
    Throw (error "Product price must be a non-negative number")
  else if (image p =? EmptyString)%string then
    Throw (error "Product image must be a valid string")
  else Ok tt.

End Product.

(** ** The world *)

Module CartItem.

Record t : Type := mk {
  productId : num;
  quantity : num;
  addedAt : value
}.

(** the tests of [validate] on the two fields; they pass on numbers only,
    which are returned *)
Definition check (productId quantity : value) : outcome (num * num) :=
  match productId with
  | VNum p =>
      if negb (Num.truthy p) then
        Throw (error "Product ID must be a valid number")
      else
        match quantity with
        | VNum q =>
            if Num.lt q 0 || negb (Num.isInteger q) then
              Throw (error "Quantity must be a non-negative integer")
            else Ok (p, q)
        | _ => Throw (error "Quantity must be a non-negative integer")
        end
  | _ => Throw (error "Product ID must be a valid number")
  end.

Definition validate (self : t) : outcome unit :=
  let! _ := check (VNum (productId self)) (VNum (quantity self)) in Ok tt.

(** [new CartItem(productId, quantity)] at the time [now]; the quantity
    is 1 when the argument is [undefined] *)
Definition new (now : string) (productId quantity : value) : outcome t :=
  let quantity := match quantity with VUndef => VNum (num_of_Z 1) | _ => quantity end in
  let! pq := check productId quantity in
  Ok (mk (fst pq) (snd pq) (VStr now)).

Definition updateQuantity (self : t) (newQuantity : value) : outcome t :=
  match newQuantity with
  | VNum n =>
      if Num.lt n 0 || negb (Num.isInteger n) then
        Throw (error "Quantity must be a non-negative integer")
      else Ok (mk (productId self) n (addedAt self))
  | _ => Throw (error "Quantity must be a non-negative integer")
  end.

Definition getSubtotal (self : t) (productPrice : num) : outcome num :=
  if Num.lt productPrice 0 then
    Throw (error "Product price must be a non-negative number")
  else Ok (Num.mul (quantity self) productPrice).

Definition fromObject (now : string) (data : value) : outcome t :=
  let! p := prop "productId" data in
  let! q := prop "quantity" data in
  let! item := new now p q in
  let! a := prop "addedAt" data in
  Ok (if truthy a then mk (productId item) (quantity item) a else item).

End CartItem.

(** the host clock: [Date.now()] and [new Date().toISOString()] *)
Record Clock : Type := mkClock { millis : Z; iso : string }.

(** a call [listener(event, data, manager)] received by a listener *)
Record Call : Type := mkCall {
  call_listener : nat;
  call_event : string;
  call_data : value
}.

Record World : Type := mkWorld {
  items : list (num * CartItem.t);          (* this.items, a Map *)
  sessionOnly : bool;                       (* this.sessionOnly *)
  listeners : list nat;                     (* this.listeners, a Set *)
  calls : list Call;                        (* calls received, oldest first *)
  localStorage : list (string * string);
  sessionStorage : list (string * string);
  memoryStorage : list (string * string);   (* gracefulDegradation._memoryStorage *)
  faults : list (option Error);             (* the next storage calls that throw *)
  backupKeys : list string;                 (* dataRecovery.backupKeys, a Set *)
  reports : list (Error * string);          (* errorHandler.handleStorageError *)
  clock : Clock
}.

Definition with_items (x : list (num * CartItem.t)) (w : World) : World :=
  mkWorld x (sessionOnly w) (listeners w) (calls w) (localStorage w)
    (sessionStorage w) (memoryStorage w) (faults w) (backupKeys w) (reports w)
    (clock w).

Definition with_sessionOnly (x : bool) (w : World) : World :=
  mkWorld (items w) x (listeners w) (calls w) (localStorage w)
    (sessionStorage w) (memoryStorage w) (faults w) (backupKeys w) (reports w)
    (clock w).

Definition with_listeners (x : list nat) (w : World) : World :=
  mkWorld (items w) (sessionOnly w) x (calls w) (localStorage w)
    (sessionStorage w) (memoryStorage w) (faults w) (backupKeys w) (reports w)
    (clock w).

Definition with_calls (x : list Call) (w : World) : World :=
  mkWorld (items w) (sessionOnly w) (listeners w) x (localStorage w)
    (sessionStorage w) (memoryStorage w) (faults w) (backupKeys w) (reports w)
    (clock w).

Definition with_localStorage (x : list (string * string)) (w : World) : World :=
  mkWorld (items w) (sessionOnly w) (listeners w) (calls w) x
    (sessionStorage w) (memoryStorage w) (faults w) (backupKeys w) (reports w)
    (clock w).

Definition with_sessionStorage (x : list (string * string)) (w : World) : World :=
  mkWorld (items w) (sessionOnly w) (listeners w) (calls w) (localStorage w)
    x (memoryStorage w) (faults w) (backupKeys w) (reports w) (clock w).

Definition with_memoryStorage (x : list (string * string)) (w : World) : World :=
  mkWorld (items w) (sessionOnly w) (listeners w) (calls w) (localStorage w)
    (sessionStorage w) x (faults w) (backupKeys w) (reports w) (clock w).

Definition with_faults (x : list (option Error)) (w : World) : World :=
  mkWorld (items w) (sessionOnly w) (listeners w) (calls w) (localStorage w)
    (sessionStorage w) (memoryStorage w) x (backupKeys w) (reports w) (clock w).

Definition with_backupKeys (x : list string) (w : World) : World :=
  mkWorld (items w) (sessionOnly w) (listeners w) (calls w) (localStorage w)
    (sessionStorage w) (memoryStorage w) (faults w) x (reports w) (clock w).

Definition with_reports (x : list (Error * string)) (w : World) : World :=
  mkWorld (items w) (sessionOnly w) (listeners w) (calls w) (localStorage w)
    (sessionStorage w) (memoryStorage w) (faults w) (backupKeys w) x (clock w).

Definition with_clock (x : Clock) (w : World) : World :=
  mkWorld (items w) (sessionOnly w) (listeners w) (calls w) (localStorage w)
    (sessionStorage w) (memoryStorage w) (faults w) (backupKeys w) (reports w) x.

(** ** The monad of code with effects *)

Definition M (A : Type) : Type := World -> outcome A * World.

Definition ret {A : Type} (a : A) : M A := fun w => (Ok a, w).

Definition throw {A : Type} (e : Error) : M A := fun w => (Throw e, w).

Definition bind {A B : Type} (m : M A) (k : A -> M B) : M B :=
  fun w =>
    match m w with
    | (Ok a, w') => k a w'
    | (Throw e, w') => (Throw e, w')
    end.

(** [try { m } catch (e) { h e }] *)
Definition try_catch {A : Type} (m : M A) (h : Error -> M A) : M A :=
  fun w =>
    match m w with
    | (Ok a, w') => (Ok a, w')
    | (Throw e, w') => h e w'
    end.

(** a call [m] inside a [try] block whose [catch] block is [h]: the rest
    of the block, [k], runs when the call returns *)
Definition attempt {A B : Type} (m : M A) (h : Error -> M B) (k : A -> M B)
  : M B :=
  fun w =>
    match m w with
    | (Ok a, w') => k a w'
    | (Throw e, w') => h e w'
    end.

Definition lift {A : Type} (o : outcome A) : M A := fun w => (o, w).

Definition gets {A : Type} (f : World -> A) : M A := fun w => (Ok (f w), w).

Definition modify (f : World -> World) : M unit := fun w => (Ok tt, f w).

Notation "x <- m ;; k" := (bind m (fun x => k))
  (at level 61, m at next level, right associativity).
Notation "m ;; k" := (bind m (fun _ => k))
  (at level 61, right associativity).

(** [for (const x of l) { body x }] *)
Fixpoint for_each {A : Type} (l : list A) (body : A -> M unit) : M unit :=
  match l with
  | [] => ret tt
  | x :: r => body x ;; for_each r body
  end.

(** the final world and the result of a run *)
Definition exec {A : Type} (m : M A) (w : World) : World := snd (m w).
Definition result {A : Type} (m : M A) (w : World) : outcome A := fst (m w).

Definition returns {A : Type} (o : outcome A) : bool :=
  match o with Ok _ => true | Throw _ => false end.

(** ** Storage *)

(** What is fixed when the scripts are loaded: whether the validation
    script (which defines [inputValidator], [dataRecovery] and
    [gracefulDegradation]) and the error handler are present, the product
    data, and the feature support that [gracefulDegradation] detected. *)
Record Env : Type := mkEnv {
  validation_loaded : bool;
  errorHandler_loaded : bool;
  product_data : list Product.t;
  localStorage_supported : bool;
  sessionStorage_supported : bool
}.

Module Storage.

Inductive area : Type := Local | Session.

Definition content (a : area) (w : World) : list (string * string) :=
  match a with Local => localStorage w | Session => sessionStorage w end.

Definition with_content (a : area) (x : list (string * string)) (w : World)
  : World :=
  match a with
  | Local => with_localStorage x w
  | Session => with_sessionStorage x w
  end.

(** every call of the storage API takes the next entry of the schedule
    [faults]: an error there is thrown by the call *)
Definition fault : M unit :=
  fun w =>
    match faults w with
    | [] => (Ok tt, w)
    | None :: r => (Ok tt, with_faults r w)
    | Some e :: r => (Throw e, with_faults r w)
    end.

Definition getItem (a : area) (key : string) : M (option string) :=
  fault ;; gets (fun w => assoc key (content a w)).

Definition setItem (a : area) (key val : string) : M unit :=
  fault ;; modify (fun w => with_content a (assoc_set key val (content a w)) w).

Definition removeItem (a : area) (key : string) : M unit :=
  fault ;; modify (fun w => with_content a (assoc_remove key (content a w)) w).

Definition length (a : area) : M nat :=
  fault ;; gets (fun w => List.length (content a w)).

Definition key (a : area) (i : nat) : M (option string) :=
  fault ;; gets (fun w => option_map fst (nth_error (content a w) i)).

End Storage.

Module GracefulDegradation.

Section WithEnv.
Variable env : Env.

(** the object a caller writes through: [localStorage] itself, or the
    fallback strategy registered for it *)
Inductive handle : Type := Native | Fallback.

Definition isSupported_localStorage : bool := localStorage_supported env.

Definition getFeature_localStorage : handle :=
  if localStorage_supported env then Native else Fallback.

Definition setItem (h : handle) (key val : string) : M unit :=
  match h with
  | Native => Storage.setItem Storage.Local key val
  | Fallback =>
      if sessionStorage_supported env then
        Storage.setItem Storage.Session key val
      else
        modify (fun w => with_memoryStorage (assoc_set key val (memoryStorage w)) w)
  end.

End WithEnv.

End GracefulDegradation.

(** ** Catalog lookup *)

Module ProductsModule.

Section WithEnv.
Variable env : Env.

(** [loadProducts]: the products whose constructor did not throw *)
Definition products : list Product.t :=
  List.filter (fun p => returns (Product.validate p)) (product_data env).

Definition getProductById (id : value) : outcome (option Product.t) :=
  match id with
  | VNum n => Ok (List.find (fun p => Num.eqb (Product.id p) n) products)
  | _ => Throw (error "Product ID must be a number")
  end.

End WithEnv.

End ProductsModule.

(** ** Input validator *)

Module InputValidator.

Inductive ruleType : Type := quantity | productId.

Record Rules : Type := mkRules {
  required : bool;
  min : option num;
  max : option num;
  integer : bool;
  custom : value -> outcome bool
}.

Record Result : Type := mkResult {
  isValid : bool;
  errors : list string;
  sanitizedValue : value
}.

(** the sanitizer registered as [number] *)
Definition sanitize_number (v : value) : value :=
  let from_text (v : value) : value :=
    let stringValue := Str.trim (js_String v) in
    let cleaned :=
      Str.filter (fun c => Str.is_digit c || (c =? ".")%char || (c =? "-")%char)
        stringValue in
    match parseFloat cleaned with
    | NaN => VNull
    | parsed => VNum parsed
    end in
  match v with
  | VNull | VUndef => VNull
  | VStr EmptyString => VNull
  | VNum n => if negb (Num.isNaN n) then v else from_text v
  | _ => from_text v
  end.

(** the sanitizer registered as [integer] *)
Definition sanitize_integer (v : value) : value :=
  match sanitize_number v with
  | VNum numberValue => VNum (Num.floor numberValue)
  | other => other
  end.

(** [sanitize(value, type)]: both rule types map to the integer sanitizer *)
Definition sanitize (v : value) (type : ruleType) : value :=
  match type with
  | quantity => sanitize_integer v
  | productId => sanitize_integer v
  end.

Section WithEnv.
Variable env : Env.

Definition rules (type : ruleType) : Rules :=
  match type with
  | quantity =>
      mkRules true (Some (num_of_Z 0)) (Some (num_of_Z 999)) true
        (fun v => match v with
                  | VNum n => Ok (Num.eqb n 0 || Num.gt n 0)
                  | _ => Ok false
                  end)
  | productId =>
      mkRules true (Some (num_of_Z 1)) None true
        (fun v => let! p := ProductsModule.getProductById env v in
                  Ok (match p with Some _ => true | None => false end))
  end.

Definition is_empty (v : value) : bool :=
  match v with
  | VNull | VUndef | VStr EmptyString => true
  | _ => false
  end.

(** [validate(value, ruleType)] for the two rule types of the cart, whose
    declared type is [number] *)
Definition validate (v : value) (type : ruleType) : Result :=
  let r := rules type in
  let sanitized := sanitize v type in
  if required r && is_empty sanitized then
    mkResult false ["This field is required"] sanitized
  else if negb (required r) && is_empty sanitized then
    mkResult true [] sanitized
  else
    match sanitized with
    | VNum (Fin q) =>
        let n := Fin q in
        let e_min :=
          match min r with
          | Some m =>
              if Num.lt n m
              then ["Value is too small (minimum: " ++ Num.to_string m ++ ")"]
              else []
          | None => []
          end in
        let e_max :=
          match max r with
          | Some m =>
              if Num.gt n m
              then ["Value is too large (maximum: " ++ Num.to_string m ++ ")"]
              else []
          | None => []
          end in
        let e_int :=
          if integer r && negb (Num.isInteger n)
          then ["Must be a whole number"] else [] in
        let e_custom :=
          match custom r sanitized with
          | Ok true => []
          | Ok false => ["Validation failed"]
          | Throw e => ["Custom validation error: " ++ err_message e]
          end in
        let errs := (e_min ++ e_max ++ e_int ++ e_custom)%list in
        mkResult (match errs with [] => true | _ => false end) errs sanitized
    | _ => mkResult false ["Invalid data type"] sanitized
    end.

Definition validateQuantity (q : value) : Result := validate q quantity.

Definition validateProductId (p : value) : Result := validate p productId.

End WithEnv.

End InputValidator.

(** ** Data recovery *)

(** [Array.prototype.sort(compare)]: the stable sort for a comparator that
    is a consistent ordering; a NaN result counts as zero. *)
Fixpoint sort_insert {A : Type} (compare : A -> A -> num) (x : A) (l : list A)
  : list A :=
  match l with
  | [] => [x]
  | y :: r =>
      if Num.gt (compare x y) 0 then y :: sort_insert compare x r
      else x :: y :: r
  end.

Definition sort {A : Type} (compare : A -> A -> num) (l : list A) : list A :=
  fold_right (sort_insert compare) [] l.

Module DataRecovery.

Record Strategy : Type := mkStrategy {
  validate : value -> outcome bool;
  repair : string -> value -> outcome value;   (* the first argument is the time *)
  fallback : string -> value
}.

Record Result : Type := mkResult {
  success : bool;
  data : value;
  strategy : string;
  errors : list string
}.

Record Restored : Type := mkRestored {
  restored : bool;
  restored_data : value;
  backupTimestamp : value;
  restore_error : option string
}.

Definition is_object (v : value) : bool :=
  match typeof v with TObject => true | _ => false end.

(** the test of [validate] on one item of a cart *)
Definition cart_item_valid (item : value) : outcome bool :=
  if negb (truthy item) then Ok false
  else
    let! p := prop "productId" item in
    if negb (is_number p) then Ok false
    else
      let! q := prop "quantity" item in
      match q with
      | VNum n => Ok (Num.ge n 0)
      | _ => Ok false
      end.

Definition cart_validate (data : value) : outcome bool :=
  if negb (truthy data) || negb (is_object data) then Ok false
  else
    let! its := prop "items" data in
    match its with
    | VArr l => every cart_item_valid l
    | _ => Ok false
    end.

(** the filter of [repair]: an item that passes is kept with the two
    numbers that the test has read *)
Definition cart_item_kept (item : value) : outcome (option (num * num)) :=
  if negb (truthy item) then Ok None
  else
    let! p := prop "productId" item in
    match p with
    | VNum pn =>
        if negb (Num.gt pn 0) then Ok None
        else
          let! q := prop "quantity" item in
          match q with
          | VNum qn => Ok (if Num.gt qn 0 then Some (pn, qn) else None)
          | _ => Ok None
          end
    | _ => Ok None
    end.

(** the map of [repair] *)
Definition cart_item_repaired (now : string) (item : value) (pn qn : num)
  : outcome value :=
  let! a := prop "addedAt" item in
  Ok (VObj [("productId", VNum (Num.floor (Num.abs pn)));
            ("quantity", VNum (Num.floor (Num.abs qn)));
            ("addedAt", if truthy a then a else VStr now)]).

Fixpoint cart_items_repaired (now : string) (l : list value)
  : outcome (list value) :=
  match l with
  | [] => Ok []
  | item :: r =>
      let! k := cart_item_kept item in
      match k with
      | Some (pn, qn) =>
          let! x := cart_item_repaired now item pn qn in
          let! xs := cart_items_repaired now r in
          Ok (x :: xs)
      | None => cart_items_repaired now r
      end
  end.

Definition empty_cart (now : string) : value :=
  VObj [("items", VArr []); ("timestamp", VStr now)].

Definition cart_repair (now : string) (data : value) : outcome value :=
  if negb (truthy data) || negb (is_object data) then Ok (empty_cart now)
  else
    let! ts := prop "timestamp" data in
    let! its := prop "items" data in
    let! repaired :=
      match its with
      | VArr l => cart_items_repaired now l
      | _ => Ok []
      end in
    Ok (VObj [("items", VArr repaired);
              ("timestamp", if truthy ts then ts else VStr now)]).

Definition preferences_defaults : list (string * value) :=
  [("theme", VStr "light"); ("currency", VStr "USD");
   ("notifications", VBool true)].

(** the own enumerable properties that an object spread copies *)
Fixpoint indexed (i : nat) (l : list value) : list (string * value) :=
  match l with
  | [] => []
  | x :: r => (Str.of_Z (Z.of_nat i), x) :: indexed (S i) r
  end.

Definition own_properties (v : value) : list (string * value) :=
  match v with
  | VObj fields => fields
  | VArr elems => indexed 0 elems
  | _ => []
  end.

Definition preferences_validate (data : value) : outcome bool :=
  Ok (truthy data && is_object data).

Definition preferences_repair (now : string) (data : value) : outcome value :=
  if negb (truthy data) || negb (is_object data) then
    Ok (VObj preferences_defaults)
  else
    Ok (VObj (fold_left (fun acc kv => assoc_set (fst kv) (snd kv) acc)
                (own_properties data) preferences_defaults)).

(** [this.recoveryStrategies.get(dataType)] *)
Definition recoveryStrategies (dataType : string) : option Strategy :=
  if (dataType =? "cart")%string then
    Some (mkStrategy cart_validate cart_repair empty_cart)
  else if (dataType =? "preferences")%string then
    Some (mkStrategy preferences_validate preferences_repair
            (fun _ => VObj preferences_defaults))
  else None.

Definition getFallbackData (dataType : string) (now : string) : value :=
  match recoveryStrategies dataType with
  | Some s => fallback s now
  | None => VNull
  end.

(** the removal of trailing commas: a comma goes when optional white
    space and then a closing brace or bracket follow it. The text of a
    match holds no other comma, so one pass over the characters does it. *)
Definition closer_follows (r : string) : bool :=
  match Str.drop_while Str.is_space r with
  | String d _ => ((d =? "}") || (d =? "]"))%char
  | EmptyString => false
  end.

Fixpoint strip_trailing_commas (s : string) : string :=
  match s with
  | EmptyString => EmptyString
  | String c r =>
      if (c =? ",")%char && closer_follows r then strip_trailing_commas r
      else String c (strip_trailing_commas r)
  end.

(** a bare key at the start of [r]: optional white space, an identifier,
    optional white space and a colon; the result is the leading white
    space, the identifier and the length of the match *)
Definition key_follows (r : string) : option (string * string * nat) :=
  let sp := Str.take_while Str.is_space r in
  let r1 := Str.drop_while Str.is_space r in
  match r1 with
  | String c _ =>
      if Str.is_ident_start c then
        let key := Str.take_while Str.is_ident_char r1 in
        let r2 := Str.drop_while Str.is_ident_char r1 in
        let sp2 := Str.take_while Str.is_space r2 in
        match Str.drop_while Str.is_space r2 with
        | String ":" _ =>
            Some (sp, key, (length sp + length key + length sp2 + 1)%nat)
        | _ => None
        end
      else None
  | EmptyString => None
  end.

(** the quoting of bare keys: after an opening brace or a comma, a bare
    key is put in quotes and the white space before its colon goes;
    [skip] counts the characters of the last match that are still to be
    passed over *)
Fixpoint quote_keys_from (skip : nat) (s : string) : string :=
  match s with
  | EmptyString => EmptyString
  | String c r =>
      match skip with
      | S k => quote_keys_from k r
      | O =>
          if ((c =? "{") || (c =? ","))%char then
            match key_follows r with
            | Some (sp, key, len) =>
                String c (sp ++ JSON.quote_plain key ++ ":")
                ++ quote_keys_from len r
            | None => String c (quote_keys_from 0 r)
            end
          else String c (quote_keys_from 0 r)
      end
  end.

Definition quote_keys (s : string) : string := quote_keys_from 0 s.

Definition is_char (x : ascii) (c : ascii) : bool := (c =? x)%char.

Definition repairMalformedJson (jsonString : string) : option string :=
  let repaired := Str.trim jsonString in
  let openBraces := Str.count (is_char "{") repaired in
  let closeBraces := Str.count (is_char "}") repaired in
  let openBrackets := Str.count (is_char "[") repaired in
  let closeBrackets := Str.count (is_char "]") repaired in
  let repaired := repaired ++ Str.repeat "]" (openBrackets - closeBrackets) in
  let repaired := repaired ++ Str.repeat "}" (openBraces - closeBraces) in
  let repaired := strip_trailing_commas repaired in
  let repaired := quote_keys repaired in
  match JSON.parse repaired with
  | Ok _ => Some repaired
  | Throw _ => None
  end.

Definition now : M string := gets (fun w => iso (clock w)).

(** the [catch] block of [recoverData]; [errs] is [result.errors] at the
    time of the throw *)
Definition recovery_error (dataType : string) (errs : list string)
  (error : Error) : M Result :=
  t <- now ;;
  ret (mkResult true (getFallbackData dataType t) "fallback"
         (errs ++ ["Recovery error: " ++ err_message error])).

Definition fallback_result (dataType : string) (errs : list string) : M Result :=
  t <- now ;;
  ret (mkResult true (getFallbackData dataType t) "fallback" errs).

(** [recoverData] from the comment "Validate parsed data" on; [strategy0]
    is [result.strategy] on arrival *)
Definition check_parsed (dataType : string) (parsedData : value)
  (strategy0 : string) (errs : list string) : M Result :=
  match recoveryStrategies dataType with
  | None =>
      ret (mkResult true parsedData strategy0
             (errs ++ ["No recovery strategy for data type: " ++ dataType]))
  | Some s =>
      attempt (lift (validate s parsedData)) (recovery_error dataType errs)
        (fun ok =>
           if ok then ret (mkResult true parsedData "validation-passed" errs)
           else
             t <- now ;;
             match repair s t parsedData with
             | Ok d => ret (mkResult true d "data-repair" errs)
             | Throw repairError =>
                 ret (mkResult true (fallback s t) "fallback"
                        (errs ++ ["Data repair failed: "
                                    ++ err_message repairError]))
             end)
  end.

Definition recoverData (key dataType : string) : M Result :=
  attempt (Storage.getItem Storage.Local key) (recovery_error dataType [])
    (fun rawData =>
       match rawData with
       | None | Some EmptyString => fallback_result dataType []
       | Some raw =>
           match JSON.parse raw with
           | Ok parsedData => check_parsed dataType parsedData "none" []
           | Throw parseError =>
               let errs := ["JSON parse error: " ++ err_message parseError] in
               match repairMalformedJson raw with
               | None | Some EmptyString => fallback_result dataType errs
               | Some repairedJson =>
                   match JSON.parse repairedJson with
                   | Ok parsedData =>
                       check_parsed dataType parsedData "json-repair" errs
                   | Throw repairError =>
                       fallback_result dataType
                         (errs ++ ["JSON repair failed: "
                                     ++ err_message repairError])
                   end
               end
           end
       end).

(** the text that [setItem] stores for [JSON.stringify(v)] *)
Definition stringify_text (v : value) : string :=
  match JSON.stringify v with
  | Some s => s
  | None => "undefined"
  end.

Definition set_add (x : string) (l : list string) : list string :=
  if existsb (String.eqb x) l then l else l ++ [x].

Definition set_delete (x : string) (l : list string) : list string :=
  List.filter (fun y => negb (x =? y)%string) l.

(** the loop over [localStorage.key(i)] that gathers the keys with the
    prefix; the storage does not change meanwhile, so [fuel] above its
    length is never used up *)
Fixpoint collect_from (fuel i : nat) (pre : string) (acc : list string)
  : M (list string) :=
  match fuel with
  | O => ret acc
  | S f =>
      len <- Storage.length Storage.Local ;;
      if (i <? len)%nat then
        k <- Storage.key Storage.Local i ;;
        collect_from f (S i) pre
          (match k with
           | Some key =>
               if negb (key =? EmptyString)%string && Str.startsWith pre key
               then acc ++ [key] else acc
           | None => acc
           end)
      else ret acc
  end.

Definition backup_keys_of (originalKey : string) : M (list string) :=
  fun w =>
    collect_from (S (List.length (localStorage w))) 0
      (originalKey ++ "_backup_") [] w.

(** [parseInt(k.split('_backup_')[1])] *)
Definition backup_timestamp (k : string) : num :=
  match Str.split_second "_backup_" k with
  | Some t => parseInt t
  | None => NaN
  end.

Definition newest_first (a b : string) : num :=
  Num.sub (backup_timestamp b) (backup_timestamp a).

Definition cleanupOldBackups (originalKey : string) : M unit :=
  try_catch
    (found <- backup_keys_of originalKey ;;
     for_each (skipn 5 (sort newest_first found))
       (fun k =>
          Storage.removeItem Storage.Local k ;;
          modify (fun w => with_backupKeys (set_delete k (backupKeys w)) w)))
    (fun _ => ret tt).

Definition createBackup (key : string) (data : value) : M unit :=
  try_catch
    (c <- gets clock ;;
     let backupKey := key ++ "_backup_" ++ Str.of_Z (millis c) in
     let backupData :=
       VObj [("originalKey", VStr key); ("data", data);
             ("timestamp", VStr (iso c)); ("version", VStr "1.0")] in
     Storage.setItem Storage.Local backupKey (stringify_text backupData) ;;
     modify (fun w => with_backupKeys (set_add backupKey (backupKeys w)) w) ;;
     cleanupOldBackups key)
    (fun _ => ret tt).

(** the sorted array is empty exactly when the array found is, so the
    test for no backup is made on it *)
Definition restoreFromBackup (originalKey : string) : M Restored :=
  try_catch
    (found <- backup_keys_of originalKey ;;
     match sort newest_first found with
     | [] => ret (mkRestored false VUndef VUndef (Some "No backups found"))
     | mostRecentBackup :: _ =>
         raw <- Storage.getItem Storage.Local mostRecentBackup ;;
         backupData <-
           lift (JSON.parse (match raw with Some t => t | None => "null" end)) ;;
         d <- lift (prop "data" backupData) ;;
         Storage.setItem Storage.Local originalKey (stringify_text d) ;;
         ts <- lift (prop "timestamp" backupData) ;;
         ret (mkRestored true d ts None)
     end)
    (fun error =>
       ret (mkRestored false VUndef VUndef (Some (err_message error)))).

End DataRecovery.

(** ** The cart manager *)

Module CartModule.

Definition storageKey : string := "shopping-cart-items".
Definition timestampKey : string := "shopping-cart-timestamp".

(** *** [this.items]: a Map from product id to cart item *)

Definition Items : Type := list (num * CartItem.t).

Definition key_is (k : value) (kv : num * CartItem.t) : bool :=
  match k with
  | VNum n => Num.same (fst kv) n
  | _ => false
  end.

Definition map_has (k : value) (m : Items) : bool := existsb (key_is k) m.

Definition map_get (k : value) (m : Items) : option CartItem.t :=
  option_map snd (List.find (key_is k) m).

(** [m.set(k, v)]: an existing key keeps its place, a new one goes last;
    every key of the cart is a number *)
Fixpoint map_set (k : value) (v : CartItem.t) (m : Items) : Items :=
  match m with
  | [] => match k with VNum n => [(n, v)] | _ => [] end
  | kv :: r => if key_is k kv then (fst kv, v) :: r else kv :: map_set k v r
  end.

Definition map_delete (k : value) (m : Items) : Items :=
  List.filter (fun kv => negb (key_is k kv)) m.

Record StorageInfo : Type := mkStorageInfo {
  hasStoredData : bool;
  lastSaved : option string;
  info_sessionOnly : bool;
  dataSize : nat;
  storageAvailable : bool;
  info_error : option string
}.

Record Validation : Type := mkValidation {
  cart_isValid : bool;
  issues : list string;
  fixedItemCount : nat
}.

Record SummaryItem : Type := mkSummaryItem {
  si_product : Product.t;
  si_quantity : num;
  si_subtotal : num;
  si_addedAt : value
}.

Record Summary : Type := mkSummary {
  summary_items : list SummaryItem;
  itemCount : num;
  subtotal : num;
  total : num
}.

(** the size of [new Blob([text])]: the UTF-8 bytes of the text *)
Fixpoint blob_size (s : string) : nat :=
  match s with
  | EmptyString => O
  | String c r =>
      ((if (nat_of_ascii c <? 128)%nat then 1 else 2) + blob_size r)%nat
  end.

Section WithEnv.
Variable env : Env.

(** every listener is called with the event; what a listener throws is
    caught and logged, so a call leaves no other trace *)
Definition _notifyListeners (event : string) (data : value) : M unit :=
  modify (fun w =>
    with_calls (calls w ++ map (fun l => mkCall l event data) (listeners w)) w).

Definition _handleStorageError (error : Error) : M unit :=
  let payload := VObj [("error", VStr (err_message error))] in
  if (err_name error =? "QuotaExceededError")%string
     || Str.includes "quota" (err_message error) then
    modify (with_sessionOnly true) ;;
    _notifyListeners "storageQuotaExceeded" payload
  else if (err_name error =? "SecurityError")%string
          || Str.includes "access" (err_message error) then
    modify (with_sessionOnly true) ;;
    _notifyListeners "storageAccessDenied" payload
  else
    modify (with_sessionOnly true) ;;
    _notifyListeners "storageError" payload.

(** [if (errorHandler) errorHandler.handleStorageError(error, context)] *)
Definition report (error : Error) (context : string) : M unit :=
  if errorHandler_loaded env then
    modify (fun w => with_reports (reports w ++ [(error, context)]) w)
  else ret tt.

Definition serialize (its : Items) (timestamp : string) : value :=
  VObj [("items",
         VArr (map (fun kv =>
                      VObj [("productId", VNum (fst kv));
                            ("quantity", VNum (CartItem.quantity (snd kv)));
                            ("addedAt", CartItem.addedAt (snd kv))]) its));
        ("timestamp", VStr timestamp)].

Definition saveToStorage : M unit :=
  so <- gets sessionOnly ;;
  if so then ret tt
  else
    try_catch
      (its <- gets items ;;
       t <- DataRecovery.now ;;
       let cartData := serialize its t in
       (if validation_loaded env then
          existingData <- Storage.getItem Storage.Local storageKey ;;
          match existingData with
          | None | Some EmptyString => ret tt
          | Some text =>
              try_catch
                (existingCartData <- lift (JSON.parse text) ;;
                 DataRecovery.createBackup storageKey existingCartData)
                (fun _ => ret tt)
          end
        else ret tt) ;;
       let storage :=
         if validation_loaded env
            && negb (GracefulDegradation.isSupported_localStorage env)
         then GracefulDegradation.getFeature_localStorage env
         else GracefulDegradation.Native in
       let serializedData := DataRecovery.stringify_text cartData in
       GracefulDegradation.setItem env storage storageKey serializedData ;;
       GracefulDegradation.setItem env storage timestampKey t)
      (fun error => _handleStorageError error ;; report error "cart-save").

(** the validation at the head of [addItem] and [updateQuantity]; it
    returns the two values the operation goes on with *)
Definition validated (productId quantity : value) : M (value * value) :=
  if validation_loaded env then
    let productIdResult := InputValidator.validateProductId env productId in
    if negb (InputValidator.isValid productIdResult) then
      throw (error ("Invalid product ID: "
                      ++ Str.join ", " (InputValidator.errors productIdResult)))
    else
      let quantityResult := InputValidator.validateQuantity env quantity in
      if negb (InputValidator.isValid quantityResult) then
        throw (error ("Invalid quantity: "
                        ++ Str.join ", " (InputValidator.errors quantityResult)))
      else
        ret (InputValidator.sanitizedValue productIdResult,
             InputValidator.sanitizedValue quantityResult)
  else
    match productId with
    | VNum p =>
        if Num.le p 0 then throw (error "Product ID must be a positive number")
        else
          match quantity with
          | VNum q =>
              if Num.lt q 0 || negb (Num.isInteger q) then
                throw (error "Quantity must be a non-negative integer")
              else ret (productId, quantity)
          | _ => throw (error "Quantity must be a non-negative integer")
          end
    | _ => throw (error "Product ID must be a positive number")
    end.

(** [addItem] after the validation, on the two values that it returned *)
Definition add_validated (productId quantity : value) : M unit :=
  if strict_eq_num quantity 0 then ret tt
  else
    product <- lift (ProductsModule.getProductById env productId) ;;
    match product with
    | None =>
        throw (error ("Product with ID " ++ js_String productId ++ " not found"))
    | Some _ =>
        try_catch
          (its <- gets items ;;
           match map_get productId its with
           | Some existingItem =>
               let newQuantity :=
                 js_plus (VNum (CartItem.quantity existingItem)) quantity in
               (if validation_loaded env then
                  let totalQuantityResult :=
                    InputValidator.validateQuantity env newQuantity in
                  if negb (InputValidator.isValid totalQuantityResult) then
                    throw (error ("Total quantity would be invalid: "
                                    ++ Str.join ", "
                                         (InputValidator.errors totalQuantityResult)))
                  else ret tt
                else ret tt) ;;
               updated <- lift (CartItem.updateQuantity existingItem newQuantity) ;;
               modify (fun w => with_items (map_set productId updated (items w)) w)
           | None =>
               t <- DataRecovery.now ;;
               cartItem <- lift (CartItem.new t productId quantity) ;;
               modify (fun w => with_items (map_set productId cartItem (items w)) w)
           end ;;
           _notifyListeners "itemAdded"
             (VObj [("productId", productId); ("quantity", quantity)]) ;;
           saveToStorage)
          (fun e => throw (error ("Failed to add item to cart: " ++ err_message e)))
    end.

(** [addItem(productId, quantity = 1)] *)
Definition addItem (productId quantity : value) : M unit :=
  let quantity :=
    match quantity with VUndef => VNum (num_of_Z 1) | _ => quantity end in
  pq <- validated productId quantity ;;
  add_validated (fst pq) (snd pq).

Definition removeItem (productId : value) : M unit :=
  match productId with
  | VNum p =>
      if Num.le p 0 then throw (error "Product ID must be a positive number")
      else
        its <- gets items ;;
        if map_has productId its then
          modify (fun w => with_items (map_delete productId (items w)) w) ;;
          _notifyListeners "itemRemoved" (VObj [("productId", productId)]) ;;
          saveToStorage
        else ret tt
  | _ => throw (error "Product ID must be a positive number")
  end.

Definition updateQuantity (productId quantity : value) : M unit :=
  pq <- validated productId quantity ;;
  let productId := fst pq in
  let quantity := snd pq in
  its <- gets items ;;
  match map_get productId its with
  | None =>
      throw (error ("Product with ID " ++ js_String productId
                      ++ " not found in cart"))
  | Some cartItem =>
      if strict_eq_num quantity 0 then removeItem productId
      else
        try_catch
          (updated <- lift (CartItem.updateQuantity cartItem quantity) ;;
           modify (fun w => with_items (map_set productId updated (items w)) w) ;;
           _notifyListeners "quantityUpdated"
             (VObj [("productId", productId); ("quantity", quantity)]) ;;
           saveToStorage)
          (fun e => throw (error ("Failed to update quantity: " ++ err_message e)))
  end.

Definition clearCart : M unit :=
  its <- gets items ;;
  modify (with_items []) ;;
  match its with
  | [] => ret tt
  | _ => _notifyListeners "cartCleared" (VObj []) ;; saveToStorage
  end.

Definition getCartItems : M (list CartItem.t) :=
  gets (fun w => map snd (items w)).

(** the resolved product of an entry, if the lookup returns one *)
Definition resolve (cartItem : CartItem.t) : option Product.t :=
  match ProductsModule.getProductById env (VNum (CartItem.productId cartItem)) with
  | Ok (Some product) => Some product
  | _ => None
  end.

(** one turn of the loop of [getCartTotal]; a throw inside it is caught
    and logged *)
Definition add_subtotal (total : num) (cartItem : CartItem.t) : num :=
  match resolve cartItem with
  | Some product =>
      match CartItem.getSubtotal cartItem (Product.price product) with
      | Ok s => Num.add total s
      | Throw _ => total
      end
  | None => total
  end.

Definition round2 (x : num) : num :=
  Num.div (Num.round (Num.mul x 100)) 100.

Definition getCartTotal : M num :=
  gets (fun w => round2 (fold_left add_subtotal (map snd (items w)) (num_of_Z 0))).

Definition getCartCount : M num :=
  gets (fun w =>
    fold_left (fun count cartItem => Num.add count (CartItem.quantity cartItem))
      (map snd (items w)) (num_of_Z 0)).

Definition getCartItem (productId : value) : M (option CartItem.t) :=
  match productId with
  | VNum _ => gets (fun w => map_get productId (items w))
  | _ => ret None
  end.

Definition isEmpty : M bool :=
  gets (fun w => match items w with [] => true | _ => false end).

Definition summary_step (acc : list SummaryItem * num) (cartItem : CartItem.t)
  : list SummaryItem * num :=
  match resolve cartItem with
  | Some product =>
      match CartItem.getSubtotal cartItem (Product.price product) with
      | Ok itemSubtotal =>
          ((fst acc ++ [mkSummaryItem product (CartItem.quantity cartItem)
                          itemSubtotal (CartItem.addedAt cartItem)])%list,
           Num.add (snd acc) itemSubtotal)
      | Throw _ => acc
      end
  | None => acc
  end.

Definition getCartSummary : M Summary :=
  its <- gets items ;;
  count <- getCartCount ;;
  let r := fold_left summary_step (map snd its) ([], num_of_Z 0) in
  ret (mkSummary (fst r) count (round2 (snd r)) (round2 (snd r))).

(** a listener is a function, named here by a number *)
Definition addListener (listener : nat) : M unit :=
  modify (fun w =>
    if existsb (Nat.eqb listener) (listeners w) then w
    else with_listeners (listeners w ++ [listener]) w).

Definition removeListener (listener : nat) : M unit :=
  modify (fun w =>
    with_listeners (List.filter (fun l => negb (l =? listener)%nat) (listeners w)) w).

Definition _clearStorageData : M unit :=
  try_catch
    (Storage.removeItem Storage.Local storageKey ;;
     Storage.removeItem Storage.Local timestampKey)
    (fun _ => ret tt).

Definition clearStorage : M unit :=
  try_catch
    (Storage.removeItem Storage.Local storageKey ;;
     Storage.removeItem Storage.Local timestampKey)
    (fun _ => ret tt).

Definition _isStorageAvailable : M bool :=
  try_catch
    (Storage.setItem Storage.Local "__storage_test__" "test" ;;
     Storage.removeItem Storage.Local "__storage_test__" ;;
     ret true)
    (fun _ => ret false).

Definition getStorageInfo : M StorageInfo :=
  try_catch
    (stored <- Storage.getItem Storage.Local storageKey ;;
     let hasData := match stored with Some _ => true | None => false end in
     timestamp <- Storage.getItem Storage.Local timestampKey ;;
     isSessionOnly <- gets sessionOnly ;;
     size <- (if hasData then
                text <- Storage.getItem Storage.Local storageKey ;;
                ret (blob_size (match text with Some t => t | None => "null" end))
              else ret O) ;;
     available <- _isStorageAvailable ;;
     ret (mkStorageInfo hasData
            (match timestamp with
             | Some EmptyString | None => None
             | Some t => Some t
             end)
            isSessionOnly size available None))
    (fun error =>
       ret (mkStorageInfo false None true O false (Some (err_message error)))).

(** one turn of the loops of [loadFromStorage], with its own [try]: the
    result tells whether the item was loaded. [strict] is the test of the
    item's shape that only the loop without data recovery makes. *)
Definition load_item (strict : bool) (itemData : value) : M bool :=
  try_catch
    (shape_ok <-
       (if strict then
          if negb (truthy itemData) then ret false
          else
            p <- lift (prop "productId" itemData) ;;
            q <- lift (prop "quantity" itemData) ;;
            ret (is_number p && is_number q)
        else ret true) ;;
     if negb shape_ok then throw (error "Invalid item data")
     else
       valid <-
         (if validation_loaded env then
            p <- lift (prop "productId" itemData) ;;
            let productIdResult := InputValidator.validateProductId env p in
            q <- lift (prop "quantity" itemData) ;;
            let quantityResult := InputValidator.validateQuantity env q in
            ret (InputValidator.isValid productIdResult
                 && InputValidator.isValid quantityResult)
          else ret true) ;;
       if negb valid then ret false
       else
         p <- lift (prop "productId" itemData) ;;
         product <- lift (ProductsModule.getProductById env p) ;;
         match product with
         | None => ret false
         | Some _ =>
             t <- DataRecovery.now ;;
             cartItem <- lift (CartItem.fromObject t itemData) ;;
             modify (fun w => with_items (map_set p cartItem (items w)) w) ;;
             ret true
         end)
    (fun _ => ret false).

(** the loop: the number of items skipped *)
Fixpoint load_items (strict : bool) (l : list value) : M nat :=
  match l with
  | [] => ret O
  | itemData :: r =>
      loaded <- load_item strict itemData ;;
      skipped <- load_items strict r ;;
      ret (if loaded then skipped else S skipped)
  end.

(** the body of both branches of [loadFromStorage] from "Clear current
    items" on *)
Definition load_cart (strict : bool) (cartItems : list value) : M unit :=
  modify (with_items []) ;;
  skippedCount <- load_items strict cartItems ;;
  match skippedCount with
  | O => ret tt
  | S _ => saveToStorage
  end.

(** the elements of [for (const x of v)] *)
Definition iterate (v : value) : outcome (list value) :=
  match v with
  | VArr l => Ok l
  | VStr s => Ok (map (fun c => VStr (String c EmptyString)) (list_ascii_of_string s))
  | VUndef => Throw (TypeError "undefined is not iterable")
  | _ => Throw (TypeError "object is not iterable")
  end.

(** the [try] block of [loadFromStorage] *)
Definition load_attempt : M unit :=
  recovered <-
    (if validation_loaded env then
       recoveryResult <- DataRecovery.recoverData storageKey "cart" ;;
       if DataRecovery.success recoveryResult
          && truthy (DataRecovery.data recoveryResult) then
         let cartData := DataRecovery.data recoveryResult in
         modify (with_items []) ;;
         its <- lift (prop "items" cartData) ;;
         l <- lift (iterate its) ;;
         skippedCount <- load_items false l ;;
         match skippedCount with
         | O => ret tt
         | S _ => saveToStorage
         end ;;
         ret true
       else ret false
     else ret false) ;;
  if recovered then ret tt
  else
    serializedData <- Storage.getItem Storage.Local storageKey ;;
    match serializedData with
    | None | Some EmptyString => ret tt
    | Some text =>
        cartData <- lift (JSON.parse text) ;;
        if negb (truthy cartData) then
          throw (error "Invalid cart data structure")
        else
          its <- lift (prop "items" cartData) ;;
          match its with
          | VArr l => load_cart true l
          | _ => throw (error "Invalid cart data structure")
          end
    end.

(** [loadFromStorage]; [fuel] bounds the retries after a restore from a
    backup *)
Fixpoint loadFromStorage_fuel (fuel : nat) : M unit :=
  match fuel with
  | O => ret tt
  | S f =>
      try_catch load_attempt
        (fun error =>
           _handleStorageError error ;;
           restored <-
             (if validation_loaded env then
                restoreResult <- DataRecovery.restoreFromBackup storageKey ;;
                ret (DataRecovery.restored restoreResult)
              else ret false) ;;
           if restored then loadFromStorage_fuel f
           else _clearStorageData ;; report error "cart-load")
  end.

(** one turn is enough: see [loadFromStorage_fuel_enough] *)
Definition loadFromStorage : M unit := loadFromStorage_fuel 1.

Definition reloadFromStorage : M unit := loadFromStorage.

(** one turn of the loop of [validateCart]: the valid entries and the
    issues so far *)
Definition validate_entry (acc : Items * list string) (kv : num * CartItem.t)
  : Items * list string :=
  let invalid (e : Error) : string :=
    "Invalid cart item " ++ Num.to_string (fst kv) ++ ": " ++ err_message e in
  match CartItem.validate (snd kv) with
  | Throw e => (fst acc, List.app (snd acc) [invalid e])
  | Ok _ =>
      match ProductsModule.getProductById env (VNum (fst kv)) with
      | Ok (Some _) => (List.app (fst acc) [kv], snd acc)
      | Ok None =>
          (fst acc,
           List.app (snd acc)
             ["Product " ++ Num.to_string (fst kv) ++ " no longer exists"])
      | Throw e => (fst acc, List.app (snd acc) [invalid e])
      end
  end.

Definition validateCart : M Validation :=
  its <- gets items ;;
  let r := fold_left validate_entry its ([], []) in
  modify (with_items (fst r)) ;;
  ret (mkValidation (match snd r with [] => true | _ => false end) (snd r)
         (List.length (fst r))).

(** [new CartModule()] in a world whose manager fields are still unset *)
Definition constructor : M unit :=
  modify (fun w => with_sessionOnly false (with_listeners [] (with_items [] w))) ;;
  loadFromStorage.

End WithEnv.

End CartModule.

(** ** The page as it is shipped *)

(** the product data of products.js *)
Definition SAMPLE_PRODUCTS : list Product.t :=
  [Product.mk 1 "Wireless Headphones"
     "High quality wireless headphones with noise cancellation and 30-hour battery life."
     (dec 5999 2)
     "https://images.unsplash.com/photo-1505740420928-5e560c06d30e?w=300&h=300&fit=crop"
     "electronics";
   Product.mk 2 "Smart Watch"
     "Track your fitness, notifications, and health metrics with this advanced smartwatch."
     (dec 19999 2)
     "https://images.unsplash.com/photo-1523275335684-37898b6baf30?w=300&h=300&fit=crop"
     "electronics";
   Product.mk 3 "Bluetooth Speaker"
     "Portable speaker with deep bass, waterproof design, and 12-hour battery life."
     (dec 3999 2)
     "https://images.unsplash.com/photo-1608043152269-423dbba4e7e1?w=300&h=300&fit=crop"
     "electronics";
   Product.mk 4 "Fitness Tracker"
     "Monitor your health, steps, heart rate, and sleep patterns with this lightweight tracker."
     (dec 7999 2)
     "https://images.unsplash.com/photo-1575311373937-040b8e1fd5b6?w=300&h=300&fit=crop"
     "electronics";
   Product.mk 5 "Laptop Stand"
     "Ergonomic aluminum laptop stand with adjustable height and cooling design."
     (dec 4999 2)
     "https://images.unsplash.com/photo-1527864550417-7fd91fc51a46?w=300&h=300&fit=crop"
     "accessories";
   Product.mk 6 "Wireless Mouse"
     "Precision wireless mouse with ergonomic design and long-lasting battery."
     (dec 2499 2)
     "https://images.unsplash.com/photo-1527814050087-3793815479db?w=300&h=300&fit=crop"
     "accessories";
   Product.mk 7 "USB-C Hub"
     "Multi-port USB-C hub with HDMI, USB 3.0, and fast charging capabilities."
     (dec 3499 2)
     "https://images.unsplash.com/photo-1625842268584-8f3296236761?w=300&h=300&fit=crop"
     "accessories";
   Product.mk 8 "Phone Case"
     "Durable protective phone case with shock absorption and wireless charging support."
     (dec 1999 2)
     "https://images.unsplash.com/photo-1556656793-08538906a9f8?w=300&h=300&fit=crop"
     "accessories"].

(** all scripts loaded, both storages supported *)
Definition browser : Env := mkEnv true true SAMPLE_PRODUCTS true true.

(** the cart script with the models and the products only *)
Definition bare : Env := mkEnv false false SAMPLE_PRODUCTS true true.

(** a world with nothing stored, no listener and a healthy storage *)
Definition fresh (c : Clock) : World :=
  mkWorld [] false [] [] [] [] [] [] [] [] c.

(** text with each apostrophe read as a double quote *)
Fixpoint dq (s : string) : string :=
  match s with
  | EmptyString => EmptyString
  | String c r =>
      String (if (c =? "'")%char then JSON.dquote else c) (dq r)
  end.

(** ** Sessions *)

(** What can happen to the manager during a session: a call of one of
    its methods, or a step of its environment (the application sets the
    session-only flag in its error recovery, time passes, the storage
    starts or stops failing, another script writes a storage). *)
Inductive operation : Type :=
| AddItem (productId quantity : value)
| RemoveItem (productId : value)
| UpdateQuantity (productId quantity : value)
| ClearCart
| GetCartItems
| GetCartTotal
| GetCartCount
| GetCartItem (productId : value)
| IsEmpty
| GetCartSummary
| AddListener (listener : nat)
| RemoveListener (listener : nat)
| NotifyListeners (event : string) (data : value)
| SaveToStorage
| LoadFromStorage
| ClearStorage
| GetStorageInfo
| ReloadFromStorage
| HandleStorageError (e : Error)
| ClearStorageData
| IsStorageAvailable
| ValidateCart
| ForceSessionOnly
| Tick (c : Clock)
| Schedule (f : list (option Error))
| OtherScript (a : Storage.area) (content : list (string * string)).

Definition discard {A : Type} (m : M A) : M unit := _ <- m ;; ret tt.

Definition perform (env : Env) (o : operation) : M unit :=
  match o with
  | AddItem p q => CartModule.addItem env p q
  | RemoveItem p => CartModule.removeItem env p
  | UpdateQuantity p q => CartModule.updateQuantity env p q
  | ClearCart => CartModule.clearCart env
  | GetCartItems => discard CartModule.getCartItems
  | GetCartTotal => discard (CartModule.getCartTotal env)
  | GetCartCount => discard CartModule.getCartCount
  | GetCartItem p => discard (CartModule.getCartItem p)
  | IsEmpty => discard CartModule.isEmpty
  | GetCartSummary => discard (CartModule.getCartSummary env)
  | AddListener l => CartModule.addListener l
  | RemoveListener l => CartModule.removeListener l
  | NotifyListeners event data => CartModule._notifyListeners event data
  | SaveToStorage => CartModule.saveToStorage env
  | LoadFromStorage => CartModule.loadFromStorage env
  | ClearStorage => CartModule.clearStorage
  | GetStorageInfo => discard CartModule.getStorageInfo
  | ReloadFromStorage => CartModule.reloadFromStorage env
  | HandleStorageError e => CartModule._handleStorageError e
  | ClearStorageData => CartModule._clearStorageData
  | IsStorageAvailable => discard CartModule._isStorageAvailable
  | ValidateCart => discard (CartModule.validateCart env)
  | ForceSessionOnly => modify (with_sessionOnly true)
  | Tick c => modify (with_clock c)
  | Schedule f => modify (with_faults f)
  | OtherScript a content => modify (Storage.with_content a content)
  end.

(** the world after the operations, whether they return or throw *)
Definition run (env : Env) (ops : list operation) (w : World) : World :=
  fold_left (fun w o => exec (perform env o) w) ops w.

Definition session_only (w : World) : Prop := sessionOnly w = true.

(** ** Product ids and quantities *)

(** what [removeItem] accepts: a number that is not [<= 0] *)
Definition accepted_id (v : value) : bool :=
  match v with
  | VNum n => negb (Num.le n 0)
  | _ => false
  end.

(** a positive integer number *)
Definition positive_integer (v : value) : bool :=
  match v with
  | VNum n => Num.gt n 0 && Num.isInteger n
  | _ => false
  end.

(** the product id resolves in the catalog *)
Definition resolves (env : Env) (id : Z) : bool :=
  match ProductsModule.getProductById env (VNum (num_of_Z id)) with
  | Ok (Some _) => true
  | _ => false
  end.

(** a product id that the cart accepts in [addItem]: a positive integer
    that resolves in the catalog *)
Definition valid_id (env : Env) (id : Z) : bool := (1 <=? id) && resolves env id.

(** the world after [listeners] have been told of [event] *)
Definition notified (event : string) (data : value) (w : World) : World :=
  with_calls (calls w ++ map (fun l => mkCall l event data) (listeners w)) w.

(** the fields of the manager that saving does not write *)
Definition same_cart (w w' : World) : Prop :=
  items w' = items w /\ listeners w' = listeners w /\ clock w' = clock w.

(** the world in which [removeItem] calls [saveToStorage] *)
Definition removed (productId : value) (w : World) : World :=
  notified "itemRemoved" (VObj [("productId", productId)])
    (with_items (CartModule.map_delete productId (items w)) w).

(** ** Adding to one product *)

(** steps that do not write the entries of the cart *)
Definition reads_only (o : operation) : bool :=
  match o with
  | GetCartItems | GetCartTotal | GetCartCount | GetCartItem _ | IsEmpty
  | GetCartSummary | AddListener _ | RemoveListener _ | NotifyListeners _ _
  | SaveToStorage | ClearStorage | GetStorageInfo | HandleStorageError _
  | ClearStorageData | IsStorageAvailable | ForceSessionOnly | Tick _
  | Schedule _ | OtherScript _ _ => true
  | _ => false
  end.

(** a step of a session that adds to the product [id]: [addItem(id, q)],
    [addItem(p, q)] for another product, or a step of [reads_only] *)
Inductive add_step : Type :=
| Add (q : Z)
| AddOther (p q : Z)
| Other (o : operation).

Definition step_operation (id : Z) (s : add_step) : operation :=
  match s with
  | Add q => AddItem (VNum (num_of_Z id)) (VNum (num_of_Z q))
  | AddOther p q => AddItem (VNum (num_of_Z p)) (VNum (num_of_Z q))
  | Other o => o
  end.

(** the quantities added are valid: from 1 to 999 *)
Definition admissible (id : Z) (s : add_step) : bool :=
  match s with
  | Add q => (1 <=? q) && (q <=? 999)
  | AddOther p q => negb (p =? id)
  | Other o => reads_only o
  end.

(** the sum of the quantities added to the product *)
Fixpoint added (steps : list add_step) : Z :=
  match steps with
  | [] => 0
  | Add q :: r => q + added r
  | _ :: r => added r
  end.

(** the largest quantity an entry reaches by additions: the maximum of
    the validator, 999, and without the validator 2^53, up to which
    every integer is a number and the sum of two numbers is their sum *)
Definition largest_quantity (env : Env) : Z :=
  if validation_loaded env then 999 else 9007199254740992.

(** the quantity of the entry of [id], 0 without an entry *)
Definition quantity_of (id : Z) (w : World) : num :=
  match CartModule.map_get (VNum (num_of_Z id)) (items w) with
  | Some item => CartItem.quantity item
  | None => num_of_Z 0
  end.

(** the entry of [id] holds the quantity [q0]; there is none for 0 *)
Definition holds (id q0 : Z) (w : World) : Prop :=
  match CartModule.map_get (VNum (num_of_Z id)) (items w) with
  | None => q0 = 0
  | Some item => CartItem.quantity item = num_of_Z q0 /\ 1 <= q0
  end.

(** ** What a recovered cart is *)

(** the property [name] of a value that is neither [null] nor [undefined] *)
Definition field (name : string) (v : value) : value :=
  match v with
  | VObj fields =>
      match assoc name fields with Some x => x | None => VUndef end
  | _ => VUndef
  end.

(** the stored entries: the elements of the array [items], if there is one *)
Definition stored_items (v : value) : list value :=
  match field "items" v with
  | VArr l => l
  | _ => []
  end.

(** the entry has a number above zero as [productId] and as [quantity] *)
Definition both_positive (item : value) : bool :=
  match field "productId" item, field "quantity" item with
  | VNum p, VNum q => Num.gt p 0 && Num.gt q 0
  | _, _ => false
  end.

(** the entry that the repair makes of a stored entry with two numbers *)
Definition repaired_entry (now : string) (item : value) : value :=
  match field "productId" item, field "quantity" item with
  | VNum p, VNum q =>
      VObj [("productId", VNum (Num.floor (Num.abs p)));
            ("quantity", VNum (Num.floor (Num.abs q)));
            ("addedAt",
             if truthy (field "addedAt" item) then field "addedAt" item
             else VStr now)]
  | _, _ => VNull
  end.

(** the data is a cart that [loadFromStorage] can read: an object with
    an array [items] *)
Definition usable_cart (v : value) : bool :=
  match v with
  | VObj fields =>
      match assoc "items" fields with Some (VArr _) => true | _ => false end
  | _ => false
  end.

(** the next call of the storage API does not throw *)
Definition readable (w : World) : bool :=
  match faults w with
  | Some _ :: _ => false
  | _ => true
  end.

(** ** The exact total *)

(** the rational that a number is; 0 stands for NaN *)
Definition Qof (n : num) : Q :=
  match n with
  | Fin q => q
  | NaN => 0%Q
  end.

(** the price that the catalog gives for the product of an entry *)
Definition catalog_price (env : Env) (item : CartItem.t) : option num :=
  match ProductsModule.getProductById env (VNum (CartItem.productId item)) with
  | Ok (Some product) => Some (Product.price product)
  | _ => None
  end.

(** the whole number of cents nearest to an amount *)
Definition cents (x : Q) : Z := Qfloor (x * inject_Z 100 + (1 # 2)).

(** the price is a whole number of cents and not negative: it is the
    number nearest to its cents over 100, as 59.99 is the number nearest
    to 5999 / 100 *)
Definition in_cents (price : num) : bool :=
  match price with
  | NaN => false
  | Fin x => (0 <=? cents x) && Qeq_bool x (Num.b64 (cents x # 100))
  end.

(** the quantity is an integer and not negative *)
Definition counted (q : num) : bool :=
  match q with
  | NaN => false
  | Fin x => Qeq_bool x (inject_Z (Qfloor x)) && (0 <=? Qfloor x)
  end.

(** the quantities of the entries are counted, and the prices that the
    catalog gives for them are in cents *)
Definition whole_cents (env : Env) (its : list CartItem.t) : bool :=
  forallb (fun item =>
             counted (CartItem.quantity item)
             && match catalog_price env item with
                | Some price => in_cents price
                | None => true
                end) its.

(** the sum in cents, over the entries for which the catalog gives a
    price, of quantity times price *)
Definition total_in_cents (env : Env) (its : list CartItem.t) : Z :=
  fold_right
    (fun item acc =>
       match catalog_price env item with
       | Some price =>
           Qfloor (Qof (CartItem.quantity item)) * cents (Qof price) + acc
       | None => acc
       end) 0 its.

(** rounding to two decimals, a half of a cent going up *)
Definition round_half_up_2 (x : Q) : Q :=
  (inject_Z (Qfloor (x * inject_Z 100 + (1 # 2))) / inject_Z 100)%Q.

(** ** Backups in the storage *)

(** the key is a backup key of [key], as [cleanupOldBackups] finds it *)
Definition is_backup_of (key : string) (k : string) : bool :=
  negb (k =? EmptyString)%string && Str.startsWith (key ++ "_backup_") k.

(** the backup keys of [key] among the keys of a storage, in its order *)
Definition backups_of (key : string) (keys : list string) : list string :=
  List.filter (is_backup_of key) keys.

Definition keys_of (ls : list (string * string)) : list string := map fst ls.

(** no key occurs twice *)
Fixpoint distinct (l : list string) : bool :=
  match l with
  | [] => true
  | x :: r => negb (existsb (String.eqb x) r) && distinct r
  end.

(** every key carries a timestamp that [parseInt] reads as a number *)
Definition timestamped (l : list string) : bool :=
  forallb (fun k => negb (Num.isNaN (DataRecovery.backup_timestamp k))) l.

(** the timestamp of [a] is at least that of [b] *)
Definition newer_or_equal (a b : string) : bool :=
  Num.ge (DataRecovery.backup_timestamp a) (DataRecovery.backup_timestamp b).

(** the key under which [createBackup] writes at the time of [w] *)
Definition backup_key (key : string) (w : World) : string :=
  key ++ "_backup_" ++ Str.of_Z (millis (clock w)).

(** sorted with the newest first *)
Definition newest_sorted : list string -> Prop :=
  StronglySorted (fun a b => newer_or_equal a b = true).

(** a storage that does not fail, holds no key twice and whose backup keys
    of [key] all carry a numeric timestamp *)
Definition orderly (key : string) (w : World) : Prop :=
  faults w = []
  /\ distinct (keys_of (localStorage w)) = true
  /\ timestamped (backups_of key (keys_of (localStorage w))) = true.

(** the text [_backup_] occurs in [key ++ "_backup_"] at its end only, so
    that what follows the first [_backup_] of a backup key of [key] is
    what follows the key *)
Definition plain_key (key : string) : bool :=
  match index 0 "_backup_" (key ++ "_backup_") with
  | Some i => (i =? String.length key)%nat
  | None => false
  end.

(** the timestamp embedded in a backup key of [key]: the value of the
    decimal digits that follow [key ++ "_backup_"], when digits and
    nothing else follow it *)
Definition embedded_timestamp (key k : string) : option Z :=
  let pre := (key ++ "_backup_")%string in
  let ds := substring (String.length pre) (String.length k - String.length pre) k in
  if prefix pre k && negb (ds =? EmptyString)%string
     && (Str.take_while Str.is_digit ds =? ds)%string
  then Some (Str.digits_val 0 ds)
  else None.

(** the backup key carries a timestamp of epoch milliseconds, a natural
    number of at most 53 bits, which [parseInt] reads without rounding *)
Definition stamped (key k : string) : bool :=
  match embedded_timestamp key k with
  | Some t => (0 <=? t) && (t <=? 9007199254740992)
  | None => false
  end.

(** the timestamp embedded in [a] is at least the one embedded in [b] *)
Definition more_recent (key a b : string) : Prop :=
  match embedded_timestamp key a, embedded_timestamp key b with
  | Some ta, Some tb => tb <= ta
  | _, _ => False
  end.

(** [createBackup(key, data)] called at the time [c] *)
Definition backup_at (key : string) (w : World) (call : Clock * value) : World :=
  exec (DataRecovery.createBackup key (snd call)) (with_clock (fst call) w).

(** ** A well-formed cart *)

(** a quantity as the manager stores it: an integer that is not negative,
    and not above 999 when the validator is loaded *)
Definition quantity_ok (env : Env) (q : num) : bool :=
  negb (Num.lt q 0) && Num.isInteger q
  && (negb (validation_loaded env) || negb (Num.gt q 999)).

(** the number is the id of a product of the catalog *)
Definition in_catalog (env : Env) (n : num) : bool :=
  match ProductsModule.getProductById env (VNum n) with
  | Ok (Some _) => true
  | _ => false
  end.

(** an entry of the map: filed under the product id of its item, which is
    in the catalog, with a quantity as above *)
Definition entry_ok (env : Env) (kv : num * CartItem.t) : bool :=
  in_catalog env (fst kv)
  && Num.same (fst kv) (CartItem.productId (snd kv))
  && quantity_ok env (CartItem.quantity (snd kv)).

(** no two entries are filed under the same key *)
Fixpoint keys_distinct (its : CartModule.Items) : bool :=
  match its with
  | [] => true
  | kv :: r =>
      negb (existsb (fun kv' => Num.same (fst kv') (fst kv)) r)
      && keys_distinct r
  end.

Definition cart_ok (env : Env) (its : CartModule.Items) : bool :=
  forallb (entry_ok env) its && keys_distinct its.

Definition well_formed (env : Env) (w : World) : Prop :=
  cart_ok env (items w) = true.

(** the entries that [validateCart] keeps *)
Definition entry_valid (env : Env) (kv : num * CartItem.t) : bool :=
  returns (CartItem.validate (snd kv)) && in_catalog env (fst kv).

(** ** The entries of a summary *)

(** the line of the summary for an entry: when the catalog has a product
    for its id, at a price that is not negative, that product, the
    quantity of the entry, the quantity times the price and the time of
    the entry; none otherwise *)
Definition summary_line (env : Env) (item : CartItem.t)
  : option CartModule.SummaryItem :=
  match ProductsModule.getProductById env (VNum (CartItem.productId item)) with
  | Ok (Some product) =>
      if Num.lt (Product.price product) 0 then None
      else Some (CartModule.mkSummaryItem product (CartItem.quantity item)
                   (Num.mul (CartItem.quantity item) (Product.price product))
                   (CartItem.addedAt item))
  | _ => None
  end.

(** the lines of the entries that have one, in the order of the entries *)
Definition summary_lines (env : Env) (its : list CartItem.t)
  : list CartModule.SummaryItem :=
  flat_map (fun item => match summary_line env item with
                        | Some line => [line]
                        | None => []
                        end) its.

(** ** Values that JSON text holds exactly *)

(** the number is written without a fraction *)
Definition is_whole (n : num) : bool :=
  match n with
  | Fin q => (Qden q =? 1)%positive
  | NaN => false
  end.

(** a value that [JSON.stringify] writes in full: no [undefined] inside,
    whole numbers only, and no key twice in an object *)
Fixpoint plain (v : value) : bool :=
  match v with
  | VUndef => false
  | VNull | VBool _ | VStr _ => true
  | VNum n => is_whole n
  | VArr elems => forallb plain elems
  | VObj fields =>
      forallb (fun kv => plain (snd kv)) fields && distinct (map fst fields)
  end.

(** the text of a value inside an array *)
Definition json_text (v : value) : string :=
  match JSON.stringify v with
  | Some s => s
  | None => "null"
  end.

Fixpoint sep_tokens (l : list (list JSON.token)) : list JSON.token :=
  match l with
  | [] => []
  | [x] => x
  | x :: r => (x ++ JSON.TComma :: sep_tokens r)%list
  end.

(** the tokens of the text of a value *)
Fixpoint tokens (v : value) : list JSON.token :=
  match v with
  | VUndef => []
  | VNull => [JSON.TNull]
  | VBool true => [JSON.TTrue]
  | VBool false => [JSON.TFalse]
  | VNum NaN => [JSON.TNull]
  | VNum (Fin q) => [JSON.TNumber q]
  | VStr s => [JSON.TString s]
  | VArr elems =>
      (JSON.TLBracket :: sep_tokens (map tokens elems) ++ [JSON.TRBracket])%list
  | VObj fields =>
      (JSON.TLBrace
       :: sep_tokens
            (map (fun kv =>
                    JSON.TString (fst kv) :: JSON.TColon :: tokens (snd kv))
               fields)
       ++ [JSON.TRBrace])%list
  end.

(** the text ends a word: it is empty or starts with a character that no
    word holds *)
Definition boundary (rest : string) : bool :=
  match rest with
  | EmptyString => true
  | String c _ => negb (JSON.is_word_char c)
  end.

(** the lexer reads the text of the value as its tokens, whatever follows *)
Definition lexes (v : value) : Prop :=
  forall toks rest,
    boundary rest = true ->
    JSON.lex_from JSON.LIdle toks (json_text v ++ rest)
    = JSON.lex_from JSON.LIdle (List.rev (tokens v) ++ toks)%list rest.

(** the parser reads the tokens of the value as the value, inside any
    containers *)
Definition parses (v : value) : Prop :=
  forall stk rest,
    JSON.parse_tokens (JSON.PValue stk) (tokens v ++ rest)%list
    = JSON.parse_tokens (JSON.deliver v stk) rest.

(** ** A cart of whole numbers *)

(** a line of a cart: the id of the product, the quantity and the time at
    which the entry was made *)
Record Line : Type := mkLine {
  line_id : Z;
  line_quantity : Z;
  line_addedAt : string
}.

(** the entry of the map for a line *)
Definition entry_of (l : Line) : num * CartItem.t :=
  (num_of_Z (line_id l),
   CartItem.mk (num_of_Z (line_id l)) (num_of_Z (line_quantity l))
     (VStr (line_addedAt l))).

(** the stored form of a line *)
Definition stored_line (l : Line) : value :=
  VObj [("productId", VNum (num_of_Z (line_id l)));
        ("quantity", VNum (num_of_Z (line_quantity l)));
        ("addedAt", VStr (line_addedAt l))].

(** a line that the manager makes: a product of the catalog, a quantity
    from 0 to 999 and a time that is not the empty text *)
Definition line_ok (env : Env) (l : Line) : bool :=
  valid_id env (line_id l)
  && (0 <=? line_quantity l) && (line_quantity l <=? 999)
  && negb (line_addedAt l =? EmptyString)%string.

(** the cart is written to [localStorage] itself: the validation script
    is not loaded, or it found [localStorage] supported *)
Definition native (env : Env) : bool :=
  negb (validation_loaded env) || localStorage_supported env.

(** ** Calls received by one listener *)

(** the calls that the listener [l] has received *)
Definition calls_to (l : nat) (w : World) : list Call :=
  List.filter (fun c => (call_listener c =? l)%nat) (calls w).

(** the listener is not registered and has received the calls [received] *)
Definition silent (l : nat) (received : list Call) (w : World) : Prop :=
  existsb (Nat.eqb l) (listeners w) = false /\ calls_to l w = received.

(** the operation does not register the listener [l] *)
Definition leaves_out (l : nat) (o : operation) : bool :=
  match o with
  | AddListener l' => negb (l' =? l)%nat
  | _ => true
  end.

(** ** Catalog queries (products.js) *)

Module ProductsQueries.

(** [toLowerCase] of one of the first 256 code units: the letters [A] to
    [Z], and the letters from 192 to 222 but for the multiplication sign *)
Definition lower_char (c : ascii) : ascii :=
  let n := nat_of_ascii c in
  if ((65 <=? n)%nat && (n <=? 90)%nat)
     || ((192 <=? n)%nat && (n <=? 222)%nat && negb (n =? 215)%nat)
  then ascii_of_nat (n + 32) else c.

(** [s.toLowerCase()] *)
Fixpoint toLowerCase (s : string) : string :=
  match s with
  | EmptyString => EmptyString
  | String c r => String (lower_char c) (toLowerCase r)
  end.

(** [[...new Set(l)]]: the elements in the order of their first occurrence *)
Fixpoint unique (l : list string) : list string :=
  match l with
  | [] => []
  | x :: r => x :: List.filter (fun y => negb (y =? x)%string) (unique r)
  end.

(** the comparison of [sort()] without an argument, on strings: by code
    units *)
Definition default_compare (x y : string) : num :=
  if String.ltb x y then num_of_Z (-1)
  else if String.ltb y x then num_of_Z 1
  else num_of_Z 0.

Section WithEnv.
Variable env : Env.

Definition getProducts : list Product.t := ProductsModule.products env.

Definition getProductsByCategory (category : value)
  : outcome (list Product.t) :=
  match category with
  | VStr c =>
      Ok (List.filter
            (fun product =>
               (toLowerCase (Product.category product) =? toLowerCase c)%string)
            (ProductsModule.products env))
  | _ => Throw (error "Category must be a string")
  end.

Definition searchProducts (query : value) : list Product.t :=
  match query with
  | VStr q =>
      if (String.length (Str.trim q) =? 0)%nat then getProducts
      else
        let searchTerm := Str.trim (toLowerCase q) in
        List.filter
          (fun product =>
             Str.includes searchTerm (toLowerCase (Product.name product))
             || Str.includes searchTerm
                  (toLowerCase (Product.description product)))
          (ProductsModule.products env)
  | _ => getProducts
  end.

Definition getCategories : list string :=
  sort default_compare
    (unique (map Product.category (ProductsModule.products env))).

End WithEnv.

End ProductsQueries.

(** ascending by code units *)
Definition ascending (a b : string) : Prop := String.ltb a b = true.

(** ** Notifications (error-handler.js) *)

Module ErrorHandler.

(** the options a caller passes; [None] is a property left out *)
Record Options : Type := mkOptions {
  opt_duration : option Z;
  opt_dismissible : option bool;
  opt_context : option string
}.

(** the configuration handed to [_createNotification], but for its icon *)
Record Config : Type := mkConfig {
  type : string;
  message : string;
  duration : Z;
  dismissible : bool;
  context : string
}.

Definition defaultDuration : Z := 5000.

(** [options.duration || d] *)
Definition duration_or (o : option Z) (d : Z) : Z :=
  match o with
  | Some x => if x =? 0 then d else x
  | None => d
  end.

(** [options.context || d] *)
Definition text_or (o : option string) (d : string) : string :=
  match o with
  | Some x => if (x =? EmptyString)%string then d else x
  | None => d
  end.

(** [options.dismissible !== false] *)
Definition not_false (o : option bool) : bool :=
  match o with
  | Some false => false
  | _ => true
  end.

Definition show (type : string) (default : Z) (message : string)
  (options : Options) : Config :=
  mkConfig type message (duration_or (opt_duration options) default)
    (not_false (opt_dismissible options))
    (text_or (opt_context options) "general").

Definition showError := show "error" defaultDuration.
Definition showSuccess := show "success" 3000.
Definition showWarning := show "warning" defaultDuration.
Definition showInfo := show "info" defaultDuration.

Definition handleValidationError (error : Error) (context : string) : Config :=
  let message := text_or (Some (err_message error)) "Validation failed" in
  showError ("Validation Error: " ++ message)
    (mkOptions (Some 6000) None (Some context)).

Definition handleStorageError (error : Error) (context : string) : Config :=
  if (err_name error =? "QuotaExceededError")%string
     || Str.includes "quota" (err_message error) then
    showWarning
      "Storage quota exceeded. Your cart will work in session-only mode."
      (mkOptions (Some 8000) None (Some context))
  else if (err_name error =? "SecurityError")%string
          || Str.includes "access" (err_message error) then
    showWarning
      "Storage access denied. Your cart will work in session-only mode."
      (mkOptions (Some 8000) None (Some context))
  else
    showWarning
      ("Storage error: " ++ err_message error
         ++ ". Your cart will work in session-only mode.")
      (mkOptions (Some defaultDuration) None (Some context)).

Definition handleNetworkError (error : Error) (context : string) : Config :=
  let message := text_or (Some (err_message error)) "Network operation failed" in
  showError ("Network Error: " ++ message)
    (mkOptions (Some 7000) None (Some context)).

Definition handleCartError (error : Error) (operation : string) : Config :=
  let message := text_or (Some (err_message error)) (operation ++ " failed") in
  showError message (mkOptions (Some 5000) None (Some "cart")).

End ErrorHandler.

(** ** Quantity controls of the page (ui.js)

    A handler returns the notifications it asks the error handler for. *)

Module UIModule.

(** [Math.max(a, b)] *)
Definition Math_max (a b : num) : num :=
  match a, b with
  | Fin x, Fin y => if Qle_bool x y then b else a
  | _, _ => NaN
  end.

Section WithEnv.
Variable env : Env.

(** [if (errorHandler) errorHandler.show...(...)] *)
Definition shown (c : ErrorHandler.Config) : list ErrorHandler.Config :=
  if errorHandler_loaded env then [c] else [].

Definition updateCartQuantity (productId quantity : value) : M unit :=
  try_catch
    (if strict_eq_num quantity (num_of_Z 0) then
       CartModule.removeItem env productId
     else CartModule.updateQuantity env productId quantity)
    (fun e => throw (error ("Failed to update cart: " ++ err_message e))).

Definition incrementQuantity (productId : value)
  : M (list ErrorHandler.Config) :=
  try_catch
    (currentItem <- CartModule.getCartItem productId ;;
     match currentItem with
     | Some item =>
         let newQuantity :=
           VNum (Num.add (CartItem.quantity item) (num_of_Z 1)) in
         let result := InputValidator.validateQuantity env newQuantity in
         if validation_loaded env && negb (InputValidator.isValid result) then
           ret (shown
                  (ErrorHandler.showError
                     ("Cannot increase quantity: "
                        ++ Str.join ", " (InputValidator.errors result))
                     (ErrorHandler.mkOptions None None
                        (Some "quantity-increment"))))
         else updateCartQuantity productId newQuantity ;; ret []
     | None => ret []
     end)
    (fun e => ret (shown (ErrorHandler.handleCartError e "increment quantity"))).

Definition decrementQuantity (productId : value)
  : M (list ErrorHandler.Config) :=
  try_catch
    (currentItem <- CartModule.getCartItem productId ;;
     match currentItem with
     | Some item =>
         let newQuantity :=
           VNum (Math_max (num_of_Z 0)
                   (Num.sub (CartItem.quantity item) (num_of_Z 1))) in
         updateCartQuantity productId newQuantity ;; ret []
     | None => ret []
     end)
    (fun e => ret (shown (ErrorHandler.handleCartError e "decrement quantity"))).

Definition removeFromCart (productId : value)
  : M (list ErrorHandler.Config) :=
  try_catch
    (CartModule.removeItem env productId ;;
     ret (shown
            (ErrorHandler.showSuccess "Item removed from cart"
               (ErrorHandler.mkOptions None None (Some "remove-item")))))
    (fun e => ret (shown (ErrorHandler.handleCartError e "remove item"))).

End WithEnv.

End UIModule.

(** ** Order of initialization (application script) *)

Module ShoppingCartApp.

(** [this.dependencies]: a Map from the name of a module to the names of
    the modules it needs *)
Definition Dependencies : Type := list (string * list string).

(** the three variables that [visit] closes over *)
Record Visit : Type := mkVisit {
  visited : list string;
  visiting : list string;
  order : list string
}.

Definition has (x : string) (l : list string) : bool :=
  existsb (String.eqb x) l.

(** [this.dependencies.get(moduleName) || []] *)
Definition deps_of (dependencies : Dependencies) (moduleName : string)
  : list string :=
  match assoc moduleName dependencies with
  | Some deps => deps
  | None => []
  end.

(** [for (const dep of deps) visit(dep)]; [None] is a recursion cut short *)
Fixpoint each (visit : string -> Visit -> option (outcome Visit))
  (deps : list string) (s : Visit) : option (outcome Visit) :=
  match deps with
  | [] => Some (Ok s)
  | dep :: rest =>
      match visit dep s with
      | Some (Ok s') => each visit rest s'
      | other => other
      end
  end.

(** [visit], with a bound on the depth of the recursion *)
Fixpoint visit (fuel : nat) (dependencies : Dependencies)
  (moduleName : string) (s : Visit) : option (outcome Visit) :=
  match fuel with
  | O => None
  | S fuel' =>
      if has moduleName (visiting s) then
        Some (Throw (error ("Circular dependency detected involving "
                              ++ moduleName)))
      else if has moduleName (visited s) then Some (Ok s)
      else
        match each (visit fuel' dependencies)
                (deps_of dependencies moduleName)
                (mkVisit (visited s)
                   (DataRecovery.set_add moduleName (visiting s)) (order s))
        with
        | Some (Ok s') =>
            Some (Ok (mkVisit
                        (DataRecovery.set_add moduleName (visited s'))
                        (DataRecovery.set_delete moduleName (visiting s'))
                        (order s' ++ [moduleName])))
        | other => other
        end
  end.

(** the names that occur in the dependencies *)
Definition names (dependencies : Dependencies) : list string :=
  (map fst dependencies ++ List.concat (map snd dependencies))%list.

(** [calculateInitializationOrder]; the recursion is no deeper than there
    are names *)
Definition calculateInitializationOrder (dependencies : Dependencies)
  : option (outcome (list string)) :=
  match each (visit (S (List.length (names dependencies))) dependencies)
          (map fst dependencies) (mkVisit [] [] [])
  with
  | Some (Ok s) => Some (Ok (order s))
  | Some (Throw e) => Some (Throw e)
  | None => None
  end.

(** the Map that [setupDependencies] fills *)
Definition setupDependencies : Dependencies :=
  assoc_set "accessibility" ["ui"]
    (assoc_set "ui" ["products"; "cart"; "errorHandler"; "validation"]
       (assoc_set "cart" ["models"; "products"; "errorHandler"; "validation"]
          (assoc_set "products" ["models"; "errorHandler"]
             (assoc_set "validation" ["errorHandler"]
                (assoc_set "models" []
                   (assoc_set "errorHandler" [] [])))))).

End ShoppingCartApp.

(** [moduleName] needs [dep] *)
Definition needs (dependencies : ShoppingCartApp.Dependencies)
  (moduleName dep : string) : Prop :=
  In dep (ShoppingCartApp.deps_of dependencies moduleName).

(** [a] needs [b], or needs a module that does, and so on *)
Inductive depends_on (dependencies : ShoppingCartApp.Dependencies)
  : string -> string -> Prop :=
| depends_step a b : needs dependencies a b -> depends_on dependencies a b
| depends_more a b c :
    needs dependencies a b -> depends_on dependencies b c ->
    depends_on dependencies a c.

(** every module comes after the modules it needs *)
Definition dependencies_first (dependencies : ShoppingCartApp.Dependencies)
  (order : list string) : Prop :=
  forall l1 x l2, order = (l1 ++ x :: l2)%list ->
  forall d, needs dependencies x d -> In d l1.

(** what holds of the three variables between two calls of [visit] *)
Definition consistent (dependencies : ShoppingCartApp.Dependencies)
  (s : ShoppingCartApp.Visit) : Prop :=
  NoDup (ShoppingCartApp.order s)
  /\ (forall x, In x (ShoppingCartApp.visited s)
                <-> In x (ShoppingCartApp.order s))
  /\ dependencies_first dependencies (ShoppingCartApp.order s)
  /\ (forall x, In x (ShoppingCartApp.visiting s) ->
                ~ In x (ShoppingCartApp.order s))
  /\ NoDup (ShoppingCartApp.visiting s)
  /\ incl (ShoppingCartApp.visiting s) (ShoppingCartApp.names dependencies)
  /\ incl (ShoppingCartApp.order s) (ShoppingCartApp.names dependencies).

(** the error names a module that depends on itself *)
Definition circular (dependencies : ShoppingCartApp.Dependencies) (e : Error)
  : Prop :=
  exists x,
    e = error ("Circular dependency detected involving " ++ x)
    /\ depends_on dependencies x x.

(** the outcome of visiting the modules [ms] from [s] *)
Definition visit_ok (dependencies : ShoppingCartApp.Dependencies)
  (ms : list string) (s : ShoppingCartApp.Visit)
  (r : option (outcome ShoppingCartApp.Visit)) : Prop :=
  match r with
  | None => False
  | Some (Throw e) => circular dependencies e
  | Some (Ok s') =>
      consistent dependencies s'
      /\ ShoppingCartApp.visiting s' = ShoppingCartApp.visiting s
      /\ (exists ext,
            ShoppingCartApp.order s' = (ShoppingCartApp.order s ++ ext)%list)
      /\ forall m, In m ms -> In m (ShoppingCartApp.order s')
  end.

(** ** The kinds of storage errors *)

(** the text [t] occurs in the text [s] *)
Definition contains (t s : string) : Prop :=
  exists a b, s = (a ++ t ++ b)%string.

(** the error tells that the quota of the storage is exceeded *)
Definition quota_error (e : Error) : Prop :=
  err_name e = "QuotaExceededError" \/ contains "quota" (err_message e).

(** the error tells that the access to the storage is denied *)
Definition access_error (e : Error) : Prop :=
  err_name e = "SecurityError" \/ contains "access" (err_message e).

(** ** The inputs of the sanitizer *)

(** the inputs from which the sanitizer reads a finite number, if any:
    [null], [undefined], a boolean, a number, which is [NaN] or finite
    here, and a string of at most 300 characters. The number read from
    such a string is below 10^300, a finite number of the engine, where
    a string of 310 digits is read as [Infinity]. *)
Definition reads_finite (v : value) : bool :=
  match v with
  | VStr s => (String.length s <=? 300)%nat
  | VArr _ | VObj _ => false
  | _ => true
  end.

(** ** The number of articles *)

(** the sum of the quantities of the items, which are integers *)
Definition quantity_sum (l : list CartItem.t) : Z :=
  fold_right (fun item acc => Qfloor (Qof (CartItem.quantity item)) + acc) 0 l.

(** ** The sanitizer of text inputs (validation file) *)

Module TextSanitizer.

(** [s.replace(/\s+/g, ' ')]; [in_run] tells that the character before was
    white space *)
Fixpoint collapse (in_run : bool) (s : string) : string :=
  match s with
  | EmptyString => EmptyString
  | String c r =>
      if Str.is_space c then
        if in_run then collapse true r else String " " (collapse true r)
      else String c (collapse false r)
  end.

Definition is_angle (c : ascii) : bool := ((c =? "<") || (c =? ">"))%char.

(** the sanitizer registered as [text] *)
Definition sanitize_text (v : value) : string :=
  match v with
  | VNull | VUndef => EmptyString
  | _ =>
      Str.filter (fun c => negb (is_angle c))
        (collapse false (Str.trim (js_String v)))
  end.

End TextSanitizer.

(** a white space character other than the space *)
Definition odd_space (c : ascii) : bool :=
  Str.is_space c && negb (c =? " ")%char.

(** ** Postconditions of code in [M] *)

(** [m] keeps [P]: from a world with [P] it ends, returning or throwing,
    in a world with [P] *)
Definition preserves (P : World -> Prop) {A : Type} (m : M A) : Prop :=
  forall w, P w -> P (snd (m w)).

(** [m] keeps [P] and returns from every world with [P] *)
Definition safe (P : World -> Prop) {A : Type} (m : M A) : Prop :=
  forall w, P w -> P (snd (m w)) /\ returns (fst (m w)) = true.

(** [m] never throws *)
Definition total {A : Type} (m : M A) : Prop :=
  forall w, returns (fst (m w)) = true.

(** * Properties *)

Create HintDb pres discriminated.

Section Preserves.

Variable P : World -> Prop.

Lemma preserves_ret {A : Type} (a : A) : preserves P (ret a).
Proof. intros w H. exact H. Qed.

Lemma preserves_throw {A : Type} (e : Error) : preserves P (@throw A e).
Proof. intros w H. exact H. Qed.

Lemma preserves_lift {A : Type} (o : outcome A) : preserves P (lift o).
Proof. intros w H. exact H. Qed.

Lemma preserves_gets {A : Type} (f : World -> A) : preserves P (gets f).
Proof. intros w H. exact H. Qed.

Lemma preserves_modify (f : World -> World) :
  (forall w, P w -> P (f w)) -> preserves P (modify f).
Proof. intros Hf w H. apply Hf, H. Qed.

Lemma preserves_bind {A B : Type} (m : M A) (k : A -> M B) :
  preserves P m -> (forall a, preserves P (k a)) -> preserves P (bind m k).
Proof.
  intros Hm Hk w H. unfold bind. specialize (Hm w H).
  destruct (m w) as [[a | e] w']; simpl in *.
  - apply Hk, Hm.
  - exact Hm.
Qed.

Lemma preserves_try_catch {A : Type} (m : M A) (h : Error -> M A) :
  preserves P m -> (forall e, preserves P (h e)) -> preserves P (try_catch m h).
Proof.
  intros Hm Hh w H. unfold try_catch. specialize (Hm w H).
  destruct (m w) as [[a | e] w']; simpl in *.
  - exact Hm.
  - apply Hh, Hm.
Qed.

Lemma preserves_attempt {A B : Type} (m : M A) (h : Error -> M B)
  (k : A -> M B) :
  preserves P m -> (forall e, preserves P (h e)) ->
  (forall a, preserves P (k a)) -> preserves P (attempt m h k).
Proof.
  intros Hm Hh Hk w H. unfold attempt. specialize (Hm w H).
  destruct (m w) as [[a | e] w']; simpl in *.
  - apply Hk, Hm.
  - apply Hh, Hm.
Qed.

Lemma preserves_for_each {A : Type} (l : list A) (body : A -> M unit) :
  (forall x, preserves P (body x)) -> preserves P (for_each l body).
Proof.
  intros Hb. induction l as [| x r IH]; simpl.
  - apply preserves_ret.
  - apply preserves_bind; [apply Hb | intros _; exact IH].
Qed.

Lemma safe_preserves {A : Type} (m : M A) : safe P m -> preserves P m.
Proof. intros Hm w H. apply (Hm w H). Qed.

Lemma safe_ret {A : Type} (a : A) : safe P (ret a).
Proof. intros w H. split; [exact H | reflexivity]. Qed.

Lemma safe_gets {A : Type} (f : World -> A) : safe P (gets f).
Proof. intros w H. split; [exact H | reflexivity]. Qed.

Lemma safe_modify (f : World -> World) :
  (forall w, P w -> P (f w)) -> safe P (modify f).
Proof. intros Hf w H. split; [apply Hf, H | reflexivity]. Qed.

Lemma safe_bind {A B : Type} (m : M A) (k : A -> M B) :
  safe P m -> (forall a, safe P (k a)) -> safe P (bind m k).
Proof.
  intros Hm Hk w H. unfold bind. destruct (Hm w H) as [H1 H2].
  destruct (m w) as [[a | e] w']; simpl in *.
  - apply Hk, H1.
  - discriminate.
Qed.

Lemma safe_try_catch {A : Type} (m : M A) (h : Error -> M A) :
  preserves P m -> (forall e, safe P (h e)) -> safe P (try_catch m h).
Proof.
  intros Hm Hh w H. unfold try_catch. specialize (Hm w H).
  destruct (m w) as [[a | e] w']; simpl in *.
  - split; [exact Hm | reflexivity].
  - apply Hh, Hm.
Qed.

Lemma safe_attempt {A B : Type} (m : M A) (h : Error -> M B) (k : A -> M B) :
  preserves P m -> (forall e, safe P (h e)) -> (forall a, safe P (k a)) ->
  safe P (attempt m h k).
Proof.
  intros Hm Hh Hk w H. unfold attempt. specialize (Hm w H).
  destruct (m w) as [[a | e] w']; simpl in *.
  - apply Hk, Hm.
  - apply Hh, Hm.
Qed.

Lemma safe_for_each {A : Type} (l : list A) (body : A -> M unit) :
  (forall x, safe P (body x)) -> safe P (for_each l body).
Proof.
  intros Hb. induction l as [| x r IH]; simpl.
  - apply safe_ret.
  - apply safe_bind; [apply Hb | intros _; exact IH].
Qed.

End Preserves.

#[export] Hint Resolve preserves_ret preserves_throw preserves_lift
  preserves_gets safe_ret safe_gets : pres.

(** one step of a proof that a block of code keeps a property *)
Ltac pres_step :=
  match goal with
  | |- preserves _ (bind _ _) => apply preserves_bind; [| intros ?]
  | |- preserves _ (try_catch _ _) => apply preserves_try_catch; [| intros ?]
  | |- preserves _ (attempt _ _ _) =>
      apply preserves_attempt; [| intros ? | intros ?]
  | |- preserves _ (for_each _ _) => apply preserves_for_each; intros ?
  | |- preserves _ (ret _) => apply preserves_ret
  | |- preserves _ (throw _) => apply preserves_throw
  | |- preserves _ (lift _) => apply preserves_lift
  | |- preserves _ (gets _) => apply preserves_gets
  | |- preserves _ (modify _) => apply preserves_modify; intros ? ?
  | |- safe _ (bind _ _) => apply safe_bind; [| intros ?]
  | |- safe _ (try_catch _ _) => apply safe_try_catch; [| intros ?]
  | |- safe _ (attempt _ _ _) => apply safe_attempt; [| intros ? | intros ?]
  | |- safe _ (for_each _ _) => apply safe_for_each; intros ?
  | |- safe _ (ret _) => apply safe_ret
  | |- safe _ (gets _) => apply safe_gets
  | |- safe _ (modify _) => apply safe_modify; intros ? ?
  | |- preserves _ (if ?b then _ else _) => destruct b
  | |- safe _ (if ?b then _ else _) => destruct b
  | |- preserves _ (match ?x with _ => _ end) => destruct x
  | |- safe _ (match ?x with _ => _ end) => destruct x
  | |- preserves _ (let _ := _ in _) => cbv zeta
  | |- safe _ (let _ := _ in _) => cbv zeta
  end.

Ltac pres := repeat (first [ solve [eauto with pres] | pres_step ]).

(** ** Properties that the storage code keeps *)

(** A property of the world that does not depend on the storages, the
    fault schedule and the set of backup keys is kept by the storage API,
    by the data recovery and by the backup rotation. *)
Section StorageKeeps.

Variable P : World -> Prop.
Hypothesis P_faults : forall w x, P w -> P (with_faults x w).
Hypothesis P_local : forall w x, P w -> P (with_localStorage x w).
Hypothesis P_session : forall w x, P w -> P (with_sessionStorage x w).
Hypothesis P_memory : forall w x, P w -> P (with_memoryStorage x w).
Hypothesis P_backupKeys : forall w x, P w -> P (with_backupKeys x w).

Lemma fault_keeps : preserves P Storage.fault.
Proof.
  intros w H. unfold Storage.fault.
  destruct (faults w) as [| [e |] r]; simpl; auto.
Qed.

Lemma with_content_keeps a x w : P w -> P (Storage.with_content a x w).
Proof. destruct a; simpl; auto. Qed.

Lemma getItem_keeps a k : preserves P (Storage.getItem a k).
Proof. unfold Storage.getItem. pres. apply fault_keeps. Qed.

Lemma setItem_keeps a k v : preserves P (Storage.setItem a k v).
Proof.
  unfold Storage.setItem. pres; [apply fault_keeps | apply with_content_keeps; auto].
Qed.

Lemma removeItem_keeps a k : preserves P (Storage.removeItem a k).
Proof.
  unfold Storage.removeItem. pres; [apply fault_keeps | apply with_content_keeps; auto].
Qed.

Lemma length_keeps a : preserves P (Storage.length a).
Proof. unfold Storage.length. pres. apply fault_keeps. Qed.

Lemma key_keeps a i : preserves P (Storage.key a i).
Proof. unfold Storage.key. pres. apply fault_keeps. Qed.

Hint Resolve getItem_keeps setItem_keeps removeItem_keeps length_keeps
  key_keeps : pres.

Lemma degraded_setItem_keeps env h k v :
  preserves P (GracefulDegradation.setItem env h k v).
Proof. unfold GracefulDegradation.setItem. pres. Qed.

Lemma now_keeps : preserves P DataRecovery.now.
Proof. unfold DataRecovery.now. pres. Qed.

Hint Resolve degraded_setItem_keeps now_keeps : pres.

Lemma recoverData_keeps key dataType :
  preserves P (DataRecovery.recoverData key dataType).
Proof.
  unfold DataRecovery.recoverData, DataRecovery.check_parsed,
    DataRecovery.fallback_result, DataRecovery.recovery_error.
  pres.
Qed.

Lemma collect_from_keeps fuel : forall i pre acc,
  preserves P (DataRecovery.collect_from fuel i pre acc).
Proof.
  induction fuel as [| f IH]; intros i pre acc; simpl; pres.
Qed.

Lemma backup_keys_of_keeps key : preserves P (DataRecovery.backup_keys_of key).
Proof. intros w H. unfold DataRecovery.backup_keys_of. apply collect_from_keeps, H. Qed.

Hint Resolve backup_keys_of_keeps : pres.

Lemma cleanupOldBackups_keeps key :
  preserves P (DataRecovery.cleanupOldBackups key).
Proof. unfold DataRecovery.cleanupOldBackups. pres. Qed.

Hint Resolve cleanupOldBackups_keeps : pres.

Lemma createBackup_keeps key data :
  preserves P (DataRecovery.createBackup key data).
Proof. unfold DataRecovery.createBackup. pres. Qed.

Lemma restoreFromBackup_keeps key :
  preserves P (DataRecovery.restoreFromBackup key).
Proof. unfold DataRecovery.restoreFromBackup. pres. Qed.

End StorageKeeps.

(** ** Properties that saving and error handling keep *)

Section CartKeeps.

Variable P : World -> Prop.
Hypothesis P_faults : forall w x, P w -> P (with_faults x w).
Hypothesis P_local : forall w x, P w -> P (with_localStorage x w).
Hypothesis P_session : forall w x, P w -> P (with_sessionStorage x w).
Hypothesis P_memory : forall w x, P w -> P (with_memoryStorage x w).
Hypothesis P_backupKeys : forall w x, P w -> P (with_backupKeys x w).
Hypothesis P_calls : forall w x, P w -> P (with_calls x w).
Hypothesis P_reports : forall w x, P w -> P (with_reports x w).
Hypothesis P_sessionOnly : forall w, P w -> P (with_sessionOnly true w).

Variable env : Env.

Let getItem_P := getItem_keeps P P_faults.
Let setItem_P := setItem_keeps P P_faults P_local P_session.
Let removeItem_P := removeItem_keeps P P_faults P_local P_session.
Let degraded_P :=
  degraded_setItem_keeps P P_faults P_local P_session P_memory.
Let createBackup_P :=
  createBackup_keeps P P_faults P_local P_session P_backupKeys.
Let now_P := now_keeps P.

Hint Resolve getItem_P setItem_P removeItem_P degraded_P createBackup_P now_P
  : pres.

Lemma notify_keeps event data :
  preserves P (CartModule._notifyListeners event data).
Proof. unfold CartModule._notifyListeners. pres. Qed.

Hint Resolve notify_keeps : pres.

Lemma handleStorageError_keeps e :
  preserves P (CartModule._handleStorageError e).
Proof. unfold CartModule._handleStorageError. pres. Qed.

Lemma report_keeps e c : preserves P (CartModule.report env e c).
Proof. unfold CartModule.report. pres. Qed.

Hint Resolve handleStorageError_keeps report_keeps : pres.

Lemma saveToStorage_keeps : preserves P (CartModule.saveToStorage env).
Proof. unfold CartModule.saveToStorage. pres. Qed.

Lemma clearStorageData_keeps : preserves P CartModule._clearStorageData.
Proof. unfold CartModule._clearStorageData. pres. Qed.

Lemma clearStorage_keeps : preserves P CartModule.clearStorage.
Proof. unfold CartModule.clearStorage. pres. Qed.

Lemma isStorageAvailable_keeps : preserves P CartModule._isStorageAvailable.
Proof. unfold CartModule._isStorageAvailable. pres. Qed.

Hint Resolve isStorageAvailable_keeps : pres.

Lemma getStorageInfo_keeps : preserves P CartModule.getStorageInfo.
Proof. unfold CartModule.getStorageInfo. pres. Qed.

End CartKeeps.

(** ** Session-only mode is final *)

Section SessionOnly.

Variable env : Env.

Lemma session_only_faults w x : session_only w -> session_only (with_faults x w).
Proof. exact (fun H => H). Qed.
Lemma session_only_local w x :
  session_only w -> session_only (with_localStorage x w).
Proof. exact (fun H => H). Qed.
Lemma session_only_session w x :
  session_only w -> session_only (with_sessionStorage x w).
Proof. exact (fun H => H). Qed.
Lemma session_only_memory w x :
  session_only w -> session_only (with_memoryStorage x w).
Proof. exact (fun H => H). Qed.
Lemma session_only_backupKeys w x :
  session_only w -> session_only (with_backupKeys x w).
Proof. exact (fun H => H). Qed.
Lemma session_only_calls w x : session_only w -> session_only (with_calls x w).
Proof. exact (fun H => H). Qed.
Lemma session_only_reports w x :
  session_only w -> session_only (with_reports x w).
Proof. exact (fun H => H). Qed.
Lemma session_only_set w : session_only w -> session_only (with_sessionOnly true w).
Proof. reflexivity. Qed.
Lemma session_only_items w x : session_only w -> session_only (with_items x w).
Proof. exact (fun H => H). Qed.
Lemma session_only_listeners w x :
  session_only w -> session_only (with_listeners x w).
Proof. exact (fun H => H). Qed.
Lemma session_only_clock w x : session_only w -> session_only (with_clock x w).
Proof. exact (fun H => H). Qed.

Let save_so :=
  saveToStorage_keeps session_only session_only_faults session_only_local
    session_only_session session_only_memory session_only_backupKeys
    session_only_calls session_only_reports session_only_set env.
Let handle_so :=
  handleStorageError_keeps session_only session_only_calls session_only_set.
Let notify_so := notify_keeps session_only session_only_calls.
Let report_so := report_keeps session_only session_only_reports env.
Let recover_so :=
  recoverData_keeps session_only session_only_faults.
Let restore_so :=
  restoreFromBackup_keeps session_only session_only_faults session_only_local
    session_only_session.
Let clearData_so :=
  clearStorageData_keeps session_only session_only_faults session_only_local
    session_only_session.
Let clear_so :=
  clearStorage_keeps session_only session_only_faults session_only_local
    session_only_session.
Let available_so :=
  isStorageAvailable_keeps session_only session_only_faults session_only_local
    session_only_session.
Let info_so :=
  getStorageInfo_keeps session_only session_only_faults session_only_local
    session_only_session.
Let getItem_so := getItem_keeps session_only session_only_faults.
Let now_so := now_keeps session_only.

Hint Resolve save_so handle_so notify_so report_so recover_so restore_so
  clearData_so clear_so available_so info_so getItem_so now_so
  session_only_items session_only_listeners session_only_clock
  session_only_faults session_only_set : pres.

Lemma validated_session_only p q :
  preserves session_only (CartModule.validated env p q).
Proof. unfold CartModule.validated. pres. Qed.

Hint Resolve validated_session_only : pres.

Lemma addItem_session_only p q :
  preserves session_only (CartModule.addItem env p q).
Proof. unfold CartModule.addItem, CartModule.add_validated. pres. Qed.

Lemma removeItem_session_only p :
  preserves session_only (CartModule.removeItem env p).
Proof. unfold CartModule.removeItem. pres. Qed.

Hint Resolve removeItem_session_only : pres.

Lemma updateQuantity_session_only p q :
  preserves session_only (CartModule.updateQuantity env p q).
Proof. unfold CartModule.updateQuantity. pres. Qed.

Lemma clearCart_session_only : preserves session_only (CartModule.clearCart env).
Proof. unfold CartModule.clearCart. pres. Qed.

Lemma load_item_session_only strict itemData :
  preserves session_only (CartModule.load_item env strict itemData).
Proof. unfold CartModule.load_item. pres. Qed.

Hint Resolve load_item_session_only : pres.

Lemma load_items_session_only strict l :
  preserves session_only (CartModule.load_items env strict l).
Proof. induction l as [| x r IH]; simpl; pres. Qed.

Hint Resolve load_items_session_only : pres.

Lemma load_attempt_session_only :
  preserves session_only (CartModule.load_attempt env).
Proof. unfold CartModule.load_attempt, CartModule.load_cart. pres. Qed.

Hint Resolve load_attempt_session_only : pres.

Lemma loadFromStorage_fuel_session_only fuel :
  preserves session_only (CartModule.loadFromStorage_fuel env fuel).
Proof. induction fuel as [| f IH]; simpl; pres. Qed.

Lemma validateCart_session_only :
  preserves session_only (CartModule.validateCart env).
Proof. unfold CartModule.validateCart. pres. Qed.

Lemma perform_session_only o : preserves session_only (perform env o).
Proof.
  destruct o; simpl; unfold discard, CartModule.getCartItems,
    CartModule.getCartTotal, CartModule.getCartCount, CartModule.getCartItem,
    CartModule.isEmpty, CartModule.getCartSummary, CartModule.addListener,
    CartModule.removeListener, CartModule.reloadFromStorage,
    CartModule.loadFromStorage, CartModule.getCartCount;
  pres;
  try solve [ apply addItem_session_only | apply updateQuantity_session_only
            | apply clearCart_session_only | apply validateCart_session_only
            | apply loadFromStorage_fuel_session_only ].
  - destruct (existsb _ _); auto with pres.
  - destruct a; simpl; assumption.
Qed.

Lemma run_session_only ops : forall w,
  session_only w -> session_only (run env ops w).
Proof.
  induction ops as [| o r IH]; intros w H; simpl.
  - exact H.
  - apply IH. apply perform_session_only, H.
Qed.

End SessionOnly.

Lemma bind_returns {A B : Type} (m : M A) (k : A -> M B) w b w' :
  bind m k w = (Ok b, w') ->
  exists a w1, m w = (Ok a, w1) /\ k a w1 = (Ok b, w').
Proof.
  unfold bind. destruct (m w) as [[a | e] w1]; intros H.
  - exists a, w1. split; [reflexivity | exact H].
  - discriminate.
Qed.

Lemma handleStorageError_sets e w :
  session_only (exec (CartModule._handleStorageError e) w).
Proof.
  unfold CartModule._handleStorageError, exec.
  destruct (_ || _); [| destruct (_ || _)]; reflexivity.
Qed.

Lemma saveToStorage_session_only env w :
  session_only w -> CartModule.saveToStorage env w = (Ok tt, w).
Proof.
  intros H. unfold CartModule.saveToStorage, bind, gets. rewrite H. reflexivity.
Qed.

Lemma getStorageInfo_session_only w :
  session_only w ->
  exists info,
    result CartModule.getStorageInfo w = Ok info
    /\ CartModule.info_sessionOnly info = true.
Proof.
  intros H. unfold result, CartModule.getStorageInfo, try_catch.
  match goal with |- context [match ?body w with _ => _ end] =>
    destruct (body w) as [[info | e] w'] eqn:E end.
  - exists info. split; [reflexivity |].
    apply bind_returns in E. destruct E as (stored & w1 & E1 & E).
    apply bind_returns in E. destruct E as (ts & w2 & E2 & E).
    apply bind_returns in E. destruct E as (flag & w3 & E3 & E).
    apply bind_returns in E. destruct E as (size & w4 & E4 & E).
    apply bind_returns in E. destruct E as (avail & w5 & E5 & E).
    inversion E; subst; simpl. inversion E3; subst.
    assert (H1 : session_only w1).
    { pose proof (getItem_keeps session_only (session_only_faults)
                    Storage.Local CartModule.storageKey w H) as K.
      rewrite E1 in K. exact K. }
    pose proof (getItem_keeps session_only (session_only_faults)
                  Storage.Local CartModule.timestampKey w1 H1) as K.
    rewrite E2 in K. exact K.
  - eexists. split; reflexivity.
Qed.

(** C7. Once [_handleStorageError] has handled a storage error, the
    manager is in session-only mode for the rest of the session: whatever
    operations follow, the flag stays set, [saveToStorage] returns at
    once and leaves the whole world (the storages included) as it is, and
    [getStorageInfo] reports [sessionOnly] true. *)
Theorem session_only_is_final env error ops w :
  let w1 := exec (CartModule._handleStorageError error) w in
  let w2 := run env ops w1 in
  sessionOnly w2 = true
  /\ CartModule.saveToStorage env w2 = (Ok tt, w2)
  /\ exists info,
       result CartModule.getStorageInfo w2 = Ok info
       /\ CartModule.info_sessionOnly info = true.
Proof.
  intros w1 w2.
  assert (H : session_only w2).
  { apply run_session_only, handleStorageError_sets. }
  split; [exact H |]. split.
  - apply saveToStorage_session_only, H.
  - apply getStorageInfo_session_only, H.
Qed.

(** ** Arithmetic on integer-valued numbers *)

Lemma Qle_bool_inject_Z a b : Qle_bool (inject_Z a) (inject_Z b) = (a <=? b).
Proof. unfold Qle_bool, inject_Z. simpl. rewrite !Z.mul_1_r. reflexivity. Qed.

Lemma Qeq_bool_inject_Z a b : Qeq_bool (inject_Z a) (inject_Z b) = (a =? b).
Proof. unfold Qeq_bool, inject_Z. simpl. rewrite !Z.mul_1_r. reflexivity. Qed.

Lemma Qred_inject_Z z : Qred (inject_Z z) = inject_Z z.
Proof.
  apply Qcanon.Qred_identity. unfold inject_Z. simpl. apply Z.gcd_1_r.
Qed.

Lemma Num_le_Z (a b : Z) : Num.le a b = (a <=? b).
Proof. apply Qle_bool_inject_Z. Qed.

Lemma Num_lt_Z (a b : Z) : Num.lt a b = (a <? b).
Proof.
  unfold Num.lt, num_of_Z, Qlt_bool. rewrite Qle_bool_inject_Z.
  rewrite Z.ltb_antisym. reflexivity.
Qed.

Lemma Num_gt_Z (a b : Z) : Num.gt a b = (b <? a).
Proof. apply Num_lt_Z. Qed.

Lemma Num_eqb_Z (a b : Z) : Num.eqb a b = (a =? b).
Proof. apply Qeq_bool_inject_Z. Qed.

Lemma Num_same_Z (a b : Z) : Num.same a b = (a =? b).
Proof. apply Qeq_bool_inject_Z. Qed.

(** ** Rounding to binary64 *)

Lemma b64_comp x y : (x == y)%Q -> Num.b64 x = Num.b64 y.
Proof. intros H. unfold Num.b64. rewrite (Qred_complete x y H). reflexivity. Qed.

(** an integer of at most 53 bits is not rounded *)
Lemma b64_Z (z : Z) :
  Z.abs z <= 9007199254740992 -> Num.b64 (inject_Z z) = inject_Z z.
Proof.
  intros H. unfold Num.b64. rewrite Qred_inject_Z. cbn [Qnum Qden inject_Z].
  replace (Z.abs z <=? 9007199254740992) with true
    by (symmetry; apply Z.leb_le, H).
  reflexivity.
Qed.

(** the exponent is below that of the quotient by 52 at least *)
Lemma b64_exp_le a d :
  Num.b64_exp a d <= Z.log2 a - Z.log2 d - 52.
Proof. unfold Num.b64_exp. cbv zeta. destruct (_ <? _); lia. Qed.

Lemma scaled_ge a d e :
  0 < a -> 0 < d -> e <= Z.log2 a - Z.log2 d - 1 ->
  d * 2 ^ Z.max 0 e <= a * 2 ^ Z.max 0 (- e).
Proof.
  intros Ha Hd He.
  pose proof (Z.log2_spec a Ha) as [La _].
  pose proof (Z.log2_spec d Hd) as [_ Ld].
  pose proof (Z.log2_nonneg a) as Na. pose proof (Z.log2_nonneg d) as Nd.
  apply Z.le_trans with (2 ^ Z.succ (Z.log2 d) * 2 ^ Z.max 0 e).
  { apply Z.mul_le_mono_nonneg_r; [apply Z.pow_nonneg; lia | lia]. }
  apply Z.le_trans with (2 ^ Z.log2 a * 2 ^ Z.max 0 (- e)).
  2:{ apply Z.mul_le_mono_nonneg_r; [apply Z.pow_nonneg; lia | lia]. }
  rewrite <- !Z.pow_add_r by lia.
  apply Z.pow_le_mono_r; lia.
Qed.

Lemma b64_sig_pos a d e :
  0 < a -> 0 < d -> e <= Z.log2 a - Z.log2 d - 1 -> 1 <= Num.b64_sig a d e.
Proof.
  intros Ha Hd He. unfold Num.b64_sig. cbv zeta.
  pose proof (scaled_ge a d e Ha Hd He) as H.
  assert (HD : 0 < d * 2 ^ Z.max 0 e).
  { apply Z.mul_pos_pos; [exact Hd | apply Z.pow_pos_nonneg; lia]. }
  assert (Hq : 1 <= (a * 2 ^ Z.max 0 (- e)) / (d * 2 ^ Z.max 0 e)).
  { apply Z.div_le_lower_bound; [exact HD | lia]. }
  destruct (_ || _); lia.
Qed.

(** the rounded number has the sign of the number *)
Lemma b64_sign x :
  ((0 < x -> 0 < Num.b64 x) /\ (x < 0 -> Num.b64 x < 0))%Q.
Proof.
  unfold Num.b64. cbv zeta.
  pose proof (Qred_correct x) as Hx.
  set (y := Qred x) in *.
  destruct ((Zpos (Qden y) =? 1) && (Z.abs (Qnum y) <=? 9007199254740992)) eqn:F.
  - rewrite Hx. tauto.
  - set (a := Z.abs (Qnum y)). set (d := Zpos (Qden y)).
    assert (Hd : 0 < d) by (unfold d; lia).
    assert (Hsig : 0 < a -> 1 <= Num.b64_sig a d (Num.b64_exp a d)).
    { intros Ha. apply b64_sig_pos; [exact Ha | exact Hd |].
      pose proof (b64_exp_le a d). lia. }
    set (m := Num.b64_sig a d (Num.b64_exp a d)) in *.
    set (e := Num.b64_exp a d).
    assert (Hp : 0 < 2 ^ Z.max 0 e) by (apply Z.pow_pos_nonneg; lia).
    split; intros H; rewrite <- Hx in H; rewrite Qred_correct;
      unfold Qlt in *; cbn [Qnum Qden] in *; rewrite Z.mul_1_r in *.
    + assert (Hn : 0 < Qnum y) by lia.
      assert (Ha : 0 < a) by (unfold a; lia).
      specialize (Hsig Ha).
      destruct (Qnum y <? 0) eqn:E; [apply Z.ltb_lt in E; lia |].
      cbn. rewrite ?Z.mul_1_r, ?Z.mul_0_l. apply Z.mul_pos_pos; lia.
    + assert (Hn : Qnum y < 0) by lia.
      assert (Ha : 0 < a) by (unfold a; lia).
      specialize (Hsig Ha).
      destruct (Qnum y <? 0) eqn:E; [| apply Z.ltb_ge in E; lia].
      cbn. rewrite ?Z.mul_1_r, ?Z.mul_0_l. apply Z.mul_neg_pos; lia.
Qed.

Lemma b64_pos x : (0 < x)%Q -> (0 < Num.b64 x)%Q.
Proof. apply b64_sign. Qed.

Lemma b64_neg x : (x < 0)%Q -> (Num.b64 x < 0)%Q.
Proof. apply b64_sign. Qed.

Lemma b64_0 x : (x == 0)%Q -> Num.b64 x = 0%Q.
Proof. intros H. rewrite (b64_comp x (inject_Z 0) H). apply b64_Z. simpl. lia. Qed.

(** an integer above 53 bits is rounded to an integer that is no less than
    2^53 *)
Lemma b64_big (z : Z) :
  9007199254740992 < z ->
  exists z', Num.b64 (inject_Z z) = inject_Z z' /\ 9007199254740992 <= z'.
Proof.
  intros H. unfold Num.b64. rewrite Qred_inject_Z. cbn [Qnum Qden inject_Z].
  replace (Z.abs z <=? 9007199254740992) with false
    by (symmetry; apply Z.leb_gt; lia).
  cbn [Pos.eqb Z.eqb andb]. cbv zeta.
  rewrite (Z.abs_eq z) by lia.
  destruct (z <? 0) eqn:E; [apply Z.ltb_lt in E; lia |].
  assert (Hz : 0 < z) by lia.
  pose proof (Z.log2_spec z Hz) as [L1 L2].
  assert (L53 : 53 <= Z.log2 z).
  { apply Z.log2_le_pow2; [lia |]. change (2 ^ 53) with 9007199254740992. lia. }
  assert (He : Num.b64_exp z 1 = Z.log2 z - 52).
  { unfold Num.b64_exp. cbv zeta. change (Z.log2 1) with 0.
    rewrite Z.sub_0_r. rewrite (Z.max_l 0 (- (Z.log2 z - 52))) by lia.
    rewrite (Z.max_r 0 (Z.log2 z - 52)) by lia.
    change (2 ^ 0) with 1. rewrite Z.mul_1_r, Z.mul_1_l.
    assert (2 ^ 52 <= z / 2 ^ (Z.log2 z - 52)).
    { apply Z.div_le_lower_bound; [apply Z.pow_pos_nonneg; lia |].
      rewrite <- Z.pow_add_r by lia.
      replace (Z.log2 z - 52 + 52) with (Z.log2 z) by lia. exact L1. }
    destruct (z / 2 ^ (Z.log2 z - 52) <? 2 ^ 52) eqn:B;
      [apply Z.ltb_lt in B; lia | reflexivity]. }
  rewrite He.
  rewrite (Z.max_l 0 (- (Z.log2 z - 52))) by lia.
  rewrite (Z.max_r 0 (Z.log2 z - 52)) by lia.
  change (2 ^ 0) with 1. change (Z.to_pos 1) with 1%positive.
  set (e := Z.log2 z - 52) in *.
  set (m := Num.b64_sig z 1 e).
  assert (Hm : 2 ^ 52 <= m).
  { unfold m, Num.b64_sig. cbv zeta.
    rewrite (Z.max_l 0 (- e)) by lia. rewrite (Z.max_r 0 e) by lia.
    change (2 ^ 0) with 1. rewrite Z.mul_1_r, Z.mul_1_l.
    assert (2 ^ 52 <= z / 2 ^ e).
    { apply Z.div_le_lower_bound; [apply Z.pow_pos_nonneg; lia |].
      rewrite <- Z.pow_add_r by lia.
      replace (e + 52) with (Z.log2 z) by lia. exact L1. }
    destruct (_ || _); lia. }
  exists (m * 2 ^ e). split.
  - change (m * 2 ^ e # 1) with (inject_Z (m * 2 ^ e)). apply Qred_inject_Z.
  - assert (2 ^ 1 <= 2 ^ e) by (apply Z.pow_le_mono_r; lia).
    change (2 ^ 1) with 2 in *. change (2 ^ 52) with 4503599627370496 in *.
    nia.
Qed.

(** ** The error of a rounding *)

Lemma b64_sig_near a d e :
  0 < d ->
  let N := a * 2 ^ Z.max 0 (- e) in
  let D := d * 2 ^ Z.max 0 e in
  2 * Z.abs (Num.b64_sig a d e * D - N) <= D.
Proof.
  intros Hd N D. unfold Num.b64_sig. cbv zeta. fold N D.
  assert (HD : 0 < D).
  { unfold D. apply Z.mul_pos_pos; [exact Hd | apply Z.pow_pos_nonneg; lia]. }
  pose proof (Z.div_mod N D ltac:(lia)) as E.
  pose proof (Z.mod_pos_bound N D HD) as B.
  set (q := N / D) in *. set (r := N mod D) in *.
  destruct ((D <? 2 * r) || ((D =? 2 * r) && Z.odd q)) eqn:T.
  - assert (D <= 2 * r).
    { apply orb_true_iff in T. destruct T as [T | T].
      - apply Z.ltb_lt in T. lia.
      - apply andb_true_iff in T. destruct T as [T _]. apply Z.eqb_eq in T. lia. }
    replace ((q + 1) * D - N) with (D - r) by lia. lia.
  - apply orb_false_iff in T. destruct T as [T _]. apply Z.ltb_ge in T.
    replace (q * D - N) with (- r) by lia. lia.
Qed.

Lemma scaled_ge_52 a d e :
  0 < a -> 0 < d -> e <= Z.log2 a - Z.log2 d - 53 ->
  d * 2 ^ Z.max 0 e * 2 ^ 52 <= a * 2 ^ Z.max 0 (- e).
Proof.
  intros Ha Hd He.
  pose proof (Z.log2_spec a Ha) as [La _].
  pose proof (Z.log2_spec d Hd) as [_ Ld].
  pose proof (Z.log2_nonneg a) as Na. pose proof (Z.log2_nonneg d) as Nd.
  apply Z.le_trans with (2 ^ Z.succ (Z.log2 d) * 2 ^ Z.max 0 e * 2 ^ 52).
  { apply Z.mul_le_mono_nonneg_r; [lia |].
    apply Z.mul_le_mono_nonneg_r; [apply Z.pow_nonneg; lia | lia]. }
  apply Z.le_trans with (2 ^ Z.log2 a * 2 ^ Z.max 0 (- e)).
  2:{ apply Z.mul_le_mono_nonneg_r; [apply Z.pow_nonneg; lia | lia]. }
  rewrite <- !Z.pow_add_r by lia.
  apply Z.pow_le_mono_r; lia.
Qed.

Lemma b64_scaled a d :
  0 < a -> 0 < d ->
  let e := Num.b64_exp a d in
  d * 2 ^ Z.max 0 e * 2 ^ 52 <= a * 2 ^ Z.max 0 (- e).
Proof.
  intros Ha Hd. unfold Num.b64_exp. cbv zeta.
  set (e0 := Z.log2 a - Z.log2 d - 52).
  destruct (_ <? _) eqn:T.
  - apply scaled_ge_52; [exact Ha | exact Hd | lia].
  - apply Z.ltb_ge in T.
    set (N := a * 2 ^ Z.max 0 (- e0)) in *.
    set (D := d * 2 ^ Z.max 0 e0) in *.
    assert (HD : 0 < D).
    { unfold D. apply Z.mul_pos_pos; [exact Hd | apply Z.pow_pos_nonneg; lia]. }
    pose proof (Z.mul_div_le N D HD).
    apply Z.le_trans with (D * (N / D)); [| lia].
    apply Z.mul_le_mono_nonneg_l; lia.
Qed.

(** the significand times the scale is within 2^-53 of the number *)
Lemma b64_sig_rel a d :
  0 < a -> 0 < d ->
  let e := Num.b64_exp a d in
  let N := a * 2 ^ Z.max 0 (- e) in
  let D := d * 2 ^ Z.max 0 e in
  Z.abs (Num.b64_sig a d e * D - N) * 2 ^ 53 <= N.
Proof.
  intros Ha Hd e N D.
  pose proof (b64_sig_near a d e Hd) as H1. cbv zeta in H1. fold N D in H1.
  pose proof (b64_scaled a d Ha Hd) as H2. cbv zeta in H2. fold e N D in H2.
  change (2 ^ 53) with (2 * 2 ^ 52). change (2 ^ 52) with 4503599627370496 in *.
  lia.
Qed.

Lemma Qred_zero x : Qnum (Qred x) = 0 -> Qden (Qred x) = 1%positive.
Proof.
  intros H.
  assert (E : (Qred x == 0)%Q) by (unfold Qeq; rewrite H; reflexivity).
  apply Qred_complete in E. rewrite Qcanon.Qred_involutive in E.
  rewrite E. reflexivity.
Qed.

Lemma frac_near (s m P P' n d a : Z) (dp : positive) :
  0 < P -> 0 < P' -> 0 < a -> d = Zpos dp ->
  (s = 1 \/ s = -1) -> n = s * a ->
  Z.abs (m * (d * P) - a * P') * 9007199254740992 <= a * P' ->
  (Qabs ((s * m * P # Z.to_pos P') - (n # dp))
   <= Qabs (n # dp) * (1 # 9007199254740992))%Q.
Proof.
  intros HP HP' Ha Hd Hs Hn K.
  apply Qabs_Qle_condition.
  assert (Qabs (n # dp) = (a # dp)) as ->.
  { unfold Qabs. f_equal. destruct Hs; subst; lia. }
  unfold Qle, Qminus, Qplus, Qopp, Qmult. cbn [Qnum Qden].
  rewrite !Pos2Z.inj_mul, !Z2Pos.id by exact HP'. rewrite <- Hd.
  assert (Hdd : 0 < d) by lia.
  set (B := 9007199254740992) in *.
  set (X := m * (d * P) - a * P') in *.
  assert (HX : (s * m * P * d + - n * P') = s * X).
  { unfold X. subst n. ring. }
  rewrite HX.
  assert (HPd : 0 < P' * d) by (apply Z.mul_pos_pos; assumption).
  assert (Hd2 : 0 < d * B) by (apply Z.mul_pos_pos; [assumption | reflexivity]).
  assert (HsX : Z.abs (s * X) = Z.abs X) by (destruct Hs; subst s; lia).
  assert (K' : Z.abs (s * X) * B <= a * P') by (rewrite HsX; exact K).
  clearbody X. clear HX HsX K.
  set (Y := s * X) in *. clearbody Y.
  split.
  - (* -(a*1) * (P' d) <= Y * (d B)  *)
    replace (- (a * 1) * (P' * d)) with (- (a * P') * d) by ring.
    replace (Y * (d * B)) with ((Y * B) * d) by ring.
    apply Z.mul_le_mono_nonneg_r; lia.
  - replace (a * 1 * (P' * d)) with ((a * P') * d) by ring.
    replace (Y * (d * B)) with ((Y * B) * d) by ring.
    apply Z.mul_le_mono_nonneg_r; lia.
Qed.

(** rounding changes a number by at most its 2^53th part *)
Lemma b64_rel x :
  (Qabs (Num.b64 x - x) <= Qabs x * (1 # 9007199254740992))%Q.
Proof.
  unfold Num.b64. cbv zeta.
  pose proof (Qred_correct x) as Hx.
  pose proof (Qred_zero x) as H0.
  set (y := Qred x) in *. rewrite <- Hx. clearbody y. clear Hx x.
  destruct ((Zpos (Qden y) =? 1) && (Z.abs (Qnum y) <=? 9007199254740992)) eqn:F.
  - assert (E : (y - y == 0)%Q) by ring. rewrite E. cbn [Qabs Z.abs].
    apply Qmult_le_0_compat; [apply Qabs_nonneg | discriminate].
  - rewrite Qred_correct.
    destruct y as [n dp]. cbn [Qnum Qden] in *.
    assert (Hn0 : n <> 0).
    { intros ->. rewrite (H0 eq_refl) in F. discriminate F. }
    set (a := Z.abs n) in *. set (d := Zpos dp) in *.
    assert (Ha : 0 < a) by (unfold a; lia).
    assert (Hd : 0 < d) by (unfold d; lia).
    pose proof (b64_sig_rel a d Ha Hd) as K. cbv zeta in K.
    set (e := Num.b64_exp a d) in *.
    set (m := Num.b64_sig a d e) in *.
    change (2 ^ 53) with 9007199254740992 in K.
    assert (HP : 0 < 2 ^ Z.max 0 e) by (apply Z.pow_pos_nonneg; lia).
    assert (HP' : 0 < 2 ^ Z.max 0 (- e)) by (apply Z.pow_pos_nonneg; lia).
    destruct (n <? 0) eqn:S.
    + apply Z.ltb_lt in S.
      replace (- m * 2 ^ Z.max 0 e) with (-1 * m * 2 ^ Z.max 0 e) by ring.
      apply (frac_near (-1) m _ _ n d a dp HP HP' Ha eq_refl);
        [right; reflexivity | unfold a; lia | exact K].
    + apply Z.ltb_ge in S.
      replace (m * 2 ^ Z.max 0 e) with (1 * m * 2 ^ Z.max 0 e) by ring.
      apply (frac_near 1 m _ _ n d a dp HP HP' Ha eq_refl);
        [left; reflexivity | unfold a; lia | exact K].
Qed.

(** the error of a rounding, for a number bounded by [M] *)
Lemma b64_near x M :
  (- M <= x <= M)%Q ->
  (- (M * (1 # 9007199254740992)) <= Num.b64 x - x
   <= M * (1 # 9007199254740992))%Q.
Proof.
  intros H. apply Qabs_Qle_condition.
  apply Qle_trans with (Qabs x * (1 # 9007199254740992))%Q; [apply b64_rel |].
  apply Qmult_le_compat_r; [| discriminate].
  apply Qabs_Qle_condition. exact H.
Qed.

(** the sum of two integers is exact as long as it has at most 53 bits *)
Lemma Num_add_Z (a b : Z) :
  Z.abs (a + b) <= 9007199254740992 -> Num.add a b = num_of_Z (a + b).
Proof.
  intros H. unfold Num.add, num_of_Z. f_equal.
  rewrite <- (b64_Z (a + b) H). apply b64_comp.
  rewrite inject_Z_plus. reflexivity.
Qed.

Lemma Num_floor_Z (a : Z) : Num.floor a = num_of_Z a.
Proof. unfold Num.floor, num_of_Z. rewrite Qfloor_Z. reflexivity. Qed.

Lemma Num_isInteger_Z (a : Z) : Num.isInteger a = true.
Proof.
  unfold Num.isInteger, num_of_Z. rewrite Qfloor_Z. apply Qeq_bool_refl.
Qed.

(** ** The validator on integers *)

Lemma sanitize_Z (z : Z) type :
  InputValidator.sanitize (VNum z) type = VNum z.
Proof.
  destruct type;
    unfold InputValidator.sanitize, InputValidator.sanitize_integer,
      InputValidator.sanitize_number;
    cbn [num_of_Z Num.isNaN negb Num.floor]; rewrite Qfloor_Z; reflexivity.
Qed.

Lemma validated_value env v type :
  InputValidator.sanitizedValue (InputValidator.validate env v type)
  = InputValidator.sanitize v type.
Proof.
  unfold InputValidator.validate.
  destruct (_ && _); [reflexivity |].
  destruct (_ && _); [reflexivity |].
  destruct (InputValidator.sanitize v type) as [| | | [| q] | | |]; reflexivity.
Qed.

Lemma validateQuantity_Z env (z : Z) :
  InputValidator.validateQuantity env (VNum z)
  = if (0 <=? z) && (z <=? 999) then InputValidator.mkResult true [] (VNum z)
    else InputValidator.mkResult false
           ((if z <? 0 then ["Value is too small (minimum: 0)"] else [])
            ++ (if 999 <? z then ["Value is too large (maximum: 999)"] else [])
            ++ (if (z =? 0) || (0 <? z) then [] else ["Validation failed"]))%list
           (VNum z).
Proof.
  unfold InputValidator.validateQuantity, InputValidator.validate.
  rewrite sanitize_Z. cbn [InputValidator.rules InputValidator.required
    InputValidator.min InputValidator.max InputValidator.integer
    InputValidator.custom InputValidator.is_empty andb negb num_of_Z].
  change (Fin (inject_Z z)) with (num_of_Z z).
  change (Fin (inject_Z 0)) with (num_of_Z 0).
  change (Fin (inject_Z 999)) with (num_of_Z 999).
  rewrite Num_lt_Z, Num_gt_Z, Num_isInteger_Z, Num_eqb_Z, Num_gt_Z.
  destruct (z <? 0) eqn:E1; destruct (999 <? z) eqn:E2;
    destruct (z =? 0) eqn:E3; destruct (0 <? z) eqn:E4;
    destruct (0 <=? z) eqn:E5; destruct (z <=? 999) eqn:E6;
    try reflexivity; exfalso; lia.
Qed.

Lemma validateProductId_Z env (z : Z) :
  valid_id env z = true ->
  InputValidator.validateProductId env (VNum z)
  = InputValidator.mkResult true [] (VNum z).
Proof.
  unfold valid_id, resolves. intros H. apply andb_true_iff in H.
  destruct H as [H1 H2].
  unfold InputValidator.validateProductId, InputValidator.validate.
  rewrite sanitize_Z. cbn [InputValidator.rules InputValidator.required
    InputValidator.min InputValidator.max InputValidator.integer
    InputValidator.custom InputValidator.is_empty andb negb num_of_Z obind].
  change (Fin (inject_Z z)) with (num_of_Z z).
  change (Fin (inject_Z 1)) with (num_of_Z 1).
  rewrite Num_lt_Z, Num_isInteger_Z.
  destruct (ProductsModule.getProductById env (VNum z)) as [[p |] | e];
    try discriminate.
  destruct (z <? 1) eqn:E; [exfalso; lia |]. reflexivity.
Qed.

(** ** What saving leaves alone, and that it never throws *)

Lemma preserves_True {A : Type} (m : M A) : preserves (fun _ => True) m.
Proof. intros w _. exact I. Qed.

#[export] Hint Resolve preserves_True : pres.

Lemma safe_total {A : Type} (m : M A) : safe (fun _ => True) m -> total m.
Proof. intros H w. apply (H w I). Qed.

Lemma notify_total event data : safe (fun _ => True) (CartModule._notifyListeners event data).
Proof. unfold CartModule._notifyListeners. pres. Qed.

#[export] Hint Resolve notify_total : pres.

Lemma handleStorageError_total e :
  safe (fun _ => True) (CartModule._handleStorageError e).
Proof. unfold CartModule._handleStorageError. pres. Qed.

Lemma report_total env e c : safe (fun _ => True) (CartModule.report env e c).
Proof. unfold CartModule.report. pres. Qed.

#[export] Hint Resolve handleStorageError_total report_total : pres.

Lemma saveToStorage_total env : total (CartModule.saveToStorage env).
Proof. apply safe_total. unfold CartModule.saveToStorage. pres. Qed.

Lemma saveToStorage_same_cart env w :
  same_cart w (exec (CartModule.saveToStorage env) w).
Proof.
  apply (saveToStorage_keeps (same_cart w)); unfold same_cart; tauto.
Qed.

Lemma map_delete_has k its :
  CartModule.map_has k (CartModule.map_delete k its) = false.
Proof.
  unfold CartModule.map_has, CartModule.map_delete.
  induction its as [| kv r IH]; simpl; [reflexivity |].
  destruct (CartModule.key_is k kv) eqn:E; simpl; [exact IH |].
  rewrite E. exact IH.
Qed.

Lemma map_delete_absent k its :
  CartModule.map_has k its = false -> CartModule.map_delete k its = its.
Proof.
  unfold CartModule.map_has, CartModule.map_delete.
  induction its as [| kv r IH]; simpl; [reflexivity |].
  destruct (CartModule.key_is k kv); simpl; [discriminate |].
  intros H. rewrite (IH H). reflexivity.
Qed.

Lemma map_get_has k its :
  CartModule.map_has k its
  = match CartModule.map_get k its with Some _ => true | None => false end.
Proof.
  unfold CartModule.map_has, CartModule.map_get.
  induction its as [| kv r IH]; simpl; [reflexivity |].
  destruct (CartModule.key_is k kv); simpl; [reflexivity | exact IH].
Qed.

(** ** Removal *)

Lemma removeItem_unfold env productId w :
  CartModule.removeItem env productId w
  = if accepted_id productId then
      if CartModule.map_has productId (items w)
      then CartModule.saveToStorage env (removed productId w)
      else (Ok tt, w)
    else (Throw (error "Product ID must be a positive number"), w).
Proof.
  unfold CartModule.removeItem, accepted_id.
  destruct productId as [| | b | n | s | l | f]; try reflexivity.
  destruct (Num.le n 0); [reflexivity |]. simpl.
  unfold bind at 1. unfold gets at 1. cbv beta iota.
  destruct (CartModule.map_has (VNum n) (items w)); reflexivity.
Qed.

(** C10, the claim as it stands, fails: 1.5 is not a positive integer,
    and [removeItem(1.5)] returns. *)
Lemma removeItem_accepts_a_fraction :
  ~ (returns (result (CartModule.removeItem browser (VNum (dec 15 1)))
                (fresh (mkClock 0 "1970-01-01T00:00:00.000Z"))) = false
     <-> positive_integer (VNum (dec 15 1)) = false).
Proof.
  intros [_ H]. specialize (H eq_refl). vm_compute in H. discriminate.
Qed.

(** C10, amended. [removeItem(productId)] raises exactly when [productId]
    is not a number or is [<= 0]. When it is accepted and the cart has
    the entry, the entry is deleted, the listeners are told [itemRemoved]
    and [saveToStorage] runs on that world; when the cart has no such
    entry the world stays as it is. In both cases the call returns and
    the cart has no entry for [productId] afterwards. *)
Theorem removeItem_outcome env productId w :
  let r := CartModule.removeItem env productId w in
  returns (fst r) = accepted_id productId
  /\ snd r
     = (if accepted_id productId && CartModule.map_has productId (items w)
        then exec (CartModule.saveToStorage env) (removed productId w)
        else w)
  /\ items (snd r)
     = (if accepted_id productId
        then CartModule.map_delete productId (items w) else items w)
  /\ (if accepted_id productId
      then CartModule.map_has productId (items (snd r)) = false
      else snd r = w).
Proof.
  cbv zeta. rewrite removeItem_unfold.
  destruct (accepted_id productId); simpl; [| repeat split].
  destruct (CartModule.map_has productId (items w)) eqn:Hhas; simpl.
  - pose proof (saveToStorage_total env (removed productId w)) as Ht.
    pose proof (saveToStorage_same_cart env (removed productId w)) as [Hi _].
    unfold exec in *. repeat split; try assumption.
    rewrite Hi. simpl. apply map_delete_has.
  - rewrite (map_delete_absent _ _ Hhas). repeat split. exact Hhas.
Qed.

(** ** Quantity zero *)

(** the validation at the head of [addItem] and [updateQuantity] on an
    integer id and an integer quantity within the range of the rules *)
Lemma validated_Z env (id q : Z) w :
  (validation_loaded env = true -> valid_id env id = true) ->
  0 <= q <= 999 ->
  CartModule.validated env (VNum id) (VNum q) w
  = if validation_loaded env || (0 <? id)
    then (Ok (VNum id, VNum q), w)
    else (Throw (error "Product ID must be a positive number"), w).
Proof.
  intros Hid Hq. unfold CartModule.validated.
  destruct (validation_loaded env) eqn:Hv; cbv iota.
  - rewrite (validateProductId_Z env id (Hid eq_refl)).
    rewrite validateQuantity_Z.
    replace ((0 <=? q) && (q <=? 999)) with true
      by (symmetry; apply andb_true_iff; split; apply Z.leb_le; lia).
    reflexivity.
  - cbv beta iota. change (Fin (inject_Z id)) with (num_of_Z id).
    change (Fin (inject_Z q)) with (num_of_Z q).
    rewrite (Num_le_Z id 0), (Num_lt_Z q 0), Num_isInteger_Z.
    destruct (id <=? 0) eqn:E1; destruct (0 <? id) eqn:E2; try lia;
      try reflexivity.
    destruct (q <? 0) eqn:E3; [lia | reflexivity].
Qed.

(** C2, the claim as it stands, fails: on a cart without an entry for
    product 1, [updateQuantity(1, 0)] raises and [removeItem(1)] returns. *)
Lemma updateQuantity_zero_raises_without_entry :
  let w := fresh (mkClock 0 "1970-01-01T00:00:00.000Z") in
  result (CartModule.updateQuantity browser (VNum 1) (VNum 0)) w
  = Throw (error "Product with ID 1 not found in cart")
  /\ result (CartModule.removeItem browser (VNum 1)) w = Ok tt.
Proof. split; vm_compute; reflexivity. Qed.

Lemma updateQuantity_zero_unfold env (id : Z) w :
  (validation_loaded env = true -> valid_id env id = true) ->
  CartModule.updateQuantity env (VNum id) (VNum 0) w
  = if validation_loaded env || (0 <? id) then
      match CartModule.map_get (VNum id) (items w) with
      | Some _ => CartModule.removeItem env (VNum id) w
      | None =>
          (Throw (error ("Product with ID " ++ js_String (VNum id)
                           ++ " not found in cart")), w)
      end
    else (Throw (error "Product ID must be a positive number"), w).
Proof.
  intros Hid. unfold CartModule.updateQuantity. unfold bind at 1.
  rewrite (validated_Z env id 0 w Hid) by lia.
  destruct (validation_loaded env || (0 <? id)); [| reflexivity].
  cbv beta iota. simpl fst. simpl snd.
  unfold bind at 1. unfold gets at 1. cbv beta iota.
  destruct (CartModule.map_get (VNum id) (items w)); reflexivity.
Qed.

(** C2, amended. For an integer product id that the validator accepts
    (when the validator is loaded): if the cart has an entry for the id,
    [updateQuantity(id, 0)] is [removeItem(id)], with the same result and
    the same final world; if it has none, [updateQuantity(id, 0)] raises
    and leaves the world as it is, whereas [removeItem(id)] returns
    without any effect when the id is positive. *)
Theorem updateQuantity_zero_is_removeItem env (id : Z) w :
  (validation_loaded env = true -> valid_id env id = true) ->
  if CartModule.map_has (VNum id) (items w)
  then CartModule.updateQuantity env (VNum id) (VNum 0) w
       = CartModule.removeItem env (VNum id) w
  else returns (fst (CartModule.updateQuantity env (VNum id) (VNum 0) w)) = false
       /\ snd (CartModule.updateQuantity env (VNum id) (VNum 0) w) = w
       /\ CartModule.removeItem env (VNum id) w
          = if 0 <? id then (Ok tt, w)
            else (Throw (error "Product ID must be a positive number"), w).
Proof.
  intros Hid.
  assert (Hacc : accepted_id (VNum id) = (0 <? id)).
  { unfold accepted_id. rewrite (Num_le_Z id 0).
    destruct (id <=? 0) eqn:E1; destruct (0 <? id) eqn:E2; try lia; reflexivity. }
  assert (Hpos : validation_loaded env = true -> (0 <? id) = true).
  { intros Hv. specialize (Hid Hv). unfold valid_id in Hid.
    apply andb_true_iff in Hid. destruct Hid as [H1 _].
    apply Z.ltb_lt. apply Z.leb_le in H1. lia. }
  rewrite (updateQuantity_zero_unfold env id w Hid).
  rewrite removeItem_unfold, Hacc, map_get_has.
  destruct (CartModule.map_get (VNum id) (items w)) as [cartItem |].
  - destruct (0 <? id) eqn:H0.
    + rewrite orb_true_r. reflexivity.
    + destruct (validation_loaded env); [| reflexivity].
      specialize (Hpos eq_refl). discriminate.
  - destruct (validation_loaded env || (0 <? id)); repeat split.
Qed.

Lemma updateQuantity_zero_is_removeItem_witness :
  let w := exec (CartModule.addItem browser (VNum 1) (VNum 2))
             (fresh (mkClock 0 "1970-01-01T00:00:00.000Z")) in
  CartModule.updateQuantity browser (VNum 1) (VNum 0) w
  = CartModule.removeItem browser (VNum 1) w.
Proof.
  intros w.
  exact (updateQuantity_zero_is_removeItem browser 1 w (fun _ => eq_refl)).
Defined.

(** ** Adding *)

Ltac mrun :=
  cbv beta iota delta [bind gets lift modify ret throw try_catch attempt
                         DataRecovery.now].

Lemma map_set_absent (n : num) v its :
  CartModule.map_get (VNum n) its = None ->
  CartModule.map_set (VNum n) v its = (its ++ [(n, v)])%list.
Proof.
  unfold CartModule.map_get.
  induction its as [| kv r IH]; cbn [List.find CartModule.map_set app];
    [reflexivity |].
  destruct (CartModule.key_is (VNum n) kv); cbn [option_map]; intros H;
    [discriminate H |].
  rewrite (IH H). reflexivity.
Qed.

Lemma key_is_refl (n : num) v : CartModule.key_is (VNum n) (n, v) = true.
Proof.
  unfold CartModule.key_is. simpl. destruct n as [| q]; simpl;
    [reflexivity | apply Qeq_bool_refl].
Qed.

Lemma map_get_set (n : num) v its :
  CartModule.map_get (VNum n) (CartModule.map_set (VNum n) v its) = Some v.
Proof.
  unfold CartModule.map_get.
  induction its as [| kv r IH]; cbn [List.find CartModule.map_set].
  - rewrite key_is_refl. reflexivity.
  - destruct (CartModule.key_is (VNum n) kv) eqn:E; cbn [List.find].
    + assert (CartModule.key_is (VNum n) (fst kv, v) = true) as ->
        by (destruct kv; exact E).
      reflexivity.
    + rewrite E. exact IH.
Qed.

Lemma key_is_same (a b c : num) kv :
  Num.same a b = false ->
  CartModule.key_is (VNum a) kv = true ->
  CartModule.key_is (VNum b) kv = false.
Proof.
  unfold CartModule.key_is. destruct kv as [k x]. simpl.
  destruct k as [| k], a as [| a], b as [| b]; simpl; try congruence.
  intros Hab Hka. destruct (Qeq_bool k b) eqn:Hkb; [| reflexivity].
  apply Qeq_bool_iff in Hka, Hkb.
  assert (Qeq_bool a b = true) as Habt.
  { apply Qeq_bool_iff. rewrite <- Hka. exact Hkb. }
  congruence.
Qed.

Lemma map_get_set_other (a b : num) v its :
  Num.same a b = false ->
  CartModule.map_get (VNum b) (CartModule.map_set (VNum a) v its)
  = CartModule.map_get (VNum b) its.
Proof.
  intros Hab. unfold CartModule.map_get.
  induction its as [| kv r IH]; cbn [List.find CartModule.map_set].
  - assert (CartModule.key_is (VNum b) (a, v) = false) as ->.
    { apply (key_is_same a b a); [exact Hab | apply key_is_refl]. }
    reflexivity.
  - destruct (CartModule.key_is (VNum a) kv) eqn:E; cbn [List.find].
    + rewrite (key_is_same a b a kv Hab E).
      assert (CartModule.key_is (VNum b) (fst kv, v) = false) as ->.
      { apply (key_is_same a b a); [exact Hab |].
        destruct kv; exact E. }
      reflexivity.
    + destruct (CartModule.key_is (VNum b) kv); [reflexivity | exact IH].
Qed.

Lemma CartItem_new_Z t (id q : Z) :
  1 <= id -> 0 <= q ->
  CartItem.new t (VNum id) (VNum q) = Ok (CartItem.mk id q (VStr t)).
Proof.
  intros Hid Hq. unfold CartItem.new, CartItem.check.
  cbv beta iota zeta.
  assert (Num.truthy id = true) as ->.
  { unfold Num.truthy, num_of_Z. change 0%Q with (inject_Z 0).
    rewrite Qeq_bool_inject_Z. destruct (id =? 0) eqn:E; [lia | reflexivity]. }
  change (Fin (inject_Z q)) with (num_of_Z q).
  rewrite (Num_lt_Z q 0), Num_isInteger_Z.
  destruct (q <? 0) eqn:E; [lia | reflexivity].
Qed.

Lemma CartItem_updateQuantity_Z item (q : Z) :
  0 <= q ->
  CartItem.updateQuantity item (VNum q)
  = Ok (CartItem.mk (CartItem.productId item) q (CartItem.addedAt item)).
Proof.
  intros Hq. unfold CartItem.updateQuantity.
  change (Fin (inject_Z q)) with (num_of_Z q).
  rewrite (Num_lt_Z q 0), Num_isInteger_Z.
  destruct (q <? 0) eqn:E; [lia | reflexivity].
Qed.

(** the world in which [addItem] calls [saveToStorage] *)
Lemma addItem_enters env (id q : Z) w :
  valid_id env id = true -> 1 <= q <= 999 ->
  exists product,
    ProductsModule.getProductById env (VNum id) = Ok (Some product)
    /\ CartModule.validated env (VNum id) (VNum q) w = (Ok (VNum id, VNum q), w)
    /\ strict_eq_num (VNum q) 0 = false.
Proof.
  intros Hid Hq. pose proof Hid as Hid'. unfold valid_id in Hid'.
  apply andb_true_iff in Hid'. destruct Hid' as [H1 H2].
  unfold resolves in H2.
  destruct (ProductsModule.getProductById env (VNum id)) as [[p |] | e] eqn:E;
    try discriminate.
  exists p. split; [reflexivity |]. split.
  - rewrite validated_Z by (auto; lia).
    assert ((0 <? id) = true) as -> by (apply Z.ltb_lt; apply Z.leb_le in H1; lia).
    rewrite orb_true_r. reflexivity.
  - unfold strict_eq_num. rewrite Num_eqb_Z. apply Z.eqb_neq. lia.
Qed.

Lemma addItem_creates env (id q : Z) w :
  valid_id env id = true -> 1 <= q <= 999 ->
  CartModule.map_get (VNum id) (items w) = None ->
  CartModule.addItem env (VNum id) (VNum q) w
  = (Ok tt,
     exec (CartModule.saveToStorage env)
       (notified "itemAdded" (VObj [("productId", VNum id); ("quantity", VNum q)])
          (with_items
             (items w ++ [(num_of_Z id,
                           CartItem.mk id q (VStr (iso (clock w))))])%list w))).
Proof.
  intros Hid Hq Hget.
  destruct (addItem_enters env id q w Hid Hq) as (p & Hp & Hv & H0).
  unfold CartModule.addItem. cbv zeta. unfold bind at 1. rewrite Hv.
  cbv beta iota. cbn [fst snd]. unfold CartModule.add_validated.
  rewrite H0. cbv iota.
  unfold bind at 1, lift at 1. rewrite Hp. cbv beta iota.
  mrun. rewrite Hget. cbv beta iota.
  rewrite CartItem_new_Z
    by (unfold valid_id in Hid; apply andb_true_iff in Hid;
        destruct Hid as [Hid _]; apply Z.leb_le in Hid; lia).
  cbv beta iota. cbn [items with_items].
  rewrite (map_set_absent _ _ _ Hget).
  unfold CartModule._notifyListeners at 1. mrun.
  unfold exec, notified.
  match goal with |- context [CartModule.saveToStorage env ?w2] =>
    pose proof (saveToStorage_total env w2) as Ht;
    destruct (CartModule.saveToStorage env w2) as [[[] | e] w3] end.
  - reflexivity.
  - discriminate.
Qed.

(** a sum of integers above a small bound is an integer above it,
    rounded or not *)
Lemma Num_add_above (a b m : Z) :
  0 <= m < 9007199254740992 -> m < a + b ->
  exists z, Num.add a b = num_of_Z z /\ m < z.
Proof.
  intros Hm H. destruct (Z_le_gt_dec (a + b) 9007199254740992) as [L | G].
  - exists (a + b). split; [apply Num_add_Z; lia | exact H].
  - destruct (b64_big (a + b)) as (z & E & Hz); [lia |].
    exists z. split; [| lia].
    unfold Num.add, num_of_Z. f_equal. rewrite <- E. apply b64_comp.
    rewrite inject_Z_plus. reflexivity.
Qed.

Lemma js_plus_Z (a b : Z) :
  Z.abs (a + b) <= 9007199254740992 ->
  js_plus (VNum a) (VNum b) = VNum (num_of_Z (a + b)).
Proof.
  intros H. unfold js_plus. cbn [joins_as_text orb primitive_to_number].
  rewrite Num_add_Z by exact H. reflexivity.
Qed.

Lemma addItem_merges env (id q q0 : Z) item w :
  valid_id env id = true -> 1 <= q <= 999 ->
  CartModule.map_get (VNum id) (items w) = Some item ->
  CartItem.quantity item = num_of_Z q0 -> 0 <= q0 ->
  q0 + q <= 9007199254740992 ->
  (validation_loaded env = true -> q0 + q <= 999) ->
  CartModule.addItem env (VNum id) (VNum q) w
  = (Ok tt,
     exec (CartModule.saveToStorage env)
       (notified "itemAdded" (VObj [("productId", VNum id); ("quantity", VNum q)])
          (with_items
             (CartModule.map_set (VNum id)
                (CartItem.mk (CartItem.productId item) (q0 + q)
                   (CartItem.addedAt item)) (items w)) w))).
Proof.
  intros Hid Hq Hget Hq0 Hq0' Hmax Hsum.
  destruct (addItem_enters env id q w Hid Hq) as (p & Hp & Hv & H0).
  unfold CartModule.addItem. cbv zeta. unfold bind at 1. rewrite Hv.
  cbv beta iota. cbn [fst snd]. unfold CartModule.add_validated.
  rewrite H0. cbv iota.
  unfold bind at 1, lift at 1. rewrite Hp. cbv beta iota.
  mrun. rewrite Hget. cbv beta iota. rewrite Hq0, js_plus_Z by lia.
  rewrite validateQuantity_Z.
  destruct (validation_loaded env).
  - replace ((0 <=? q0 + q) && (q0 + q <=? 999)) with true
      by (symmetry; apply andb_true_iff; split; apply Z.leb_le;
          specialize (Hsum eq_refl); lia).
    cbn [InputValidator.isValid negb]. cbv beta iota.
    rewrite CartItem_updateQuantity_Z by lia. cbv beta iota.
    unfold CartModule._notifyListeners at 1. mrun. unfold exec, notified.
    match goal with |- context [CartModule.saveToStorage env ?w2] =>
      pose proof (saveToStorage_total env w2) as Ht;
      destruct (CartModule.saveToStorage env w2) as [[[] | e] w3] end;
      [reflexivity | discriminate].
  - cbv beta iota.
    rewrite CartItem_updateQuantity_Z by lia. cbv beta iota.
    unfold CartModule._notifyListeners at 1. mrun. unfold exec, notified.
    match goal with |- context [CartModule.saveToStorage env ?w2] =>
      pose proof (saveToStorage_total env w2) as Ht;
      destruct (CartModule.saveToStorage env w2) as [[[] | e] w3] end;
      [reflexivity | discriminate].
Qed.

Lemma addItem_rejects env (id q q0 : Z) item w :
  valid_id env id = true -> 1 <= q <= 999 ->
  CartModule.map_get (VNum id) (items w) = Some item ->
  CartItem.quantity item = num_of_Z q0 -> 0 <= q0 ->
  validation_loaded env = true -> 999 < q0 + q ->
  CartModule.addItem env (VNum id) (VNum q) w
  = (Throw (error "Failed to add item to cart: Total quantity would be invalid: Value is too large (maximum: 999)"),
     w).
Proof.
  intros Hid Hq Hget Hq0 Hq0' Hv Hsum.
  destruct (addItem_enters env id q w Hid Hq) as (p & Hp & Hval & H0).
  unfold CartModule.addItem. cbv zeta. unfold bind at 1. rewrite Hval.
  cbv beta iota. cbn [fst snd]. unfold CartModule.add_validated.
  rewrite H0. cbv iota.
  unfold bind at 1, lift at 1. rewrite Hp. cbv beta iota.
  mrun. rewrite Hget. cbv beta iota. rewrite Hq0.
  unfold js_plus. cbn [joins_as_text orb primitive_to_number].
  destruct (Num_add_above q0 q 999) as (z & -> & Hz); [lia | exact Hsum |].
  rewrite validateQuantity_Z, Hv.
  replace ((0 <=? z) && (z <=? 999)) with false
    by (symmetry; apply andb_false_iff; right; apply Z.leb_gt; lia).
  replace (z <? 0) with false by (symmetry; apply Z.ltb_ge; lia).
  replace (999 <? z) with true by (symmetry; apply Z.ltb_lt; lia).
  replace (0 <? z) with true by (symmetry; apply Z.ltb_lt; lia).
  rewrite orb_true_r. reflexivity.
Qed.

(** ** Steps that leave an entry alone *)

Section ItemsKept.

Variable Q : CartModule.Items -> Prop.
Variable env : Env.

Let P (w : World) : Prop := Q (items w).

Lemma saveToStorage_keeps_items : preserves P (CartModule.saveToStorage env).
Proof.
  apply saveToStorage_keeps; intros; assumption.
Qed.

Lemma notify_keeps_items event data :
  preserves P (CartModule._notifyListeners event data).
Proof. apply notify_keeps. intros. assumption. Qed.

Lemma perform_reads_only o : reads_only o = true -> preserves P (perform env o).
Proof.
  destruct o; simpl; try discriminate; intros _;
    unfold discard, CartModule.getCartItems, CartModule.getCartTotal,
      CartModule.getCartCount, CartModule.getCartItem, CartModule.isEmpty,
      CartModule.getCartSummary, CartModule.addListener,
      CartModule.removeListener, CartModule.getCartCount;
    pres;
    try solve [ assumption
              | apply notify_keeps_items
              | apply saveToStorage_keeps_items
              | apply clearStorage_keeps; intros; assumption
              | apply getStorageInfo_keeps; intros; assumption
              | apply handleStorageError_keeps; intros; assumption
              | apply clearStorageData_keeps; intros; assumption
              | apply isStorageAvailable_keeps; intros; assumption ].
  - destruct (existsb _ _); assumption.
  - destruct a; assumption.
Qed.

End ItemsKept.

Lemma validated_integers env (p q : Z) w :
  exists o,
    CartModule.validated env (VNum p) (VNum q) w = (o, w)
    /\ match o with
       | Ok pq => pq = (VNum (num_of_Z p), VNum (num_of_Z q))
       | Throw _ => True
       end.
Proof.
  unfold CartModule.validated. destruct (validation_loaded env).
  - destruct (negb _); [eexists; split; [reflexivity | exact I] |].
    destruct (negb _); [eexists; split; [reflexivity | exact I] |].
    unfold InputValidator.validateProductId, InputValidator.validateQuantity.
    rewrite !validated_value, !sanitize_Z. eexists; split; reflexivity.
  - cbv beta iota.
    destruct (Num.le _ _); [eexists; split; [reflexivity | exact I] |].
    destruct (_ || _); eexists; split; reflexivity.
Qed.

Lemma add_validated_keeps_entry env (id p : Z) quantity r :
  p <> id ->
  preserves (fun w => CartModule.map_get (VNum id) (items w) = r)
    (CartModule.add_validated env (VNum p) quantity).
Proof.
  intros Hne.
  assert (Hsame : Num.same p id = false)
    by (rewrite Num_same_Z; apply Z.eqb_neq; exact Hne).
  unfold CartModule.add_validated. pres;
    try solve [ cbn [items with_items]; rewrite map_get_set_other; assumption
              | apply (notify_keeps_items
                         (fun its => CartModule.map_get (VNum id) its = r))
              | apply (saveToStorage_keeps_items
                         (fun its => CartModule.map_get (VNum id) its = r)) ].
Qed.

Lemma addItem_keeps_entry env (id p q : Z) r :
  p <> id ->
  preserves (fun w => CartModule.map_get (VNum id) (items w) = r)
    (CartModule.addItem env (VNum p) (VNum q)).
Proof.
  intros Hne w Hw. unfold CartModule.addItem. cbv zeta. unfold bind at 1.
  destruct (validated_integers env p q w) as (o & E & Ho). rewrite E.
  destruct o as [pq | e]; [| exact Hw]. subst pq. cbn [fst snd].
  apply add_validated_keeps_entry; assumption.
Qed.

(** ** Sums of additions *)

Lemma added_nonneg id steps :
  forallb (admissible id) steps = true -> 0 <= added steps.
Proof.
  induction steps as [| s r IH]; simpl; [lia |].
  intros H. apply andb_true_iff in H. destruct H as [Hs Hr].
  specialize (IH Hr). destruct s as [q | p q | o]; simpl in *; try assumption.
  apply andb_true_iff in Hs. destruct Hs as [H1 _]. apply Z.leb_le in H1. lia.
Qed.

Lemma largest_quantity_le env n :
  n <= largest_quantity env ->
  n <= 9007199254740992 /\ (validation_loaded env = true -> n <= 999).
Proof.
  unfold largest_quantity. destruct (validation_loaded env); intros H.
  - split; [lia | intros _; exact H].
  - split; [exact H | discriminate].
Qed.

Lemma add_step_holds env id q q0 w :
  valid_id env id = true -> 1 <= q <= 999 ->
  holds id q0 w ->
  q0 + q <= largest_quantity env ->
  holds id (q0 + q)
    (exec (CartModule.addItem env (VNum (num_of_Z id)) (VNum (num_of_Z q))) w).
Proof.
  intros Hid Hq Hw Hsum. unfold holds in *.
  destruct (CartModule.map_get (VNum id) (items w)) as [item |] eqn:Hget.
  - destruct Hw as [Hq0 H1].
    unfold exec.
    apply largest_quantity_le in Hsum. destruct Hsum as [Hmax Hsum].
    rewrite (addItem_merges env id q q0 item w Hid Hq Hget Hq0)
      by (assumption || lia).
    cbn [snd].
    match goal with |- context [exec (CartModule.saveToStorage env) ?w2] =>
      destruct (saveToStorage_same_cart env w2) as [Hi _]; rewrite Hi end.
    cbn [items notified with_calls with_items]. rewrite map_get_set.
    cbn [CartItem.quantity]. split; [reflexivity | lia].
  - subst q0. unfold exec.
    rewrite (addItem_creates env id q w Hid Hq Hget). cbn [snd].
    match goal with |- context [exec (CartModule.saveToStorage env) ?w2] =>
      destruct (saveToStorage_same_cart env w2) as [Hi _]; rewrite Hi end.
    cbn [items notified with_calls with_items].
    rewrite <- (map_set_absent _ _ _ Hget), map_get_set.
    cbn [CartItem.quantity]. split; [reflexivity | lia].
Qed.

Lemma holds_frame id q0 w w' :
  CartModule.map_get (VNum (num_of_Z id)) (items w')
  = CartModule.map_get (VNum (num_of_Z id)) (items w) ->
  holds id q0 w -> holds id q0 w'.
Proof. unfold holds. intros ->. exact (fun H => H). Qed.

Lemma run_adds env id :
  valid_id env id = true ->
  forall steps w q0,
    forallb (admissible id) steps = true ->
    holds id q0 w ->
    q0 + added steps <= largest_quantity env ->
    holds id (q0 + added steps) (run env (map (step_operation id) steps) w).
Proof.
  intros Hid. induction steps as [| s r IH]; intros w q0 Hadm Hw Hsum.
  - simpl. rewrite Z.add_0_r. exact Hw.
  - cbn [forallb] in Hadm. apply andb_true_iff in Hadm.
    destruct Hadm as [Hs Hr]. pose proof (added_nonneg id r Hr) as Hnn.
    cbn [map run fold_left]. fold (run env (map (step_operation id) r)).
    destruct s as [q | p q | o]; cbn [added step_operation admissible] in *.
    + apply andb_true_iff in Hs. destruct Hs as [H1 H2].
      apply Z.leb_le in H1, H2.
      rewrite Z.add_assoc. apply IH; [exact Hr | | lia].
      apply add_step_holds; [exact Hid | lia | exact Hw | lia].
    + apply IH; [exact Hr | | exact Hsum].
      apply (holds_frame id q0 w); [| exact Hw].
      apply (addItem_keeps_entry env id p q
               (CartModule.map_get (VNum id) (items w))); [| reflexivity].
      apply Z.eqb_neq. destruct (p =? id); [discriminate | reflexivity].
    + apply IH; [exact Hr | | exact Hsum].
      apply (holds_frame id q0 w); [| exact Hw].
      apply (perform_reads_only
               (fun its => CartModule.map_get (VNum id) its
                           = CartModule.map_get (VNum id) (items w))
               env o Hs w).
      reflexivity.
Qed.

(** C1, the claim as it stands, fails: 999 and 1 are valid quantities,
    and after [addItem(1, 999)] and [addItem(1, 1)] the quantity is 999,
    not 1000, because the second call raises. *)
Lemma addItem_sum_is_capped :
  let w0 := fresh (mkClock 0 "1970-01-01T00:00:00.000Z") in
  let w1 := exec (CartModule.addItem browser (VNum 1) (VNum 999)) w0 in
  valid_id browser 1 = true
  /\ result (CartModule.addItem browser (VNum 1) (VNum 999)) w0 = Ok tt
  /\ result (CartModule.addItem browser (VNum 1) (VNum 1)) w1
     = Throw (error "Failed to add item to cart: Total quantity would be invalid: Value is too large (maximum: 999)")
  /\ quantity_of 1 (exec (CartModule.addItem browser (VNum 1) (VNum 1)) w1)
     = num_of_Z 999.
Proof. repeat split; vm_compute; reflexivity. Qed.

(** C1, amended. For an integer product id that resolves in the catalog
    and a session of [addItem(id, q)] calls with integer quantities from
    1 to 999, mixed with additions to other products and with steps that
    do not write the entries, on a cart without an entry for the id: when
    the quantities add up to at most [largest_quantity], which is 999,
    the maximum of the validator, and 2^53 without the validator, the
    quantity of the entry is their sum at the end. A call on a cart
    without the entry returns and appends the entry with the time of the
    call. A call on a cart whose entry holds the integer [q0]: with the
    validator and [q0 + q] above 999 it raises and leaves the world as it
    is; otherwise, when [q0 + q] is at most [largest_quantity], it
    returns and replaces the quantity of the entry, where it stands, by
    [q0 + q], keeping its other fields. Above 2^53 the sum of two numbers
    is rounded, and nothing is stated. *)
Theorem addItem_accumulates env (id : Z) :
  valid_id env id = true ->
  (forall steps w,
     forallb (admissible id) steps = true ->
     CartModule.map_get (VNum id) (items w) = None ->
     added steps <= largest_quantity env ->
     let w' := run env (map (step_operation id) steps) w in
     quantity_of id w' = num_of_Z (added steps)
     /\ (0 < added steps ->
         exists item,
           result (CartModule.getCartItem (VNum id)) w' = Ok (Some item)
           /\ CartItem.quantity item = num_of_Z (added steps)))
  /\ (forall (q : Z) w,
        1 <= q <= 999 ->
        CartModule.map_get (VNum id) (items w) = None ->
        let r := CartModule.addItem env (VNum id) (VNum q) w in
        fst r = Ok tt
        /\ items (snd r)
           = (items w ++ [(num_of_Z id,
                           CartItem.mk id q (VStr (iso (clock w))))])%list)
  /\ (forall (q q0 : Z) item w,
        1 <= q <= 999 -> 0 <= q0 ->
        CartModule.map_get (VNum id) (items w) = Some item ->
        CartItem.quantity item = num_of_Z q0 ->
        let r := CartModule.addItem env (VNum id) (VNum q) w in
        if validation_loaded env && (999 <? q0 + q)
        then returns (fst r) = false /\ snd r = w
        else q0 + q <= largest_quantity env ->
             fst r = Ok tt
             /\ items (snd r)
                = CartModule.map_set (VNum id)
                    (CartItem.mk (CartItem.productId item) (q0 + q)
                       (CartItem.addedAt item)) (items w)).
Proof.
  intros Hid. split; [| split].
  - intros steps w Hadm Hget Hsum w'.
    assert (H : holds id (0 + added steps) w').
    { apply run_adds; auto. unfold holds. rewrite Hget. reflexivity. }
    rewrite Z.add_0_l in H. unfold holds in H. unfold quantity_of.
    unfold result, CartModule.getCartItem, gets. cbn [fst].
    destruct (CartModule.map_get (VNum id) (items w')) as [item |].
    + destruct H as [H _]. split; [exact H |]. intros _. exists item.
      split; [reflexivity | exact H].
    + rewrite H. split; [reflexivity |]. intros Hpos. lia.
  - intros q w Hq Hget r. subst r.
    rewrite (addItem_creates env id q w Hid Hq Hget). cbn [fst snd].
    split; [reflexivity |].
    match goal with |- context [exec (CartModule.saveToStorage env) ?w2] =>
      destruct (saveToStorage_same_cart env w2) as [Hi _]; rewrite Hi end.
    reflexivity.
  - intros q q0 item w Hq Hq0 Hget Hitem r. subst r.
    destruct (validation_loaded env && (999 <? q0 + q)) eqn:E.
    + apply andb_true_iff in E. destruct E as [Hv Hbig].
      apply Z.ltb_lt in Hbig.
      rewrite (addItem_rejects env id q q0 item w Hid Hq Hget Hitem Hq0 Hv Hbig).
      split; reflexivity.
    + intros Hmax.
      rewrite (addItem_merges env id q q0 item w Hid Hq Hget Hitem Hq0).
      * cbn [fst snd]. split; [reflexivity |].
        match goal with |- context [exec (CartModule.saveToStorage env) ?w2] =>
          destruct (saveToStorage_same_cart env w2) as [Hi _]; rewrite Hi end.
        reflexivity.
      * apply largest_quantity_le in Hmax. apply Hmax.
      * intros Hv. rewrite Hv in E. cbn [andb] in E.
        apply Z.ltb_ge in E. exact E.
Qed.

Lemma addItem_accumulates_witness :
  valid_id browser 1 = true
  /\ quantity_of 1
       (run browser
          (map (step_operation 1)
             [Add 2; Other (Tick (mkClock 5 "1970-01-01T00:00:00.005Z"));
              AddOther 2 7; Add 3])
          (fresh (mkClock 0 "1970-01-01T00:00:00.000Z")))
     = num_of_Z 5.
Proof.
  split; [reflexivity |].
  apply (proj1 (addItem_accumulates browser 1 eq_refl)
           [Add 2; Other (Tick (mkClock 5 "1970-01-01T00:00:00.005Z"));
            AddOther 2 7; Add 3]
           (fresh (mkClock 0 "1970-01-01T00:00:00.000Z"))).
  - reflexivity.
  - reflexivity.
  - vm_compute. discriminate.
Defined.

(** ** The integer sanitizer *)

(** C9. On a number the integer sanitizer takes [Math.floor]: it rounds
    towards minus infinity, so -2.7 becomes -3 and not -2, whether it
    comes as a number or as text; the rounded value is never above the
    input, whereas a truncation of a negative fraction would be. The
    quantity and the product id are both sanitized so. *)
Theorem integer_sanitizer_rounds_down :
  InputValidator.sanitize (VNum (dec (-27) 1)) InputValidator.quantity
  = VNum (num_of_Z (-3))
  /\ InputValidator.sanitize (VNum (dec (-27) 1)) InputValidator.productId
     = VNum (num_of_Z (-3))
  /\ InputValidator.sanitize (VStr "-2.7") InputValidator.quantity
     = VNum (num_of_Z (-3))
  /\ forall q type,
       exists z,
         InputValidator.sanitize (VNum (Fin q)) type = VNum (num_of_Z z)
         /\ z = Qfloor q
         /\ (inject_Z z <= q)%Q.
Proof.
  split; [reflexivity |]. split; [reflexivity |]. split; [reflexivity |].
  intros q type. exists (Qfloor q). split; [| split].
  - destruct type; reflexivity.
  - reflexivity.
  - apply Qfloor_le.
Qed.

(** ** Data recovery *)

Lemma prop_truthy name v : truthy v = true -> prop name v = Ok (field name v).
Proof. destruct v; simpl; try discriminate; reflexivity. Qed.

Lemma prop_object name v :
  truthy v = true -> DataRecovery.is_object v = true ->
  prop name v = Ok (field name v).
Proof. intros H _. apply prop_truthy, H. Qed.

Lemma cart_validate_usable d :
  DataRecovery.cart_validate d = Ok true -> usable_cart d = true.
Proof.
  unfold DataRecovery.cart_validate.
  destruct (truthy d) eqn:Ht; [| discriminate].
  destruct (DataRecovery.is_object d) eqn:Ho; [| discriminate].
  cbn [negb orb]. rewrite (prop_truthy _ _ Ht). cbn [obind].
  destruct d as [| | b | n | s | l | f]; try discriminate.
  unfold usable_cart, field.
  destruct (assoc "items" f) as [[| | b | n | s | l | g] |]; try discriminate.
  reflexivity.
Qed.

Lemma cart_item_kept_spec item :
  DataRecovery.cart_item_kept item
  = Ok (if both_positive item then
          match field "productId" item, field "quantity" item with
          | VNum p, VNum q => Some (p, q)
          | _, _ => None
          end
        else None).
Proof.
  unfold DataRecovery.cart_item_kept, both_positive.
  destruct (truthy item) eqn:Ht; cbn [negb].
  - rewrite !(prop_truthy _ _ Ht). cbn [obind].
    destruct (field "productId" item) as [| | b | p | s | l | f]; try reflexivity.
    destruct (Num.gt p 0); cbn [negb andb]; [| destruct (field "quantity" item); reflexivity].
    destruct (field "quantity" item) as [| | b | q | s | l | f]; try reflexivity.
  - destruct item; try discriminate; reflexivity.
Qed.

Lemma repaired_entry_numbers now item p q :
  field "productId" item = VNum p -> field "quantity" item = VNum q ->
  repaired_entry now item
  = VObj [("productId", VNum (Num.floor (Num.abs p)));
          ("quantity", VNum (Num.floor (Num.abs q)));
          ("addedAt",
           if truthy (field "addedAt" item) then field "addedAt" item
           else VStr now)].
Proof. intros Hp Hq. unfold repaired_entry. rewrite Hp, Hq. reflexivity. Qed.

Lemma cart_items_repaired_spec now l :
  DataRecovery.cart_items_repaired now l
  = Ok (map (repaired_entry now) (List.filter both_positive l)).
Proof.
  induction l as [| item r IH]; [reflexivity |].
  cbn [DataRecovery.cart_items_repaired List.filter].
  rewrite cart_item_kept_spec. cbn [obind].
  destruct (both_positive item) eqn:Hb; [| exact IH].
  unfold both_positive in Hb.
  destruct (field "productId" item) as [| | b | p | s | x | f] eqn:Hp;
    try discriminate.
  destruct (field "quantity" item) as [| | b | q | s | x | f] eqn:Hq;
    try discriminate.
  assert (Ht : truthy item = true).
  { destruct item; simpl in Hp; try discriminate; reflexivity. }
  unfold DataRecovery.cart_item_repaired. rewrite (prop_truthy _ _ Ht).
  cbn [obind]. rewrite IH. cbn [obind map].
  rewrite (repaired_entry_numbers now item p q Hp Hq). reflexivity.
Qed.

Lemma cart_repair_spec now d :
  exists ts,
    DataRecovery.cart_repair now d
    = Ok (VObj [("items",
                 VArr (map (repaired_entry now)
                         (List.filter both_positive (stored_items d))));
                ("timestamp", ts)]).
Proof.
  unfold DataRecovery.cart_repair, stored_items.
  destruct (truthy d) eqn:Ht; cbn [negb orb].
  - destruct (DataRecovery.is_object d) eqn:Ho; cbn [negb].
    + rewrite !(prop_truthy _ _ Ht). cbn [obind].
      destruct (field "items" d) as [| | b | n | s | l | f];
        try (eexists; reflexivity).
      rewrite cart_items_repaired_spec. cbn [obind]. eexists; reflexivity.
    + exists (VStr now).
      destruct d; try discriminate; reflexivity.
  - exists (VStr now). destruct d; try discriminate; try reflexivity.
Qed.

Lemma cart_repair_usable now d :
  exists d', DataRecovery.cart_repair now d = Ok d' /\ usable_cart d' = true.
Proof.
  destruct (cart_repair_spec now d) as [ts E]. rewrite E.
  eexists. split; reflexivity.
Qed.

Lemma cart_item_valid_total item :
  exists b, DataRecovery.cart_item_valid item = Ok b.
Proof.
  unfold DataRecovery.cart_item_valid.
  destruct (truthy item) eqn:Ht; cbn [negb]; [| eexists; reflexivity].
  rewrite !(prop_truthy _ _ Ht). cbn [obind].
  destruct (is_number _); cbn [negb]; [| eexists; reflexivity].
  destruct (field "quantity" item); eexists; reflexivity.
Qed.

Lemma every_total {A : Type} (f : A -> outcome bool) l :
  (forall x, exists b, f x = Ok b) -> exists b, every f l = Ok b.
Proof.
  intros Hf. induction l as [| x r IH]; simpl; [eexists; reflexivity |].
  destruct (Hf x) as [b ->]. cbn [obind].
  destruct b; [exact IH | eexists; reflexivity].
Qed.

Lemma cart_validate_total d : exists b, DataRecovery.cart_validate d = Ok b.
Proof.
  unfold DataRecovery.cart_validate.
  destruct (truthy d) eqn:Ht; cbn [negb orb]; [| eexists; reflexivity].
  destruct (DataRecovery.is_object d); cbn [negb]; [| eexists; reflexivity].
  rewrite (prop_truthy _ _ Ht). cbn [obind].
  destruct (field "items" d); try (eexists; reflexivity).
  apply every_total, cart_item_valid_total.
Qed.

Lemma recoveryStrategies_cart :
  DataRecovery.recoveryStrategies "cart"
  = Some (DataRecovery.mkStrategy DataRecovery.cart_validate
            DataRecovery.cart_repair DataRecovery.empty_cart).
Proof. reflexivity. Qed.

Lemma recoveryStrategies_preferences :
  DataRecovery.recoveryStrategies "preferences"
  = Some (DataRecovery.mkStrategy DataRecovery.preferences_validate
            DataRecovery.preferences_repair
            (fun _ => VObj DataRecovery.preferences_defaults)).
Proof. reflexivity. Qed.

(** [recoverData] on a cart, once the stored text is parsed: the data
    passes the validator and is returned as it is, or it is repaired *)
Lemma check_parsed_cart parsed s0 errs w :
  exists r,
    DataRecovery.check_parsed "cart" parsed s0 errs w = (Ok r, w)
    /\ DataRecovery.success r = true
    /\ usable_cart (DataRecovery.data r) = true
    /\ DataRecovery.errors r = errs
    /\ ((DataRecovery.cart_validate parsed = Ok true
         /\ DataRecovery.strategy r = "validation-passed"
         /\ DataRecovery.data r = parsed)
        \/ (DataRecovery.cart_validate parsed = Ok false
            /\ DataRecovery.strategy r = "data-repair"
            /\ DataRecovery.cart_repair (iso (clock w)) parsed
               = Ok (DataRecovery.data r))).
Proof.
  unfold DataRecovery.check_parsed. rewrite recoveryStrategies_cart.
  cbn [DataRecovery.validate DataRecovery.repair DataRecovery.fallback].
  unfold attempt, lift.
  destruct (cart_validate_total parsed) as [b Hb]. rewrite Hb.
  destruct b.
  - eexists. split; [reflexivity |]. cbn.
    repeat split; auto using cart_validate_usable.
  - mrun. destruct (cart_repair_usable (iso (clock w)) parsed) as (d & Hd & Hu).
    rewrite Hd. eexists. split; [reflexivity |]. cbn.
    repeat split; auto.
Qed.

Lemma check_parsed_preferences parsed s0 errs w :
  exists r,
    DataRecovery.check_parsed "preferences" parsed s0 errs w = (Ok r, w)
    /\ DataRecovery.success r = true
    /\ truthy (DataRecovery.data r) && DataRecovery.is_object (DataRecovery.data r)
       = true
    /\ DataRecovery.strategy r <> "json-repair".
Proof.
  unfold DataRecovery.check_parsed. rewrite recoveryStrategies_preferences.
  cbn [DataRecovery.validate DataRecovery.repair DataRecovery.fallback].
  unfold attempt, lift, DataRecovery.preferences_validate.
  destruct (truthy parsed && DataRecovery.is_object parsed) eqn:E.
  - eexists. split; [reflexivity |]. cbn. repeat split; auto. discriminate.
  - mrun. unfold DataRecovery.preferences_repair.
    apply andb_false_iff in E.
    assert (negb (truthy parsed) || negb (DataRecovery.is_object parsed) = true)
      as ->.
    { destruct E as [-> | ->]; [reflexivity | apply orb_true_r]. }
    eexists. split; [reflexivity |]. cbn. repeat split; auto. discriminate.
Qed.

(** a postcondition of [recoverData]: it holds of the result as soon as
    it holds of every fallback result and of what [check_parsed] returns *)
Lemma recoverData_post key dataType (Q : DataRecovery.Result -> Prop) :
  (forall errs t,
     Q (DataRecovery.mkResult true (DataRecovery.getFallbackData dataType t)
          "fallback" errs)) ->
  (forall parsed s0 errs w,
     exists r,
       DataRecovery.check_parsed dataType parsed s0 errs w = (Ok r, w) /\ Q r) ->
  forall w,
    exists r, result (DataRecovery.recoverData key dataType) w = Ok r /\ Q r.
Proof.
  intros Hfb Hcp w. unfold result, DataRecovery.recoverData, attempt.
  destruct (Storage.getItem Storage.Local key w) as [[raw | e] w1].
  - destruct raw as [[| c raw] |];
      try (unfold DataRecovery.fallback_result; mrun; eexists;
           split; [reflexivity | apply Hfb]).
    destruct (JSON.parse (String c raw)) as [parsed | parseError].
    + destruct (Hcp parsed "none" [] w1) as (r & -> & Hr). exists r. auto.
    + destruct (DataRecovery.repairMalformedJson (String c raw))
        as [[| c' repaired] |];
        try (unfold DataRecovery.fallback_result; mrun; eexists;
             split; [reflexivity | apply Hfb]).
      destruct (JSON.parse (String c' repaired)) as [parsed | repairError].
      * match goal with |- context [DataRecovery.check_parsed _ _ _ ?errs _] =>
          destruct (Hcp parsed "json-repair" errs w1) as (r & -> & Hr) end.
        exists r. auto.
      * unfold DataRecovery.fallback_result; mrun; eexists;
          split; [reflexivity | apply Hfb].
  - unfold DataRecovery.recovery_error; mrun; eexists;
      split; [reflexivity | apply Hfb].
Qed.

(** C5. For every key, every world (whatever is stored, and also when
    the storage throws) and both supported kinds of data, [recoverData]
    returns, and its result reports success with data that is not null:
    for a cart an object with an array [items], for preferences an
    object. *)
Theorem recoverData_always_succeeds key w :
  (exists r,
     result (DataRecovery.recoverData key "cart") w = Ok r
     /\ DataRecovery.success r = true
     /\ DataRecovery.data r <> VNull
     /\ usable_cart (DataRecovery.data r) = true)
  /\ (exists r,
        result (DataRecovery.recoverData key "preferences") w = Ok r
        /\ DataRecovery.success r = true
        /\ DataRecovery.data r <> VNull
        /\ truthy (DataRecovery.data r)
           && DataRecovery.is_object (DataRecovery.data r) = true).
Proof.
  split.
  - apply (recoverData_post key "cart"
             (fun r => DataRecovery.success r = true
                       /\ DataRecovery.data r <> VNull
                       /\ usable_cart (DataRecovery.data r) = true)).
    + intros errs t. cbn. repeat split. discriminate.
    + intros parsed s0 errs w1.
      destruct (check_parsed_cart parsed s0 errs w1) as (r & E & Hs & Hu & _).
      exists r. repeat split; auto.
      intros Hnull. rewrite Hnull in Hu. discriminate.
  - apply (recoverData_post key "preferences"
             (fun r => DataRecovery.success r = true
                       /\ DataRecovery.data r <> VNull
                       /\ truthy (DataRecovery.data r)
                          && DataRecovery.is_object (DataRecovery.data r) = true)).
    + intros errs t. cbn. repeat split. discriminate.
    + intros parsed s0 errs w1.
      destruct (check_parsed_preferences parsed s0 errs w1) as (r & E & Hs & Hu & _).
      exists r. repeat split; auto.
      intros Hnull. rewrite Hnull in Hu. discriminate.
Qed.

Lemma getItem_readable a key w :
  readable w = true ->
  exists w',
    Storage.getItem a key w = (Ok (assoc key (Storage.content a w)), w')
    /\ localStorage w' = localStorage w /\ sessionStorage w' = sessionStorage w
    /\ clock w' = clock w.
Proof.
  unfold readable, Storage.getItem, Storage.fault, bind, gets.
  destruct (faults w) as [| [e |] f] eqn:E; intros H; try discriminate.
  - exists w. repeat split.
  - exists (with_faults f w). destruct a; repeat split.
Qed.

Lemma parse_empty : JSON.parse EmptyString = Throw JSON.parse_error.
Proof. reflexivity. Qed.

(** C3. When the text stored under the key parses and the parsed value
    fails the validator of carts, [recoverData] returns success with the
    strategy [data-repair], and the array [items] of the repaired cart
    holds the repaired form of exactly the stored entries whose
    [productId] and [quantity] are both numbers above zero, in their
    order. *)
Theorem recoverData_repairs key raw v w :
  readable w = true ->
  assoc key (localStorage w) = Some raw ->
  JSON.parse raw = Ok v ->
  DataRecovery.cart_validate v = Ok false ->
  exists r,
    result (DataRecovery.recoverData key "cart") w = Ok r
    /\ DataRecovery.success r = true
    /\ DataRecovery.strategy r = "data-repair"
    /\ field "items" (DataRecovery.data r)
       = VArr (map (repaired_entry (iso (clock w)))
                 (List.filter both_positive (stored_items v))).
Proof.
  intros Hr Hraw Hparse Hinvalid.
  unfold result, DataRecovery.recoverData, attempt.
  destruct (getItem_readable Storage.Local key w Hr) as (w' & -> & Hl & _ & Hc).
  cbn [Storage.content]. rewrite Hraw.
  destruct raw as [| c raw]; [rewrite parse_empty in Hparse; discriminate |].
  rewrite Hparse.
  destruct (check_parsed_cart v "none" [] w')
    as (r & -> & Hs & Hu & He & [[Hv _] | [_ [Hst Hrep]]]).
  - rewrite Hv in Hinvalid. discriminate.
  - exists r. cbn [fst]. repeat split; auto.
    rewrite Hc in Hrep.
    destruct (cart_repair_spec (iso (clock w)) v) as [ts E].
    rewrite E in Hrep. inversion Hrep. reflexivity.
Qed.

Lemma recoverData_repairs_witness :
  let key := CartModule.storageKey in
  let raw := dq "{'items':[{'productId':-1,'quantity':-5}]}" in
  let w := with_localStorage [(key, raw)]
             (fresh (mkClock 0 "1970-01-01T00:00:00.000Z")) in
  exists r,
    result (DataRecovery.recoverData key "cart") w = Ok r
    /\ DataRecovery.success r = true
    /\ DataRecovery.strategy r = "data-repair"
    /\ field "items" (DataRecovery.data r) = VArr [].
Proof.
  intros key raw w.
  exact (recoverData_repairs key raw
           (VObj [("items",
                   VArr [VObj [("productId", VNum (num_of_Z (-1)));
                               ("quantity", VNum (num_of_Z (-5)))]])])
           w eq_refl eq_refl eq_refl eq_refl).
Defined.

(** C4. The text of the example fails the strict parse and its repaired
    form parses, yet [recoverData] reports the strategy
    [validation-passed]: the label [json-repair] that it sets after the
    repair is overwritten by the validation that follows. For no stored
    text and no world does a cart or preferences result carry the label
    [json-repair]; only a kind without a recovery strategy keeps it. *)
Theorem json_repair_label_is_overwritten :
  let key := CartModule.storageKey in
  let raw := dq "{'items':[{'productId':1,'quantity':2}" in
  let repaired := dq "{'items':[{'productId':1,'quantity':2}]}" in
  let parsed :=
    VObj [("items",
           VArr [VObj [("productId", VNum (num_of_Z 1));
                       ("quantity", VNum (num_of_Z 2))]])] in
  let w := with_localStorage [(key, raw)]
             (fresh (mkClock 0 "1970-01-01T00:00:00.000Z")) in
  JSON.parse raw = Throw JSON.parse_error
  /\ DataRecovery.repairMalformedJson raw = Some repaired
  /\ JSON.parse repaired = Ok parsed
  /\ result (DataRecovery.recoverData key "cart") w
     = Ok (DataRecovery.mkResult true parsed "validation-passed"
             ["JSON parse error: Unexpected token in JSON"])
  /\ (forall k w' r,
        (result (DataRecovery.recoverData k "cart") w' = Ok r
         \/ result (DataRecovery.recoverData k "preferences") w' = Ok r) ->
        DataRecovery.strategy r <> "json-repair")
  /\ DataRecovery.strategy
       (match result (DataRecovery.recoverData key "orders") w with
        | Ok r => r
        | Throw _ => DataRecovery.mkResult false VNull "none" []
        end) = "json-repair".
Proof.
  cbv zeta. split; [reflexivity |]. split; [reflexivity |].
  split; [reflexivity |]. split; [reflexivity |]. split; [| reflexivity].
  intros k w' r [H | H].
  - destruct (recoverData_post k "cart"
                (fun r => DataRecovery.strategy r <> "json-repair")) with (w := w')
      as (r' & E & Hr').
    + intros errs t. cbn. discriminate.
    + intros parsed s0 errs w1.
      destruct (check_parsed_cart parsed s0 errs w1)
        as (r1 & E & _ & _ & _ & [(_ & Hs & _) | (_ & Hs & _)]);
        exists r1; (split; [exact E | rewrite Hs; discriminate]).
    + rewrite H in E. inversion E. subst r'. exact Hr'.
  - destruct (recoverData_post k "preferences"
                (fun r => DataRecovery.strategy r <> "json-repair")) with (w := w')
      as (r' & E & Hr').
    + intros errs t. cbn. discriminate.
    + intros parsed s0 errs w1.
      destruct (check_parsed_preferences parsed s0 errs w1)
        as (r1 & E & _ & _ & Hs).
      exists r1. split; assumption.
    + rewrite H in E. inversion E. subst r'. exact Hr'.
Qed.

(** ** The total of whole cents *)

Lemma b64_nonneg x : (0 <= x)%Q -> (0 <= Num.b64 x)%Q.
Proof.
  intros H. destruct (Qlt_le_dec 0 x) as [L | G].
  - apply Qlt_le_weak, b64_pos, L.
  - rewrite (b64_0 x) by lra. lra.
Qed.

Lemma Qmult_le_nonneg_l (z x y : Q) :
  (0 <= z)%Q -> (x <= y)%Q -> (z * x <= z * y)%Q.
Proof.
  intros Hz H. rewrite (Qmult_comm z x), (Qmult_comm z y).
  apply Qmult_le_compat_r; assumption.
Qed.

Lemma in_cents_spec x :
  in_cents (Fin x) = true ->
  0 <= cents x
  /\ (x == Num.b64 (cents x # 100))%Q
  /\ (0 <= x)%Q.
Proof.
  unfold in_cents. intros H. apply andb_true_iff in H. destruct H as [H1 H2].
  apply Z.leb_le in H1. apply Qeq_bool_iff in H2.
  split; [exact H1 |]. split; [exact H2 |].
  rewrite H2. apply b64_nonneg. unfold Qle. cbn [Qnum Qden]. lia.
Qed.

Lemma counted_spec q :
  counted q = true ->
  exists x, q = Fin x /\ (x == inject_Z (Qfloor x))%Q /\ 0 <= Qfloor x.
Proof.
  destruct q as [| x]; [discriminate |]. unfold counted. intros H.
  apply andb_true_iff in H. destruct H as [H1 H2].
  exists x. split; [reflexivity |].
  split; [apply Qeq_bool_iff, H1 | apply Z.leb_le, H2].
Qed.

Lemma total_in_cents_nonneg env l :
  whole_cents env l = true -> 0 <= total_in_cents env l.
Proof.
  induction l as [| item r IH]; intros H; [cbn; lia |].
  cbn [whole_cents forallb] in H. apply andb_true_iff in H.
  destruct H as [Hi Hr]. specialize (IH Hr).
  cbn [total_in_cents fold_right]. fold (total_in_cents env r).
  apply andb_true_iff in Hi. destruct Hi as [Hq Hp].
  destruct (counted_spec _ Hq) as (x & -> & _ & Hx).
  destruct (catalog_price env item) as [[| p] |]; try discriminate; [| exact IH].
  destruct (in_cents_spec p Hp) as (Hc & _ & _). cbn [Qof]. nia.
Qed.

Lemma catalog_price_resolve env item :
  CartModule.resolve env item
  = match ProductsModule.getProductById env
            (VNum (CartItem.productId item)) with
    | Ok (Some product) => Some product
    | _ => None
    end.
Proof. reflexivity. Qed.

(** the subtotal of a counted quantity at a price in cents is within
    4 * 10^-7 of the exact one, which is at most 10^9 *)
Lemma subtotal_near (x p : Q) :
  (x == inject_Z (Qfloor x))%Q -> 0 <= Qfloor x ->
  in_cents (Fin p) = true ->
  Qfloor x * cents p <= 100000000000 ->
  let exact := (inject_Z (Qfloor x * cents p) / inject_Z 100)%Q in
  (- (4 # 10000000) <= Num.b64 (x * p) - exact <= 4 # 10000000)%Q.
Proof.
  intros Hx Hn Hp Hb exact.
  destruct (in_cents_spec p Hp) as (Hc & Ep & Hp0).
  set (n := Qfloor x) in *. set (c := cents p) in *.
  assert (Hcq : (c # 100 == inject_Z c / inject_Z 100)%Q).
  { unfold Qeq, Qdiv, Qmult, Qinv, inject_Z. cbn. lia. }
  (* the price *)
  pose proof (b64_rel (c # 100)) as R1. rewrite <- Ep in R1.
  assert (Hcn : (0 <= c # 100)%Q) by (unfold Qle; cbn [Qnum Qden]; lia).
  rewrite (Qabs_pos (c # 100)) in R1 by exact Hcn.
  apply Qabs_Qle_condition in R1. destruct R1 as [R1a R1b].
  (* the quantity times the price *)
  assert (Hnq : (0 <= inject_Z n)%Q)
    by (change 0%Q with (inject_Z 0); rewrite <- Zle_Qle; exact Hn).
  assert (Hex : (exact == inject_Z n * (c # 100))%Q).
  { unfold exact. rewrite inject_Z_mult, Hcq. field. }
  assert (HB : (exact <= 1000000000)%Q).
  { unfold exact. apply Qle_shift_div_r; [reflexivity |].
    change (1000000000 * inject_Z 100)%Q with (inject_Z 100000000000).
    rewrite <- Zle_Qle. exact Hb. }
  assert (H0 : (0 <= exact)%Q).
  { rewrite Hex. apply Qmult_le_0_compat; assumption. }
  set (u := (1 # 9007199254740992)%Q) in *.
  assert (P1 : (inject_Z n * (p - (c # 100)) <= exact * u)%Q).
  { rewrite Hex.
    setoid_replace (inject_Z n * (c # 100) * u)%Q
      with (inject_Z n * ((c # 100) * u))%Q by ring.
    apply Qmult_le_nonneg_l; [exact Hnq | lra]. }
  assert (P2 : (- (exact * u) <= inject_Z n * (p - (c # 100)))%Q).
  { rewrite Hex.
    setoid_replace (- (inject_Z n * (c # 100) * u))%Q
      with (inject_Z n * (- ((c # 100) * u)))%Q by ring.
    apply Qmult_le_nonneg_l; [exact Hnq | lra]. }
  assert (P3 : (inject_Z n * p == exact + inject_Z n * (p - (c # 100)))%Q).
  { rewrite Hex. ring. }
  assert (Hxp : (x * p == inject_Z n * p)%Q) by (rewrite Hx at 1; reflexivity).
  rewrite (b64_comp _ _ Hxp).
  assert (Hu : (u == 1 # 9007199254740992)%Q) by reflexivity.
  assert (Hm : (- 2000000000 <= inject_Z n * p <= 2000000000)%Q).
  { rewrite P3. split; unfold u in *; lra. }
  pose proof (b64_near _ 2000000000 Hm) as R2. fold u in R2.
  unfold u in *. lra.
Qed.

(** the running total stays within 10^-6 per entry of the exact one *)
Lemma total_fold env : forall l (a : Q) (A : Z) (j : nat),
  whole_cents env l = true ->
  0 <= A ->
  A + total_in_cents env l <= 100000000000 ->
  (j + List.length l <= 1000)%nat ->
  (- (inject_Z (Z.of_nat j) * (1 # 1000000))
   <= a - inject_Z A / inject_Z 100
   <= inject_Z (Z.of_nat j) * (1 # 1000000))%Q ->
  exists t,
    fold_left (CartModule.add_subtotal env) l (Fin a) = Fin t
    /\ (- (inject_Z (Z.of_nat (j + List.length l)) * (1 # 1000000))
        <= t - inject_Z (A + total_in_cents env l) / inject_Z 100
        <= inject_Z (Z.of_nat (j + List.length l)) * (1 # 1000000))%Q.
Proof.
  induction l as [| item r IH]; intros a A j Hw HA Hb Hj Ha.
  - exists a. split; [reflexivity |].
    cbn [total_in_cents fold_right List.length]. rewrite Z.add_0_r, Nat.add_0_r.
    exact Ha.
  - cbn [whole_cents forallb] in Hw. apply andb_true_iff in Hw.
    destruct Hw as [Hi Hr]. fold (whole_cents env r) in Hr.
    apply andb_true_iff in Hi. destruct Hi as [Hq Hp].
    pose proof (total_in_cents_nonneg env r Hr) as Hr0.
    cbn [total_in_cents fold_right] in Hb |- *.
    fold (total_in_cents env r) in Hb |- *.
    cbn [List.length] in Hj |- *.
    cbn [fold_left]. unfold CartModule.add_subtotal at 2.
    rewrite catalog_price_resolve. unfold catalog_price in Hb, Hp |- *.
    replace (j + S (List.length r))%nat with (S j + List.length r)%nat by lia.
    assert (Hjq : (inject_Z (Z.of_nat (S j))
                   == inject_Z (Z.of_nat j) + 1)%Q).
    { rewrite Nat2Z.inj_succ. unfold Z.succ. rewrite inject_Z_plus.
      reflexivity. }
    assert (Hj0 : (0 <= inject_Z (Z.of_nat j) <= 999)%Q).
    { split.
      - change 0%Q with (inject_Z 0). rewrite <- Zle_Qle. lia.
      - change 999%Q with (inject_Z 999). rewrite <- Zle_Qle. lia. }
    destruct (ProductsModule.getProductById env
                (VNum (CartItem.productId item))) as [[product |] | e].
    + destruct (counted_spec _ Hq) as (x & Ex & Hx & Hn).
      rewrite Ex in Hb |- *. cbn [Qof] in Hb |- *.
      destruct (Product.price product) as [| p] eqn:Epr; [discriminate Hp |].
      cbn [Qof] in Hb |- *.
      destruct (in_cents_spec p Hp) as (Hc & _ & Hp0).
      unfold CartItem.getSubtotal. rewrite Ex.
      assert (Hlt : Num.lt (Fin p) 0 = false).
      { unfold Num.lt, Num.le. change (num_of_Z 0) with (Fin (inject_Z 0)).
        cbv beta iota. apply negb_false_iff. apply Qle_bool_iff.
        change (inject_Z 0) with 0%Q. exact Hp0. }
      rewrite Hlt. cbn [Num.mul Num.add].
      assert (Hnc : 0 <= Qfloor x * cents p) by nia.
      pose proof (subtotal_near x p Hx Hn Hp ltac:(lia)) as S1.
      cbv zeta in S1.
      set (s := Num.b64 (x * p)) in *.
      set (A' := A + Qfloor x * cents p).
      assert (HA' : (inject_Z A' / inject_Z 100
                     == inject_Z A / inject_Z 100
                        + inject_Z (Qfloor x * cents p) / inject_Z 100)%Q).
      { unfold A'. rewrite inject_Z_plus. field. }
      assert (HAb : (0 <= inject_Z A' / inject_Z 100 <= 1000000000)%Q).
      { split.
        - apply Qle_shift_div_l; [reflexivity |]. rewrite Qmult_0_l.
          change 0%Q with (inject_Z 0). rewrite <- Zle_Qle. unfold A'. lia.
        - apply Qle_shift_div_r; [reflexivity |].
          change (1000000000 * inject_Z 100)%Q with (inject_Z 100000000000).
          rewrite <- Zle_Qle. unfold A'. lia. }
      assert (Hm : (Qopp 2000000000 <= a + s <= 2000000000)%Q).
      { change (Qopp 2000000000) with (-2000000000)%Q. split; lra. }
      pose proof (b64_near _ 2000000000 Hm) as R.
      destruct (IH (Num.b64 (a + s)) A' (S j) Hr) as (t & Et & Ht).
      * unfold A'. lia.
      * unfold A'. lia.
      * lia.
      * rewrite Hjq, HA'. split; lra.
      * exists t. split; [exact Et |].
        replace (A + (Qfloor x * cents p + total_in_cents env r))
          with (A' + total_in_cents env r) by (unfold A'; lia).
        exact Ht.
    + destruct (IH a A (S j) Hr HA Hb ltac:(lia)) as (t & Et & Ht).
      * rewrite Hjq. split; lra.
      * exists t. split; [exact Et | exact Ht].
    + destruct (IH a A (S j) Hr HA Hb ltac:(lia)) as (t & Et & Ht).
      * rewrite Hjq. split; lra.
      * exists t. split; [exact Et | exact Ht].
Qed.

Lemma Qfloor_between (z : Q) (n : Z) :
  (inject_Z n <= z)%Q -> (z < inject_Z n + 1)%Q -> Qfloor z = n.
Proof.
  intros H1 H2.
  assert (L : n <= Qfloor z).
  { rewrite <- (Qfloor_Z n). apply Qfloor_resp_le, H1. }
  assert (U : Qfloor z < n + 1).
  { pose proof (Qfloor_le z) as F. rewrite Zlt_Qlt, inject_Z_plus.
    change (inject_Z 1) with 1%Q. lra. }
  lia.
Qed.

(** rounding to two decimals a number within a thousandth of a whole
    number of cents gives the number nearest to these cents *)
Lemma round2_near (t : Q) (S : Z) :
  0 <= S <= 100000000000 ->
  (- (1 # 1000) <= t - inject_Z S / inject_Z 100 <= 1 # 1000)%Q ->
  CartModule.round2 (Fin t) = dec S 2.
Proof.
  intros HS Ht. unfold CartModule.round2, dec.
  change (Pos.of_nat (10 ^ 2)) with 100%positive.
  change (Num.mul (Fin t) 100) with (Fin (Num.b64 (t * inject_Z 100))).
  cbn [Num.round].
  assert (HSq : (0 <= inject_Z S <= 100000000000)%Q).
  { split.
    - change 0%Q with (inject_Z 0). rewrite <- Zle_Qle. lia.
    - change 100000000000%Q with (inject_Z 100000000000).
      rewrite <- Zle_Qle. lia. }
  assert (E : (inject_Z S / inject_Z 100 * inject_Z 100 == inject_Z S)%Q)
    by field.
  change (inject_Z 100) with 100%Q in *.
  assert (Hm : (Qopp 200000000000 <= t * 100 <= 200000000000)%Q).
  { change (Qopp 200000000000) with (-200000000000)%Q. split; lra. }
  pose proof (b64_near _ 200000000000 Hm) as R.
  set (y := Num.b64 (t * 100)) in *.
  assert (F : Qfloor (y + (1 # 2)) = S).
  { apply Qfloor_between; lra. }
  rewrite F. unfold Num.div, num_of_Z.
  change (Qeq_bool (inject_Z 100) 0) with false. cbv iota. f_equal.
  apply b64_comp. unfold Qeq, Qdiv, Qmult, Qinv, inject_Z. cbn. lia.
Qed.

(** C6, the claim as it stands, fails. The total is computed in binary64
    numbers, so a half of a cent does not always go up: 5 articles at
    0.251 cost 1.255 and the total is 1.25, and 1 article at 1.005 gives
    1, because 5 * 0.251 * 100 and 1.005 * 100 are numbers just below
    the half. With the catalog of the application a cart, filled without
    the validator, of 10^12 articles at 34.99 costs 34990000000000 and
    the total is 34990000000000.01. *)
Lemma getCartTotal_misses_the_sum :
  let shop price :=
    mkEnv true true [Product.mk 1 "Sample" "A sample" price "sample.jpg" "samples"]
      true true in
  let cart q :=
    with_items [(num_of_Z 1, CartItem.mk 1 q (VStr "1970-01-01T00:00:00.000Z"))]
      (fresh (mkClock 0 "1970-01-01T00:00:00.000Z")) in
  let w := exec (CartModule.addItem bare (VNum 7) (VNum 1000000000000))
             (fresh (mkClock 0 "1970-01-01T00:00:00.000Z")) in
  result (CartModule.getCartTotal (shop (dec 251 3))) (cart 5) = Ok (dec 125 2)
  /\ (round_half_up_2 (5 * (251 # 1000)) == 126 # 100)%Q
  /\ result (CartModule.getCartTotal (shop (dec 1005 3))) (cart 1)
     = Ok (num_of_Z 1)
  /\ (round_half_up_2 (1 * (1005 # 1000)) == 101 # 100)%Q
  /\ result (CartModule.getCartItem (VNum 7)) w
     = Ok (Some (CartItem.mk 7 1000000000000 (VStr "1970-01-01T00:00:00.000Z")))
  /\ result (CartModule.getCartTotal bare) w
     = Ok (dec 3499000000000001 2)
  /\ (round_half_up_2 (1000000000000 * (3499 # 100)) == 34990000000000)%Q
  /\ dec 3499000000000001 2 <> dec 3499000000000000 2.
Proof.
  repeat split; try (vm_compute; reflexivity).
  vm_compute. discriminate.
Qed.

(** C6, amended. On a cart of at most 1000 entries whose quantities are
    integers that are not negative, when the prices that the catalog
    gives for the entries are whole numbers of cents, as all the prices
    of the application are, and the sum over the entries whose product
    the catalog has of quantity times price is at most 1 000 000 000.00,
    [getCartTotal] returns that sum, as the number nearest to it; the
    entries whose product the catalog does not have are skipped, and
    nothing is thrown. The sum is a whole number of cents, so no half of
    a cent is rounded. *)
Theorem getCartTotal_sums_whole_cents env w :
  whole_cents env (map snd (items w)) = true ->
  (List.length (items w) <= 1000)%nat ->
  total_in_cents env (map snd (items w)) <= 100000000000 ->
  result (CartModule.getCartTotal env) w
  = Ok (dec (total_in_cents env (map snd (items w))) 2).
Proof.
  intros Hw Hlen Hb.
  unfold result, CartModule.getCartTotal, gets. cbn [fst]. f_equal.
  pose proof (total_in_cents_nonneg env _ Hw) as H0.
  destruct (total_fold env (map snd (items w)) 0%Q 0 0%nat Hw (Z.le_refl 0))
    as (t & Et & Ht).
  - lia.
  - rewrite length_map. lia.
  - cbn. split; discriminate.
  - change (num_of_Z 0) with (Fin 0%Q). rewrite Et.
    apply round2_near; [lia |].
    rewrite length_map in Ht. cbn [Nat.add Z.add] in Ht.
    assert (Hn : (0 <= inject_Z (Z.of_nat (List.length (items w))) <= 1000)%Q).
    { split.
      - change 0%Q with (inject_Z 0). rewrite <- Zle_Qle. lia.
      - change 1000%Q with (inject_Z 1000). rewrite <- Zle_Qle. lia. }
    split; lra.
Qed.

Lemma getCartTotal_sums_whole_cents_witness :
  let w :=
    with_items
      [(num_of_Z 1, CartItem.mk 1 2 (VStr "1970-01-01T00:00:00.000Z"));
       (num_of_Z 9, CartItem.mk 9 1 (VStr "1970-01-01T00:00:00.000Z"));
       (num_of_Z 3, CartItem.mk 3 3 (VStr "1970-01-01T00:00:00.000Z"))]
      (fresh (mkClock 0 "1970-01-01T00:00:00.000Z")) in
  total_in_cents browser (map snd (items w)) = 23995
  /\ result (CartModule.getCartTotal browser) w = Ok (dec 23995 2).
Proof.
  intros w. split; [vm_compute; reflexivity |].
  refine (getCartTotal_sums_whole_cents browser w _ _ _).
  - vm_compute. reflexivity.
  - cbn. lia.
  - vm_compute. discriminate.
Defined.

(** ** Sorting by timestamp *)

Lemma sort_insert_perm {A : Type} (compare : A -> A -> num) x l :
  Permutation (sort_insert compare x l) (x :: l).
Proof.
  induction l as [| y r IH]; cbn [sort_insert]; [apply Permutation_refl |].
  destruct (Num.gt (compare x y) 0); [| apply Permutation_refl].
  apply perm_trans with (y :: x :: r); [| apply perm_swap].
  apply perm_skip, IH.
Qed.

Lemma sort_perm {A : Type} (compare : A -> A -> num) l :
  Permutation (sort compare l) l.
Proof.
  unfold sort. induction l as [| x r IH]; simpl; [apply Permutation_refl |].
  apply perm_trans with (x :: fold_right (sort_insert compare) [] r).
  - apply sort_insert_perm.
  - apply perm_skip, IH.
Qed.

Lemma newest_first_gt a b :
  Num.isNaN (DataRecovery.backup_timestamp a) = false ->
  Num.isNaN (DataRecovery.backup_timestamp b) = false ->
  Num.gt (DataRecovery.newest_first a b) 0 = negb (newer_or_equal a b).
Proof.
  unfold DataRecovery.newest_first, newer_or_equal, Num.gt, Num.ge, Num.lt,
    Num.le, Num.sub.
  destruct (DataRecovery.backup_timestamp a) as [| x]; [discriminate |].
  destruct (DataRecovery.backup_timestamp b) as [| y]; [discriminate |].
  intros _ _. unfold Qlt_bool, num_of_Z. f_equal.
  change (inject_Z 0) with 0%Q.
  destruct (Qle_bool y x) eqn:E.
  - apply Qle_bool_iff. apply Qle_bool_iff in E.
    destruct (Qlt_le_dec (y - x) 0) as [L | G].
    + apply Qlt_le_weak, b64_neg, L.
    + rewrite (b64_0 (y - x)) by lra. lra.
  - destruct (Qle_bool (Num.b64 (y - x)) 0) eqn:E2; [| reflexivity].
    apply Qle_bool_iff in E2.
    destruct (Qlt_le_dec 0 (y - x)) as [L | G].
    + apply b64_pos in L. lra.
    + assert (y <= x)%Q by lra. apply Qle_bool_iff in H. congruence.
Qed.

Lemma newer_or_equal_trans a b c :
  newer_or_equal a b = true -> newer_or_equal b c = true ->
  newer_or_equal a c = true.
Proof.
  unfold newer_or_equal, Num.ge, Num.le.
  destruct (DataRecovery.backup_timestamp a) as [| x];
    destruct (DataRecovery.backup_timestamp b) as [| y];
    destruct (DataRecovery.backup_timestamp c) as [| z]; try discriminate.
  rewrite !Qle_bool_iff. intros. lra.
Qed.

Lemma newer_or_equal_total a b :
  Num.isNaN (DataRecovery.backup_timestamp a) = false ->
  Num.isNaN (DataRecovery.backup_timestamp b) = false ->
  newer_or_equal a b = false -> newer_or_equal b a = true.
Proof.
  unfold newer_or_equal, Num.ge, Num.le.
  destruct (DataRecovery.backup_timestamp a) as [| x]; [discriminate |].
  destruct (DataRecovery.backup_timestamp b) as [| y]; [discriminate |].
  intros _ _ H. apply Qle_bool_iff.
  destruct (Qlt_le_dec x y) as [Hlt | Hle].
  - lra.
  - apply Qle_bool_iff in Hle. congruence.
Qed.

Lemma sort_insert_sorted x l :
  timestamped (x :: l) = true ->
  newest_sorted l ->
  newest_sorted (sort_insert DataRecovery.newest_first x l).
Proof.
  unfold newest_sorted. induction l as [| y r IH]; intros Ht Hs.
  - simpl. constructor; constructor.
  - cbn [timestamped forallb] in Ht.
    apply andb_true_iff in Ht. destruct Ht as [Hx Ht].
    apply andb_true_iff in Ht. destruct Ht as [Hy Hr].
    apply negb_true_iff in Hx, Hy.
    cbn [sort_insert]. rewrite (newest_first_gt x y Hx Hy).
    inversion Hs as [| ? ? Hsr Hall]. subst.
    destruct (newer_or_equal x y) eqn:E; cbn [negb].
    + constructor; [exact Hs |]. constructor; [exact E |].
      rewrite Forall_forall in *. intros z Hz.
      apply (newer_or_equal_trans x y z E), Hall, Hz.
    + constructor.
      * apply IH; [| exact Hsr]. cbn [timestamped forallb].
        rewrite Hx. exact Hr.
      * apply (Permutation_Forall (Permutation_sym
                 (sort_insert_perm DataRecovery.newest_first x r))).
        constructor; [| exact Hall].
        apply newer_or_equal_total; assumption.
Qed.

Lemma timestamped_perm l l' :
  Permutation l l' -> timestamped l = true -> timestamped l' = true.
Proof.
  unfold timestamped. intros Hp H. rewrite forallb_forall in *.
  intros x Hx. apply H. apply (Permutation_in x (Permutation_sym Hp) Hx).
Qed.

Lemma sort_sorted l :
  timestamped l = true -> newest_sorted (sort DataRecovery.newest_first l).
Proof.
  unfold sort. induction l as [| x r IH]; intros Ht.
  - simpl. constructor.
  - cbn [fold_right]. cbn [timestamped forallb] in Ht.
    apply andb_true_iff in Ht. destruct Ht as [Hx Hr].
    apply sort_insert_sorted; [| apply IH, Hr].
    cbn [timestamped forallb]. rewrite Hx. cbn [andb].
    apply (timestamped_perm r); [| exact Hr].
    apply Permutation_sym, sort_perm.
Qed.

(** ** Lists of keys *)

Lemma existsb_eqb_In x l : existsb (String.eqb x) l = true <-> In x l.
Proof.
  rewrite existsb_exists. split.
  - intros (y & Hy & E). apply String.eqb_eq in E. subst. exact Hy.
  - intros H. exists x. split; [exact H | apply String.eqb_refl].
Qed.

Lemma distinct_NoDup l : distinct l = true <-> NoDup l.
Proof.
  induction l as [| x r IH]; simpl.
  - split; [constructor | reflexivity].
  - rewrite andb_true_iff, negb_true_iff, IH. split.
    + intros [Hx Hr]. constructor; [| exact Hr].
      intros Hin. apply existsb_eqb_In in Hin. congruence.
    + intros H. inversion H as [| ? ? Hx Hr]. subst. split; [| exact Hr].
      destruct (existsb (String.eqb x) r) eqn:E; [| reflexivity].
      apply existsb_eqb_In in E. contradiction.
Qed.

Lemma keys_assoc_set k v (l : list (string * string)) :
  keys_of (assoc_set k v l) = DataRecovery.set_add k (keys_of l).
Proof.
  unfold DataRecovery.set_add, keys_of.
  induction l as [| [k' v'] r IH]; simpl; [reflexivity |].
  destruct (k =? k')%string eqn:E; simpl.
  - apply String.eqb_eq in E. subst. reflexivity.
  - rewrite IH. destruct (existsb (String.eqb k) (map fst r)); reflexivity.
Qed.

Lemma distinct_set_add k l :
  distinct l = true -> distinct (DataRecovery.set_add k l) = true.
Proof.
  unfold DataRecovery.set_add. intros H.
  destruct (existsb (String.eqb k) l) eqn:E; [exact H |].
  apply distinct_NoDup. apply distinct_NoDup in H.
  apply NoDup_app; [exact H | repeat constructor; intros [] |].
  intros x Hx [<- | []]. apply existsb_eqb_In in Hx. congruence.
Qed.

Lemma filter_notin k (l : list string) :
  ~ In k l -> List.filter (fun x => negb (k =? x)%string) l = l.
Proof.
  induction l as [| x r IH]; simpl; [reflexivity |].
  intros H. destruct (k =? x)%string eqn:E; simpl.
  - apply String.eqb_eq in E. subst. exfalso. apply H. left. reflexivity.
  - rewrite IH; [reflexivity |]. intros Hin. apply H. right. exact Hin.
Qed.

Lemma keys_assoc_remove k (l : list (string * string)) :
  distinct (keys_of l) = true ->
  keys_of (assoc_remove k l)
  = List.filter (fun x => negb (k =? x)%string) (keys_of l).
Proof.
  unfold keys_of. induction l as [| [k' v'] r IH]; simpl; [reflexivity |].
  intros H. apply andb_true_iff in H. destruct H as [Hk Hr].
  destruct (k =? k')%string eqn:E; simpl.
  - apply String.eqb_eq in E. subst k'. symmetry. apply filter_notin.
    intros Hin. apply existsb_eqb_In in Hin. rewrite Hin in Hk. discriminate.
  - rewrite (IH Hr). reflexivity.
Qed.

Lemma distinct_filter p l : distinct l = true -> distinct (List.filter p l) = true.
Proof.
  rewrite !distinct_NoDup. apply NoDup_filter.
Qed.

Lemma keys_remove_all R : forall (l : list (string * string)),
  distinct (keys_of l) = true ->
  keys_of (fold_left (fun l k => assoc_remove k l) R l)
  = List.filter (fun x => negb (existsb (String.eqb x) R)) (keys_of l).
Proof.
  induction R as [| k R IH]; intros l H; simpl.
  - symmetry. apply forallb_filter_id. apply forallb_forall. reflexivity.
  - rewrite IH by (rewrite keys_assoc_remove by exact H; apply distinct_filter, H).
    rewrite keys_assoc_remove by exact H.
    clear H IH. generalize (keys_of l). intros ks.
    induction ks as [| x r IHr]; simpl; [reflexivity |].
    rewrite (String.eqb_sym x k).
    destruct (k =? x)%string; simpl; [exact IHr |].
    destruct (existsb (String.eqb x) R); simpl; [exact IHr |].
    rewrite IHr. reflexivity.
Qed.

Lemma filter_comm {A : Type} (p q : A -> bool) l :
  List.filter p (List.filter q l) = List.filter q (List.filter p l).
Proof.
  induction l as [| x r IH]; simpl; [reflexivity |].
  destruct (p x) eqn:Hp; destruct (q x) eqn:Hq; simpl;
    rewrite ?Hp, ?Hq, IH; reflexivity.
Qed.

Lemma sorted_app_inv {A : Type} (R : A -> A -> Prop) l1 l2 :
  StronglySorted R (l1 ++ l2) ->
  forall a b, In a l1 -> In b l2 -> R a b.
Proof.
  induction l1 as [| x r IH]; simpl; intros H a b Ha Hb; [contradiction |].
  inversion H as [| ? ? Hs Hall]. subst. destruct Ha as [<- | Ha].
  - rewrite Forall_forall in Hall. apply Hall. apply in_or_app. right. exact Hb.
  - apply (IH Hs a b Ha Hb).
Qed.

(** of a list without repetition, what is not in its tail after [n]
    elements is in its first [n] elements *)
Lemma in_firstn_iff (n : nat) (l : list string) k :
  NoDup l ->
  (In k l /\ ~ In k (skipn n l)) <-> In k (firstn n l).
Proof.
  intros Hnd. rewrite <- (firstn_skipn n l) in Hnd at 1.
  split.
  - intros [Hin Hnot]. rewrite <- (firstn_skipn n l) in Hin.
    apply in_app_or in Hin. destruct Hin; [assumption | contradiction].
  - intros Hin. split.
    + rewrite <- (firstn_skipn n l). apply in_or_app. left. exact Hin.
    + intros Hs. apply NoDup_app_remove_l in Hnd as Hnd2.
      clear Hnd2. revert Hin Hs Hnd.
      generalize (firstn n l) (skipn n l). intros l1 l2 H1 H2 Hnd.
      induction l1 as [| x r IH]; [contradiction |].
      simpl in Hnd. inversion Hnd as [| ? ? Hx Hr]. subst.
      destruct H1 as [<- | H1].
      * apply Hx. apply in_or_app. right. exact H2.
      * apply (IH H1 Hr).
Qed.

(** ** The backup rotation on a healthy storage *)

Lemma fault_healthy w : faults w = [] -> Storage.fault w = (Ok tt, w).
Proof. unfold Storage.fault. intros ->. reflexivity. Qed.

Lemma setItem_healthy k v w :
  faults w = [] ->
  Storage.setItem Storage.Local k v w
  = (Ok tt, with_localStorage (assoc_set k v (localStorage w)) w).
Proof.
  intros H. unfold Storage.setItem, bind. rewrite (fault_healthy w H).
  reflexivity.
Qed.

Lemma removeItem_healthy k w :
  faults w = [] ->
  Storage.removeItem Storage.Local k w
  = (Ok tt, with_localStorage (assoc_remove k (localStorage w)) w).
Proof.
  intros H. unfold Storage.removeItem, bind. rewrite (fault_healthy w H).
  reflexivity.
Qed.

Lemma collect_from_healthy pre w :
  faults w = [] ->
  forall fuel i acc,
    (List.length (localStorage w) < i + fuel)%nat ->
    DataRecovery.collect_from fuel i pre acc w
    = (Ok (acc ++ List.filter
                    (fun key => negb (key =? EmptyString)%string
                                && Str.startsWith pre key)
                    (skipn i (keys_of (localStorage w))))%list, w).
Proof.
  intros Hf. induction fuel as [| f IH]; intros i acc Hlen.
  - cbn [DataRecovery.collect_from]. unfold ret.
    rewrite skipn_all2 by (unfold keys_of; rewrite length_map; lia).
    rewrite app_nil_r. reflexivity.
  - cbn [DataRecovery.collect_from].
    unfold bind at 1. unfold Storage.length. unfold bind at 1.
    rewrite (fault_healthy w Hf). unfold gets at 1. cbv beta iota.
    cbn [Storage.content].
    destruct (i <? List.length (localStorage w))%nat eqn:E.
    + apply Nat.ltb_lt in E.
      unfold bind at 1. unfold Storage.key. unfold bind at 1.
      rewrite (fault_healthy w Hf). unfold gets at 1. cbv beta iota.
      cbn [Storage.content].
      destruct (nth_error (localStorage w) i) as [kv |] eqn:En;
        [| apply nth_error_None in En; lia].
      cbn [option_map].
      rewrite IH by lia.
      assert (Hs : skipn i (keys_of (localStorage w))
                   = fst kv :: skipn (S i) (keys_of (localStorage w))).
      { unfold keys_of. clear - En. revert i En.
        induction (localStorage w) as [| x r IHl]; intros i En;
          destruct i; simpl in *; try discriminate.
        - inversion En. reflexivity.
        - apply IHl, En. }
      rewrite Hs. cbn [List.filter].
      destruct (negb (fst kv =? EmptyString)%string
                && Str.startsWith pre (fst kv)).
      * rewrite <- app_assoc. reflexivity.
      * reflexivity.
    + apply Nat.ltb_ge in E. unfold ret.
      rewrite skipn_all2 by (unfold keys_of; rewrite length_map; lia).
      rewrite app_nil_r. reflexivity.
Qed.

Lemma backup_keys_of_healthy key w :
  faults w = [] ->
  DataRecovery.backup_keys_of key w
  = (Ok (backups_of key (keys_of (localStorage w))), w).
Proof.
  intros Hf. unfold DataRecovery.backup_keys_of.
  rewrite (collect_from_healthy _ w Hf) by lia. reflexivity.
Qed.

Lemma removal_loop_healthy R : forall w,
  faults w = [] ->
  exists w',
    for_each R
      (fun k =>
         Storage.removeItem Storage.Local k ;;
         modify (fun w => with_backupKeys
                            (DataRecovery.set_delete k (backupKeys w)) w)) w
    = (Ok tt, w')
    /\ faults w' = []
    /\ localStorage w'
       = fold_left (fun l k => assoc_remove k l) R (localStorage w).
Proof.
  induction R as [| k R IH]; intros w Hf; cbn [for_each].
  - exists w. repeat split. exact Hf.
  - unfold bind at 1. unfold bind at 1.
    rewrite (removeItem_healthy k w Hf). unfold modify at 1. cbv beta iota.
    match goal with |- context [for_each R ?body ?w1] =>
      destruct (IH w1 Hf) as (w' & E & H1 & H2) end.
    exists w'. split; [exact E |]. split; [exact H1 | exact H2].
Qed.

Lemma cleanupOldBackups_healthy key w :
  faults w = [] ->
  exists w',
    DataRecovery.cleanupOldBackups key w = (Ok tt, w')
    /\ faults w' = []
    /\ localStorage w'
       = fold_left (fun l k => assoc_remove k l)
           (skipn 5 (sort DataRecovery.newest_first
                       (backups_of key (keys_of (localStorage w)))))
           (localStorage w).
Proof.
  intros Hf. unfold DataRecovery.cleanupOldBackups, try_catch.
  unfold bind at 1. rewrite (backup_keys_of_healthy key w Hf).
  match goal with |- context [for_each ?R ?body w] =>
    destruct (removal_loop_healthy R w Hf) as (w' & E & H) end.
  rewrite E. exists w'. split; [reflexivity | exact H].
Qed.

Lemma createBackup_healthy key data w :
  faults w = [] ->
  let ls1 :=
    assoc_set (backup_key key w)
      (DataRecovery.stringify_text
         (VObj [("originalKey", VStr key); ("data", data);
                ("timestamp", VStr (iso (clock w))); ("version", VStr "1.0")]))
      (localStorage w) in
  faults (exec (DataRecovery.createBackup key data) w) = []
  /\ localStorage (exec (DataRecovery.createBackup key data) w)
     = fold_left (fun l k => assoc_remove k l)
         (skipn 5 (sort DataRecovery.newest_first
                     (backups_of key (keys_of ls1))))
         ls1.
Proof.
  intros Hf ls1.
  assert (E : exists w',
    DataRecovery.createBackup key data w = (Ok tt, w')
    /\ faults w' = []
    /\ localStorage w'
       = fold_left (fun l k => assoc_remove k l)
           (skipn 5 (sort DataRecovery.newest_first
                       (backups_of key (keys_of ls1))))
           ls1).
  { unfold DataRecovery.createBackup, try_catch.
    unfold bind at 1. unfold gets at 1. cbv beta iota.
    unfold bind at 1. fold (backup_key key w).
    rewrite (setItem_healthy _ _ w Hf). fold ls1.
    unfold bind at 1. unfold modify at 1. cbv beta iota.
    match goal with |- context [DataRecovery.cleanupOldBackups key ?w1] =>
      destruct (cleanupOldBackups_healthy key w1 Hf) as (w' & E & H) end.
    rewrite E. exists w'. split; [reflexivity | exact H]. }
  destruct E as (w' & E & H1 & H2). unfold exec. rewrite E.
  split; [exact H1 | exact H2].
Qed.

(** the keys left by [createBackup] on a storage that does not fail: those
    present once the new backup is written, without the backups sorted
    behind the fifth *)
Lemma createBackup_keys key data w :
  faults w = [] ->
  distinct (keys_of (localStorage w)) = true ->
  let present :=
    DataRecovery.set_add (backup_key key w) (keys_of (localStorage w)) in
  keys_of (localStorage (exec (DataRecovery.createBackup key data) w))
  = List.filter
      (fun x =>
         negb (existsb (String.eqb x)
                 (skipn 5 (sort DataRecovery.newest_first
                             (backups_of key present)))))
      present.
Proof.
  intros Hf Hd present.
  rewrite (proj2 (createBackup_healthy key data w Hf)).
  rewrite keys_remove_all
    by (rewrite keys_assoc_set; apply distinct_set_add, Hd).
  rewrite keys_assoc_set. reflexivity.
Qed.

(** of a list without repetition, what is not sorted behind the fifth is
    what is sorted among the first five *)
Lemma kept_newest (l : list string) :
  NoDup l ->
  let S := sort DataRecovery.newest_first l in
  let kept :=
    List.filter (fun x => negb (existsb (String.eqb x) (skipn 5 S))) l in
  (forall k, In k kept <-> In k (firstn 5 S))
  /\ (List.length kept <= 5)%nat.
Proof.
  intros Hnd S kept.
  assert (Hperm : Permutation S l) by apply sort_perm.
  assert (HndS : NoDup S)
    by (apply (Permutation_NoDup (Permutation_sym Hperm) Hnd)).
  assert (Hmem : forall k, In k kept <-> In k (firstn 5 S)).
  { intros k. unfold kept. rewrite filter_In, negb_true_iff.
    rewrite <- (in_firstn_iff 5 S k HndS). split.
    - intros [Hin Hnot]. split.
      + apply (Permutation_in k (Permutation_sym Hperm) Hin).
      + intros HR. apply existsb_eqb_In in HR. congruence.
    - intros [Hin Hnot]. split.
      + apply (Permutation_in k Hperm Hin).
      + destruct (existsb (String.eqb k) (skipn 5 S)) eqn:E; [| reflexivity].
        apply existsb_eqb_In in E. contradiction. }
  split; [exact Hmem |].
  apply Nat.le_trans with (List.length (firstn 5 S)).
  - apply NoDup_incl_length.
    + apply NoDup_filter, Hnd.
    + intros k Hk. apply Hmem, Hk.
  - apply firstn_le_length.
Qed.

(** ** The timestamp of the cart's backup keys *)

Lemma digits_val_of_uint_acc d : forall acc,
  Str.digits_val (Zpos acc) (NilEmpty.string_of_uint d)
  = Zpos (Pos.of_uint_acc d acc).
Proof.
  induction d; intros acc;
    cbn [NilEmpty.string_of_uint Str.digits_val Pos.of_uint_acc];
    try reflexivity;
    match goal with
    | |- Str.digits_val ?z _ = Zpos (Pos.of_uint_acc _ ?p) =>
        replace z with (Zpos p)
          by (match goal with
              | |- context [Str.digit_val ?c] =>
                  let v := eval vm_compute in (Str.digit_val c) in
                  change (Str.digit_val c) with v
              end; lia)
    end; apply IHd.
Qed.

Lemma digits_val_of_uint d :
  Str.digits_val 0 (NilEmpty.string_of_uint d) = Z.of_N (Pos.of_uint d).
Proof.
  induction d; cbn [NilEmpty.string_of_uint Str.digits_val Pos.of_uint Z.of_N];
    try reflexivity;
    try (rewrite <- digits_val_of_uint_acc; reflexivity).
  exact IHd.
Qed.

Lemma digits_of_uint d :
  Str.take_while Str.is_digit (NilEmpty.string_of_uint d)
  = NilEmpty.string_of_uint d.
Proof.
  induction d; cbn [NilEmpty.string_of_uint Str.take_while]; try reflexivity;
    (change (Str.is_digit _) with true; cbv iota; rewrite IHd; reflexivity).
Qed.

(** the decimal numeral of a natural number is a non-empty run of digits with
    that value *)
Lemma of_Z_digits z :
  0 <= z ->
  Str.take_while Str.is_digit (Str.of_Z z) = Str.of_Z z
  /\ Str.of_Z z <> EmptyString
  /\ Str.digits_val 0 (Str.of_Z z) = z.
Proof.
  intros Hz. destruct z as [| p | p]; [| | lia].
  - repeat split; discriminate.
  - unfold Str.of_Z. cbn [Z.to_int NilZero.string_of_int].
    pose proof (DecimalPos.Unsigned.to_uint_nonnil p) as Hn.
    pose proof (DecimalPos.Unsigned.of_to p) as Hr.
    unfold NilZero.string_of_uint.
    destruct (Pos.to_uint p) eqn:E; try contradiction;
      (split; [apply digits_of_uint |];
       split; [discriminate |];
       rewrite digits_val_of_uint, Hr; reflexivity).
Qed.

Lemma digit_head c r :
  Str.take_while Str.is_digit (String c r) = String c r ->
  Str.is_digit c = true /\ Str.take_while Str.is_digit r = r.
Proof.
  cbn [Str.take_while]. destruct (Str.is_digit c); [| discriminate].
  intros H. injection H as H. split; [reflexivity | exact H].
Qed.

(** [parseInt] reads a non-empty run of digits as its decimal value *)
Lemma parseInt_digits s :
  Str.take_while Str.is_digit s = s -> s <> EmptyString ->
  parseInt s = num_of_Z (Str.digits_val 0 s).
Proof.
  intros H Hs. destruct s as [| c r]; [contradiction |].
  destruct (digit_head _ _ H) as [Hc Hr].
  destruct c as [[] [] [] [] [] [] [] []]; try discriminate Hc;
    unfold parseInt; cbn [Str.drop_while];
    change (Str.is_space _) with false; cbv beta iota zeta;
    try (rewrite H; reflexivity).
  destruct r as [| x r1]; [reflexivity |].
  destruct (digit_head _ _ Hr) as [Hx _].
  destruct x as [[] [] [] [] [] [] [] []]; try discriminate Hx;
    change (_ || _)%bool with false; cbv iota; rewrite H; reflexivity.
Qed.

Lemma index_digits s :
  Str.take_while Str.is_digit s = s -> index 0 "_backup_" s = None.
Proof.
  induction s as [| c r IH]; intros H; [reflexivity |].
  destruct (digit_head _ _ H) as [Hc Hr].
  cbn [index]. rewrite (IH Hr).
  cbn [prefix]. destruct (ascii_dec "_" c) as [E | _]; [| reflexivity].
  subst c. discriminate Hc.
Qed.

Lemma substring_all s : substring 0 (length s) s = s.
Proof.
  induction s as [| c r IH]; [reflexivity |].
  cbn [length substring]. rewrite IH. reflexivity.
Qed.

Lemma prefix_app p s : prefix p (p ++ s) = true.
Proof.
  induction p as [| a p IH]; [destruct s; reflexivity |].
  cbn [append prefix]. destruct (ascii_dec a a) as [_ | N];
    [exact IH | contradiction].
Qed.

Lemma index_skip sep c s :
  prefix sep (String c s) = false ->
  index 0 sep (String c s) = option_map S (index 0 sep s).
Proof.
  intros H. cbn [index]. rewrite H. destruct (index 0 sep s); reflexivity.
Qed.

Lemma index_here sep c s :
  prefix sep (String c s) = true -> index 0 sep (String c s) = Some 0%nat.
Proof. intros H. cbn [index]. rewrite H. reflexivity. Qed.

Lemma index_storageKey ds :
  index 0 "_backup_" (CartModule.storageKey ++ "_backup_" ++ ds)
  = Some 19%nat.
Proof.
  unfold CartModule.storageKey. cbn [append].
  repeat (rewrite index_skip by reflexivity).
  rewrite index_here by (apply (prefix_app "_backup_" ds)).
  reflexivity.
Qed.

Lemma split_second_storageKey ds :
  Str.take_while Str.is_digit ds = ds ->
  Str.split_second "_backup_" (CartModule.storageKey ++ "_backup_" ++ ds)
  = Some ds.
Proof.
  intros H. unfold Str.split_second.
  rewrite index_storageKey.
  cbv beta iota zeta.
  replace (substring _ _ _) with (substring 0 (length ds) ds).
  - rewrite substring_all, (index_digits _ H). reflexivity.
  - unfold CartModule.storageKey.
    cbn [append length Nat.add Nat.sub substring].
    rewrite Nat.sub_0_r. reflexivity.
Qed.

(** the key that [createBackup] writes for the cart carries the time of the
    call, as [cleanupOldBackups] reads it back *)
Lemma backup_key_timestamp w :
  0 <= millis (clock w) ->
  DataRecovery.backup_timestamp (backup_key CartModule.storageKey w)
  = num_of_Z (millis (clock w)).
Proof.
  intros Hz. destruct (of_Z_digits _ Hz) as (Hd & Hn & Hv).
  unfold DataRecovery.backup_timestamp, backup_key.
  rewrite (split_second_storageKey _ Hd), (parseInt_digits _ Hd Hn), Hv.
  reflexivity.
Qed.

(** ** Any number of backups of the cart *)

Lemma timestamped_filter p l :
  timestamped l = true -> timestamped (List.filter p l) = true.
Proof.
  unfold timestamped. induction l as [| x l IH]; [reflexivity |].
  cbn [forallb List.filter]. intros H. apply andb_true_iff in H.
  destruct H as [Hx Hl]. destruct (p x); [| exact (IH Hl)].
  cbn [forallb]. rewrite Hx, (IH Hl). reflexivity.
Qed.

Lemma timestamped_set_add key k ks :
  timestamped (backups_of key ks) = true ->
  Num.isNaN (DataRecovery.backup_timestamp k) = false ->
  timestamped (backups_of key (DataRecovery.set_add k ks)) = true.
Proof.
  intros H Hk. unfold DataRecovery.set_add.
  destruct (existsb (String.eqb k) ks); [exact H |].
  unfold backups_of, timestamped in *.
  rewrite filter_app, forallb_app, H. cbn [List.filter].
  destruct (is_backup_of key k); [| reflexivity].
  cbn [forallb]. rewrite Hk. reflexivity.
Qed.

(** a backup of the cart written at a time that is not negative leaves the
    storage orderly, with at most 5 backups of the cart *)
Lemma createBackup_keeps_orderly data w :
  orderly CartModule.storageKey w ->
  0 <= millis (clock w) ->
  let w' := exec (DataRecovery.createBackup CartModule.storageKey data) w in
  orderly CartModule.storageKey w'
  /\ (List.length
        (backups_of CartModule.storageKey (keys_of (localStorage w'))) <= 5)%nat.
Proof.
  intros (Hf & Hd & Ht) Hz w'.
  set (key := CartModule.storageKey) in *.
  set (present :=
         DataRecovery.set_add (backup_key key w) (keys_of (localStorage w))).
  assert (Hp : distinct present = true) by (apply distinct_set_add, Hd).
  assert (Htp : timestamped (backups_of key present) = true).
  { apply timestamped_set_add; [exact Ht |].
    unfold key. rewrite (backup_key_timestamp w Hz). reflexivity. }
  assert (Hk : backups_of key (keys_of (localStorage w'))
               = List.filter
                   (fun x =>
                      negb (existsb (String.eqb x)
                              (skipn 5 (sort DataRecovery.newest_first
                                          (backups_of key present)))))
                   (backups_of key present)).
  { unfold w'. rewrite (createBackup_keys key data w Hf Hd). fold present.
    unfold backups_of. rewrite filter_comm. reflexivity. }
  split; [split; [| split] |].
  - exact (proj1 (createBackup_healthy key data w Hf)).
  - unfold w'. rewrite (createBackup_keys key data w Hf Hd).
    apply distinct_filter, Hp.
  - rewrite Hk. apply timestamped_filter, Htp.
  - rewrite Hk. apply kept_newest.
    apply distinct_NoDup. unfold backups_of. apply distinct_filter, Hp.
Qed.

(** however many backups of the cart are written, one after the other at
    times that are not negative, at most 5 of them are in the storage after
    the last one *)
Lemma backups_stay_rotated calls : forall w,
  orderly CartModule.storageKey w ->
  Forall (fun call => 0 <= millis (fst call)) calls ->
  let w' := fold_left (backup_at CartModule.storageKey) calls w in
  orderly CartModule.storageKey w'
  /\ (calls <> [] ->
      (List.length
         (backups_of CartModule.storageKey (keys_of (localStorage w')))
       <= 5)%nat).
Proof.
  induction calls as [| call calls IH]; intros w Ho Hall; cbn [fold_left].
  - split; [exact Ho | intros H; contradiction].
  - inversion Hall as [| ? ? Hc Hrest]; subst.
    destruct (createBackup_keeps_orderly (snd call) (with_clock (fst call) w))
      as [Ho1 Hl1]; [exact Ho | exact Hc |].
    fold (backup_at CartModule.storageKey w call) in Ho1, Hl1.
    destruct (IH _ Ho1 Hrest) as [Ho2 Hl2].
    split; [exact Ho2 | intros _].
    destruct calls as [| c2 calls]; [exact Hl1 | apply Hl2; discriminate].
Qed.

(** ** The timestamp embedded in a backup key *)

Lemma prefix_splits p : forall s,
  prefix p s = true -> exists b, s = (p ++ b)%string.
Proof.
  induction p as [| c r IH]; intros s H.
  - exists s. reflexivity.
  - destruct s as [| c' s']; cbn [prefix] in H; [discriminate |].
    destruct (ascii_dec c c') as [<- | _]; [| discriminate].
    destruct (IH s' H) as [b ->]. exists b. reflexivity.
Qed.

Lemma length_append (a b : string) :
  String.length (a ++ b) = (String.length a + String.length b)%nat.
Proof.
  induction a as [| c r IH]; [reflexivity |]. cbn [append String.length].
  rewrite IH. reflexivity.
Qed.

Lemma substring_rest a b :
  substring (String.length a) (String.length (a ++ b) - String.length a)
    (a ++ b) = b.
Proof.
  rewrite length_append. replace (_ + _ - _)%nat with (String.length b) by lia.
  induction a as [| c r IH]; cbn [String.length append substring].
  - apply substring_all.
  - exact IH.
Qed.

Lemma append_assoc_text (a b c : string) : ((a ++ b) ++ c = a ++ b ++ c)%string.
Proof.
  induction a as [| x r IH]; [reflexivity |]. cbn [append]. rewrite IH.
  reflexivity.
Qed.

Lemma embedded_timestamp_spec key k t :
  embedded_timestamp key k = Some t ->
  exists ds,
    k = (key ++ "_backup_" ++ ds)%string
    /\ Str.take_while Str.is_digit ds = ds
    /\ ds <> EmptyString
    /\ Str.digits_val 0 ds = t.
Proof.
  unfold embedded_timestamp. cbv zeta.
  destruct (prefix (key ++ "_backup_") k) eqn:P; [| discriminate].
  destruct (prefix_splits _ _ P) as [b ->].
  rewrite substring_rest. cbn [andb].
  destruct (b =? EmptyString)%string eqn:E1; [discriminate |].
  destruct (Str.take_while Str.is_digit b =? b)%string eqn:E2; [| discriminate].
  cbn [negb andb]. intros H. injection H as <-.
  exists b. rewrite append_assoc_text. split; [reflexivity |].
  split; [apply String.eqb_eq, E2 |]. split; [| reflexivity].
  intros ->. discriminate E1.
Qed.

Lemma prefix_app_longer p : forall a b,
  (String.length p <= String.length a)%nat ->
  prefix p (a ++ b) = prefix p a.
Proof.
  induction p as [| c r IH]; intros a b H.
  - destruct a, b; reflexivity.
  - destruct a as [| c' a']; cbn [String.length] in H; [lia |].
    cbn [append prefix]. destruct (ascii_dec c c'); [| reflexivity].
    apply IH. lia.
Qed.

Lemma index_app_found sep : forall a b i,
  index 0 sep a = Some i ->
  (i + String.length sep <= String.length a)%nat ->
  index 0 sep (a ++ b) = Some i.
Proof.
  induction a as [| c r IH]; intros b i H L.
  - cbn [index] in H. destruct sep; [| discriminate]. injection H as <-.
    destruct b; reflexivity.
  - cbn [append]. cbn [index] in H |- *.
    destruct (prefix sep (String c r)) eqn:P.
    + injection H as <-.
      change (String c (r ++ b)) with (String c r ++ b)%string.
      rewrite prefix_app_longer by (cbn [Nat.add] in L; exact L).
      rewrite P. reflexivity.
    + destruct (index 0 sep r) as [j |] eqn:E; [| discriminate].
      injection H as <-.
      change (String c (r ++ b)) with (String c r ++ b)%string.
      rewrite prefix_app_longer by (cbn [String.length] in *; lia).
      rewrite P, (IH b j eq_refl) by (cbn [String.length] in L; lia).
      reflexivity.
Qed.

Lemma index_plain key ds :
  plain_key key = true ->
  index 0 "_backup_" (key ++ "_backup_" ++ ds) = Some (String.length key).
Proof.
  unfold plain_key. intros H.
  destruct (index 0 "_backup_" (key ++ "_backup_")) as [i |] eqn:E;
    [| discriminate].
  apply Nat.eqb_eq in H. subst i.
  rewrite <- append_assoc_text. apply index_app_found; [exact E |].
  rewrite length_append. lia.
Qed.

Lemma split_second_plain key ds :
  plain_key key = true ->
  Str.take_while Str.is_digit ds = ds ->
  Str.split_second "_backup_" (key ++ "_backup_" ++ ds) = Some ds.
Proof.
  intros Hk H. unfold Str.split_second.
  rewrite (index_plain key ds Hk). cbv beta iota zeta.
  replace (substring _ _ _) with ds.
  - rewrite (index_digits _ H). reflexivity.
  - rewrite <- append_assoc_text.
    replace (String.length key + String.length "_backup_")%nat
      with (String.length (key ++ "_backup_")) by apply length_append.
    symmetry. apply substring_rest.
Qed.

(** on the backup keys of a plain key, [cleanupOldBackups] reads the
    embedded timestamp *)
Lemma embedded_timestamp_read key k t :
  plain_key key = true ->
  embedded_timestamp key k = Some t ->
  DataRecovery.backup_timestamp k = num_of_Z t.
Proof.
  intros Hk H.
  destruct (embedded_timestamp_spec key k t H) as (ds & -> & Hd & Hn & <-).
  unfold DataRecovery.backup_timestamp.
  rewrite (split_second_plain key ds Hk Hd). apply parseInt_digits; assumption.
Qed.

Lemma stamped_read key k :
  plain_key key = true -> stamped key k = true ->
  exists t, embedded_timestamp key k = Some t
            /\ DataRecovery.backup_timestamp k = num_of_Z t.
Proof.
  unfold stamped. intros Hk H.
  destruct (embedded_timestamp key k) as [t |] eqn:E; [| discriminate].
  exists t. split; [reflexivity | apply (embedded_timestamp_read key k t Hk E)].
Qed.

Lemma stamped_timestamped key l :
  plain_key key = true ->
  forallb (stamped key) l = true -> timestamped l = true.
Proof.
  intros Hk H. unfold timestamped. rewrite forallb_forall in *.
  intros k Hin. destruct (stamped_read key k Hk (H k Hin)) as (t & _ & ->).
  reflexivity.
Qed.

Lemma newer_or_equal_recent key a b :
  plain_key key = true -> stamped key a = true -> stamped key b = true ->
  newer_or_equal a b = true -> more_recent key a b.
Proof.
  intros Hk Ha Hb.
  destruct (stamped_read key a Hk Ha) as (ta & Ea & Ra).
  destruct (stamped_read key b Hk Hb) as (tb & Eb & Rb).
  unfold newer_or_equal, more_recent. rewrite Ea, Eb, Ra, Rb.
  unfold Num.ge. rewrite Num_le_Z. apply Z.leb_le.
Qed.

Lemma kept_count (l : list string) :
  NoDup l ->
  let S := sort DataRecovery.newest_first l in
  List.length
    (List.filter (fun x => negb (existsb (String.eqb x) (skipn 5 S))) l)
  = Nat.min 5 (List.length l).
Proof.
  intros Hnd S.
  assert (Hperm : Permutation S l) by apply sort_perm.
  assert (HndS : NoDup S)
    by (apply (Permutation_NoDup (Permutation_sym Hperm) Hnd)).
  destruct (kept_newest l Hnd) as [Hmem _]. fold S in Hmem.
  rewrite <- (Permutation_length Hperm), <- length_firstn.
  apply Permutation_length, NoDup_Permutation.
  - apply NoDup_filter, Hnd.
  - rewrite <- (firstn_skipn 5 S) in HndS. apply NoDup_app_remove_r in HndS.
    exact HndS.
  - exact Hmem.
Qed.

(** C8, the claim as it stands, fails: [createBackup] catches what the
    storage throws. With 5 backups in the storage, when the removal of
    the oldest one throws, the backup that was written stays and 6
    backups are left. *)
Lemma createBackup_leaves_six_backups :
  let key := CartModule.storageKey in
  let w :=
    with_faults
      (List.repeat None 14 ++ [Some (mkErr "Error" "The operation failed")])
      (with_localStorage
         [(key ++ "_backup_1700000000001", "{}");
          (key ++ "_backup_1700000000002", "{}");
          (key ++ "_backup_1700000000003", "{}");
          (key ++ "_backup_1700000000004", "{}");
          (key ++ "_backup_1700000000005", "{}")]
         (fresh (mkClock 1700000000006 "2023-11-14T22:13:20.006Z"))) in
  result (DataRecovery.createBackup key (VObj [])) w = Ok tt
  /\ backups_of key
       (keys_of (localStorage
                   (exec (DataRecovery.createBackup key (VObj [])) w)))
     = [key ++ "_backup_1700000000001"; key ++ "_backup_1700000000002";
        key ++ "_backup_1700000000003"; key ++ "_backup_1700000000004";
        key ++ "_backup_1700000000005"; key ++ "_backup_1700000000006"].
Proof. split; vm_compute; reflexivity. Qed.

(** C8, amended. On a storage that does not fail and holds no key twice,
    for a key in which [_backup_] does not occur before the [_backup_]
    that [createBackup] appends, and backup keys that all carry a
    timestamp of digits, a natural number of at most 2^53: after
    [createBackup(key, data)] the backup keys of [key] that are left are
    5, or all of them when fewer than 5 were present once the new backup
    was written; each of them was present then; and every backup kept
    carries an embedded timestamp at least that of every backup
    discarded. *)
Theorem createBackup_rotates key data w :
  faults w = [] ->
  distinct (keys_of (localStorage w)) = true ->
  plain_key key = true ->
  let before :=
    backups_of key
      (DataRecovery.set_add (backup_key key w) (keys_of (localStorage w))) in
  forallb (stamped key) before = true ->
  let after :=
    backups_of key
      (keys_of (localStorage (exec (DataRecovery.createBackup key data) w))) in
  List.length after = Nat.min 5 (List.length before)
  /\ (forall k, In k after -> In k before)
  /\ (forall s d,
        In s after -> In d before -> ~ In d after -> more_recent key s d).
Proof.
  intros Hf Hd Hk before Hst after.
  pose proof (stamped_timestamped key before Hk Hst) as Ht.
  set (S := sort DataRecovery.newest_first before).
  assert (Hafter :
    after = List.filter (fun x => negb (existsb (String.eqb x) (skipn 5 S)))
              before).
  { unfold after. rewrite (createBackup_keys key data w Hf Hd).
    fold before. fold S. unfold backups_of. rewrite filter_comm.
    reflexivity. }
  assert (Hnd : NoDup before).
  { apply distinct_NoDup. unfold before, backups_of.
    apply distinct_filter, distinct_set_add, Hd. }
  assert (Hperm : Permutation S before) by apply sort_perm.
  destruct (kept_newest before Hnd) as [Hmem _].
  fold S in Hmem. rewrite <- Hafter in Hmem.
  split; [| split].
  - rewrite Hafter. apply kept_count, Hnd.
  - intros k Hin. rewrite Hafter in Hin. apply filter_In in Hin. apply Hin.
  - intros s d Hs Hdb Hda.
    assert (HsS : In s (firstn 5 S)) by (apply Hmem, Hs).
    assert (HdS : In d (skipn 5 S)).
    { assert (In d S) as HdS
        by (apply (Permutation_in d (Permutation_sym Hperm) Hdb)).
      rewrite <- (firstn_skipn 5 S) in HdS. apply in_app_or in HdS.
      destruct HdS as [H | H]; [| exact H].
      exfalso. apply Hda, Hmem, H. }
    assert (Hsorted : newest_sorted (firstn 5 S ++ skipn 5 S)).
    { rewrite firstn_skipn. apply sort_sorted, Ht. }
    rewrite forallb_forall in Hst.
    apply (newer_or_equal_recent key s d Hk).
    + apply Hst. rewrite Hafter in Hs. apply filter_In in Hs. apply Hs.
    + apply Hst, Hdb.
    + exact (sorted_app_inv _ _ _ Hsorted s d HsS HdS).
Qed.

Lemma createBackup_rotates_witness :
  let key := CartModule.storageKey in
  let w :=
    with_localStorage
      [(key, "{}");
       (key ++ "_backup_1700000000001", "{}");
       (key ++ "_backup_1700000000002", "{}");
       (key ++ "_backup_1700000000003", "{}");
       (key ++ "_backup_1700000000004", "{}");
       (key ++ "_backup_1700000000005", "{}")]
      (fresh (mkClock 1700000000006 "2023-11-14T22:13:20.006Z")) in
  let after :=
    backups_of key
      (keys_of (localStorage
                  (exec (DataRecovery.createBackup key (VObj [])) w))) in
  List.length after = 5%nat
  /\ (In (key ++ "_backup_1700000000006") after ->
      ~ In (key ++ "_backup_1700000000001") after ->
      more_recent key (key ++ "_backup_1700000000006")
        (key ++ "_backup_1700000000001")).
Proof.
  intros key w after.
  destruct (createBackup_rotates key (VObj []) w eq_refl eq_refl eq_refl
              eq_refl)
    as (Hlen & _ & Hrec).
  split; [exact Hlen |]. intros Hs Hd. apply (Hrec _ _ Hs); [| exact Hd].
  vm_compute. do 1 left. reflexivity.
Defined.

(** a key that is itself a backup key is not plain: the timestamp read
    from its backup keys is the one of the key, the order of the storage
    decides, and the backup just written is the one discarded *)
Example backup_of_a_backup_key :
  let key := "cart_backup_7" in
  let w :=
    with_localStorage
      [(key ++ "_backup_1700000000001", "{}");
       (key ++ "_backup_1700000000002", "{}");
       (key ++ "_backup_1700000000003", "{}");
       (key ++ "_backup_1700000000004", "{}");
       (key ++ "_backup_1700000000005", "{}")]
      (fresh (mkClock 1700000000006 "2023-11-14T22:13:20.006Z")) in
  plain_key key = false
  /\ DataRecovery.backup_timestamp (key ++ "_backup_1700000000006")
     = num_of_Z 7
  /\ backups_of key
       (keys_of (localStorage
                   (exec (DataRecovery.createBackup key (VObj [])) w)))
     = [key ++ "_backup_1700000000001"; key ++ "_backup_1700000000002";
        key ++ "_backup_1700000000003"; key ++ "_backup_1700000000004";
        key ++ "_backup_1700000000005"].
Proof. repeat split; vm_compute; reflexivity. Qed.

(** ** Loading needs one turn *)

Lemma load_item_total env strict itemData :
  safe (fun _ => True) (CartModule.load_item env strict itemData).
Proof. unfold CartModule.load_item. pres. Qed.

Lemma load_items_total env strict l :
  safe (fun _ => True) (CartModule.load_items env strict l).
Proof.
  induction l as [| x r IH]; simpl; pres. apply load_item_total.
Qed.

Lemma saveToStorage_safe env :
  safe (fun _ => True) (CartModule.saveToStorage env).
Proof. unfold CartModule.saveToStorage. pres. Qed.

(** with the data recovery loaded, the [try] block of [loadFromStorage]
    never throws *)
Lemma load_attempt_total env :
  validation_loaded env = true -> total (CartModule.load_attempt env).
Proof.
  intros Hv w. unfold CartModule.load_attempt. rewrite Hv.
  unfold bind at 1. unfold bind at 1.
  destruct (recoverData_post CartModule.storageKey "cart"
              (fun r => DataRecovery.success r = true
                        /\ usable_cart (DataRecovery.data r) = true)) with (w := w)
    as (r & E & Hs & Hu).
  { intros errs t. split; reflexivity. }
  { intros parsed s0 errs w1.
    destruct (check_parsed_cart parsed s0 errs w1) as (r & E & Hs & Hu & _).
    exists r. auto. }
  unfold result in E.
  destruct (DataRecovery.recoverData CartModule.storageKey "cart" w)
    as [o w1]. cbn [fst] in E. subst o. cbv beta iota.
  rewrite Hs.
  destruct (DataRecovery.data r) as [| | b | n | s | l | f] eqn:Ed;
    try discriminate.
  cbn [truthy andb]. unfold usable_cart in Hu.
  destruct (assoc "items" f) as [[| | b | n | s | l | g] |] eqn:Ei;
    try discriminate.
  unfold bind at 1. unfold bind at 1. unfold modify at 1. cbv beta iota.
  unfold bind at 1. unfold lift at 1. cbn [prop]. rewrite Ei. cbv beta iota.
  unfold bind at 1. unfold lift at 1. cbn [CartModule.iterate]. cbv beta iota.
  unfold bind at 1.
  match goal with |- context [CartModule.load_items env false l ?w2] =>
    destruct (load_items_total env false l w2 I) as [_ Hl];
    destruct (CartModule.load_items env false l w2) as [[n | e] w3] end;
    [| discriminate].
  cbv beta iota. unfold bind at 1.
  destruct n as [| n].
  - reflexivity.
  - destruct (saveToStorage_safe env w3 I) as [_ Hsave].
    destruct (CartModule.saveToStorage env w3) as [[[] | e] w4];
      [reflexivity | discriminate].
Qed.

(** The retry of [loadFromStorage] is never taken: with the data recovery
    loaded the [try] block does not throw, and without it no backup is
    restored. So every amount of fuel above zero gives the same run. *)
Lemma loadFromStorage_fuel_enough env n w :
  CartModule.loadFromStorage_fuel env (S n) w = CartModule.loadFromStorage env w.
Proof.
  unfold CartModule.loadFromStorage. cbn [CartModule.loadFromStorage_fuel].
  unfold try_catch.
  destruct (validation_loaded env) eqn:Hv.
  - pose proof (load_attempt_total env Hv w) as Ht.
    destruct (CartModule.load_attempt env w) as [[[] | e] w1];
      [reflexivity | discriminate].
  - destruct (CartModule.load_attempt env w) as [[[] | e] w1]; reflexivity.
Qed.

(** ** Scenarios *)

Example to_string_examples :
  (Num.to_string 5, Num.to_string (dec 5999 2), Num.to_string (dec (-27) 1),
   Num.to_string NaN, Num.to_string 0)
  = ("5", "59.99", "-2.7", "NaN", "0").
Proof. reflexivity. Qed.

Example split_second_examples :
  (Str.split_second "_backup_" "cart_backup_123",
   Str.split_second "_backup_" "a_backup_b_backup_7",
   Str.split_second "_backup_" "cart")
  = (Some "123", Some "b", None).
Proof. reflexivity. Qed.

Example parseFloat_examples :
  (parseFloat "-2.7", parseFloat "1.2.3", parseFloat "-", parseFloat ".5",
   parseFloat "5.", parseFloat "--1")
  = (dec (-27) 1, dec 12 1, NaN, dec 5 1, num_of_Z 5, NaN).
Proof. reflexivity. Qed.

Example repair_examples :
  (DataRecovery.repairMalformedJson (dq " {items : [1,2, ], b:{c :3,},} "),
   DataRecovery.repairMalformedJson (dq "{'items':[{'productId':1,'quantity':2"))
  = (Some (dq "{'items': [1,2 ], 'b':{'c':3}}"), None).
Proof. reflexivity. Qed.

(** the scenario of the specification: an empty cart, [addItem(1, 2)],
    [addItem(1, 3)], a quantity of 5, [updateQuantity(1, 0)], an empty
    cart *)
Example scenario_add_add_update :
  let w0 := fresh (mkClock 0 "1970-01-01T00:00:00.000Z") in
  let w1 := exec (CartModule.addItem browser (VNum 1) (VNum 2)) w0 in
  let w2 := exec (CartModule.addItem browser (VNum 1) (VNum 3)) w1 in
  let w3 := exec (CartModule.updateQuantity browser (VNum 1) (VNum 0)) w2 in
  quantity_of 1 w2 = num_of_Z 5
  /\ result CartModule.isEmpty w3 = Ok true
  /\ result (CartModule.getCartTotal browser) w2 = Ok (dec 29995 2).
Proof. repeat split; vm_compute; reflexivity. Qed.

(** a write that throws a quota error puts the manager in session-only
    mode, and the next [saveToStorage] writes nothing *)
Example quota_error_ends_persistence :
  let quota := mkErr "QuotaExceededError" "The quota has been exceeded." in
  let w0 := with_faults [Some quota] (fresh (mkClock 0 "1970-01-01T00:00:00.000Z")) in
  let w1 := exec (CartModule.addItem bare (VNum 1) (VNum 2)) w0 in
  let w2 := exec (CartModule.addItem bare (VNum 2) (VNum 1)) w1 in
  sessionOnly w1 = true
  /\ localStorage w2 = []
  /\ List.length (items w2) = 2%nat
  /\ result CartModule.getStorageInfo w2
     = Ok (CartModule.mkStorageInfo false None true 0 true None).
Proof. repeat split; vm_compute; reflexivity. Qed.

(** seven backups in a row leave the five newest *)
Example seven_backups_leave_five :
  let key := CartModule.storageKey in
  let at_time (t : Z) (w : World) : World :=
    exec (DataRecovery.createBackup key (VObj []))
      (with_clock (mkClock t "2023-11-14T22:13:20.000Z") w) in
  let w :=
    fold_left (fun w t => at_time t w)
      [1700000000001; 1700000000002; 1700000000003; 1700000000004;
       1700000000005; 1700000000006; 1700000000007]
      (fresh (mkClock 0 "1970-01-01T00:00:00.000Z")) in
  backups_of key (keys_of (localStorage w))
  = [key ++ "_backup_1700000000003"; key ++ "_backup_1700000000004";
     key ++ "_backup_1700000000005"; key ++ "_backup_1700000000006";
     key ++ "_backup_1700000000007"].
Proof. vm_compute. reflexivity. Qed.

(** a half of a cent goes up when the number is the half: 0.125 is, and
    1.005 is a number below it *)
Example round2_half_up :
  (CartModule.round2 (dec 125 3), CartModule.round2 (dec 1005 3),
   CartModule.round2 (dec 1234 3))
  = (dec 13 2, num_of_Z 1, dec 123 2).
Proof. vm_compute. reflexivity. Qed.

(** * Further properties of the code *)

(** ** The keys of the cart *)

Lemma same_refl n : Num.same n n = true.
Proof. destruct n; [reflexivity |]. apply Qeq_bool_iff. reflexivity. Qed.

Lemma same_sym a b : Num.same a b = Num.same b a.
Proof.
  destruct a as [| x], b as [| y]; try reflexivity. cbn [Num.same].
  destruct (Qeq_bool x y) eqn:E1, (Qeq_bool y x) eqn:E2; try reflexivity.
  - apply Qeq_bool_iff in E1. symmetry in E1. apply Qeq_bool_iff in E1. congruence.
  - apply Qeq_bool_iff in E2. symmetry in E2. apply Qeq_bool_iff in E2. congruence.
Qed.

Lemma same_trans a b c :
  Num.same a b = true -> Num.same b c = true -> Num.same a c = true.
Proof.
  destruct a as [| x], b as [| y], c as [| z]; try discriminate; try reflexivity.
  cbn [Num.same]. rewrite !Qeq_bool_iff. intros H1 H2. rewrite H1. exact H2.
Qed.

Lemma same_eqb a b n : Num.same a b = true -> Num.eqb n a = Num.eqb n b.
Proof.
  destruct a as [| x], b as [| y], n as [| z]; try discriminate; try reflexivity.
  cbn [Num.same Num.eqb]. rewrite Qeq_bool_iff. intros H.
  destruct (Qeq_bool z x) eqn:E1, (Qeq_bool z y) eqn:E2; try reflexivity.
  - apply Qeq_bool_iff in E1. rewrite H in E1. apply Qeq_bool_iff in E1. congruence.
  - apply Qeq_bool_iff in E2. rewrite <- H in E2. apply Qeq_bool_iff in E2. congruence.
Qed.

Lemma getProductById_same env a b :
  Num.same a b = true ->
  ProductsModule.getProductById env (VNum a)
  = ProductsModule.getProductById env (VNum b).
Proof.
  intros H. unfold ProductsModule.getProductById. f_equal.
  induction (ProductsModule.products env) as [| p l IH]; [reflexivity |].
  cbn [find]. rewrite (same_eqb a b _ H), IH. reflexivity.
Qed.

Lemma in_catalog_same env a b :
  Num.same a b = true -> in_catalog env a = in_catalog env b.
Proof.
  intros H. unfold in_catalog. rewrite (getProductById_same env a b H).
  reflexivity.
Qed.

Lemma entries_map_set env n v its :
  forallb (entry_ok env) its = true ->
  in_catalog env n = true ->
  Num.same n (CartItem.productId v) = true ->
  quantity_ok env (CartItem.quantity v) = true ->
  forallb (entry_ok env) (CartModule.map_set (VNum n) v its) = true.
Proof.
  intros H Hc Hs Hq. induction its as [| kv r IH]; cbn [CartModule.map_set].
  - cbn [forallb]. unfold entry_ok. cbn [fst snd]. rewrite Hc, Hs, Hq.
    reflexivity.
  - cbn [forallb] in H. apply andb_true_iff in H. destruct H as [Hkv Hr].
    destruct (CartModule.key_is (VNum n) kv) eqn:E.
    + cbn [forallb]. rewrite Hr, andb_true_r.
      unfold entry_ok in *. cbn [fst snd].
      apply andb_true_iff in Hkv. destruct Hkv as [Hkv _].
      apply andb_true_iff in Hkv. destruct Hkv as [Hcat _].
      rewrite Hcat, Hq, (same_trans _ _ _ E Hs). reflexivity.
    + cbn [forallb]. rewrite Hkv, (IH Hr). reflexivity.
Qed.

Lemma existsb_map_set (g : num -> bool) n v its :
  existsb (fun kv => g (fst kv)) (CartModule.map_set (VNum n) v its) = true ->
  existsb (fun kv => g (fst kv)) its = true \/ g n = true.
Proof.
  induction its as [| kv r IH]; cbn [CartModule.map_set].
  - cbn [existsb fst]. rewrite orb_false_r. intros H. right. exact H.
  - destruct (CartModule.key_is (VNum n) kv).
    + cbn [existsb fst]. intros H. left. exact H.
    + cbn [existsb]. intros H. apply orb_true_iff in H.
      destruct H as [H | H].
      * left. rewrite H. reflexivity.
      * destruct (IH H) as [H1 | H1]; [left | right; exact H1].
        rewrite H1. apply orb_true_r.
Qed.

Lemma keys_map_set n v its :
  keys_distinct its = true ->
  keys_distinct (CartModule.map_set (VNum n) v its) = true.
Proof.
  induction its as [| kv r IH]; intros H; cbn [CartModule.map_set].
  - reflexivity.
  - cbn [keys_distinct] in H. apply andb_true_iff in H. destruct H as [Hk Hr].
    destruct (CartModule.key_is (VNum n) kv) eqn:E.
    + cbn [keys_distinct fst]. rewrite Hk, Hr. reflexivity.
    + cbn [keys_distinct]. rewrite (IH Hr), andb_true_r.
      apply negb_true_iff. apply negb_true_iff in Hk.
      destruct (existsb _ (CartModule.map_set (VNum n) v r)) eqn:Ex;
        [| reflexivity].
      apply (existsb_map_set (fun k => Num.same k (fst kv))) in Ex.
      destruct Ex as [Ex | Ex]; [congruence |].
      cbn [CartModule.key_is] in E. rewrite same_sym in E. congruence.
Qed.

Lemma cart_ok_map_set env n v its :
  cart_ok env its = true ->
  in_catalog env n = true ->
  Num.same n (CartItem.productId v) = true ->
  quantity_ok env (CartItem.quantity v) = true ->
  cart_ok env (CartModule.map_set (VNum n) v its) = true.
Proof.
  unfold cart_ok. intros H Hc Hs Hq. apply andb_true_iff in H.
  destruct H as [H1 H2].
  rewrite (entries_map_set env n v its H1 Hc Hs Hq), (keys_map_set n v its H2).
  reflexivity.
Qed.

Lemma forallb_filter {A : Type} (p q : A -> bool) l :
  forallb p l = true -> forallb p (List.filter q l) = true.
Proof.
  induction l as [| x l IH]; [reflexivity |]. cbn [forallb List.filter].
  intros H. apply andb_true_iff in H. destruct H as [Hx Hl].
  destruct (q x); [| exact (IH Hl)]. cbn [forallb]. rewrite Hx, (IH Hl).
  reflexivity.
Qed.

Lemma existsb_filter {A : Type} (p q : A -> bool) l :
  existsb p (List.filter q l) = true -> existsb p l = true.
Proof.
  induction l as [| x l IH]; [intros H; exact H |]. cbn [existsb List.filter].
  destruct (q x); cbn [existsb]; intros H.
  - apply orb_true_iff in H. destruct H as [H | H];
      [rewrite H; reflexivity | rewrite (IH H); apply orb_true_r].
  - rewrite (IH H). apply orb_true_r.
Qed.

Lemma keys_filter q its :
  keys_distinct its = true -> keys_distinct (List.filter q its) = true.
Proof.
  induction its as [| kv r IH]; [reflexivity |]. cbn [keys_distinct List.filter].
  intros H. apply andb_true_iff in H. destruct H as [Hk Hr].
  destruct (q kv); [| exact (IH Hr)]. cbn [keys_distinct].
  rewrite (IH Hr), andb_true_r. apply negb_true_iff. apply negb_true_iff in Hk.
  destruct (existsb _ (List.filter q r)) eqn:Ex; [| reflexivity].
  apply existsb_filter in Ex. congruence.
Qed.

Lemma cart_ok_filter env q its :
  cart_ok env its = true -> cart_ok env (List.filter q its) = true.
Proof.
  unfold cart_ok. intros H. apply andb_true_iff in H. destruct H as [H1 H2].
  rewrite (forallb_filter _ q its H1), (keys_filter q its H2). reflexivity.
Qed.

(** ** The sanitizers *)

Lemma sanitize_number_cases v :
  InputValidator.sanitize_number v = VNull
  \/ exists q, InputValidator.sanitize_number v = VNum (Fin q).
Proof.
  unfold InputValidator.sanitize_number.
  destruct v as [| | b | [| q] | s | l | f]; try (left; reflexivity);
    try (right; exists q; reflexivity);
    try (destruct s; [left; reflexivity |]);
    cbv beta iota; cbn [Num.isNaN negb];
    match goal with
    | |- context [parseFloat ?t] =>
        destruct (parseFloat t) as [| x];
          [left; reflexivity | right; exists x; reflexivity]
    end.
Qed.

Lemma sanitize_cases v type :
  InputValidator.sanitize v type = VNull
  \/ exists z : Z, InputValidator.sanitize v type = VNum (num_of_Z z).
Proof.
  assert (H : InputValidator.sanitize_integer v = VNull
              \/ exists z : Z,
                   InputValidator.sanitize_integer v = VNum (num_of_Z z)).
  { unfold InputValidator.sanitize_integer.
    destruct (sanitize_number_cases v) as [E | [q E]]; rewrite E.
    - left. reflexivity.
    - right. exists (Qfloor q). reflexivity. }
  destruct type; exact H.
Qed.

Lemma sanitize_null type : InputValidator.sanitize VNull type = VNull.
Proof. destruct type; reflexivity. Qed.

Lemma sanitize_idempotent v type :
  InputValidator.sanitize (InputValidator.sanitize v type) type
  = InputValidator.sanitize v type.
Proof.
  destruct (sanitize_cases v type) as [E | [z E]]; rewrite E.
  - apply sanitize_null.
  - apply sanitize_Z.
Qed.

Lemma validate_sanitized env v type :
  InputValidator.validate env (InputValidator.sanitize v type) type
  = InputValidator.validate env v type.
Proof.
  unfold InputValidator.validate. rewrite sanitize_idempotent. reflexivity.
Qed.

Lemma validate_null env type :
  InputValidator.validate env VNull type
  = InputValidator.mkResult false ["This field is required"] VNull.
Proof. destruct type; reflexivity. Qed.

(** ** Every operation keeps the cart well formed *)

Lemma quantity_ok_Z env (z : Z) :
  0 <= z <= 999 -> quantity_ok env (num_of_Z z) = true.
Proof.
  intros H. unfold quantity_ok.
  rewrite Num_lt_Z, Num_isInteger_Z, Num_gt_Z.
  destruct (z <? 0) eqn:E1; [lia |]. destruct (999 <? z) eqn:E2; [lia |].
  rewrite orb_true_r. reflexivity.
Qed.

Lemma validateQuantity_valid env v :
  InputValidator.isValid (InputValidator.validateQuantity env v) = true ->
  exists z : Z,
    InputValidator.sanitizedValue (InputValidator.validateQuantity env v)
    = VNum (num_of_Z z)
    /\ 0 <= z <= 999.
Proof.
  unfold InputValidator.validateQuantity.
  rewrite <- validate_sanitized.
  destruct (sanitize_cases v InputValidator.quantity) as [E | [z E]]; rewrite E.
  - rewrite validate_null. discriminate.
  - fold (InputValidator.validateQuantity env (VNum (num_of_Z z))).
    rewrite validateQuantity_Z.
    destruct ((0 <=? z) && (z <=? 999)) eqn:B; [| discriminate].
    intros _. exists z. split; [reflexivity |].
    apply andb_true_iff in B. lia.
Qed.

Lemma validateProductId_valid env v :
  InputValidator.isValid (InputValidator.validateProductId env v) = true ->
  exists z : Z,
    InputValidator.sanitizedValue (InputValidator.validateProductId env v)
    = VNum (num_of_Z z).
Proof.
  unfold InputValidator.validateProductId.
  rewrite <- validate_sanitized.
  destruct (sanitize_cases v InputValidator.productId) as [E | [z E]]; rewrite E.
  - rewrite validate_null. discriminate.
  - intros _. exists z. rewrite validated_value. apply sanitize_Z.
Qed.

Lemma validated_post env p q w r w' :
  CartModule.validated env p q w = (Ok r, w') ->
  w' = w
  /\ exists pn qn, r = (VNum pn, VNum qn) /\ quantity_ok env qn = true.
Proof.
  unfold CartModule.validated. destruct (validation_loaded env) eqn:Hv.
  - destruct (InputValidator.isValid (InputValidator.validateProductId env p))
      eqn:Hp; cbn [negb]; [| discriminate].
    destruct (InputValidator.isValid (InputValidator.validateQuantity env q))
      eqn:Hq; cbn [negb]; [| discriminate].
    destruct (validateProductId_valid env p Hp) as [zp Ep].
    destruct (validateQuantity_valid env q Hq) as (zq & Eq & Hz).
    rewrite Ep, Eq. unfold ret. intros H. injection H as <- <-.
    split; [reflexivity |]. exists (num_of_Z zp), (num_of_Z zq).
    split; [reflexivity | apply quantity_ok_Z, Hz].
  - destruct p as [| | | pn | | |]; try discriminate.
    destruct (Num.le pn 0); [discriminate |].
    destruct q as [| | | qn | | |]; try discriminate.
    destruct (Num.lt qn 0 || negb (Num.isInteger qn)) eqn:B; [discriminate |].
    unfold ret. intros H. injection H as <- <-.
    split; [reflexivity |]. exists pn, qn. split; [reflexivity |].
    unfold quantity_ok. rewrite Hv. apply orb_false_iff in B.
    destruct B as [B1 B2]. apply negb_false_iff in B2. rewrite B1, B2.
    reflexivity.
Qed.

Section WellFormed.

Variable env : Env.

Let save_wf :=
  saveToStorage_keeps_items (fun its => cart_ok env its = true) env.
Let notify_wf :=
  notify_keeps_items (fun its => cart_ok env its = true).

Lemma well_formed_calls x w : well_formed env w -> well_formed env (with_calls x w).
Proof. exact (fun H => H). Qed.

Lemma CartItem_check_ok p q pn qn :
  CartItem.check p q = Ok (pn, qn) ->
  p = VNum pn /\ q = VNum qn
  /\ Num.lt qn 0 = false /\ Num.isInteger qn = true.
Proof.
  unfold CartItem.check. destruct p as [| | | p' | | |]; try discriminate.
  destruct (negb (Num.truthy p')); [discriminate |].
  destruct q as [| | | q' | | |]; try discriminate.
  destruct (Num.lt q' 0 || negb (Num.isInteger q')) eqn:B; [discriminate |].
  intros H. injection H as <- <-. apply orb_false_iff in B.
  destruct B as [B1 B2]. apply negb_false_iff in B2. auto.
Qed.

Lemma updateQuantity_item item q item' :
  CartItem.updateQuantity item q = Ok item' ->
  exists qn, q = VNum qn
    /\ item' = CartItem.mk (CartItem.productId item) qn (CartItem.addedAt item)
    /\ Num.lt qn 0 = false /\ Num.isInteger qn = true.
Proof.
  unfold CartItem.updateQuantity. destruct q as [| | | qn | | |]; try discriminate.
  destruct (Num.lt qn 0 || negb (Num.isInteger qn)) eqn:B; [discriminate |].
  intros H. injection H as <-. exists qn. apply orb_false_iff in B.
  destruct B as [B1 B2]. apply negb_false_iff in B2. auto.
Qed.

(** an entry found in a well-formed cart *)
Lemma map_get_ok k its item :
  cart_ok env its = true ->
  CartModule.map_get (VNum k) its = Some item ->
  in_catalog env k = true /\ Num.same k (CartItem.productId item) = true.
Proof.
  unfold cart_ok, CartModule.map_get. intros H G.
  apply andb_true_iff in H. destruct H as [H _].
  destruct (find (CartModule.key_is (VNum k)) its) as [kv |] eqn:F;
    [| discriminate].
  injection G as <-. apply find_some in F. destruct F as [Hin Hk].
  rewrite forallb_forall in H. specialize (H kv Hin). unfold entry_ok in H.
  apply andb_true_iff in H. destruct H as [H _].
  apply andb_true_iff in H. destruct H as [Hc Hs].
  cbn [CartModule.key_is] in Hk. rewrite same_sym in Hk.
  rewrite (in_catalog_same env k (fst kv) Hk), Hc.
  split; [reflexivity | exact (same_trans _ _ _ Hk Hs)].
Qed.

Lemma isInteger_floor x :
  Num.isInteger (Fin x) = true -> (inject_Z (Qfloor x) == x)%Q.
Proof. unfold Num.isInteger. intros H. apply Qeq_bool_iff, H. Qed.

Lemma validateQuantity_bound n :
  Num.isInteger n = true ->
  InputValidator.isValid (InputValidator.validateQuantity env (VNum n)) = true ->
  Num.gt n 999 = false.
Proof.
  intros Hi Hv. destruct n as [| x]; [discriminate |].
  destruct (validateQuantity_valid env _ Hv) as (z & E & Hz).
  unfold InputValidator.validateQuantity in E. rewrite validated_value in E.
  cbn in E. injection E as E.
  pose proof (isInteger_floor x Hi) as Hx.
  unfold Num.gt, Num.lt, num_of_Z, Qlt_bool. apply negb_false_iff.
  apply Qle_bool_iff. rewrite <- Hx.
  rewrite <- Zle_Qle. lia.
Qed.

Lemma quantity_ok_checked q :
  Num.lt q 0 = false -> Num.isInteger q = true ->
  (validation_loaded env = true -> Num.gt q 999 = false) ->
  quantity_ok env q = true.
Proof.
  intros H1 H2 H3. unfold quantity_ok. rewrite H1, H2. cbn [negb andb].
  destruct (validation_loaded env); [| reflexivity].
  rewrite (H3 eq_refl). reflexivity.
Qed.

Lemma quantity_ok_bound q :
  quantity_ok env q = true -> validation_loaded env = true ->
  Num.gt q 999 = false.
Proof.
  unfold quantity_ok. intros H Hv. rewrite Hv in H.
  apply andb_true_iff in H. destruct H as [_ H]. cbn in H.
  apply negb_true_iff, H.
Qed.

Lemma add_validated_wf pn qn :
  quantity_ok env qn = true ->
  preserves (well_formed env) (CartModule.add_validated env (VNum pn) (VNum qn)).
Proof.
  intros Hq w H. unfold CartModule.add_validated.
  destruct (strict_eq_num (VNum qn) 0); [exact H |].
  unfold bind at 1, lift.
  destruct (ProductsModule.getProductById env (VNum pn)) as [[product |] | e]
    eqn:E; [| exact H | exact H].
  assert (Hc : in_catalog env pn = true)
    by (unfold in_catalog; rewrite E; reflexivity).
  unfold try_catch.
  match goal with
  | |- well_formed env (snd (match ?b w with _ => _ end)) =>
      assert (Hb : well_formed env (snd (b w)))
  end.
  { unfold bind at 1, gets.
    destruct (CartModule.map_get (VNum pn) (items w)) as [existing |] eqn:G.
    - destruct (map_get_ok pn (items w) existing H G) as [_ Hs].
      unfold js_plus. cbn [joins_as_text orb primitive_to_number].
      set (newq := Num.add (CartItem.quantity existing) qn).
      unfold bind at 1. unfold bind at 1.
      destruct (validation_loaded env) eqn:Hl.
      + destruct (InputValidator.isValid
                    (InputValidator.validateQuantity env (VNum newq))) eqn:V;
          cbn [negb]; [| exact H].
        unfold ret at 1. cbv beta iota.
        unfold bind at 1, lift.
        destruct (CartItem.updateQuantity existing (VNum newq)) as [updated | e]
          eqn:U; [| exact H].
        destruct (updateQuantity_item _ _ _ U) as (q' & Eq' & -> & Hlt & Hi).
        injection Eq' as <-.
        unfold modify at 1. cbv beta iota.
        unfold bind at 1. unfold CartModule._notifyListeners at 1, modify.
        cbv beta iota.
        apply save_wf. unfold well_formed. cbn [items with_calls with_items].
        apply cart_ok_map_set; [exact H | exact Hc | exact Hs |].
        cbn [CartItem.quantity].
        apply quantity_ok_checked; [exact Hlt | exact Hi |].
        intros _. apply validateQuantity_bound; [exact Hi | exact V].
      + unfold ret at 1. cbv beta iota.
        unfold bind at 1, lift.
        destruct (CartItem.updateQuantity existing (VNum newq)) as [updated | e]
          eqn:U; [| exact H].
        destruct (updateQuantity_item _ _ _ U) as (q' & Eq' & -> & Hlt & Hi).
        injection Eq' as <-.
        unfold modify at 1. cbv beta iota.
        unfold bind at 1. unfold CartModule._notifyListeners at 1, modify.
        cbv beta iota.
        apply save_wf. unfold well_formed. cbn [items with_calls with_items].
        apply cart_ok_map_set; [exact H | exact Hc | exact Hs |].
        cbn [CartItem.quantity].
        apply quantity_ok_checked; [exact Hlt | exact Hi |].
        intros V. rewrite Hl in V. discriminate V.
    - unfold bind at 1. unfold bind at 1. unfold DataRecovery.now, gets.
      cbv beta iota. unfold bind at 1, lift.
      destruct (CartItem.new (iso (clock w)) (VNum pn) (VNum qn))
        as [cartItem | e] eqn:N; [| exact H].
      unfold CartItem.new in N. cbv zeta iota in N.
      destruct (CartItem.check (VNum pn) (VNum qn)) as [[p' q'] | e] eqn:C;
        [| discriminate].
      cbn [obind fst snd] in N. injection N as <-.
      destruct (CartItem_check_ok _ _ _ _ C) as (Ep & Eq' & _ & _).
      injection Ep as <-. injection Eq' as <-.
      unfold modify at 1. cbv beta iota.
      unfold bind at 1. unfold CartModule._notifyListeners at 1, modify.
      cbv beta iota.
      apply save_wf. unfold well_formed. cbn [items with_calls with_items].
      apply cart_ok_map_set; [exact H | exact Hc | apply same_refl | exact Hq]. }
  match goal with
  | |- well_formed env (snd (match ?b w with _ => _ end)) =>
      destruct (b w) as [[a | e] w']; exact Hb
  end.
Qed.

Lemma validated_world p q w : snd (CartModule.validated env p q w) = w.
Proof.
  unfold CartModule.validated.
  destruct (validation_loaded env).
  - destruct (negb _); [reflexivity |]. destruct (negb _); reflexivity.
  - destruct p as [| | | pn | | |]; try reflexivity.
    destruct (Num.le pn 0); [reflexivity |].
    destruct q as [| | | qn | | |]; try reflexivity.
    destruct (_ || _); reflexivity.
Qed.

Lemma addItem_wf p q :
  preserves (well_formed env) (CartModule.addItem env p q).
Proof.
  intros w H. unfold CartModule.addItem. cbv zeta. unfold bind.
  match goal with
  | |- context [CartModule.validated env p ?q' w] =>
      pose proof (validated_world p q' w) as Hw;
      pose proof (validated_post env p q' w) as Hp;
      destruct (CartModule.validated env p q' w) as [[r | e] w']
  end; cbn [snd] in Hw; subst w'; [| exact H].
  destruct (Hp r w eq_refl) as (_ & pn & qn & -> & Hq).
  cbn [fst snd]. apply add_validated_wf; assumption.
Qed.

Lemma removeItem_wf p :
  preserves (well_formed env) (CartModule.removeItem env p).
Proof.
  intros w H. unfold CartModule.removeItem.
  destruct p as [| | | pn | | |]; try exact H.
  destruct (Num.le pn 0); [exact H |].
  unfold bind at 1, gets.
  destruct (CartModule.map_has (VNum pn) (items w)); [| exact H].
  unfold bind at 1, modify at 1. cbv beta iota.
  unfold bind at 1, CartModule._notifyListeners at 1, modify. cbv beta iota.
  apply save_wf. unfold well_formed. cbn [items with_calls with_items].
  apply cart_ok_filter, H.
Qed.

Lemma updateQuantity_wf p q :
  preserves (well_formed env) (CartModule.updateQuantity env p q).
Proof.
  intros w H. unfold CartModule.updateQuantity. unfold bind at 1.
  pose proof (validated_world p q w) as Hw.
  pose proof (validated_post env p q w) as Hp.
  destruct (CartModule.validated env p q w) as [[r | e] w'];
    cbn [snd] in Hw; subst w'; [| exact H].
  destruct (Hp r w eq_refl) as (_ & pn & qn & -> & Hq).
  cbn [fst snd]. cbv zeta. unfold bind at 1, gets.
  destruct (CartModule.map_get (VNum pn) (items w)) as [cartItem |] eqn:G;
    [| exact H].
  destruct (strict_eq_num (VNum qn) 0); [apply removeItem_wf, H |].
  destruct (map_get_ok pn (items w) cartItem H G) as [Hc Hs].
  unfold try_catch, bind at 1, lift.
  destruct (CartItem.updateQuantity cartItem (VNum qn)) as [updated | e] eqn:U;
    [| exact H].
  destruct (updateQuantity_item _ _ _ U) as (q' & Eq' & -> & _ & _).
  injection Eq' as <-.
  unfold bind at 1, modify at 1. cbv beta iota.
  unfold bind at 1, CartModule._notifyListeners at 1, modify. cbv beta iota.
  match goal with
  | |- well_formed env (snd (match CartModule.saveToStorage env ?w1 with _ => _ end)) =>
      assert (Hb : well_formed env (snd (CartModule.saveToStorage env w1)));
      [| destruct (CartModule.saveToStorage env w1) as [[a | e] w']; exact Hb]
  end.
  apply save_wf. unfold well_formed. cbn [items with_calls with_items].
  apply cart_ok_map_set; [exact H | exact Hc | exact Hs | exact Hq].
Qed.

Lemma clearCart_wf : preserves (well_formed env) (CartModule.clearCart env).
Proof.
  intros w H. unfold CartModule.clearCart.
  unfold bind at 1, gets. unfold bind at 1, modify at 1. cbv beta iota.
  destruct (items w); [reflexivity |].
  unfold bind at 1, CartModule._notifyListeners at 1, modify. cbv beta iota.
  apply save_wf. reflexivity.
Qed.

(** what one turn of the loading loop does: nothing, or it files the item
    read from the stored entry under the product id of the entry *)
Lemma load_item_cases strict itemData w :
  CartModule.load_item env strict itemData w = (Ok false, w)
  \/ exists pn qv cartItem,
       CartModule.load_item env strict itemData w
       = (Ok true,
          with_items (CartModule.map_set (VNum pn) cartItem (items w)) w)
       /\ prop "productId" itemData = Ok (VNum pn)
       /\ prop "quantity" itemData = Ok qv
       /\ in_catalog env pn = true
       /\ CartItem.fromObject (iso (clock w)) itemData = Ok cartItem
       /\ (validation_loaded env = true ->
           InputValidator.isValid (InputValidator.validateQuantity env qv)
           = true).
Proof.
  unfold CartModule.load_item.
  cbv beta iota delta [try_catch bind lift ret gets modify throw
                         DataRecovery.now].
  destruct (prop "productId" itemData) as [p | e1] eqn:Ep;
    [| destruct strict; [destruct (negb (truthy itemData)) |];
       destruct (validation_loaded env); left; reflexivity].
  destruct (prop "quantity" itemData) as [q | e2] eqn:Eq.
  2: { assert (F : forall t, CartItem.fromObject t itemData = Throw e2).
       { intros t. unfold CartItem.fromObject. rewrite Ep, Eq. reflexivity. }
       destruct strict; [destruct (negb (truthy itemData)) |];
         destruct (validation_loaded env); try (left; reflexivity);
         cbn [negb];
         destruct (ProductsModule.getProductById env p) as [[product |] | e];
         try (left; reflexivity); rewrite F; left; reflexivity. }
  assert (Hmain :
    (validation_loaded env = true ->
     InputValidator.isValid (InputValidator.validateProductId env p)
     && InputValidator.isValid (InputValidator.validateQuantity env q) = true) ->
    match ProductsModule.getProductById env p with
    | Ok (Some _) =>
        match CartItem.fromObject (iso (clock w)) itemData with
        | Ok cartItem =>
            exists pn,
              p = VNum pn /\ in_catalog env pn = true
              /\ (validation_loaded env = true ->
                  InputValidator.isValid
                    (InputValidator.validateQuantity env q) = true)
        | Throw _ => True
        end
    | _ => True
    end).
  { intros Hv.
    destruct (ProductsModule.getProductById env p) as [[product |] | e] eqn:G;
      try exact I.
    destruct (CartItem.fromObject (iso (clock w)) itemData); [| exact I].
    destruct p as [| | | pn | | |]; try discriminate G.
    exists pn. split; [reflexivity |]. split.
    - unfold in_catalog. rewrite G. reflexivity.
    - intros V. specialize (Hv V). apply andb_true_iff in Hv. apply Hv. }
  assert (Hdone :
    (validation_loaded env = true ->
     InputValidator.isValid (InputValidator.validateProductId env p)
     && InputValidator.isValid (InputValidator.validateQuantity env q) = true) ->
    forall o,
    o = match ProductsModule.getProductById env p with
        | Ok (Some _) =>
            match CartItem.fromObject (iso (clock w)) itemData with
            | Ok cartItem =>
                (Ok true,
                 with_items (CartModule.map_set p cartItem (items w)) w)
            | Throw _ => (Ok false, w)
            end
        | _ => (Ok false, w)
        end ->
    o = (Ok false, w)
    \/ exists pn qv cartItem,
         o = (Ok true,
              with_items (CartModule.map_set (VNum pn) cartItem (items w)) w)
         /\ Ok p = Ok (VNum pn)
         /\ Ok q = Ok qv
         /\ in_catalog env pn = true
         /\ CartItem.fromObject (iso (clock w)) itemData = Ok cartItem
         /\ (validation_loaded env = true ->
             InputValidator.isValid (InputValidator.validateQuantity env qv)
             = true)).
  { intros Hv o ->. specialize (Hmain Hv).
    destruct (ProductsModule.getProductById env p) as [[product |] | e];
      try (left; reflexivity).
    destruct (CartItem.fromObject (iso (clock w)) itemData) as [cartItem | e];
      [| left; reflexivity].
    destruct Hmain as (pn & -> & Hc & Hq). right.
    exists pn, q, cartItem. repeat split; try reflexivity; assumption. }
  destruct (validation_loaded env) eqn:Hl.
  - destruct (InputValidator.isValid (InputValidator.validateProductId env p)
              && InputValidator.isValid (InputValidator.validateQuantity env q))
      eqn:V.
    + destruct strict; [destruct (truthy itemData) |]; cbn [negb];
        try (left; reflexivity);
        try (destruct (is_number p && is_number q); cbn [negb];
             [| left; reflexivity]);
        apply Hdone; try (intros _; reflexivity);
        destruct (ProductsModule.getProductById env p) as [[product |] | e];
        try reflexivity;
        destruct (CartItem.fromObject (iso (clock w)) itemData); reflexivity.
    + destruct strict; [destruct (truthy itemData) |]; cbn [negb];
        try (left; reflexivity);
        destruct (is_number p && is_number q); left; reflexivity.
  - destruct strict; [destruct (truthy itemData) |]; cbn [negb];
      try (left; reflexivity);
      try (destruct (is_number p && is_number q); cbn [negb];
           [| left; reflexivity]);
      apply Hdone; try discriminate;
      destruct (ProductsModule.getProductById env p) as [[product |] | e];
      try reflexivity;
      destruct (CartItem.fromObject (iso (clock w)) itemData); reflexivity.
Qed.

Lemma fromObject_item t data item p q :
  CartItem.fromObject t data = Ok item ->
  prop "productId" data = Ok p ->
  prop "quantity" data = Ok q ->
  p = VNum (CartItem.productId item)
  /\ Num.lt (CartItem.quantity item) 0 = false
  /\ Num.isInteger (CartItem.quantity item) = true
  /\ (q = VNum (CartItem.quantity item)
      \/ q = VUndef /\ CartItem.quantity item = num_of_Z 1).
Proof.
  unfold CartItem.fromObject. intros F Ep Eq. rewrite Ep, Eq in F.
  cbn [obind] in F. unfold CartItem.new in F. cbv zeta in F.
  destruct (CartItem.check p _) as [[pn qn] | e] eqn:C; [| discriminate].
  cbn [obind fst snd] in F.
  destruct (prop "addedAt" data) as [a | e]; [| discriminate].
  cbn [obind] in F.
  assert (Hi : CartItem.productId item = pn /\ CartItem.quantity item = qn).
  { destruct (truthy a); injection F as <-; split; reflexivity. }
  destruct Hi as [-> ->].
  destruct (CartItem_check_ok _ _ _ _ C) as (-> & Eq' & Hl & Hi).
  split; [reflexivity |]. split; [exact Hl |]. split; [exact Hi |].
  destruct q; try discriminate Eq'.
  - right. split; [reflexivity |]. injection Eq' as <-. reflexivity.
  - left. exact Eq'.
Qed.

Lemma load_item_wf strict itemData :
  preserves (well_formed env) (CartModule.load_item env strict itemData).
Proof.
  intros w H.
  destruct (load_item_cases strict itemData w)
    as [E | (pn & qv & cartItem & E & Ep & Eq & Hc & F & Hv)]; rewrite E;
    [exact H |].
  cbn [snd]. unfold well_formed. cbn [items with_items].
  destruct (fromObject_item _ _ _ _ _ F Ep Eq) as (Epn & Hl & Hi & Hq).
  injection Epn as ->.
  apply cart_ok_map_set; [exact H | exact Hc | apply same_refl |].
  apply quantity_ok_checked; [exact Hl | exact Hi |].
  intros V. destruct Hq as [-> | [_ ->]].
  - apply validateQuantity_bound; [exact Hi | exact (Hv V)].
  - reflexivity.
Qed.

Lemma load_items_wf strict l :
  preserves (well_formed env) (CartModule.load_items env strict l).
Proof.
  induction l as [| x r IH]; cbn [CartModule.load_items].
  - apply preserves_ret.
  - apply preserves_bind; [apply load_item_wf |]. intros loaded.
    apply preserves_bind; [exact IH |]. intros skipped. apply preserves_ret.
Qed.

Let recover_wf :=
  recoverData_keeps (well_formed env) (fun w x H => H).
Let restore_wf :=
  restoreFromBackup_keeps (well_formed env) (fun w x H => H)
    (fun w x H => H) (fun w x H => H).
Let getItem_wf := getItem_keeps (well_formed env) (fun w x H => H).
Let handle_wf :=
  handleStorageError_keeps (well_formed env) (fun w x H => H) (fun w H => H).
Let report_wf := report_keeps (well_formed env) (fun w x H => H) env.
Let clearData_wf :=
  clearStorageData_keeps (well_formed env) (fun w x H => H) (fun w x H => H)
    (fun w x H => H).

Hint Resolve recover_wf restore_wf getItem_wf handle_wf report_wf clearData_wf
  load_items_wf : pres.

Lemma well_formed_empty w : well_formed env (with_items [] w).
Proof. reflexivity. Qed.

Lemma load_attempt_wf : preserves (well_formed env) (CartModule.load_attempt env).
Proof.
  pose proof save_wf as Hs.
  unfold CartModule.load_attempt, CartModule.load_cart.
  pres; try apply well_formed_empty; try exact Hs.
Qed.

Lemma loadFromStorage_fuel_wf fuel :
  preserves (well_formed env) (CartModule.loadFromStorage_fuel env fuel).
Proof.
  pose proof load_attempt_wf as Hl.
  induction fuel as [| f IH]; cbn [CartModule.loadFromStorage_fuel]; pres.
Qed.

Lemma validateCart_items its : forall acc,
  fst (fold_left (CartModule.validate_entry env) its acc)
  = (fst acc ++ List.filter (entry_valid env) its)%list.
Proof.
  induction its as [| kv r IH]; intros acc; cbn [fold_left List.filter].
  - rewrite app_nil_r. reflexivity.
  - rewrite IH. unfold CartModule.validate_entry, entry_valid, in_catalog.
    destruct (CartItem.validate (snd kv)) as [[] | e]; cbn [returns andb fst].
    + destruct (ProductsModule.getProductById env (VNum (fst kv)))
        as [[product |] | e]; cbn [fst]; try reflexivity.
      rewrite <- app_assoc. reflexivity.
    + reflexivity.
Qed.

Lemma validateCart_wf : preserves (well_formed env) (CartModule.validateCart env).
Proof.
  intros w H. unfold CartModule.validateCart.
  unfold bind at 1, gets. cbv zeta. unfold bind at 1, modify, ret.
  cbv beta iota. cbn [snd]. unfold well_formed. cbn [items with_items].
  rewrite validateCart_items. cbn [fst app]. apply cart_ok_filter, H.
Qed.

Lemma perform_wf o : preserves (well_formed env) (perform env o).
Proof.
  destruct (reads_only o) eqn:R.
  - exact (perform_reads_only (fun its => cart_ok env its = true) env o R).
  - destruct o; try discriminate R; cbn [perform].
    + apply addItem_wf.
    + apply removeItem_wf.
    + apply updateQuantity_wf.
    + apply clearCart_wf.
    + apply loadFromStorage_fuel_wf.
    + apply loadFromStorage_fuel_wf.
    + unfold discard. apply preserves_bind; [apply validateCart_wf |].
      intros ?. apply preserves_ret.
Qed.

End WellFormed.

(** ** Construction never throws *)

Lemma restoreFromBackup_safe key :
  safe (fun _ => True) (DataRecovery.restoreFromBackup key).
Proof.
  unfold DataRecovery.restoreFromBackup.
  apply safe_try_catch; [apply preserves_True |]. intros e. apply safe_ret.
Qed.

Lemma clearStorageData_safe : safe (fun _ => True) CartModule._clearStorageData.
Proof.
  unfold CartModule._clearStorageData.
  apply safe_try_catch; [apply preserves_True |]. intros e. apply safe_ret.
Qed.

Lemma loadFromStorage_fuel_safe env fuel :
  safe (fun _ => True) (CartModule.loadFromStorage_fuel env fuel).
Proof.
  pose proof (restoreFromBackup_safe CartModule.storageKey) as Hr.
  pose proof clearStorageData_safe as Hc.
  pose proof handleStorageError_total as Hh.
  pose proof (report_total env) as Hp.
  induction fuel as [| f IH]; cbn [CartModule.loadFromStorage_fuel].
  - apply safe_ret.
  - apply safe_try_catch; [apply preserves_True |]. intros e.
    pres; auto.
Qed.

(** X1. Every operation of the cart manager, and every step of the page
    around it, keeps the cart well formed: each entry is filed under the
    product id of its item, that product is in the catalog, its quantity
    is an integer that is not negative (and at most 999 when the validator
    is loaded), and no two entries share a key. *)
Theorem cart_stays_well_formed env ops : forall w,
  well_formed env w -> well_formed env (run env ops w).
Proof.
  induction ops as [| o r IH]; intros w H; cbn [run fold_left].
  - exact H.
  - apply IH. apply perform_wf, H.
Qed.

Lemma cart_stays_well_formed_witness :
  let w := fresh (mkClock 0 "1970-01-01T00:00:00.000Z") in
  let ops :=
    [AddItem (VNum (num_of_Z 1)) (VNum (num_of_Z 2));
     AddItem (VStr "3") (VStr "4");
     UpdateQuantity (VNum (num_of_Z 1)) (VNum (num_of_Z 7));
     RemoveItem (VNum (num_of_Z 3)); ValidateCart] in
  well_formed browser w /\ well_formed browser (run browser ops w).
Proof.
  split; [reflexivity |].
  apply cart_stays_well_formed. reflexivity.
Defined.

(** X2. [new CartModule()] never throws, whatever the storages hold and
    whichever calls of the storage API fail, and the cart it builds is
    well formed. *)
Theorem constructor_builds_a_well_formed_cart env w :
  returns (result (CartModule.constructor env) w) = true
  /\ well_formed env (exec (CartModule.constructor env) w).
Proof.
  unfold CartModule.constructor, result, exec, bind, modify.
  split.
  - apply (loadFromStorage_fuel_safe env 1 _ I).
  - apply loadFromStorage_fuel_wf. reflexivity.
Qed.

Lemma validateCart_run env w :
  CartModule.validateCart env w
  = (let r := fold_left (CartModule.validate_entry env) (items w) ([], []) in
     (Ok (CartModule.mkValidation
            (match snd r with [] => true | _ => false end) (snd r)
            (List.length (fst r))),
      with_items (fst r) w)).
Proof. reflexivity. Qed.

Lemma validate_entries_valid env its : forall acc,
  forallb (entry_valid env) its = true ->
  fold_left (CartModule.validate_entry env) its acc
  = ((fst acc ++ its)%list, snd acc).
Proof.
  induction its as [| kv r IH]; intros acc H; cbn [fold_left].
  - rewrite app_nil_r. destruct acc; reflexivity.
  - cbn [forallb] in H. apply andb_true_iff in H. destruct H as [Hkv Hr].
    rewrite (IH _ Hr). unfold entry_valid, in_catalog in Hkv.
    apply andb_true_iff in Hkv. destruct Hkv as [Hv Hc].
    unfold CartModule.validate_entry.
    destruct (CartItem.validate (snd kv)) as [[] | e]; [| discriminate].
    destruct (ProductsModule.getProductById env (VNum (fst kv)))
      as [[product |] | e]; try discriminate.
    cbn [fst snd]. rewrite <- app_assoc. reflexivity.
Qed.

Lemma forallb_filter_self {A : Type} (p : A -> bool) l :
  forallb p (List.filter p l) = true.
Proof.
  induction l as [| x l IH]; [reflexivity |]. cbn [List.filter].
  destruct (p x) eqn:E; [| exact IH]. cbn [forallb]. rewrite E, IH.
  reflexivity.
Qed.

Lemma validate_entries_verdict env its : forall acc,
  match snd (fold_left (CartModule.validate_entry env) its acc) with
  | [] => true
  | _ => false
  end
  = match snd acc with [] => true | _ => false end
    && forallb (entry_valid env) its.
Proof.
  induction its as [| kv r IH]; intros acc; cbn [fold_left forallb].
  - rewrite andb_true_r. reflexivity.
  - rewrite IH. unfold CartModule.validate_entry, entry_valid, in_catalog.
    destruct (CartItem.validate (snd kv)) as [[] | e]; cbn [returns andb snd].
    + destruct (ProductsModule.getProductById env (VNum (fst kv)))
        as [[product |] | e]; cbn [snd]; try reflexivity;
        destruct (snd acc); reflexivity.
    + destruct (snd acc); reflexivity.
Qed.

(** X3. [validateCart] keeps exactly the entries whose item passes
    [CartItem.validate] and whose key is the id of a product of the
    catalog, in their order, and reports a valid cart exactly when it
    kept them all; called again at once it reports a valid cart without
    issues and changes nothing. *)
Theorem validateCart_keeps_the_valid_entries env w :
  let w1 := exec (CartModule.validateCart env) w in
  exists v,
    result (CartModule.validateCart env) w = Ok v
    /\ items w1 = List.filter (entry_valid env) (items w)
    /\ CartModule.fixedItemCount v = List.length (items w1)
    /\ CartModule.cart_isValid v = forallb (entry_valid env) (items w)
    /\ result (CartModule.validateCart env) w1
       = Ok (CartModule.mkValidation true [] (List.length (items w1)))
    /\ items (exec (CartModule.validateCart env) w1) = items w1.
Proof.
  cbv zeta. unfold exec, result. rewrite !validateCart_run. cbv zeta.
  cbn [fst snd items with_items]. eexists. split; [reflexivity |].
  cbn [CartModule.fixedItemCount CartModule.cart_isValid].
  rewrite validate_entries_verdict. cbn [snd andb].
  rewrite validateCart_items. cbn [fst app].
  rewrite (validate_entries_valid env _ _ (forallb_filter_self _ _)).
  cbn [fst snd app]. repeat split; reflexivity.
Qed.

(** ** What the validator accepts *)

Lemma validateProductId_run env (z : Z) :
  InputValidator.validateProductId env (VNum z)
  = let errs :=
      ((if z <? 1 then ["Value is too small (minimum: 1)"] else [])
       ++ (if in_catalog env z then [] else ["Validation failed"]))%list in
    InputValidator.mkResult (match errs with [] => true | _ => false end)
      errs (VNum z).
Proof.
  unfold InputValidator.validateProductId, InputValidator.validate.
  rewrite sanitize_Z. cbn [InputValidator.rules InputValidator.required
    InputValidator.min InputValidator.max InputValidator.integer
    InputValidator.custom InputValidator.is_empty andb negb num_of_Z obind].
  change (Fin (inject_Z z)) with (num_of_Z z).
  change (Fin (inject_Z 1)) with (num_of_Z 1).
  rewrite Num_lt_Z, Num_isInteger_Z. unfold in_catalog.
  destruct (ProductsModule.getProductById env (VNum z)) as [[p |] | e] eqn:G.
  - destruct (z <? 1); reflexivity.
  - destruct (z <? 1); reflexivity.
  - discriminate G.
Qed.

(** X4. On [null], [undefined], a boolean, a number that is [NaN] or
    finite, or a string of at most 300 characters, [validateQuantity]
    returns the sanitized value, which is [null] or an integer, and
    accepts exactly the inputs whose sanitized value is an integer from 0
    to 999; since the sanitizer has already rounded, it does not report
    that the value is not a whole number. (On [Infinity], and on a string
    of digits long enough to be read as [Infinity], it does report it.) *)
Theorem validateQuantity_accepts env v :
  reads_finite v = true ->
  let r := InputValidator.validateQuantity env v in
  InputValidator.sanitizedValue r
  = InputValidator.sanitize v InputValidator.quantity
  /\ (InputValidator.isValid r = true <->
      exists z : Z,
        InputValidator.sanitize v InputValidator.quantity = VNum (num_of_Z z)
        /\ 0 <= z <= 999)
  /\ ~ In "Must be a whole number" (InputValidator.errors r).
Proof.
  intros _. cbv zeta. unfold InputValidator.validateQuantity.
  split; [apply validated_value |].
  rewrite <- validate_sanitized.
  destruct (sanitize_cases v InputValidator.quantity) as [E | [z E]]; rewrite E.
  - rewrite validate_null. cbn [InputValidator.isValid InputValidator.errors].
    split.
    + split; [discriminate | intros (z & H & _); discriminate H].
    + intros [H | []]. discriminate H.
  - fold (InputValidator.validateQuantity env (VNum (num_of_Z z))).
    rewrite validateQuantity_Z. split.
    + destruct ((0 <=? z) && (z <=? 999)) eqn:B;
        cbn [InputValidator.isValid]; split.
      * intros _. exists z. apply andb_true_iff in B. split; [reflexivity | lia].
      * reflexivity.
      * discriminate.
      * intros (z' & H & Hz). unfold num_of_Z, inject_Z in H.
        injection H as H. apply andb_false_iff in B. lia.
    + destruct ((0 <=? z) && (z <=? 999)); cbn [InputValidator.errors];
        [intros [] |].
      destruct (z <? 0), (999 <? z), ((z =? 0) || (0 <? z));
        cbn [app In]; intros H;
        repeat (destruct H as [H | H]; [discriminate H |]); exact H.
Qed.

Lemma validateQuantity_accepts_witness :
  reads_finite (VStr " 12.7 pieces") = true
  /\ InputValidator.sanitizedValue
       (InputValidator.validateQuantity browser (VStr " 12.7 pieces"))
     = VNum (num_of_Z 12)
  /\ ~ In "Must be a whole number"
        (InputValidator.errors
           (InputValidator.validateQuantity browser (VStr " 12.7 pieces"))).
Proof.
  split; [reflexivity |].
  destruct (validateQuantity_accepts browser (VStr " 12.7 pieces") eq_refl)
    as (H1 & _ & H3).
  split; [rewrite H1; vm_compute; reflexivity | exact H3].
Defined.

(** X5. [validateProductId] accepts exactly the inputs whose sanitized
    value is an integer of at least 1 that is the id of a product of the
    catalog, and returns that integer. *)
Theorem validateProductId_accepts env v :
  let r := InputValidator.validateProductId env v in
  InputValidator.sanitizedValue r
  = InputValidator.sanitize v InputValidator.productId
  /\ (InputValidator.isValid r = true <->
      exists z : Z,
        InputValidator.sanitize v InputValidator.productId = VNum (num_of_Z z)
        /\ 1 <= z /\ in_catalog env (num_of_Z z) = true).
Proof.
  cbv zeta. unfold InputValidator.validateProductId.
  split; [apply validated_value |].
  rewrite <- validate_sanitized.
  destruct (sanitize_cases v InputValidator.productId) as [E | [z E]];
    rewrite E.
  - rewrite validate_null. cbn [InputValidator.isValid].
    split; [discriminate | intros (z & H & _); discriminate H].
  - fold (InputValidator.validateProductId env (VNum (num_of_Z z))).
    rewrite validateProductId_run. cbv zeta. cbn [InputValidator.isValid].
    split.
    + intros H. exists z. split; [reflexivity |].
      destruct (z <? 1) eqn:B; [discriminate H |].
      destruct (in_catalog env (num_of_Z z)); [| discriminate H].
      split; [lia | reflexivity].
    + intros (z' & H & Hz & Hc). unfold num_of_Z, inject_Z in H.
      injection H as <-. rewrite Hc.
      destruct (z <? 1) eqn:B; [lia | reflexivity].
Qed.

(** X6. On [null], [undefined], a boolean, a number that is [NaN] or
    finite, or a string of at most 300 characters, the sanitizer of
    quantities and product ids returns [null] or an integer; applied to
    its own result it changes nothing; and [validate] gives the same
    verdict on an input and on its sanitized value. ([Infinity], and a
    string of digits long enough to be read as [Infinity], are sanitized
    to [Infinity].) *)
Theorem sanitize_is_idempotent env v type :
  reads_finite v = true ->
  (InputValidator.sanitize v type = VNull
   \/ exists z : Z, InputValidator.sanitize v type = VNum (num_of_Z z))
  /\ InputValidator.sanitize (InputValidator.sanitize v type) type
     = InputValidator.sanitize v type
  /\ InputValidator.validate env (InputValidator.sanitize v type) type
     = InputValidator.validate env v type.
Proof.
  intros _. split; [apply sanitize_cases |].
  split; [apply sanitize_idempotent | apply validate_sanitized].
Qed.

Lemma sanitize_is_idempotent_witness :
  reads_finite (VStr "-2.5") = true
  /\ InputValidator.sanitize (VStr "-2.5") InputValidator.quantity
     = VNum (num_of_Z (-3))
  /\ InputValidator.sanitize
       (InputValidator.sanitize (VStr "-2.5") InputValidator.quantity)
       InputValidator.quantity
     = InputValidator.sanitize (VStr "-2.5") InputValidator.quantity.
Proof.
  split; [reflexivity |]. split; [vm_compute; reflexivity |].
  exact (proj1 (proj2 (sanitize_is_idempotent browser (VStr "-2.5")
                         InputValidator.quantity eq_refl))).
Defined.

(** ** Decimal text *)

Lemma rev_onto_twice s : forall a b,
  Str.rev_onto (Str.rev_onto s a) b = Str.rev_onto a (s ++ b).
Proof.
  induction s as [| c r IH]; intros a b; cbn [Str.rev_onto append].
  - reflexivity.
  - rewrite IH. reflexivity.
Qed.

Lemma rev_rev s : Str.rev (Str.rev s) = s.
Proof.
  unfold Str.rev. rewrite rev_onto_twice. cbn [Str.rev_onto].
  induction s as [| c r IH]; [reflexivity |]. cbn [append]. rewrite IH.
  reflexivity.
Qed.

Lemma digit_not_space c : Str.is_digit c = true -> Str.is_space c = false.
Proof.
  destruct c as [[] [] [] [] [] [] [] []]; intros H; try discriminate H;
    reflexivity.
Qed.

Lemma rev_onto_digits ds : forall acc,
  Str.take_while Str.is_digit ds = ds ->
  Str.drop_while Str.is_space acc = acc ->
  Str.drop_while Str.is_space (Str.rev_onto ds acc) = Str.rev_onto ds acc.
Proof.
  induction ds as [| c r IH]; intros acc H Ha; cbn [Str.rev_onto].
  - exact Ha.
  - destruct (digit_head _ _ H) as [Hc Hr]. apply IH; [exact Hr |].
    cbn [Str.drop_while]. rewrite (digit_not_space c Hc). reflexivity.
Qed.

Lemma filter_digits (p : ascii -> bool) ds :
  (forall c, Str.is_digit c = true -> p c = true) ->
  Str.take_while Str.is_digit ds = ds -> Str.filter p ds = ds.
Proof.
  intros Hp. induction ds as [| c r IH]; intros H; [reflexivity |].
  destruct (digit_head _ _ H) as [Hc Hr]. cbn [Str.filter].
  rewrite (Hp c Hc), (IH Hr). reflexivity.
Qed.

Lemma drop_while_digits ds :
  Str.take_while Str.is_digit ds = ds ->
  Str.drop_while Str.is_digit ds = EmptyString.
Proof.
  induction ds as [| c r IH]; intros H; [reflexivity |].
  destruct (digit_head _ _ H) as [Hc Hr]. cbn [Str.drop_while].
  rewrite Hc. exact (IH Hr).
Qed.

Lemma append_empty s : (s ++ EmptyString)%string = s.
Proof.
  induction s as [| c r IH]; [reflexivity |]. cbn [append]. rewrite IH.
  reflexivity.
Qed.

Lemma to_string_Z (z : Z) :
  Num.to_string (num_of_Z z)
  = ((if (z <? 0)%Z then "-" else EmptyString) ++ Str.of_Z (Z.abs z))%string.
Proof.
  unfold Num.to_string, num_of_Z, inject_Z. cbn [Qnum Qden].
  rewrite Z.mod_1_r, Z.div_1_r. reflexivity.
Qed.

(** the number sanitizer on the decimal text of a natural number of at
    most 53 bits, with or without a minus sign before it *)
Lemma sanitize_number_digits (neg : bool) ds :
  Str.take_while Str.is_digit ds = ds -> ds <> EmptyString ->
  0 <= Str.digits_val 0 ds <= 9007199254740992 ->
  InputValidator.sanitize_number
    (VStr ((if neg then "-" else EmptyString) ++ ds))
  = VNum (num_of_Z (if neg then - Str.digits_val 0 ds else Str.digits_val 0 ds)).
Proof.
  intros H Hn Hmax.
  set (s := ((if neg then "-" else EmptyString) ++ ds)%string).
  assert (Hs : s <> EmptyString).
  { unfold s. destruct neg; [discriminate |]. exact Hn. }
  assert (Htrim : Str.trim s = s).
  { unfold Str.trim.
    assert (H1 : Str.drop_while Str.is_space s = s).
    { unfold s. destruct neg; cbn [append]; [reflexivity |].
      destruct ds as [| c r]; [reflexivity |].
      destruct (digit_head _ _ H) as [Hc _]. cbn [Str.drop_while].
      rewrite (digit_not_space c Hc). reflexivity. }
    rewrite H1.
    assert (H2 : Str.drop_while Str.is_space (Str.rev s) = Str.rev s).
    { unfold Str.rev, s. destruct neg; cbn [append Str.rev_onto];
        apply rev_onto_digits; try exact H; reflexivity. }
    rewrite H2. apply rev_rev. }
  assert (Hfilter :
    Str.filter (fun c => Str.is_digit c || (c =? ".")%char || (c =? "-")%char) s
    = s).
  { unfold s. destruct neg; cbn [append Str.filter];
      [change (Str.is_digit "-" || ("-" =? ".")%char || ("-" =? "-")%char)
         with true; cbv iota; f_equal |];
      apply filter_digits; try exact H; intros c Hc; rewrite Hc; reflexivity. }
  unfold InputValidator.sanitize_number. fold s.
  destruct s as [| c0 r0] eqn:Es; [contradiction |]. rewrite <- Es in *.
  cbn [js_String]. rewrite Htrim, Hfilter.
  assert (Hpf : parseFloat s
                = num_of_Z (if neg then - Str.digits_val 0 ds
                            else Str.digits_val 0 ds)).
  { unfold parseFloat.
    assert (Hsplit :
      (let '(neg', r) :=
         match s with String "-" r => (true, r) | _ => (false, s) end in
       (neg', r)) = (neg, ds)).
    { unfold s. destruct neg; cbn [append]; [reflexivity |].
      destruct ds as [| c r]; [reflexivity |].
      destruct (digit_head _ _ H) as [Hc _].
      destruct c as [[] [] [] [] [] [] [] []]; try discriminate Hc;
        reflexivity. }
    destruct (match s with String "-" r => (true, r) | _ => (false, s) end)
      as [neg' r]. injection Hsplit as -> ->.
    rewrite H, (drop_while_digits ds H). rewrite append_empty.
    destruct ds as [| c r] eqn:Ed; [contradiction |]. rewrite <- Ed in *.
    cbn [length Z.of_nat Z.pow Z.to_pos]. unfold num_of_Z. f_equal.
    change (?m # 1) with (inject_Z m). apply b64_Z.
    destruct neg; lia. }
  rewrite Hpf. reflexivity.
Qed.

(** X7. A quantity or product id given as the decimal text of an integer
    between -2^53 and 2^53, as [String] writes it, is sanitized to that
    integer, so the validator treats the text and the number alike. (The
    text of a larger integer is read as the number nearest to it.) *)
Theorem sanitize_reads_decimal_text env (z : Z) type :
  Z.abs z <= 9007199254740992 ->
  InputValidator.sanitize (VStr (Num.to_string (num_of_Z z))) type
  = VNum (num_of_Z z)
  /\ InputValidator.validate env (VStr (Num.to_string (num_of_Z z))) type
     = InputValidator.validate env (VNum (num_of_Z z)) type.
Proof.
  intros Hmax.
  assert (H : InputValidator.sanitize (VStr (Num.to_string (num_of_Z z))) type
              = VNum (num_of_Z z)).
  { rewrite to_string_Z.
    destruct (of_Z_digits (Z.abs z) (Z.abs_nonneg z)) as (Hd & Hn & Hv).
    assert (E : InputValidator.sanitize_integer
                  (VStr ((if z <? 0 then "-" else EmptyString)
                         ++ Str.of_Z (Z.abs z)))
                = VNum (num_of_Z z)).
    { unfold InputValidator.sanitize_integer.
      rewrite (sanitize_number_digits (z <? 0) _ Hd Hn) by (rewrite Hv; lia).
      rewrite Hv.
      rewrite Num_floor_Z. do 2 f_equal.
      destruct (z <? 0) eqn:B; lia. }
    destruct type; exact E. }
  split; [exact H |].
  rewrite <- validate_sanitized, H. reflexivity.
Qed.

Lemma sanitize_reads_decimal_text_witness :
  Num.to_string (num_of_Z (-42)) = "-42"
  /\ InputValidator.sanitize (VStr "-42") InputValidator.quantity
     = VNum (num_of_Z (-42)).
Proof.
  split; [reflexivity |].
  refine (proj1 (sanitize_reads_decimal_text browser (-42)
                   InputValidator.quantity _)).
  simpl. lia.
Defined.

(** ** Clearing, updating and summing up *)

Lemma with_items_same w : with_items (items w) w = w.
Proof. destruct w; reflexivity. Qed.

(** X8. [clearCart] never throws and leaves an empty cart, whose count and
    total are 0. On a cart that is already empty it does nothing at all;
    otherwise it tells the listeners [cartCleared] and then saves. *)
Theorem clearCart_empties env w :
  let w' := exec (CartModule.clearCart env) w in
  result (CartModule.clearCart env) w = Ok tt
  /\ items w' = []
  /\ result CartModule.isEmpty w' = Ok true
  /\ result CartModule.getCartCount w' = Ok (num_of_Z 0)
  /\ result (CartModule.getCartTotal env) w' = Ok (num_of_Z 0)
  /\ w' = match items w with
          | [] => w
          | _ => exec (CartModule.saveToStorage env)
                   (notified "cartCleared" (VObj []) (with_items [] w))
          end.
Proof.
  cbv zeta.
  assert (E : CartModule.clearCart env w
              = match items w with
                | [] => (Ok tt, w)
                | _ => (Ok tt,
                        exec (CartModule.saveToStorage env)
                          (notified "cartCleared" (VObj []) (with_items [] w)))
                end).
  { unfold CartModule.clearCart. unfold bind at 1, gets.
    unfold bind at 1, modify at 1. cbv beta iota.
    destruct (items w) eqn:Ei.
    - unfold ret. rewrite <- Ei, with_items_same. reflexivity.
    - unfold bind, CartModule._notifyListeners, modify. cbv beta iota.
      fold (notified "cartCleared" (VObj []) (with_items [] w)).
      pose proof (saveToStorage_total env
                    (notified "cartCleared" (VObj []) (with_items [] w))) as Ht.
      unfold exec.
      destruct (CartModule.saveToStorage env _) as [[[] | e] w1];
        [reflexivity | discriminate Ht]. }
  assert (Hi : items (exec (CartModule.clearCart env) w) = []).
  { unfold exec. rewrite E. destruct (items w) eqn:Ei; cbn [snd].
    - exact Ei.
    - destruct (saveToStorage_same_cart env
                  (notified "cartCleared" (VObj []) (with_items [] w)))
        as [H _]. exact H. }
  unfold result, CartModule.isEmpty, CartModule.getCartCount,
    CartModule.getCartTotal, gets. cbn [fst]. rewrite Hi.
  unfold exec at 1. rewrite E.
  repeat split; destruct (items w); reflexivity.
Qed.

Lemma map_set_keys n v its :
  CartModule.map_has (VNum n) its = true ->
  map fst (CartModule.map_set (VNum n) v its) = map fst its.
Proof.
  unfold CartModule.map_has.
  induction its as [| kv r IH]; cbn [existsb CartModule.map_set map];
    [discriminate |].
  destruct (CartModule.key_is (VNum n) kv); cbn [orb map fst]; intros H.
  - reflexivity.
  - rewrite (IH H). reflexivity.
Qed.

(** X9. On a cart that has an entry for the product, [updateQuantity(id, q)]
    with a quantity from 1 to 999 returns, and afterwards the entry holds
    [q] with its product id and time as before; the other entries and the
    order of the cart are as before. With the validator loaded a quantity
    above 999 is refused: the call raises and changes nothing. *)
Theorem updateQuantity_sets env (id q : Z) item w :
  valid_id env id = true ->
  CartModule.map_get (VNum (num_of_Z id)) (items w) = Some item ->
  let w' :=
    exec (CartModule.updateQuantity env (VNum (num_of_Z id))
            (VNum (num_of_Z q))) w in
  (1 <= q <= 999 ->
   result (CartModule.updateQuantity env (VNum (num_of_Z id))
             (VNum (num_of_Z q))) w = Ok tt
   /\ CartModule.map_get (VNum (num_of_Z id)) (items w')
      = Some (CartItem.mk (CartItem.productId item) (num_of_Z q)
                (CartItem.addedAt item))
   /\ (forall p : Z, p <> id ->
       CartModule.map_get (VNum (num_of_Z p)) (items w')
       = CartModule.map_get (VNum (num_of_Z p)) (items w))
   /\ map fst (items w') = map fst (items w))
  /\ (validation_loaded env = true -> 999 < q ->
      returns (result (CartModule.updateQuantity env (VNum (num_of_Z id))
                         (VNum (num_of_Z q))) w) = false
      /\ w' = w).
Proof.
  intros Hid G w'. split.
  - intros Hq.
    assert (E : CartModule.updateQuantity env (VNum (num_of_Z id))
                  (VNum (num_of_Z q)) w
                = (Ok tt,
                   exec (CartModule.saveToStorage env)
                     (notified "quantityUpdated"
                        (VObj [("productId", VNum (num_of_Z id));
                               ("quantity", VNum (num_of_Z q))])
                        (with_items
                           (CartModule.map_set (VNum (num_of_Z id))
                              (CartItem.mk (CartItem.productId item)
                                 (num_of_Z q) (CartItem.addedAt item))
                              (items w)) w)))).
    { unfold CartModule.updateQuantity. unfold bind at 1.
      rewrite (validated_Z env id q w (fun _ => Hid)) by lia.
      assert (H0 : (0 <? id) = true).
      { unfold valid_id in Hid. apply andb_true_iff in Hid.
        destruct Hid as [H1 _]. apply Z.ltb_lt. apply Z.leb_le in H1. lia. }
      rewrite H0, orb_true_r. cbv beta iota. cbn [fst snd]. cbv zeta.
      unfold bind at 1, gets. rewrite G.
      unfold strict_eq_num. rewrite Num_eqb_Z.
      destruct (q =? 0) eqn:Eq0; [lia |].
      unfold try_catch, bind at 1, lift.
      rewrite CartItem_updateQuantity_Z by lia.
      unfold bind at 1, modify at 1. cbv beta iota.
      unfold bind at 1, CartModule._notifyListeners at 1, modify.
      cbv beta iota.
      match goal with
      | |- context [CartModule.saveToStorage env ?w1] =>
          pose proof (saveToStorage_total env w1) as Ht;
          unfold exec, notified;
          destruct (CartModule.saveToStorage env w1) as [[[] | e] w2];
          [reflexivity | discriminate Ht]
      end. }
    assert (Hi : items w'
                 = CartModule.map_set (VNum (num_of_Z id))
                     (CartItem.mk (CartItem.productId item) (num_of_Z q)
                        (CartItem.addedAt item)) (items w)).
    { unfold w', exec at 1. rewrite E. cbn [snd].
      match goal with
      | |- items (exec _ ?w1) = _ =>
          destruct (saveToStorage_same_cart env w1) as [H _]; exact H
      end. }
    unfold result. rewrite E, Hi. cbn [fst].
    split; [reflexivity |]. split; [apply map_get_set |]. split.
    + intros p Hp. apply map_get_set_other. rewrite Num_same_Z.
      apply Z.eqb_neq. congruence.
    + apply map_set_keys. rewrite map_get_has, G. reflexivity.
  - intros Hv Hq.
    assert (E : CartModule.updateQuantity env (VNum (num_of_Z id))
                  (VNum (num_of_Z q)) w
                = (Throw (error ("Invalid quantity: "
                                   ++ "Value is too large (maximum: 999)")), w)).
    { unfold CartModule.updateQuantity. unfold bind at 1.
      unfold CartModule.validated. rewrite Hv.
      rewrite (validateProductId_Z env id Hid).
      cbn [InputValidator.isValid negb].
      rewrite validateQuantity_Z.
      destruct ((0 <=? q) && (q <=? 999)) eqn:B;
        [apply andb_true_iff in B; lia |].
      cbn [InputValidator.isValid negb InputValidator.errors].
      destruct (q <? 0) eqn:B1; [lia |]. destruct (999 <? q) eqn:B2; [| lia].
      destruct (q =? 0) eqn:B3; [lia |]. destruct (0 <? q) eqn:B4; [| lia].
      reflexivity. }
    unfold w', exec, result. rewrite E. split; reflexivity.
Qed.

Lemma updateQuantity_sets_witness :
  let w := exec (CartModule.addItem browser (VNum 1) (VNum 2))
             (fresh (mkClock 0 "1970-01-01T00:00:00.000Z")) in
  result (CartModule.updateQuantity browser (VNum (num_of_Z 1))
            (VNum (num_of_Z 5))) w = Ok tt.
Proof.
  intros w.
  exact (proj1 (proj1 (updateQuantity_sets browser 1 5
                         (CartItem.mk 1 2 (VStr "1970-01-01T00:00:00.000Z")) w
                         eq_refl eq_refl)
                  ltac:(lia))).
Defined.

Lemma summary_fold env its : forall acc,
  snd (fold_left (CartModule.summary_step env) its acc)
  = fold_left (CartModule.add_subtotal env) its (snd acc).
Proof.
  induction its as [| item r IH]; intros acc; cbn [fold_left]; [reflexivity |].
  rewrite IH. f_equal. unfold CartModule.summary_step, CartModule.add_subtotal.
  destruct (CartModule.resolve env item) as [product |]; [| reflexivity].
  destruct (CartItem.getSubtotal item (Product.price product)); reflexivity.
Qed.

Lemma summary_items_fold env its : forall acc,
  fst (fold_left (CartModule.summary_step env) its acc)
  = (fst acc ++ summary_lines env its)%list.
Proof.
  induction its as [| item r IH]; intros acc;
    cbn [fold_left summary_lines flat_map].
  - rewrite app_nil_r. reflexivity.
  - fold (summary_lines env r). rewrite IH.
    unfold CartModule.summary_step, summary_line, CartModule.resolve,
      CartItem.getSubtotal.
    destruct (ProductsModule.getProductById env
                (VNum (CartItem.productId item))) as [[product |] | e];
      try reflexivity.
    destruct (Num.lt (Product.price product) 0); cbn [fst app];
      [reflexivity |].
    rewrite <- app_assoc. reflexivity.
Qed.

(** X10. [getCartSummary] never throws and changes nothing; its [total]
    and [subtotal] are the value of [getCartTotal], its [itemCount] is
    the value of [getCartCount], and its items are, in the order of the
    cart, one line for each entry whose id has a product in the catalog
    at a price that is not negative: the line holds that product, the
    quantity of the entry, the quantity times the price as the subtotal,
    and the time of the entry. The other entries have no line. *)
Theorem getCartSummary_agrees env w :
  exists s,
    CartModule.getCartSummary env w = (Ok s, w)
    /\ Ok (CartModule.total s) = result (CartModule.getCartTotal env) w
    /\ CartModule.subtotal s = CartModule.total s
    /\ Ok (CartModule.itemCount s) = result CartModule.getCartCount w
    /\ CartModule.summary_items s = summary_lines env (map snd (items w)).
Proof.
  eexists. split; [reflexivity |].
  cbn [CartModule.total CartModule.subtotal CartModule.itemCount
       CartModule.summary_items].
  unfold result, CartModule.getCartTotal, CartModule.getCartCount, gets.
  cbn [fst]. rewrite summary_fold, summary_items_fold. cbn [snd fst map app].
  repeat split; reflexivity.
Qed.

(** the summary of a cart of two articles of the first product and one
    entry of a product that the catalog does not have *)
Example summary_of_two_entries :
  let w :=
    with_items
      [(num_of_Z 1, CartItem.mk 1 2 (VStr "1970-01-01T00:00:00.000Z"));
       (num_of_Z 99, CartItem.mk 99 1 (VStr "1970-01-01T00:00:00.000Z"))]
      (fresh (mkClock 0 "1970-01-01T00:00:00.000Z")) in
  map (fun line => (Product.id (CartModule.si_product line),
                    CartModule.si_quantity line,
                    CartModule.si_subtotal line))
    (summary_lines browser (map snd (items w)))
  = [(num_of_Z 1, num_of_Z 2, dec 11998 2)].
Proof. vm_compute. reflexivity. Qed.

(** ** What the data recovery returns for a cart *)

Lemma floor_abs_nonneg q :
  Num.ge (Num.floor (Num.abs (Fin q))) 0 = true.
Proof.
  unfold Num.ge, Num.le, Num.floor, Num.abs, num_of_Z.
  rewrite Qle_bool_inject_Z. apply Z.leb_le.
  change 0 with (Qfloor 0). apply Qfloor_resp_le. apply Qabs_nonneg.
Qed.

Lemma repaired_entry_valid now item :
  both_positive item = true ->
  DataRecovery.cart_item_valid (repaired_entry now item) = Ok true.
Proof.
  unfold both_positive, repaired_entry.
  destruct (field "productId" item) as [| | b | p | s | x | f];
    try discriminate.
  destruct (field "quantity" item) as [| | b | q | s | x | f];
    try discriminate.
  intros H. apply andb_true_iff in H. destruct H as [_ Hq].
  destruct q as [| q]; [discriminate Hq |].
  unfold DataRecovery.cart_item_valid.
  cbn [truthy negb prop assoc String.eqb Ascii.eqb Bool.eqb obind is_number].
  rewrite floor_abs_nonneg. reflexivity.
Qed.

Lemma every_repaired now l :
  every DataRecovery.cart_item_valid
    (map (repaired_entry now) (List.filter both_positive l)) = Ok true.
Proof.
  induction l as [| item r IH]; [reflexivity |]. cbn [List.filter].
  destruct (both_positive item) eqn:B; [| exact IH].
  cbn [map every]. rewrite (repaired_entry_valid now item B). cbn [obind].
  exact IH.
Qed.

Lemma cart_repair_valid now d d' :
  DataRecovery.cart_repair now d = Ok d' ->
  DataRecovery.cart_validate d' = Ok true.
Proof.
  destruct (cart_repair_spec now d) as [ts E]. rewrite E.
  intros H. injection H as <-.
  unfold DataRecovery.cart_validate.
  cbn [truthy negb orb DataRecovery.is_object typeof prop assoc String.eqb
       Ascii.eqb Bool.eqb obind].
  apply every_repaired.
Qed.

(** X11. Whatever the storage holds under the key, and also when reading
    it throws, the data that [recoverData] returns for a cart passes the
    cart's own structural validator; the result is labelled [fallback],
    [validation-passed] or [data-repair]; and the call writes nothing: the
    storages and the cart are as before. *)
Theorem recovered_cart_is_valid key w :
  let w' := exec (DataRecovery.recoverData key "cart") w in
  (exists r,
     result (DataRecovery.recoverData key "cart") w = Ok r
     /\ DataRecovery.cart_validate (DataRecovery.data r) = Ok true
     /\ In (DataRecovery.strategy r)
          ["fallback"; "validation-passed"; "data-repair"])
  /\ localStorage w' = localStorage w
  /\ sessionStorage w' = sessionStorage w
  /\ memoryStorage w' = memoryStorage w
  /\ items w' = items w.
Proof.
  split.
  - apply (recoverData_post key "cart"
             (fun r =>
                DataRecovery.cart_validate (DataRecovery.data r) = Ok true
                /\ In (DataRecovery.strategy r)
                     ["fallback"; "validation-passed"; "data-repair"])).
    + intros errs t. split; [reflexivity | left; reflexivity].
    + intros parsed s0 errs w1.
      destruct (check_parsed_cart parsed s0 errs w1)
        as (r & E & _ & _ & _ & [(Hv & Hs & Hd) | (Hv & Hs & Hd)]);
        exists r; (split; [exact E |]); rewrite Hs.
      * rewrite Hd. split; [exact Hv | right; left; reflexivity].
      * split; [exact (cart_repair_valid _ _ _ Hd) |].
        right; right; left; reflexivity.
  - apply (recoverData_keeps
             (fun w' => localStorage w' = localStorage w
                        /\ sessionStorage w' = sessionStorage w
                        /\ memoryStorage w' = memoryStorage w
                        /\ items w' = items w)).
    + intros w1 x H. exact H.
    + repeat split.
Qed.

(** X12. The plain cases of [recoverData], for any kind of data. When the
    key is missing or holds the empty text, the result is the fallback of
    the kind, without errors; when reading the storage throws, it is the
    fallback with the message of the error. When the text parses to a cart
    that passes the validator, that cart is returned as it is, labelled
    [validation-passed]. *)
Theorem recoverData_plain_cases key dataType w :
  (readable w = true ->
   (assoc key (localStorage w) = None
    \/ assoc key (localStorage w) = Some EmptyString) ->
   result (DataRecovery.recoverData key dataType) w
   = Ok (DataRecovery.mkResult true
           (DataRecovery.getFallbackData dataType (iso (clock w)))
           "fallback" []))
  /\ (forall e rest, faults w = Some e :: rest ->
      result (DataRecovery.recoverData key dataType) w
      = Ok (DataRecovery.mkResult true
              (DataRecovery.getFallbackData dataType (iso (clock w)))
              "fallback" ["Recovery error: " ++ err_message e]))
  /\ (forall raw v,
      readable w = true ->
      assoc key (localStorage w) = Some raw ->
      JSON.parse raw = Ok v ->
      DataRecovery.cart_validate v = Ok true ->
      result (DataRecovery.recoverData key "cart") w
      = Ok (DataRecovery.mkResult true v "validation-passed" [])).
Proof.
  unfold result, DataRecovery.recoverData, attempt.
  split; [| split].
  - intros Hr Hk.
    destruct (getItem_readable Storage.Local key w Hr) as (w1 & E & _ & _ & Hc).
    rewrite E. cbn [Storage.content].
    destruct Hk as [-> | ->]; unfold DataRecovery.fallback_result; mrun;
      cbn [fst]; rewrite Hc; reflexivity.
  - intros e rest Hf. unfold Storage.getItem, bind, Storage.fault.
    rewrite Hf. unfold DataRecovery.recovery_error. mrun. reflexivity.
  - intros raw v Hr Hk Hp Hv.
    destruct (getItem_readable Storage.Local key w Hr) as (w1 & E & _ & _ & Hc).
    rewrite E. cbn [Storage.content]. rewrite Hk.
    destruct raw as [| c raw]; [rewrite parse_empty in Hp; discriminate Hp |].
    rewrite Hp.
    destruct (check_parsed_cart v "none" [] w1)
      as (r & E1 & Hs & _ & He & [(_ & Hst & Hd) | (Hv' & _)]);
      [| congruence].
    rewrite E1. cbn [fst]. destruct r as [s d st er].
    cbn in Hs, He, Hst, Hd. subst. reflexivity.
Qed.

Lemma recoverData_plain_cases_witness :
  let w :=
    with_localStorage [(CartModule.storageKey, dq "{'items':[]}")]
      (fresh (mkClock 0 "1970-01-01T00:00:00.000Z")) in
  result (DataRecovery.recoverData CartModule.storageKey "cart") w
  = Ok (DataRecovery.mkResult true (VObj [("items", VArr [])])
          "validation-passed" []).
Proof.
  intros w.
  exact (proj2 (proj2 (recoverData_plain_cases CartModule.storageKey "cart" w))
           (dq "{'items':[]}") (VObj [("items", VArr [])])
           eq_refl eq_refl eq_refl eq_refl).
Defined.

(** * JSON text read back *)

Lemma value_ind_nested (P : value -> Prop) :
  P VUndef -> P VNull -> (forall b, P (VBool b)) -> (forall n, P (VNum n)) ->
  (forall s, P (VStr s)) ->
  (forall l, Forall P l -> P (VArr l)) ->
  (forall f, Forall (fun kv => P (snd kv)) f -> P (VObj f)) ->
  forall v, P v.
Proof.
  intros HU HN HB HNum HS HA HO. fix IH 1. intros [| | b | n | s | l | f].
  - exact HU.
  - exact HN.
  - apply HB.
  - apply HNum.
  - apply HS.
  - apply HA. induction l as [| x l IHl]; constructor; [apply IH | exact IHl].
  - apply HO. induction f as [| [k x] f IHf]; constructor;
      [apply IH | exact IHf].
Qed.

(** ** Numbers *)

Lemma to_uint_head p d : Pos.to_uint p <> Decimal.D0 d.
Proof.
  intros E.
  assert (Hn : Decimal.unorm (Pos.to_uint p) = Pos.to_uint p).
  { rewrite <- DecimalPos.Unsigned.to_of, DecimalPos.Unsigned.of_to.
    reflexivity. }
  rewrite E in Hn. unfold Decimal.unorm in Hn.
  rewrite DecimalFacts.nzhead_D0 in Hn.
  destruct (Decimal.nzhead d) eqn:Ez;
    try (apply (DecimalFacts.nzhead_nonzero d d); rewrite Ez; exact Hn).
  injection Hn as <-. exact (DecimalPos.Unsigned.to_uint_nonzero p E).
Qed.

Lemma of_Z_head z c r :
  0 <= z -> Str.of_Z z = String "0" (String c r) -> False.
Proof.
  intros Hz. destruct z as [| p | p]; [discriminate | | lia].
  unfold Str.of_Z. cbn [Z.to_int NilZero.string_of_int].
  unfold NilZero.string_of_uint.
  pose proof (to_uint_head p) as Hh.
  destruct (Pos.to_uint p) as [| d | d | d | d | d | d | d | d | d | d];
    try discriminate.
  exfalso. exact (Hh d eq_refl).
Qed.

Lemma numeric_head_not_letter c r w :
  Str.is_digit c = true \/ c = "-"%char ->
  (String c r =? String "t" w)%string = false
  /\ (String c r =? String "f" w)%string = false
  /\ (String c r =? String "n" w)%string = false.
Proof.
  intros [H | ->]; [| repeat split; reflexivity].
  destruct c as [[] [] [] [] [] [] [] []]; try discriminate H;
    repeat split; reflexivity.
Qed.

Lemma ip_ok_of_Z z :
  0 <= z ->
  match Str.of_Z z with
  | EmptyString => false
  | String "0" (String _ _) => false
  | _ => true
  end = true.
Proof.
  intros Hz. destruct (of_Z_digits z Hz) as (_ & Hn & _).
  pose proof (of_Z_head z) as Hh.
  destruct (Str.of_Z z) as [| c [| c2 r2]]; [contradiction | |].
  - destruct c as [[] [] [] [] [] [] [] []]; reflexivity.
  - destruct c as [[] [] [] [] [] [] [] []]; try reflexivity.
    exfalso. exact (Hh c2 r2 Hz eq_refl).
Qed.

(** the text of a whole number is read back as that number *)
Lemma number_word (z : Z) :
  JSON.token_of_word (Num.to_string (num_of_Z z))
  = Some (JSON.TNumber (inject_Z z)).
Proof.
  rewrite to_string_Z.
  destruct (of_Z_digits (Z.abs z) (Z.abs_nonneg z)) as (Hd & Hn & Hv).
  pose proof (ip_ok_of_Z (Z.abs z) (Z.abs_nonneg z)) as Hip.
  set (ds := Str.of_Z (Z.abs z)) in *.
  set (neg := z <? 0).
  set (w := ((if neg then "-" else EmptyString) ++ ds)%string).
  assert (Hw : exists c r, w = String c r
                 /\ (Str.is_digit c = true \/ c = "-"%char)).
  { unfold w. destruct neg; cbn [append].
    - eexists _, _. split; [reflexivity | right; reflexivity].
    - destruct ds as [| c r]; [contradiction |].
      destruct (digit_head _ _ Hd) as [Hc _].
      eexists _, _. split; [reflexivity | left; exact Hc]. }
  destruct Hw as (c & r & Ew & Hc).
  unfold JSON.token_of_word.
  destruct (numeric_head_not_letter c r "rue" Hc) as (E1 & _).
  destruct (numeric_head_not_letter c r "alse" Hc) as (_ & E2 & _).
  destruct (numeric_head_not_letter c r "ull" Hc) as (_ & _ & E3).
  rewrite Ew, E1, E2, E3, <- Ew. clear E1 E2 E3.
  unfold JSON.number_of_word.
  assert (Hsplit :
    match w with String "-" r0 => (true, r0) | _ => (false, w) end
    = (neg, ds)).
  { unfold w. destruct neg; cbn [append]; [reflexivity |].
    destruct ds as [| c0 r0]; [reflexivity |].
    destruct (digit_head _ _ Hd) as [Hc0 _].
    destruct c0 as [[] [] [] [] [] [] [] []]; try discriminate Hc0;
      reflexivity. }
  rewrite Hsplit. rewrite Hd, (drop_while_digits ds Hd).
  rewrite Hip. cbn [andb length Z.of_nat]. rewrite append_empty, Hv.
  change (0 <=? 0 - 0) with true. cbv iota.
  rewrite Qred_inject_Z. cbn [option_map]. do 3 f_equal.
  unfold neg. destruct (z <? 0) eqn:B; lia.
Qed.

(** ** The lexer on the text of a value *)

Lemma app_assoc_string (a b c : string) :
  ((a ++ b) ++ c)%string = (a ++ (b ++ c))%string.
Proof.
  induction a as [| x a IH]; [reflexivity |]. cbn [append]. rewrite IH.
  reflexivity.
Qed.

Lemma word_char_idle c toks :
  JSON.is_word_char c = true ->
  JSON.lex_idle c toks = Some (JSON.LWord (String c EmptyString), toks).
Proof.
  intros H. unfold JSON.lex_idle.
  assert (Hs : JSON.is_json_space c = false
               /\ (c =? JSON.dquote)%char = false).
  { destruct c as [[] [] [] [] [] [] [] []]; try discriminate H;
      split; reflexivity. }
  destruct Hs as [-> ->]. rewrite H. reflexivity.
Qed.

Lemma word_head c r :
  Str.take_while JSON.is_word_char (String c r) = String c r ->
  JSON.is_word_char c = true /\ Str.take_while JSON.is_word_char r = r.
Proof.
  cbn [Str.take_while]. destruct (JSON.is_word_char c); [| discriminate].
  intros H. injection H as H. split; [reflexivity | exact H].
Qed.

Lemma lex_word_tail t w : forall acc toks rest,
  Str.take_while JSON.is_word_char w = w ->
  boundary rest = true ->
  JSON.token_of_word (Str.rev (Str.rev_onto w acc)) = Some t ->
  JSON.lex_from (JSON.LWord acc) toks (w ++ rest)
  = JSON.lex_from JSON.LIdle (t :: toks) rest.
Proof.
  induction w as [| c r IH]; intros acc toks rest Hw Hb Ht.
  - cbn [append Str.rev_onto] in *. destruct rest as [| d rest].
    + cbn [JSON.lex_from]. rewrite Ht. reflexivity.
    + cbn [boundary] in Hb. apply negb_true_iff in Hb.
      cbn [JSON.lex_from JSON.lex_step]. rewrite Hb, Ht. reflexivity.
  - destruct (word_head _ _ Hw) as [Hc Hr].
    cbn [append JSON.lex_from JSON.lex_step]. rewrite Hc.
    apply IH; assumption.
Qed.

Lemma lex_word t w toks rest :
  w <> EmptyString ->
  Str.take_while JSON.is_word_char w = w ->
  boundary rest = true ->
  JSON.token_of_word w = Some t ->
  JSON.lex_from JSON.LIdle toks (w ++ rest)
  = JSON.lex_from JSON.LIdle (t :: toks) rest.
Proof.
  intros Hn Hw Hb Ht. destruct w as [| c r]; [contradiction |].
  destruct (word_head _ _ Hw) as [Hc Hr].
  cbn [append JSON.lex_from JSON.lex_step]. rewrite (word_char_idle c toks Hc).
  apply lex_word_tail; try assumption.
  unfold Str.rev. rewrite rev_onto_twice. cbn [Str.rev_onto].
  rewrite append_empty. exact Ht.
Qed.

Lemma lex_escape_char c acc toks rest :
  JSON.lex_from (JSON.LStr acc) toks (JSON.escape_char c ++ rest)
  = JSON.lex_from (JSON.LStr (String c acc)) toks rest.
Proof.
  destruct c as [[] [] [] [] [] [] [] []]; reflexivity.
Qed.

Lemma lex_string_body s : forall acc toks rest,
  JSON.lex_from (JSON.LStr acc) toks
    ((JSON.escape s ++ String JSON.dquote EmptyString) ++ rest)
  = JSON.lex_from JSON.LIdle
      (JSON.TString (Str.rev (Str.rev_onto s acc)) :: toks) rest.
Proof.
  induction s as [| c r IH]; intros acc toks rest.
  - reflexivity.
  - cbn [JSON.escape Str.rev_onto]. rewrite !app_assoc_string.
    rewrite lex_escape_char. rewrite <- app_assoc_string. apply IH.
Qed.

Lemma lex_string s toks rest :
  JSON.lex_from JSON.LIdle toks (JSON.quote s ++ rest)
  = JSON.lex_from JSON.LIdle (JSON.TString s :: toks) rest.
Proof.
  unfold JSON.quote. cbn [append JSON.lex_from].
  change (JSON.lex_step JSON.LIdle toks JSON.dquote)
    with (Some (JSON.LStr EmptyString, toks)).
  cbv iota. rewrite lex_string_body.
  change (Str.rev_onto s EmptyString) with (Str.rev s). rewrite rev_rev.
  reflexivity.
Qed.

Lemma stringify_some v : plain v = true -> JSON.stringify v = Some (json_text v).
Proof.
  unfold json_text. destruct v as [| | [] | [| q] | s | l | f];
    try discriminate; reflexivity.
Qed.

Lemma json_text_arr l :
  json_text (VArr l) = ("[" ++ Str.join "," (map json_text l) ++ "]")%string.
Proof. reflexivity. Qed.

Lemma fields_text f :
  forallb (fun kv => plain (snd kv)) f = true ->
  flat_map (fun kv => match JSON.stringify (snd kv) with
                      | Some s => [(JSON.quote (fst kv) ++ ":" ++ s)%string]
                      | None => []
                      end) f
  = map (fun kv => (JSON.quote (fst kv) ++ ":" ++ json_text (snd kv))%string) f.
Proof.
  induction f as [| kv r IH]; [reflexivity |]. cbn [forallb flat_map map].
  intros H. apply andb_true_iff in H. destruct H as [Hx Hr].
  rewrite (stringify_some _ Hx), (IH Hr). reflexivity.
Qed.

Lemma json_text_obj f :
  forallb (fun kv => plain (snd kv)) f = true ->
  json_text (VObj f)
  = ("{" ++ Str.join ","
              (map (fun kv =>
                      (JSON.quote (fst kv) ++ ":" ++ json_text (snd kv))%string)
                 f) ++ "}")%string.
Proof.
  intros H. unfold json_text. cbn [JSON.stringify]. rewrite (fields_text f H).
  reflexivity.
Qed.

Lemma lex_punct c t toks rest :
  JSON.lex_idle c toks = Some (JSON.LIdle, t :: toks) ->
  JSON.lex_from JSON.LIdle toks (String c rest)
  = JSON.lex_from JSON.LIdle (t :: toks) rest.
Proof. intros H. cbn [JSON.lex_from JSON.lex_step]. rewrite H. reflexivity. Qed.

Lemma lex_elems l :
  Forall (fun x => plain x = true -> lexes x) l ->
  forallb plain l = true ->
  forall toks rest,
    boundary rest = true ->
    JSON.lex_from JSON.LIdle toks (Str.join "," (map json_text l) ++ rest)
    = JSON.lex_from JSON.LIdle
        (List.rev (sep_tokens (map tokens l)) ++ toks)%list rest.
Proof.
  induction l as [| x r IH]; intros HF Hp toks rest Hb.
  - reflexivity.
  - inversion HF as [| ? ? Hx Hr]; subst.
    cbn [forallb] in Hp. apply andb_true_iff in Hp. destruct Hp as [Px Pr].
    destruct r as [| y r'].
    + cbn [map Str.join sep_tokens]. apply (Hx Px). exact Hb.
    + change (Str.join "," (map json_text (x :: y :: r')))
        with (json_text x ++ "," ++ Str.join "," (map json_text (y :: r')))%string.
      change (sep_tokens (map tokens (x :: y :: r')))
        with (tokens x ++ JSON.TComma :: sep_tokens (map tokens (y :: r')))%list.
      rewrite !app_assoc_string. rewrite (Hx Px) by reflexivity.
      cbn [append]. rewrite (lex_punct "," JSON.TComma) by reflexivity.
      rewrite (IH Hr Pr) by exact Hb.
      f_equal. rewrite rev_app_distr. cbn [List.rev].
      rewrite <- !app_assoc. reflexivity.
Qed.

Lemma lex_fields f :
  Forall (fun kv => plain (snd kv) = true -> lexes (snd kv)) f ->
  forallb (fun kv => plain (snd kv)) f = true ->
  forall toks rest,
    boundary rest = true ->
    JSON.lex_from JSON.LIdle toks
      (Str.join ","
         (map (fun kv =>
                 (JSON.quote (fst kv) ++ ":" ++ json_text (snd kv))%string) f)
       ++ rest)
    = JSON.lex_from JSON.LIdle
        (List.rev
           (sep_tokens
              (map (fun kv =>
                      JSON.TString (fst kv) :: JSON.TColon :: tokens (snd kv))
                 f)) ++ toks)%list rest.
Proof.
  induction f as [| x r IH]; intros HF Hp toks rest Hb.
  - reflexivity.
  - inversion HF as [| ? ? Hx Hr]; subst.
    cbn [forallb] in Hp. apply andb_true_iff in Hp. destruct Hp as [Px Pr].
    assert (Hone : forall toks rest,
      boundary rest = true ->
      JSON.lex_from JSON.LIdle toks
        ((JSON.quote (fst x) ++ ":" ++ json_text (snd x)) ++ rest)
      = JSON.lex_from JSON.LIdle
          (List.rev (JSON.TString (fst x) :: JSON.TColon :: tokens (snd x))
           ++ toks)%list rest).
    { intros toks0 rest0 Hb0. rewrite !app_assoc_string, lex_string.
      cbn [append]. rewrite (lex_punct ":" JSON.TColon) by reflexivity.
      rewrite (Hx Px) by exact Hb0. f_equal. cbn [List.rev].
      rewrite <- !app_assoc. reflexivity. }
    destruct r as [| y r'].
    + cbn [map Str.join sep_tokens]. apply Hone, Hb.
    + cbn [map] in *.
      match goal with
      | |- context [Str.join "," (?a :: ?b :: ?c)] =>
          change (Str.join "," (a :: b :: c))
            with (a ++ "," ++ Str.join "," (b :: c))%string
      end.
      match goal with
      | |- context [sep_tokens (?a :: ?b :: ?c)] =>
          change (sep_tokens (a :: b :: c))
            with (a ++ JSON.TComma :: sep_tokens (b :: c))%list
      end.
      rewrite (app_assoc_string _ _ rest). rewrite Hone by reflexivity.
      rewrite (app_assoc_string "," _ rest).
      cbn [append]. rewrite (lex_punct "," JSON.TComma) by reflexivity.
      rewrite (IH Hr Pr) by exact Hb.
      f_equal. rewrite rev_app_distr. cbn [List.rev].
      rewrite <- !app_assoc. reflexivity.
Qed.

Lemma whole_number q :
  is_whole (Fin q) = true -> Fin q = num_of_Z (Qnum q).
Proof.
  destruct q as [a b]. cbn [is_whole Qden Qnum]. intros H.
  apply Pos.eqb_eq in H. subst b. reflexivity.
Qed.

Lemma number_chars (z : Z) :
  Num.to_string (num_of_Z z) <> EmptyString
  /\ Str.take_while JSON.is_word_char (Num.to_string (num_of_Z z))
     = Num.to_string (num_of_Z z).
Proof.
  rewrite to_string_Z.
  destruct (of_Z_digits (Z.abs z) (Z.abs_nonneg z)) as (Hd & Hn & _).
  assert (Hw : forall ds, Str.take_while Str.is_digit ds = ds ->
                 Str.take_while JSON.is_word_char ds = ds).
  { induction ds as [| c r IH]; intros H; [reflexivity |].
    destruct (digit_head _ _ H) as [Hc Hr]. cbn [Str.take_while].
    assert (Hwc : JSON.is_word_char c = true).
    { unfold JSON.is_word_char, Str.is_ident_char. rewrite Hc.
      rewrite orb_true_r. reflexivity. }
    rewrite Hwc, (IH Hr). reflexivity. }
  destruct (z <? 0); cbn [append].
  - split; [discriminate |]. cbn [Str.take_while].
    change (JSON.is_word_char "-") with true. cbv iota.
    rewrite (Hw _ Hd). reflexivity.
  - split; [exact Hn | exact (Hw _ Hd)].
Qed.

Lemma lex_value v : plain v = true -> lexes v.
Proof.
  induction v as [| | b | n | s | l IH | f IH] using value_ind_nested;
    intros Hp toks rest Hb.
  - discriminate Hp.
  - apply (lex_word JSON.TNull "null"); try reflexivity; try discriminate.
    exact Hb.
  - destruct b.
    + apply (lex_word JSON.TTrue "true"); try reflexivity; try discriminate.
      exact Hb.
    + apply (lex_word JSON.TFalse "false"); try reflexivity; try discriminate.
      exact Hb.
  - destruct n as [| q]; [discriminate Hp |].
    cbn [plain] in Hp. rewrite (whole_number q Hp).
    destruct (number_chars (Qnum q)) as [Hn Hw].
    change (json_text (VNum (num_of_Z (Qnum q))))
      with (Num.to_string (num_of_Z (Qnum q))).
    apply lex_word; try assumption. apply number_word.
  - apply lex_string.
  - cbn [plain] in Hp. rewrite json_text_arr.
    rewrite !app_assoc_string. cbn [append].
    rewrite (lex_punct "[" JSON.TLBracket) by reflexivity.
    rewrite (lex_elems l IH Hp) by reflexivity.
    cbn [append]. rewrite (lex_punct "]" JSON.TRBracket) by reflexivity.
    f_equal. cbn [tokens List.rev]. rewrite rev_app_distr. cbn [List.rev app].
    rewrite <- !app_assoc. reflexivity.
  - cbn [plain] in Hp. apply andb_true_iff in Hp. destruct Hp as [Hp _].
    rewrite (json_text_obj f Hp).
    rewrite !app_assoc_string. cbn [append].
    rewrite (lex_punct "{" JSON.TLBrace) by reflexivity.
    rewrite (lex_fields f IH Hp) by reflexivity.
    cbn [append]. rewrite (lex_punct "}" JSON.TRBrace) by reflexivity.
    f_equal. cbn [tokens List.rev]. rewrite rev_app_distr. cbn [List.rev app].
    rewrite <- !app_assoc. reflexivity.
Qed.

(** ** The parser on the tokens of a value *)

Lemma sep_tokens_cons a l :
  sep_tokens (a :: l)
  = (a ++ List.concat (map (fun x => JSON.TComma :: x) l))%list.
Proof.
  revert a. induction l as [| b l IH]; intros a.
  - cbn [sep_tokens map List.concat]. rewrite app_nil_r. reflexivity.
  - change (sep_tokens (a :: b :: l))
      with (a ++ JSON.TComma :: sep_tokens (b :: l))%list.
    rewrite IH. reflexivity.
Qed.

Lemma arr_start v stk rest :
  plain v = true ->
  JSON.parse_tokens (JSON.PArrStart stk) (tokens v ++ rest)%list
  = JSON.parse_tokens (JSON.PValue (JSON.InArr [] :: stk)) (tokens v ++ rest)%list.
Proof.
  destruct v as [| | [] | [| q] | s | l | f]; try discriminate; reflexivity.
Qed.

Lemma parse_more_elems r :
  Forall (fun x => plain x = true -> parses x) r ->
  forallb plain r = true ->
  forall rev_elems stk rest,
    JSON.parse_tokens (JSON.PArrNext rev_elems stk)
      (List.concat (map (fun x => JSON.TComma :: x) (map tokens r))
       ++ JSON.TRBracket :: rest)%list
    = JSON.parse_tokens
        (JSON.deliver (VArr (List.rev rev_elems ++ r)) stk) rest.
Proof.
  induction r as [| y r IH]; intros HF Hp rev_elems stk rest.
  - cbn [map List.concat app JSON.parse_tokens JSON.parse_step].
    rewrite app_nil_r. reflexivity.
  - inversion HF as [| ? ? Hy Hr]; subst.
    cbn [forallb] in Hp. apply andb_true_iff in Hp. destruct Hp as [Py Pr].
    cbn [map List.concat]. rewrite <- !app_assoc. cbn [app].
    cbn [JSON.parse_tokens JSON.parse_step].
    rewrite (Hy Py). cbn [JSON.deliver].
    rewrite (IH Hr Pr). cbn [List.rev]. rewrite <- app_assoc. reflexivity.
Qed.

Lemma assoc_set_absent {A : Type} k (x : A) fields :
  ~ In k (map fst fields) -> assoc_set k x fields = (fields ++ [(k, x)])%list.
Proof.
  induction fields as [| [k' x'] r IH]; intros H; [reflexivity |].
  cbn [assoc_set app]. cbn [map fst In] in H.
  destruct (k =? k')%string eqn:E.
  - apply String.eqb_eq in E. exfalso. apply H. left. symmetry. exact E.
  - rewrite IH; [reflexivity |]. intros Hin. apply H. right. exact Hin.
Qed.

Lemma parse_more_fields r :
  Forall (fun kv => plain (snd kv) = true -> parses (snd kv)) r ->
  forallb (fun kv => plain (snd kv)) r = true ->
  forall fields stk rest,
    NoDup (map fst fields ++ map fst r) ->
    JSON.parse_tokens (JSON.PObjNext fields stk)
      (List.concat
         (map (fun x => JSON.TComma :: x)
            (map (fun kv =>
                    JSON.TString (fst kv) :: JSON.TColon :: tokens (snd kv))
               r))
       ++ JSON.TRBrace :: rest)%list
    = JSON.parse_tokens (JSON.deliver (VObj (fields ++ r)) stk) rest.
Proof.
  induction r as [| [k x] r IH]; intros HF Hp fields stk rest Hd.
  - cbn [map List.concat app JSON.parse_tokens JSON.parse_step].
    rewrite app_nil_r. reflexivity.
  - inversion HF as [| ? ? Hx Hr]; subst. cbn [snd fst] in *.
    cbn [forallb snd] in Hp. apply andb_true_iff in Hp.
    destruct Hp as [Px Pr].
    cbn [map List.concat fst snd]. rewrite <- !app_assoc. cbn [app].
    cbn [JSON.parse_tokens JSON.parse_step].
    rewrite <- ?app_assoc. rewrite (Hx Px). cbn [JSON.deliver].
    cbn [map fst] in Hd.
    assert (Hk : ~ In k (map fst fields)).
    { apply NoDup_remove_2 in Hd. intros Hin. apply Hd.
      apply in_or_app. left. exact Hin. }
    rewrite (assoc_set_absent k x fields Hk).
    rewrite (IH Hr Pr).
    + rewrite <- app_assoc. reflexivity.
    + rewrite map_app. cbn [map fst]. rewrite <- app_assoc. exact Hd.
Qed.

Lemma parse_value v : plain v = true -> parses v.
Proof.
  induction v as [| | b | n | s | l IH | f IH] using value_ind_nested;
    intros Hp stk rest.
  - discriminate Hp.
  - reflexivity.
  - destruct b; reflexivity.
  - destruct n as [| q]; [discriminate Hp | reflexivity].
  - reflexivity.
  - cbn [plain] in Hp. cbn [tokens].
    destruct l as [| x r].
    + reflexivity.
    + inversion IH as [| ? ? Hx Hr]; subst.
      cbn [forallb] in Hp. apply andb_true_iff in Hp. destruct Hp as [Px Pr].
      cbn [map]. rewrite sep_tokens_cons. rewrite <- !app_assoc.
      cbn [app JSON.parse_tokens JSON.parse_step JSON.start_value].
      rewrite <- ?app_assoc. cbn [app].
      rewrite (arr_start x stk _ Px). rewrite (Hx Px). cbn [JSON.deliver].
      exact (parse_more_elems r Hr Pr [x] stk rest).
  - cbn [plain] in Hp. apply andb_true_iff in Hp. destruct Hp as [Hp Hd].
    cbn [tokens].
    destruct f as [| [k x] r].
    + reflexivity.
    + inversion IH as [| ? ? Hx Hr]; subst. cbn [snd] in Hx.
      cbn [forallb snd] in Hp. apply andb_true_iff in Hp.
      destruct Hp as [Px Pr].
      cbn [map fst snd]. rewrite sep_tokens_cons. rewrite <- !app_assoc.
      cbn [app JSON.parse_tokens JSON.parse_step JSON.start_value].
      rewrite <- ?app_assoc. cbn [app].
      rewrite (Hx Px). cbn [JSON.deliver assoc_set].
      apply (parse_more_fields r Hr Pr [(k, x)] stk rest).
      apply distinct_NoDup. exact Hd.
Qed.

(** a value that JSON text holds exactly is read back from its text *)
Lemma parse_stringify v :
  plain v = true ->
  exists s, JSON.stringify v = Some s /\ JSON.parse s = Ok v.
Proof.
  intros Hp. exists (json_text v). split; [apply stringify_some, Hp |].
  unfold JSON.parse, JSON.lex.
  pose proof (lex_value v Hp [] EmptyString eq_refl) as Hl.
  rewrite append_empty, app_nil_r in Hl. rewrite Hl.
  cbn [JSON.lex_from]. rewrite rev_involutive.
  pose proof (parse_value v Hp [] []) as Hq. rewrite app_nil_r in Hq.
  rewrite Hq. reflexivity.
Qed.

(** * Backups restored *)

Lemma getItem_healthy a k w :
  faults w = [] ->
  Storage.getItem a k w = (Ok (assoc k (Storage.content a w)), w).
Proof.
  intros Hf. unfold Storage.getItem, bind. rewrite (fault_healthy w Hf).
  reflexivity.
Qed.

Lemma assoc_assoc_set {A : Type} k (v : A) l :
  assoc k (assoc_set k v l) = Some v.
Proof.
  induction l as [| [k' v'] r IH]; cbn [assoc_set assoc].
  - rewrite String.eqb_refl. reflexivity.
  - destruct (k =? k')%string eqn:E; cbn [assoc].
    + rewrite String.eqb_refl. reflexivity.
    + rewrite E. exact IH.
Qed.

Lemma assoc_assoc_set_other {A : Type} k k' (v : A) l :
  k <> k' -> assoc k (assoc_set k' v l) = assoc k l.
Proof.
  intros Hk. induction l as [| [k2 v2] r IH]; cbn [assoc_set assoc].
  - destruct (k =? k')%string eqn:E; [| reflexivity].
    apply String.eqb_eq in E. contradiction.
  - destruct (k' =? k2)%string eqn:E; cbn [assoc].
    + apply String.eqb_eq in E. subst k2.
      destruct (k =? k')%string eqn:E2; [| reflexivity].
      apply String.eqb_eq in E2. contradiction.
    + destruct (k =? k2)%string; [reflexivity | exact IH].
Qed.

Lemma assoc_assoc_remove_other {A : Type} k k' (l : list (string * A)) :
  k <> k' -> assoc k (assoc_remove k' l) = assoc k l.
Proof.
  intros Hk. induction l as [| [k2 v2] r IH]; cbn [assoc_remove assoc].
  - reflexivity.
  - destruct (k' =? k2)%string eqn:E; cbn [assoc].
    + apply String.eqb_eq in E. subst k2.
      destruct (k =? k')%string eqn:E2; [| reflexivity].
      apply String.eqb_eq in E2. contradiction.
    + destruct (k =? k2)%string; [reflexivity | exact IH].
Qed.

Lemma assoc_remove_all_other {A : Type} k R : forall (l : list (string * A)),
  ~ In k R ->
  assoc k (fold_left (fun l k' => assoc_remove k' l) R l) = assoc k l.
Proof.
  induction R as [| k' R IH]; intros l H; cbn [fold_left]; [reflexivity |].
  rewrite IH by (intros Hin; apply H; right; exact Hin).
  apply assoc_assoc_remove_other. intros ->. apply H. left. reflexivity.
Qed.

Lemma sorted_head_newest h t k :
  newest_sorted (h :: t) ->
  In k (h :: t) ->
  (forall x, In x (h :: t) -> x <> k -> newer_or_equal x k = false) ->
  h = k.
Proof.
  unfold newest_sorted. intros Hs Hin Hk.
  destruct (string_dec h k) as [E | N]; [exact E |].
  destruct Hin as [E | Hin]; [exact E |].
  inversion Hs as [| ? ? _ Hall]; subst.
  rewrite Forall_forall in Hall. specialize (Hall k Hin).
  rewrite (Hk h (or_introl eq_refl) N) in Hall. discriminate Hall.
Qed.

Lemma is_backup_of_backup_key key w :
  is_backup_of key (backup_key key w) = true.
Proof.
  unfold is_backup_of, backup_key, Str.startsWith.
  rewrite <- app_assoc_string. rewrite prefix_app, andb_true_r.
  destruct key; reflexivity.
Qed.

Lemma restoreFromBackup_healthy key w k t text bd d ts :
  faults w = [] ->
  sort DataRecovery.newest_first (backups_of key (keys_of (localStorage w)))
  = k :: t ->
  assoc k (localStorage w) = Some text ->
  JSON.parse text = Ok bd ->
  prop "data" bd = Ok d ->
  prop "timestamp" bd = Ok ts ->
  DataRecovery.restoreFromBackup key w
  = (Ok (DataRecovery.mkRestored true d ts None),
     with_localStorage
       (assoc_set key (DataRecovery.stringify_text d) (localStorage w)) w).
Proof.
  intros Hf Hs Ha Hp Hd Ht. unfold DataRecovery.restoreFromBackup, try_catch.
  unfold bind at 1. rewrite (backup_keys_of_healthy key w Hf), Hs.
  unfold bind at 1. rewrite (getItem_healthy _ _ w Hf).
  cbn [Storage.content]. rewrite Ha.
  unfold bind at 1, lift at 1. rewrite Hp.
  unfold bind at 1, lift at 1. rewrite Hd.
  unfold bind at 1. rewrite (setItem_healthy _ _ w Hf).
  unfold bind at 1, lift at 1. rewrite Ht. reflexivity.
Qed.

Lemma stringify_text_plain v :
  plain v = true ->
  JSON.stringify v = Some (DataRecovery.stringify_text v)
  /\ JSON.parse (DataRecovery.stringify_text v) = Ok v.
Proof.
  intros Hp. destruct (parse_stringify v Hp) as (s & Es & Ep).
  unfold DataRecovery.stringify_text. rewrite Es. split; [reflexivity | exact Ep].
Qed.

Lemma set_add_in k l : In k (DataRecovery.set_add k l).
Proof.
  unfold DataRecovery.set_add.
  destruct (existsb (String.eqb k) l) eqn:E.
  - apply existsb_eqb_In, E.
  - apply in_or_app. right. left. reflexivity.
Qed.

Lemma set_add_other k x l :
  In x (DataRecovery.set_add k l) -> x <> k -> In x l.
Proof.
  unfold DataRecovery.set_add.
  destruct (existsb (String.eqb k) l); [intros H _; exact H |].
  intros H N. apply in_app_or in H. destruct H as [H | [H | []]];
    [exact H | congruence].
Qed.

(** X13. A backup of the cart's key written on a storage that does not
    fail, at a time after those of the backups already there, is the one
    that [restoreFromBackup] finds: the call reports success with the data
    and the time of that backup, and writes the data back under the
    cart's key. *)
Theorem backup_is_restored data w :
  orderly CartModule.storageKey w ->
  0 <= millis (clock w) ->
  (forall k,
     In k (backups_of CartModule.storageKey (keys_of (localStorage w))) ->
     Num.lt (DataRecovery.backup_timestamp k) (num_of_Z (millis (clock w)))
     = true) ->
  plain data = true ->
  let w1 := exec (DataRecovery.createBackup CartModule.storageKey data) w in
  exists w2,
    DataRecovery.restoreFromBackup CartModule.storageKey w1
    = (Ok (DataRecovery.mkRestored true data (VStr (iso (clock w))) None), w2)
    /\ Some (DataRecovery.stringify_text data) = JSON.stringify data
    /\ assoc CartModule.storageKey (localStorage w2)
       = Some (DataRecovery.stringify_text data).
Proof.
  intros (Hf & Hd & Ht) Hz Hold Hp w1.
  set (key := CartModule.storageKey) in *.
  set (newkey := backup_key key w).
  set (backupData :=
         VObj [("originalKey", VStr key); ("data", data);
               ("timestamp", VStr (iso (clock w))); ("version", VStr "1.0")]).
  set (text := DataRecovery.stringify_text backupData).
  set (ls1 := assoc_set newkey text (localStorage w)).
  set (present := DataRecovery.set_add newkey (keys_of (localStorage w))).
  set (before := backups_of key present).
  set (S := sort DataRecovery.newest_first before).
  assert (Hts : DataRecovery.backup_timestamp newkey
                = num_of_Z (millis (clock w)))
    by (apply backup_key_timestamp, Hz).
  assert (Htb : timestamped before = true).
  { apply timestamped_set_add; [exact Ht |]. fold newkey. rewrite Hts.
    reflexivity. }
  assert (Hnew : In newkey before).
  { unfold before, backups_of. apply filter_In. split.
    - apply set_add_in.
    - apply is_backup_of_backup_key. }
  assert (Holder : forall x, In x before -> x <> newkey ->
                     newer_or_equal x newkey = false).
  { intros x Hx Nx. unfold before, backups_of in Hx. apply filter_In in Hx.
    destruct Hx as [Hx Hb].
    pose proof (set_add_other _ _ _ Hx Nx) as Hin.
    assert (Hlt : Num.lt (DataRecovery.backup_timestamp x)
                    (num_of_Z (millis (clock w))) = true).
    { apply Hold. apply filter_In. split; assumption. }
    unfold newer_or_equal, Num.ge. rewrite Hts.
    unfold Num.lt in Hlt. unfold Num.le.
    destruct (DataRecovery.backup_timestamp x) as [| q]; [discriminate Hlt |].
    unfold num_of_Z in *. unfold Qlt_bool in Hlt.
    apply negb_true_iff in Hlt. exact Hlt. }
  assert (Hndb : NoDup before).
  { apply distinct_NoDup. unfold before, backups_of.
    apply distinct_filter, distinct_set_add, Hd. }
  assert (HpermS : Permutation S before) by apply sort_perm.
  assert (HS : exists t, S = newkey :: t).
  { assert (Hsorted : newest_sorted S) by (apply sort_sorted, Htb).
    assert (HinS : In newkey S)
      by (apply (Permutation_in _ (Permutation_sym HpermS)), Hnew).
    destruct S as [| h t] eqn:ES; [destruct HinS |].
    exists t. f_equal. apply (sorted_head_newest h t newkey Hsorted HinS).
    intros x Hx Nx. apply Holder; [| exact Nx].
    apply (Permutation_in _ HpermS), Hx. }
  destruct HS as [t HS].
  destruct (createBackup_healthy key data w Hf) as [Hf1 Hl1].
  fold newkey backupData text ls1 in Hl1.
  assert (Hkeys1 : keys_of ls1 = present) by apply keys_assoc_set.
  rewrite Hkeys1 in Hl1. fold before S in Hl1. fold w1 in Hf1, Hl1.
  set (kept := List.filter
                 (fun x => negb (existsb (String.eqb x) (skipn 5 S))) before).
  assert (Hb1 : backups_of key (keys_of (localStorage w1)) = kept).
  { unfold w1. rewrite (createBackup_keys key data w Hf Hd).
    fold newkey present before S. unfold backups_of, kept.
    apply filter_comm. }
  destruct (kept_newest before Hndb) as [Hmem _]. fold S kept in Hmem.
  assert (Hfirst : In newkey (firstn 5 S)) by (rewrite HS; left; reflexivity).
  assert (Hkept : In newkey kept) by (apply Hmem, Hfirst).
  assert (HK : exists t', sort DataRecovery.newest_first kept = newkey :: t').
  { assert (Htk : timestamped kept = true)
      by (apply timestamped_filter, Htb).
    assert (Hsorted : newest_sorted (sort DataRecovery.newest_first kept))
      by (apply sort_sorted, Htk).
    assert (Hperm : Permutation (sort DataRecovery.newest_first kept) kept)
      by apply sort_perm.
    assert (Hin : In newkey (sort DataRecovery.newest_first kept))
      by (apply (Permutation_in _ (Permutation_sym Hperm)), Hkept).
    destruct (sort DataRecovery.newest_first kept) as [| h t'] eqn:EK;
      [destruct Hin |].
    exists t'. f_equal. apply (sorted_head_newest h t' newkey Hsorted Hin).
    intros x Hx Nx. apply Holder; [| exact Nx].
    apply (Permutation_in _ Hperm) in Hx. unfold kept in Hx.
    apply filter_In in Hx. apply Hx. }
  destruct HK as [t' HK].
  assert (Hstored : assoc newkey (localStorage w1) = Some text).
  { rewrite Hl1. rewrite assoc_remove_all_other.
    - apply assoc_assoc_set.
    - assert (HndS : NoDup S)
        by (apply (Permutation_NoDup (Permutation_sym HpermS) Hndb)).
      apply (in_firstn_iff 5 S newkey HndS), Hfirst. }
  assert (Hplain : plain backupData = true).
  { unfold backupData. cbn [plain forallb snd map fst]. rewrite Hp.
    reflexivity. }
  destruct (stringify_text_plain backupData Hplain) as [_ Hparse].
  fold text in Hparse.
  eexists. split; [| split].
  - apply (restoreFromBackup_healthy key w1 newkey t' text backupData data
             (VStr (iso (clock w))) Hf1);
      [rewrite Hb1; exact HK | exact Hstored | exact Hparse
      | reflexivity | reflexivity].
  - symmetry. apply stringify_text_plain, Hp.
  - cbn [localStorage with_localStorage]. apply assoc_assoc_set.
Qed.

Lemma backup_is_restored_witness :
  let w := fresh (mkClock 1700000000000 "2023-11-14T22:13:20.000Z") in
  let data := VObj [("items", VArr []); ("timestamp", VStr "t")] in
  exists w2,
    DataRecovery.restoreFromBackup CartModule.storageKey
      (exec (DataRecovery.createBackup CartModule.storageKey data) w)
    = (Ok (DataRecovery.mkRestored true data
             (VStr "2023-11-14T22:13:20.000Z") None), w2)
    /\ Some (DataRecovery.stringify_text data) = JSON.stringify data
    /\ assoc CartModule.storageKey (localStorage w2)
       = Some (DataRecovery.stringify_text data).
Proof.
  intros w data. apply (backup_is_restored data w).
  - split; [reflexivity | split; reflexivity].
  - cbn. lia.
  - intros k [].
  - reflexivity.
Defined.

(** X14. [restoreFromBackup] never throws. In a storage that does not fail
    and holds no backup of the key, it reports failure with the message
    [No backups found] and changes nothing. *)
Theorem restoreFromBackup_without_backup key w :
  returns (result (DataRecovery.restoreFromBackup key) w) = true
  /\ (faults w = [] ->
      backups_of key (keys_of (localStorage w)) = [] ->
      DataRecovery.restoreFromBackup key w
      = (Ok (DataRecovery.mkRestored false VUndef VUndef
               (Some "No backups found")), w)).
Proof.
  split.
  - apply (restoreFromBackup_safe key w I).
  - intros Hf Hb. unfold DataRecovery.restoreFromBackup, try_catch.
    unfold bind at 1. rewrite (backup_keys_of_healthy key w Hf), Hb.
    reflexivity.
Qed.

Lemma restoreFromBackup_without_backup_witness :
  let w := fresh (mkClock 0 "1970-01-01T00:00:00.000Z") in
  DataRecovery.restoreFromBackup CartModule.storageKey w
  = (Ok (DataRecovery.mkRestored false VUndef VUndef
           (Some "No backups found")), w).
Proof.
  intros w.
  exact (proj2 (restoreFromBackup_without_backup CartModule.storageKey w)
           eq_refl eq_refl).
Defined.

(** * The cart saved and loaded again *)

Lemma serialize_lines lines t :
  CartModule.serialize (map entry_of lines) t
  = VObj [("items", VArr (map stored_line lines)); ("timestamp", VStr t)].
Proof.
  unfold CartModule.serialize. rewrite map_map. reflexivity.
Qed.

Lemma valid_id_resolves env id :
  valid_id env id = true ->
  1 <= id
  /\ exists p, ProductsModule.getProductById env (VNum (num_of_Z id))
               = Ok (Some p).
Proof.
  unfold valid_id, resolves. intros H. apply andb_true_iff in H.
  destruct H as [H1 H2]. split; [apply Z.leb_le, H1 |].
  destruct (ProductsModule.getProductById env (VNum (num_of_Z id)))
    as [[p |] | e]; try discriminate. exists p. reflexivity.
Qed.

Lemma line_ok_parts env l :
  line_ok env l = true ->
  valid_id env (line_id l) = true
  /\ 0 <= line_quantity l <= 999
  /\ line_addedAt l <> EmptyString.
Proof.
  unfold line_ok. intros H.
  apply andb_true_iff in H. destruct H as [H Ha].
  apply andb_true_iff in H. destruct H as [H Hq2].
  apply andb_true_iff in H. destruct H as [Hid Hq1].
  split; [exact Hid |]. split; [lia |].
  apply negb_true_iff in Ha. intros E. rewrite E in Ha. discriminate Ha.
Qed.

Lemma fromObject_line t l :
  1 <= line_id l -> 0 <= line_quantity l ->
  line_addedAt l <> EmptyString ->
  CartItem.fromObject t (stored_line l) = Ok (snd (entry_of l)).
Proof.
  intros Hid Hq Ha. unfold CartItem.fromObject, stored_line.
  cbn [prop assoc String.eqb Ascii.eqb Bool.eqb obind].
  unfold CartItem.new. cbv zeta. unfold CartItem.check.
  assert (Ht : Num.truthy (num_of_Z (line_id l)) = true).
  { unfold Num.truthy, num_of_Z. change 0%Q with (inject_Z 0).
    rewrite Qeq_bool_inject_Z.
    destruct (line_id l =? 0) eqn:E; [lia | reflexivity]. }
  rewrite Ht. cbn [negb]. rewrite Num_lt_Z, Num_isInteger_Z.
  destruct (line_quantity l <? 0) eqn:E; [lia |].
  cbn [orb negb obind fst snd truthy].
  unfold entry_of. cbn [snd].
  destruct (line_addedAt l) as [| c r] eqn:Ea; [contradiction |].
  reflexivity.
Qed.

Lemma load_item_line env strict l w :
  line_ok env l = true ->
  CartModule.load_item env strict (stored_line l) w
  = (Ok true,
     with_items
       (CartModule.map_set (VNum (num_of_Z (line_id l))) (snd (entry_of l))
          (items w)) w).
Proof.
  intros Hok. destruct (line_ok_parts env l Hok) as (Hid & Hq & Ha).
  destruct (valid_id_resolves env _ Hid) as (Hid1 & p & Hp).
  assert (Hpid : prop "productId" (stored_line l)
                 = Ok (VNum (num_of_Z (line_id l)))) by reflexivity.
  assert (Hpq : prop "quantity" (stored_line l)
                = Ok (VNum (num_of_Z (line_quantity l)))) by reflexivity.
  assert (Hvq : InputValidator.isValid
                  (InputValidator.validateQuantity env
                     (VNum (num_of_Z (line_quantity l)))) = true).
  { rewrite validateQuantity_Z.
    replace ((0 <=? line_quantity l) && (line_quantity l <=? 999)) with true
      by (symmetry; apply andb_true_iff; split; apply Z.leb_le; lia).
    reflexivity. }
  assert (Hvp : InputValidator.isValid
                  (InputValidator.validateProductId env
                     (VNum (num_of_Z (line_id l)))) = true)
    by (rewrite (validateProductId_Z env _ Hid); reflexivity).
  assert (Htr : truthy (stored_line l) = true) by reflexivity.
  unfold CartModule.load_item.
  destruct strict, (validation_loaded env);
    cbv beta iota delta [try_catch bind lift ret gets modify throw
                           DataRecovery.now];
    rewrite ?Htr; cbn [negb]; rewrite ?Hpid, ?Hpq;
    cbn [is_number andb negb]; rewrite ?Hvp, ?Hvq; cbn [andb negb];
    rewrite Hp; rewrite (fromObject_line _ l Hid1 (proj1 Hq) Ha);
    reflexivity.
Qed.

Lemma load_items_lines env strict lines : forall w,
  forallb (line_ok env) lines = true ->
  CartModule.load_items env strict (map stored_line lines) w
  = (Ok O,
     with_items
       (fold_left
          (fun its l =>
             CartModule.map_set (VNum (num_of_Z (line_id l)))
               (snd (entry_of l)) its)
          lines (items w)) w).
Proof.
  induction lines as [| l r IH]; intros w H.
  - cbn [map CartModule.load_items fold_left]. unfold ret.
    rewrite with_items_same. reflexivity.
  - cbn [forallb] in H. apply andb_true_iff in H. destruct H as [Hl Hr].
    cbn [map CartModule.load_items fold_left]. unfold bind at 1.
    rewrite (load_item_line env strict l w Hl). unfold bind at 1.
    rewrite (IH _ Hr). reflexivity.
Qed.

Lemma map_get_app_absent (a : Z) kv its :
  CartModule.map_get (VNum (num_of_Z a)) its = None ->
  Num.same (fst kv) (num_of_Z a) = false ->
  CartModule.map_get (VNum (num_of_Z a)) (its ++ [kv])%list = None.
Proof.
  unfold CartModule.map_get. intros H Hk.
  induction its as [| x r IH]; cbn [app find].
  - cbn [CartModule.key_is]. rewrite Hk. reflexivity.
  - cbn [find] in H. destruct (CartModule.key_is (VNum (num_of_Z a)) x);
      [discriminate H | exact (IH H)].
Qed.

Lemma fold_map_set_lines lines : forall acc,
  NoDup (map line_id lines) ->
  (forall l, In l lines ->
     CartModule.map_get (VNum (num_of_Z (line_id l))) acc = None) ->
  fold_left
    (fun its l =>
       CartModule.map_set (VNum (num_of_Z (line_id l))) (snd (entry_of l)) its)
    lines acc
  = (acc ++ map entry_of lines)%list.
Proof.
  induction lines as [| l r IH]; intros acc Hnd Hacc; cbn [fold_left map].
  - rewrite app_nil_r. reflexivity.
  - cbn [map] in Hnd. inversion Hnd as [| ? ? Hnot Hnd']; subst.
    rewrite (map_set_absent _ _ _ (Hacc l (or_introl eq_refl))).
    rewrite IH.
    + rewrite <- app_assoc. reflexivity.
    + exact Hnd'.
    + intros l' Hin. apply map_get_app_absent.
      * apply Hacc. right. exact Hin.
      * cbn [fst]. rewrite Num_same_Z. apply Z.eqb_neq. intros E.
        apply Hnot. rewrite E. apply in_map, Hin.
Qed.

Lemma stored_lines_valid env lines :
  forallb (line_ok env) lines = true ->
  every DataRecovery.cart_item_valid (map stored_line lines) = Ok true.
Proof.
  induction lines as [| l r IH]; [reflexivity |]. cbn [forallb map every].
  intros H. apply andb_true_iff in H. destruct H as [Hl Hr].
  destruct (line_ok_parts env l Hl) as (_ & Hq & _).
  assert (E : DataRecovery.cart_item_valid (stored_line l) = Ok true).
  { unfold DataRecovery.cart_item_valid, stored_line.
    cbn [truthy negb prop assoc String.eqb Ascii.eqb Bool.eqb obind is_number].
    unfold Num.ge. rewrite Num_le_Z.
    destruct (0 <=? line_quantity l) eqn:B; [reflexivity | lia]. }
  rewrite E. cbn [obind]. exact (IH Hr).
Qed.

Lemma stored_lines_plain lines :
  forallb plain (map stored_line lines) = true.
Proof.
  induction lines as [| l r IH]; [reflexivity |]. cbn [map forallb].
  rewrite IH. reflexivity.
Qed.

Lemma recoverData_valid_healthy key raw v w :
  faults w = [] ->
  assoc key (localStorage w) = Some raw ->
  JSON.parse raw = Ok v ->
  DataRecovery.cart_validate v = Ok true ->
  DataRecovery.recoverData key "cart" w
  = (Ok (DataRecovery.mkResult true v "validation-passed" []), w).
Proof.
  intros Hf Hk Hp Hv. unfold DataRecovery.recoverData, attempt.
  rewrite (getItem_healthy _ _ w Hf). cbn [Storage.content]. rewrite Hk.
  destruct raw as [| c raw]; [rewrite parse_empty in Hp; discriminate Hp |].
  rewrite Hp.
  destruct (check_parsed_cart v "none" [] w)
    as (r & E & Hs & _ & He & [(_ & Hst & Hd) | (Hv' & _)]); [| congruence].
  rewrite E. destruct r as [s d st er]. cbn in Hs, He, Hst, Hd. subst.
  reflexivity.
Qed.

Lemma serialized_cart env lines t :
  forallb (line_ok env) lines = true ->
  let v := CartModule.serialize (map entry_of lines) t in
  JSON.parse (DataRecovery.stringify_text v) = Ok v
  /\ DataRecovery.cart_validate v = Ok true.
Proof.
  intros H v. unfold v. rewrite serialize_lines. split.
  - apply stringify_text_plain. cbn [plain forallb snd map fst].
    change (forallb plain (map stored_line lines) && true && true = true).
    rewrite stored_lines_plain. reflexivity.
  - unfold DataRecovery.cart_validate.
    cbn [truthy negb orb DataRecovery.is_object typeof prop assoc String.eqb
         Ascii.eqb Bool.eqb obind].
    apply (stored_lines_valid env lines H).
Qed.

Lemma load_attempt_lines env lines t w :
  forallb (line_ok env) lines = true ->
  NoDup (map line_id lines) ->
  faults w = [] ->
  assoc CartModule.storageKey (localStorage w)
  = Some (DataRecovery.stringify_text
            (CartModule.serialize (map entry_of lines) t)) ->
  CartModule.load_attempt env w
  = (Ok tt, with_items (map entry_of lines) w).
Proof.
  intros Hok Hnd Hf Hk.
  destruct (serialized_cart env lines t Hok) as [Hparse Hvalid].
  assert (Hfold :
    fold_left
      (fun its l =>
         CartModule.map_set (VNum (num_of_Z (line_id l))) (snd (entry_of l)) its)
      lines [] = map entry_of lines).
  { rewrite fold_map_set_lines; [reflexivity | exact Hnd |].
    intros l _. reflexivity. }
  unfold CartModule.load_attempt.
  destruct (validation_loaded env) eqn:Hv.
  - unfold bind at 1. unfold bind at 1.
    rewrite (recoverData_valid_healthy _ _ _ w Hf Hk Hparse Hvalid).
    cbn [DataRecovery.success DataRecovery.data]. rewrite serialize_lines.
    cbn [truthy andb]. unfold bind at 1. unfold bind at 1, modify at 1.
    cbv beta iota. unfold bind at 1, lift at 1.
    cbn [prop assoc String.eqb Ascii.eqb Bool.eqb].
    unfold bind at 1, lift at 1. cbn [CartModule.iterate].
    unfold bind at 1. rewrite (load_items_lines env false lines _ Hok).
    cbn [items with_items]. rewrite Hfold. reflexivity.
  - unfold bind at 1, ret at 1. cbv beta iota.
    unfold bind at 1. rewrite (getItem_healthy _ _ w Hf).
    cbn [Storage.content]. rewrite Hk.
    destruct (DataRecovery.stringify_text
                (CartModule.serialize (map entry_of lines) t))
      as [| c text] eqn:Et;
      [rewrite parse_empty in Hparse; discriminate Hparse |].
    unfold bind at 1, lift at 1. rewrite Hparse. rewrite serialize_lines.
    cbn [truthy negb]. unfold bind at 1, lift at 1.
    cbn [prop assoc String.eqb Ascii.eqb Bool.eqb].
    unfold CartModule.load_cart. unfold bind at 1, modify at 1.
    cbv beta iota. unfold bind at 1.
    rewrite (load_items_lines env true lines _ Hok).
    cbn [items with_items]. rewrite Hfold. reflexivity.
Qed.

Lemma createBackup_total key data : total (DataRecovery.createBackup key data).
Proof.
  intros w. unfold DataRecovery.createBackup, try_catch.
  match goal with
  | |- returns (fst (match ?m w with _ => _ end)) = true =>
      destruct (m w) as [[[] | e] w1]; reflexivity
  end.
Qed.

(** the backup that [saveToStorage] makes of the stored cart, on a storage
    that does not fail: it leaves the manager and the stored cart alone *)
Lemma backup_step_healthy env w :
  faults w = [] ->
  let step : M unit :=
    if validation_loaded env then
      existingData <- Storage.getItem Storage.Local CartModule.storageKey ;;
      match existingData with
      | None | Some EmptyString => ret tt
      | Some text =>
          try_catch
            (existingCartData <- lift (JSON.parse text) ;;
             DataRecovery.createBackup CartModule.storageKey existingCartData)
            (fun _ => ret tt)
      end
    else ret tt in
  exists w1,
    step w = (Ok tt, w1)
    /\ faults w1 = []
    /\ sessionOnly w1 = sessionOnly w /\ items w1 = items w
    /\ clock w1 = clock w.
Proof.
  intros Hf step. unfold step.
  destruct (validation_loaded env); [| exists w; repeat split; exact Hf].
  unfold bind at 1. rewrite (getItem_healthy _ _ w Hf).
  destruct (assoc CartModule.storageKey (Storage.content Storage.Local w))
    as [[| c text] |]; try (exists w; repeat split; exact Hf).
  unfold try_catch, bind, lift.
  destruct (JSON.parse (String c text)) as [v | e];
    [| exists w; repeat split; exact Hf].
  pose proof (createBackup_total CartModule.storageKey v w) as Ht.
  pose proof (proj1 (createBackup_healthy CartModule.storageKey v w Hf)) as Hf1.
  pose proof (createBackup_keeps
                (fun w1 => sessionOnly w1 = sessionOnly w /\ items w1 = items w
                           /\ clock w1 = clock w)
                (fun _ _ H => H) (fun _ _ H => H) (fun _ _ H => H)
                (fun _ _ H => H) CartModule.storageKey v w
                (conj eq_refl (conj eq_refl eq_refl))) as Hk.
  unfold exec in Hf1.
  destruct (DataRecovery.createBackup CartModule.storageKey v w)
    as [[[] | e] w1]; [| discriminate Ht].
  exists w1. cbn [snd] in Hf1, Hk. tauto.
Qed.

Lemma saveToStorage_healthy env w :
  native env = true ->
  faults w = [] ->
  sessionOnly w = false ->
  exists w',
    CartModule.saveToStorage env w = (Ok tt, w')
    /\ faults w' = [] /\ sessionOnly w' = false /\ items w' = items w
    /\ assoc CartModule.storageKey (localStorage w')
       = Some (DataRecovery.stringify_text
                 (CartModule.serialize (items w) (iso (clock w))))
    /\ assoc CartModule.timestampKey (localStorage w') = Some (iso (clock w)).
Proof.
  intros Hn Hf Hs. unfold CartModule.saveToStorage.
  unfold bind at 1, gets at 1. rewrite Hs. unfold try_catch at 1.
  unfold bind at 1, gets at 1. unfold bind at 1, DataRecovery.now, gets at 1.
  cbv zeta. unfold bind at 1.
  destruct (backup_step_healthy env w Hf) as (w1 & E & Hf1 & Hs1 & Hi1 & Hc1).
  cbv zeta in E. rewrite E. clear E.
  assert (Hh : (if validation_loaded env
                   && negb (GracefulDegradation.isSupported_localStorage env)
                then GracefulDegradation.getFeature_localStorage env
                else GracefulDegradation.Native)
               = GracefulDegradation.Native).
  { unfold native in Hn. unfold GracefulDegradation.isSupported_localStorage,
      GracefulDegradation.getFeature_localStorage.
    destruct (validation_loaded env), (localStorage_supported env);
      try reflexivity. discriminate Hn. }
  rewrite Hh. cbn [GracefulDegradation.setItem].
  unfold bind at 1. rewrite (setItem_healthy _ _ w1 Hf1).
  rewrite (setItem_healthy _ _ (with_localStorage _ w1) Hf1).
  eexists. split; [reflexivity |].
  cbn [faults sessionOnly items localStorage with_localStorage].
  repeat split; try assumption; try congruence.
  - rewrite assoc_assoc_set_other by discriminate. apply assoc_assoc_set.
  - apply assoc_assoc_set.
Qed.

(** X15. A cart of lines that the manager makes, saved on a storage that
    does not fail, is read back as it was: when a page whose
    [localStorage] holds what [saveToStorage] wrote builds its manager,
    the constructor returns, the cart has the same entries in the same
    order, and the manager is not in session-only mode. *)
Theorem cart_survives_a_reload env lines w w0 :
  native env = true ->
  forallb (line_ok env) lines = true ->
  NoDup (map line_id lines) ->
  items w = map entry_of lines ->
  faults w = [] ->
  sessionOnly w = false ->
  localStorage w0 = localStorage (exec (CartModule.saveToStorage env) w) ->
  faults w0 = [] ->
  let w' := exec (CartModule.constructor env) w0 in
  result (CartModule.constructor env) w0 = Ok tt
  /\ items w' = items w
  /\ sessionOnly w' = false.
Proof.
  intros Hn Hok Hnd Hi Hf Hs Hl Hf0 w'.
  destruct (saveToStorage_healthy env w Hn Hf Hs)
    as (w1 & E & _ & _ & _ & Hk & _).
  unfold exec in Hl. rewrite E in Hl. cbn [snd] in Hl.
  rewrite Hi in Hk. rewrite <- Hl in Hk.
  set (wc := with_sessionOnly false (with_listeners [] (with_items [] w0))).
  assert (El : CartModule.load_attempt env wc
               = (Ok tt, with_items (map entry_of lines) wc)).
  { apply (load_attempt_lines env lines (iso (clock w)) wc Hok Hnd Hf0 Hk). }
  assert (Ec : CartModule.constructor env w0
               = (Ok tt, with_items (map entry_of lines) wc)).
  { unfold CartModule.constructor, bind, modify. fold wc.
    unfold CartModule.loadFromStorage.
    cbn [CartModule.loadFromStorage_fuel]. unfold try_catch. rewrite El.
    reflexivity. }
  unfold w', result, exec. rewrite Ec. cbn [fst snd]. rewrite Hi.
  repeat split.
Qed.

Lemma cart_survives_a_reload_witness :
  let lines :=
    [mkLine 3 2 "2024-01-01T00:00:00.000Z";
     mkLine 1 999 "2024-01-02T00:00:00.000Z"] in
  let w :=
    with_items (map entry_of lines)
      (fresh (mkClock 1700000000000 "2023-11-14T22:13:20.000Z")) in
  let w0 :=
    with_localStorage (localStorage (exec (CartModule.saveToStorage browser) w))
      (fresh (mkClock 1700000005000 "2023-11-14T22:13:25.000Z")) in
  result (CartModule.constructor browser) w0 = Ok tt
  /\ items (exec (CartModule.constructor browser) w0) = items w
  /\ sessionOnly (exec (CartModule.constructor browser) w0) = false.
Proof.
  intros lines w w0.
  apply (cart_survives_a_reload browser lines w w0); try reflexivity.
  repeat constructor; cbn; intuition discriminate.
Defined.

(** * Saving never fails in silence *)

Lemma setItem_outcome k v w :
  match Storage.setItem Storage.Local k v w with
  | (Ok _, w2) => localStorage w2 = assoc_set k v (localStorage w)
  | (Throw _, _) => True
  end.
Proof.
  unfold Storage.setItem, bind, Storage.fault, modify.
  destruct (faults w) as [| [e |] r]; cbn; auto.
Qed.

Lemma save_handler_sets env e c w :
  sessionOnly
    (snd ((CartModule._handleStorageError e ;; CartModule.report env e c) w))
  = true.
Proof.
  pose proof (handleStorageError_sets e w) as H. unfold exec in H.
  unfold bind.
  destruct (CartModule._handleStorageError e w) as [[[] | e'] w2];
    cbn [snd] in H; [| exact H].
  apply (report_keeps session_only (fun _ _ H => H) env e c w2 H).
Qed.

(** X16. [saveToStorage] never throws and never touches the entries of the
    cart. When the cart goes to [localStorage] itself, then after the call
    either the manager is in session-only mode, or [localStorage] holds
    the serialized cart under the cart's key and the time of the call
    under the timestamp key. *)
Theorem saveToStorage_saves_or_flags env w :
  native env = true ->
  let w' := exec (CartModule.saveToStorage env) w in
  result (CartModule.saveToStorage env) w = Ok tt
  /\ items w' = items w
  /\ (sessionOnly w' = true
      \/ (assoc CartModule.storageKey (localStorage w')
          = Some (DataRecovery.stringify_text
                    (CartModule.serialize (items w) (iso (clock w))))
          /\ assoc CartModule.timestampKey (localStorage w')
             = Some (iso (clock w)))).
Proof.
  intros Hn w'. split; [| split].
  - pose proof (saveToStorage_total env w) as Ht. unfold result.
    destruct (CartModule.saveToStorage env w) as [[[] | e] w1];
      [reflexivity | discriminate Ht].
  - apply (saveToStorage_same_cart env w).
  - pose (Q := fun p : outcome unit * World =>
                 sessionOnly (snd p) = true
                 \/ (assoc CartModule.storageKey (localStorage (snd p))
                     = Some (DataRecovery.stringify_text
                               (CartModule.serialize (items w) (iso (clock w))))
                     /\ assoc CartModule.timestampKey (localStorage (snd p))
                        = Some (iso (clock w)))).
    change (Q (CartModule.saveToStorage env w)).
    unfold CartModule.saveToStorage.
    unfold bind at 1, gets at 1.
    destruct (sessionOnly w) eqn:Hs; [left; exact Hs |].
    unfold try_catch at 1.
    unfold bind at 1, gets at 1. unfold bind at 1, DataRecovery.now, gets at 1.
    cbv zeta. unfold bind at 1.
    assert (Hh : (if validation_loaded env
                     && negb (GracefulDegradation.isSupported_localStorage env)
                  then GracefulDegradation.getFeature_localStorage env
                  else GracefulDegradation.Native)
                 = GracefulDegradation.Native).
    { unfold native in Hn.
      unfold GracefulDegradation.isSupported_localStorage,
        GracefulDegradation.getFeature_localStorage.
      destruct (validation_loaded env), (localStorage_supported env);
        try reflexivity. discriminate Hn. }
    rewrite Hh. cbn [GracefulDegradation.setItem].
    match goal with
    | |- context [let (o, w'0) := ?step w in _] =>
        destruct (step w) as [[[] | e] w1]
    end; [| left; apply save_handler_sets].
    unfold bind at 1.
    match goal with
    | |- context [Storage.setItem Storage.Local ?k ?v w1] =>
        pose proof (setItem_outcome k v w1) as H1;
        destruct (Storage.setItem Storage.Local k v w1) as [[[] | e] w2]
    end; [| left; apply save_handler_sets].
    match goal with
    | |- context [Storage.setItem Storage.Local ?k ?v w2] =>
        pose proof (setItem_outcome k v w2) as H2;
        destruct (Storage.setItem Storage.Local k v w2) as [[[] | e] w3]
    end; [| left; apply save_handler_sets].
    right. cbn [snd]. rewrite H2, H1. split.
    + rewrite assoc_assoc_set_other by discriminate. apply assoc_assoc_set.
    + apply assoc_assoc_set.
Qed.

Lemma saveToStorage_saves_or_flags_witness :
  let w :=
    with_faults [Some (mkErr "QuotaExceededError" "full")]
      (fresh (mkClock 0 "1970-01-01T00:00:00.000Z")) in
  sessionOnly (exec (CartModule.saveToStorage bare) w) = true.
Proof.
  intros w.
  destruct (proj2 (proj2 (saveToStorage_saves_or_flags bare w eq_refl)))
    as [H | [H _]]; [exact H | discriminate H].
Defined.

(** * Listeners *)

(** A property of the world that the storages, the fault schedule, the
    backup keys, the reports, the flag, the entries and the clock do not
    bear on, and that a notification keeps, is kept by every operation
    that leaves the set of listeners alone. *)
Section NotifyKeeps.

Variable P : World -> Prop.
Hypothesis P_faults : forall w x, P w -> P (with_faults x w).
Hypothesis P_local : forall w x, P w -> P (with_localStorage x w).
Hypothesis P_session : forall w x, P w -> P (with_sessionStorage x w).
Hypothesis P_memory : forall w x, P w -> P (with_memoryStorage x w).
Hypothesis P_backupKeys : forall w x, P w -> P (with_backupKeys x w).
Hypothesis P_reports : forall w x, P w -> P (with_reports x w).
Hypothesis P_sessionOnly : forall w x, P w -> P (with_sessionOnly x w).
Hypothesis P_items : forall w x, P w -> P (with_items x w).
Hypothesis P_clock : forall w x, P w -> P (with_clock x w).
Hypothesis P_notify : forall event data,
  preserves P (CartModule._notifyListeners event data).

Variable env : Env.

Let getItem_P := getItem_keeps P P_faults.
Let setItem_P := setItem_keeps P P_faults P_local P_session.
Let removeItem_P := removeItem_keeps P P_faults P_local P_session.
Let degraded_P :=
  degraded_setItem_keeps P P_faults P_local P_session P_memory.
Let createBackup_P :=
  createBackup_keeps P P_faults P_local P_session P_backupKeys.
Let now_P := now_keeps P.
Let recover_P := recoverData_keeps P P_faults.
Let restore_P := restoreFromBackup_keeps P P_faults P_local P_session.
Let report_P := report_keeps P P_reports env.
Let clearData_P := clearStorageData_keeps P P_faults P_local P_session.
Let clear_P := clearStorage_keeps P P_faults P_local P_session.
Let available_P := isStorageAvailable_keeps P P_faults P_local P_session.
Let info_P := getStorageInfo_keeps P P_faults P_local P_session.

Hint Resolve getItem_P setItem_P removeItem_P degraded_P createBackup_P now_P
  recover_P restore_P report_P clearData_P clear_P available_P info_P
  P_notify P_faults P_sessionOnly P_items P_clock : pres.

Lemma handleStorageError_notifies e :
  preserves P (CartModule._handleStorageError e).
Proof. unfold CartModule._handleStorageError. pres. Qed.

Hint Resolve handleStorageError_notifies : pres.

Lemma saveToStorage_notifies : preserves P (CartModule.saveToStorage env).
Proof. unfold CartModule.saveToStorage. pres. Qed.

Hint Resolve saveToStorage_notifies : pres.

Lemma validated_notifies p q : preserves P (CartModule.validated env p q).
Proof. unfold CartModule.validated. pres. Qed.

Hint Resolve validated_notifies : pres.

Lemma addItem_notifies p q : preserves P (CartModule.addItem env p q).
Proof. unfold CartModule.addItem, CartModule.add_validated. pres. Qed.

Lemma removeItem_notifies p : preserves P (CartModule.removeItem env p).
Proof. unfold CartModule.removeItem. pres. Qed.

Hint Resolve removeItem_notifies : pres.

Lemma updateQuantity_notifies p q :
  preserves P (CartModule.updateQuantity env p q).
Proof. unfold CartModule.updateQuantity. pres. Qed.

Lemma clearCart_notifies : preserves P (CartModule.clearCart env).
Proof. unfold CartModule.clearCart. pres. Qed.

Lemma load_item_notifies strict itemData :
  preserves P (CartModule.load_item env strict itemData).
Proof. unfold CartModule.load_item. pres. Qed.

Hint Resolve load_item_notifies : pres.

Lemma load_items_notifies strict l :
  preserves P (CartModule.load_items env strict l).
Proof. induction l as [| x r IH]; simpl; pres. Qed.

Hint Resolve load_items_notifies : pres.

Lemma load_attempt_notifies : preserves P (CartModule.load_attempt env).
Proof. unfold CartModule.load_attempt, CartModule.load_cart. pres. Qed.

Hint Resolve load_attempt_notifies : pres.

Lemma loadFromStorage_fuel_notifies fuel :
  preserves P (CartModule.loadFromStorage_fuel env fuel).
Proof. induction fuel as [| f IH]; simpl; pres. Qed.

Lemma validateCart_notifies : preserves P (CartModule.validateCart env).
Proof. unfold CartModule.validateCart. pres. Qed.

Lemma perform_notifies o :
  match o with AddListener _ | RemoveListener _ => false | _ => true end = true ->
  preserves P (perform env o).
Proof.
  destruct o; intros Ho; try discriminate Ho; simpl;
    unfold discard, CartModule.getCartItems,
    CartModule.getCartTotal, CartModule.getCartCount, CartModule.getCartItem,
    CartModule.isEmpty, CartModule.getCartSummary,
    CartModule.reloadFromStorage,
    CartModule.loadFromStorage, CartModule.getCartCount;
  pres;
  try solve [ apply addItem_notifies | apply updateQuantity_notifies
            | apply clearCart_notifies | apply validateCart_notifies
            | apply loadFromStorage_fuel_notifies ].
  destruct a; simpl; auto.
Qed.

End NotifyKeeps.

Lemma calls_to_notify l event data w :
  existsb (Nat.eqb l) (listeners w) = false ->
  calls_to l (exec (CartModule._notifyListeners event data) w) = calls_to l w.
Proof.
  intros H. unfold calls_to, CartModule._notifyListeners, exec, modify. simpl.
  rewrite filter_app.
  assert (E : forall ls, existsb (Nat.eqb l) ls = false ->
            List.filter (fun c => (call_listener c =? l)%nat)
              (map (fun l0 => mkCall l0 event data) ls) = []).
  { induction ls as [| a r IH]; simpl; intros Hr; [reflexivity |].
    apply Bool.orb_false_iff in Hr. destruct Hr as [Ha Hr].
    rewrite Nat.eqb_sym, Ha. auto. }
  rewrite (E _ H). apply app_nil_r.
Qed.

Lemma silent_notify l received event data :
  preserves (silent l received) (CartModule._notifyListeners event data).
Proof.
  intros w [H1 H2]. split.
  - exact H1.
  - rewrite <- H2. apply calls_to_notify. exact H1.
Qed.

Lemma silent_perform env l received o :
  leaves_out l o = true ->
  preserves (silent l received) (perform env o).
Proof.
  intros Ho.
  destruct o as [| | | | | | | | | | n | n | | | | | | | | | | | | | |];
    try solve [ apply perform_notifies;
                first [ reflexivity | apply silent_notify
                      | intros w0 x0 [A B]; split; [exact A | exact B] ] ].
  - (* AddListener *)
    simpl in Ho. apply Bool.negb_true_iff in Ho.
    intros w [H1 H2]. simpl. unfold discard, CartModule.addListener, exec, bind, modify, ret.
    simpl. destruct (existsb (Nat.eqb n) (listeners w)); split; simpl;
      try assumption.
    rewrite existsb_app, H1. simpl. rewrite Nat.eqb_sym, Ho. reflexivity.
  - (* RemoveListener *)
    intros w [H1 H2]. simpl. unfold discard, CartModule.removeListener, exec, bind, modify, ret.
    simpl. split; simpl; [| exact H2].
    clear - H1. induction (listeners w) as [| a r IH]; simpl in *; [reflexivity |].
    apply Bool.orb_false_iff in H1. destruct H1 as [Ha Hr].
    destruct (negb (a =? n)%nat); simpl; [rewrite Ha |]; auto.
Qed.

Lemma silent_run env l received ops : forall w,
  forallb (leaves_out l) ops = true ->
  silent l received w -> silent l received (run env ops w).
Proof.
  unfold run. induction ops as [| o r IH]; simpl; intros w Ho Hw; [exact Hw |].
  apply Bool.andb_true_iff in Ho. destruct Ho as [Ho Hr].
  apply IH; [exact Hr |]. apply (silent_perform env l received o Ho). exact Hw.
Qed.

Lemma removeListener_silent l w :
  silent l (calls_to l w) (exec (CartModule.removeListener l) w).
Proof.
  unfold silent, CartModule.removeListener, exec, modify. simpl. split; [| reflexivity].
  induction (listeners w) as [| a r IH]; simpl; [reflexivity |].
  destruct (a =? l)%nat eqn:E; simpl; [exact IH |].
  rewrite Nat.eqb_sym, E. exact IH.
Qed.

(** X17. A listener that has been removed receives nothing more: whatever
    operations follow [removeListener], as long as none of them registers it
    again, it stays out of the set of listeners and the calls it has received
    are the ones from before. *)
Theorem removed_listener_is_not_called env l ops w :
  forallb (leaves_out l) ops = true ->
  silent l (calls_to l w) (run env ops (exec (CartModule.removeListener l) w)).
Proof.
  intros H. apply silent_run; [exact H |]. apply removeListener_silent.
Qed.

Lemma removed_listener_is_not_called_witness :
  let w := exec (CartModule.addListener 1)
             (fresh (mkClock 0 "1970-01-01T00:00:00.000Z")) in
  let ops := [AddListener 2; AddItem (VNum (Fin 1)) (VNum (Fin 2)); ClearCart] in
  forallb (leaves_out 1) ops = true /\
  silent 1 (calls_to 1 w) (run browser ops (exec (CartModule.removeListener 1) w)).
Proof.
  intros w ops. split; [reflexivity |].
  apply (removed_listener_is_not_called browser 1 ops w). reflexivity.
Defined.

Lemma registered_In l ls : existsb (Nat.eqb l) ls = true <-> In l ls.
Proof.
  rewrite existsb_exists. split.
  - intros [x [Hx E]]. apply Nat.eqb_eq in E. subst x. exact Hx.
  - intros H. exists l. split; [exact H | apply Nat.eqb_refl].
Qed.

Lemma listeners_distinct_perform env o :
  preserves (fun w => NoDup (listeners w)) (perform env o).
Proof.
  destruct o as [| | | | | | | | | | n | n | | | | | | | | | | | | | |];
    try solve [ apply perform_notifies;
                first [ reflexivity
                      | intros w0 x0 H; exact H
                      | intros ? ? ? H; exact H ] ].
  - intros w H. simpl.
    unfold discard, CartModule.addListener, exec, bind, modify, ret. simpl.
    destruct (existsb (Nat.eqb n) (listeners w)) eqn:E; [exact H |]. simpl.
    assert (Hn : ~ In n (listeners w)).
    { intros Hin. apply registered_In in Hin. congruence. }
    clear E. induction H as [| a r Ha Hr IH]; simpl.
    + constructor; [intros [] | constructor].
    + constructor.
      * rewrite in_app_iff. intros [Hi | [Hi | []]]; [exact (Ha Hi) |].
        apply Hn. left. symmetry. exact Hi.
      * apply IH. intros Hi. apply Hn. right. exact Hi.
  - intros w H. simpl.
    unfold discard, CartModule.removeListener, exec, bind, modify, ret. simpl.
    apply NoDup_filter. exact H.
Qed.

Lemma calls_to_delivery l event data ls :
  NoDup ls ->
  List.filter (fun c => (call_listener c =? l)%nat)
    (map (fun l0 => mkCall l0 event data) ls) =
  if existsb (Nat.eqb l) ls then [mkCall l event data] else [].
Proof.
  induction 1 as [| a r Ha Hr IH]; simpl; [reflexivity |].
  rewrite (Nat.eqb_sym l a). destruct (a =? l)%nat eqn:E; simpl.
  - apply Nat.eqb_eq in E. subst a. rewrite IH.
    destruct (existsb (Nat.eqb l) r) eqn:X; [| reflexivity].
    apply registered_In in X. contradiction.
  - exact IH.
Qed.

(** X18. Listeners form a set: whatever operations are performed, no
    listener is registered twice, so a notification calls every registered
    listener exactly once with the event and its data, and calls nobody
    else. *)
Theorem listeners_are_called_once env ops l event data w :
  NoDup (listeners w) ->
  let w' := run env ops w in
  NoDup (listeners w') /\
  calls_to l (exec (CartModule._notifyListeners event data) w') =
    (calls_to l w' ++
     if existsb (Nat.eqb l) (listeners w') then [mkCall l event data] else [])%list.
Proof.
  intros H w'.
  assert (N : NoDup (listeners w')).
  { subst w'. unfold run. revert w H.
    induction ops as [| o r IH]; simpl; intros w H; [exact H |].
    apply IH. apply (listeners_distinct_perform env o). exact H. }
  split; [exact N |].
  unfold calls_to, CartModule._notifyListeners, exec, modify. simpl.
  rewrite filter_app. f_equal. apply calls_to_delivery. exact N.
Qed.

Lemma listeners_are_called_once_witness :
  let w := fresh (mkClock 0 "1970-01-01T00:00:00.000Z") in
  let w' := run browser [AddListener 1; AddListener 2; AddListener 1] w in
  NoDup (listeners w) /\
  NoDup (listeners w') /\
  calls_to 1 (exec (CartModule._notifyListeners "itemAdded" VNull) w') =
    (calls_to 1 w' ++
     if existsb (Nat.eqb 1) (listeners w') then [mkCall 1 "itemAdded" VNull] else [])%list.
Proof.
  intros w w'. split; [constructor |].
  apply (listeners_are_called_once browser
           [AddListener 1; AddListener 2; AddListener 1] 1 "itemAdded" VNull w).
  constructor.
Defined.

(** * The catalog *)

Lemma find_split {A : Type} (f : A -> bool) l x :
  List.find f l = Some x ->
  exists l1 l2, l = (l1 ++ x :: l2)%list /\ f x = true
                /\ forall y, In y l1 -> f y = false.
Proof.
  induction l as [| a r IH]; simpl; [discriminate |].
  destruct (f a) eqn:E.
  - intros H. injection H as <-. exists [], r. repeat split; [exact E |].
    intros y [].
  - intros H. destruct (IH H) as [l1 [l2 [-> [Hx Hl]]]].
    exists (a :: l1), l2. repeat split; [exact Hx |].
    intros y [<- | Hy]; [exact E | apply Hl, Hy].
Qed.

Lemma loaded_product env p :
  In p (ProductsModule.products env) <->
  In p (product_data env) /\ Product.validate p = Ok tt.
Proof.
  unfold ProductsModule.products. rewrite filter_In.
  split; intros [H1 H2]; (split; [exact H1 |]).
  - destruct (Product.validate p) as [[] | e]; [reflexivity | discriminate H2].
  - rewrite H2. reflexivity.
Qed.

Lemma loaded_product_id env p :
  In p (ProductsModule.products env) -> Num.truthy (Product.id p) = true.
Proof.
  intros H. apply loaded_product in H. destruct H as [_ H].
  unfold Product.validate in H.
  destruct (Num.truthy (Product.id p)); [reflexivity | discriminate H].
Qed.

(** X19. [getProductById] throws exactly when its argument is not a
    number. For a number it returns the first product of the loaded
    catalog with that id, a product of the data that passes
    [Product.validate], or [null] when the loaded catalog has none; for 0
    and for NaN it always returns [null]. *)
Theorem getProductById_finds env v :
  match ProductsModule.getProductById env v with
  | Ok (Some p) =>
      exists n l1 l2,
        v = VNum n
        /\ ProductsModule.products env = (l1 ++ p :: l2)%list
        /\ Num.eqb (Product.id p) n = true
        /\ (forall x, In x l1 -> Num.eqb (Product.id x) n = false)
        /\ In p (product_data env)
        /\ Product.validate p = Ok tt
  | Ok None =>
      exists n,
        v = VNum n
        /\ forall x, In x (ProductsModule.products env) ->
             Num.eqb (Product.id x) n = false
  | Throw e =>
      (forall n, v <> VNum n)
      /\ err_message e = "Product ID must be a number"
  end
  /\ ProductsModule.getProductById env (VNum NaN) = Ok None
  /\ ProductsModule.getProductById env (VNum (num_of_Z 0)) = Ok None.
Proof.
  assert (Hnone : forall n,
            (forall x, In x (ProductsModule.products env) ->
               Num.eqb (Product.id x) n = false) ->
            ProductsModule.getProductById env (VNum n) = Ok None).
  { intros n Hn. unfold ProductsModule.getProductById. f_equal.
    destruct (List.find _ _) as [p |] eqn:F; [| reflexivity].
    apply find_some in F. destruct F as [Hp E].
    rewrite (Hn p Hp) in E. discriminate E. }
  split; [| split].
  - destruct v; try (split; [intros n0; discriminate | reflexivity]).
    unfold ProductsModule.getProductById.
    destruct (List.find _ _) as [p |] eqn:F.
    + destruct (find_split _ _ _ F) as [l1 [l2 [E [Hp Hl]]]].
      exists n, l1, l2. repeat split; try assumption;
        apply (loaded_product env p); apply find_some in F; apply F.
    + exists n. split; [reflexivity |]. intros x Hx.
      apply (find_none _ _ F x Hx).
  - apply Hnone. intros x _. unfold Num.eqb. destruct (Product.id x); reflexivity.
  - apply Hnone. intros x Hx. apply loaded_product_id in Hx.
    unfold Num.truthy in Hx. unfold Num.eqb, num_of_Z.
    destruct (Product.id x) as [| q]; [reflexivity |].
    destruct (Qeq_bool q (inject_Z 0)) eqn:E; [| reflexivity].
    change (inject_Z 0) with 0%Q in E. rewrite E in Hx. discriminate Hx.
Qed.

(** ** Categories *)

Lemma unique_In l x : In x (ProductsQueries.unique l) <-> In x l.
Proof.
  induction l as [| a r IH]; simpl; [tauto |].
  rewrite filter_In, IH. split.
  - intros [H | [H _]]; auto.
  - intros [H | H]; [left; exact H |].
    destruct (String.eqb_spec x a) as [-> | N]; [left; reflexivity |].
    right. split; [exact H | reflexivity].
Qed.

Lemma unique_NoDup l : NoDup (ProductsQueries.unique l).
Proof.
  induction l as [| a r IH]; simpl; constructor.
  - rewrite filter_In. intros [_ H]. rewrite String.eqb_refl in H.
    discriminate H.
  - apply NoDup_filter, IH.
Qed.

Lemma ltb_trans a b c : ascending a b -> ascending b c -> ascending a c.
Proof.
  unfold ascending, String.ltb. intros H1 H2.
  destruct (String.compare a b) eqn:E1; try discriminate H1.
  destruct (String.compare b c) eqn:E2; try discriminate H2.
  assert (L : OrderedTypeEx.String_as_OT.lt a c).
  { apply OrderedTypeEx.String_as_OT.lt_trans with b; apply OrderedTypeEx.String_as_OT.cmp_lt; assumption. }
  apply OrderedTypeEx.String_as_OT.cmp_lt in L.
  change (String.compare a c = Lt) in L. rewrite L. reflexivity.
Qed.

Lemma default_compare_gt x y :
  Num.gt (ProductsQueries.default_compare x y) (num_of_Z 0) = String.ltb y x.
Proof.
  unfold ProductsQueries.default_compare, String.ltb.
  rewrite (String.compare_antisym y x).
  destruct (String.compare x y); reflexivity.
Qed.

Lemma not_gt_ascending x y :
  x <> y -> String.ltb y x = false -> ascending x y.
Proof.
  unfold ascending, String.ltb. intros N H.
  rewrite (String.compare_antisym y x) in H.
  destruct (String.compare x y) eqn:E; try reflexivity; try discriminate H.
  apply String.compare_eq_iff in E. contradiction.
Qed.

Lemma sort_insert_ascending x l :
  StronglySorted ascending l -> ~ In x l ->
  StronglySorted ascending (sort_insert ProductsQueries.default_compare x l).
Proof.
  induction 1 as [| y r Hr IH Hy]; intros Hx; cbn [sort_insert].
  - constructor; [constructor | constructor].
  - rewrite default_compare_gt. destruct (String.ltb y x) eqn:E.
    + constructor.
      * apply IH. intros H. apply Hx. right. exact H.
      * apply Forall_forall. intros z Hz.
        apply (Permutation_in _ (sort_insert_perm _ x r)) in Hz.
        destruct Hz as [<- | Hz]; [exact E |].
        rewrite Forall_forall in Hy. apply Hy, Hz.
    + assert (A : ascending x y).
      { apply not_gt_ascending; [| exact E]. intros ->. apply Hx. left.
        reflexivity. }
      constructor; [constructor; assumption |].
      constructor; [exact A |].
      rewrite Forall_forall in Hy. apply Forall_forall. intros z Hz.
      apply ltb_trans with y; [exact A | apply Hy, Hz].
Qed.

Lemma sort_ascending l :
  NoDup l -> StronglySorted ascending (sort ProductsQueries.default_compare l).
Proof.
  unfold sort. induction 1 as [| x r Hx Hr IH]; simpl; [constructor |].
  apply sort_insert_ascending; [exact IH |].
  intros H. apply Hx.
  apply (Permutation_in _ (sort_perm ProductsQueries.default_compare r)).
  exact H.
Qed.

(** X20. [getCategories] lists the categories of the loaded products, each
    once, in ascending order of code units. Every listed category has at
    least one product under [getProductsByCategory], every loaded product
    is among the products of its own category, and
    [getProductsByCategory] throws exactly when its argument is not a
    string. *)
Theorem getCategories_lists_each_category_once env :
  let cs := ProductsQueries.getCategories env in
  StronglySorted ascending cs
  /\ NoDup cs
  /\ (forall c, In c cs <->
        exists p, In p (ProductsModule.products env) /\ Product.category p = c)
  /\ (forall p, In p (ProductsModule.products env) ->
        exists l,
          ProductsQueries.getProductsByCategory env (VStr (Product.category p))
          = Ok l /\ In p l)
  /\ (forall v,
        returns (ProductsQueries.getProductsByCategory env v) = true <->
        exists c, v = VStr c).
Proof.
  intros cs.
  assert (S : StronglySorted ascending cs).
  { apply sort_ascending, unique_NoDup. }
  assert (I : forall c, In c cs <->
            exists p, In p (ProductsModule.products env)
                      /\ Product.category p = c).
  { intros c. unfold cs, ProductsQueries.getCategories. split.
    - intros H. apply (Permutation_in _ (sort_perm _ _)) in H.
      apply unique_In, in_map_iff in H. destruct H as [p [E Hp]].
      exists p. split; assumption.
    - intros [p [Hp E]].
      apply (Permutation_in _ (Permutation_sym (sort_perm _ _))).
      apply unique_In, in_map_iff. exists p. split; assumption. }
  split; [exact S |]. split; [| split; [exact I |]; split].
  - unfold cs, ProductsQueries.getCategories.
    apply (Permutation_NoDup (Permutation_sym (sort_perm _ _))).
    apply unique_NoDup.
  - intros p Hp. eexists. split; [reflexivity |].
    apply filter_In. split; [exact Hp | apply String.eqb_refl].
  - intros v. split.
    + destruct v; try discriminate. intros _. eexists. reflexivity.
    + intros [c ->]. reflexivity.
Qed.

(** ** Search *)

Lemma lower_char_space c :
  Str.is_space (ProductsQueries.lower_char c) = Str.is_space c.
Proof. destruct c as [[] [] [] [] [] [] [] []]; reflexivity. Qed.

Lemma lower_char_idem c :
  ProductsQueries.lower_char (ProductsQueries.lower_char c)
  = ProductsQueries.lower_char c.
Proof. destruct c as [[] [] [] [] [] [] [] []]; reflexivity. Qed.

Lemma toLowerCase_idem s :
  ProductsQueries.toLowerCase (ProductsQueries.toLowerCase s)
  = ProductsQueries.toLowerCase s.
Proof.
  induction s as [| c r IH]; simpl; [reflexivity |].
  rewrite lower_char_idem, IH. reflexivity.
Qed.

Lemma toLowerCase_app a b :
  ProductsQueries.toLowerCase (a ++ b)
  = ProductsQueries.toLowerCase a ++ ProductsQueries.toLowerCase b.
Proof. induction a as [| c r IH]; simpl; [| rewrite IH]; reflexivity. Qed.

Lemma toLowerCase_rev_onto s : forall acc,
  ProductsQueries.toLowerCase (Str.rev_onto s acc)
  = Str.rev_onto (ProductsQueries.toLowerCase s)
      (ProductsQueries.toLowerCase acc).
Proof.
  induction s as [| c r IH]; intros acc; simpl; [reflexivity |].
  rewrite IH. reflexivity.
Qed.

Lemma toLowerCase_drop_while s :
  ProductsQueries.toLowerCase (Str.drop_while Str.is_space s)
  = Str.drop_while Str.is_space (ProductsQueries.toLowerCase s).
Proof.
  induction s as [| c r IH]; simpl; [reflexivity |].
  rewrite lower_char_space. destruct (Str.is_space c); [exact IH | reflexivity].
Qed.

Lemma toLowerCase_trim s :
  ProductsQueries.toLowerCase (Str.trim s)
  = Str.trim (ProductsQueries.toLowerCase s).
Proof.
  unfold Str.trim, Str.rev.
  rewrite toLowerCase_rev_onto, toLowerCase_drop_while, toLowerCase_rev_onto,
    toLowerCase_drop_while.
  reflexivity.
Qed.

Lemma toLowerCase_length s :
  String.length (ProductsQueries.toLowerCase s) = String.length s.
Proof. induction s as [| c r IH]; simpl; [| rewrite IH]; reflexivity. Qed.

Lemma rev_onto_app s : forall acc, Str.rev_onto s acc = Str.rev s ++ acc.
Proof.
  unfold Str.rev. induction s as [| c r IH]; intros acc; simpl; [reflexivity |].
  rewrite (IH (String c acc)), (IH (String c EmptyString)), app_assoc_string.
  reflexivity.
Qed.

Lemma rev_app a b : Str.rev (a ++ b) = Str.rev b ++ Str.rev a.
Proof.
  induction a as [| c r IH]; simpl.
  - rewrite append_empty. reflexivity.
  - unfold Str.rev in *. simpl.
    rewrite (rev_onto_app (r ++ b)), (rev_onto_app r).
    unfold Str.rev. rewrite IH, app_assoc_string. reflexivity.
Qed.

Lemma take_drop_while p s : s = Str.take_while p s ++ Str.drop_while p s.
Proof.
  induction s as [| c r IH]; simpl; [reflexivity |].
  destruct (p c); simpl; [rewrite <- IH |]; reflexivity.
Qed.

Lemma drop_while_idem p s :
  Str.drop_while p (Str.drop_while p s) = Str.drop_while p s.
Proof.
  induction s as [| c r IH]; simpl; [reflexivity |].
  destruct (p c) eqn:E; [exact IH |]. simpl. rewrite E. reflexivity.
Qed.

Lemma drop_while_head p a b :
  Str.drop_while p a = a -> a <> EmptyString ->
  Str.drop_while p (a ++ b) = a ++ b.
Proof.
  destruct a as [| c r]; [intros _ N; contradiction N; reflexivity |].
  simpl. destruct (p c) eqn:E; [| reflexivity].
  intros H _. exfalso.
  assert (L : (String.length (Str.drop_while p r) <= String.length r)%nat).
  { clear. induction r as [| d r IH]; simpl; [lia |].
    destruct (p d); simpl; lia. }
  rewrite H in L. simpl in L. lia.
Qed.

(** a text without white space at its end keeps none when the white space
    at its start goes *)
Lemma clean_end_drop s :
  Str.drop_while Str.is_space (Str.rev s) = Str.rev s ->
  Str.drop_while Str.is_space (Str.rev (Str.drop_while Str.is_space s))
  = Str.rev (Str.drop_while Str.is_space s).
Proof.
  intros H.
  destruct (Str.drop_while Str.is_space s) as [| c r] eqn:D; [reflexivity |].
  rewrite (take_drop_while Str.is_space s), D, rev_app in H.
  set (x := Str.rev (String c r)) in *.
  set (y := Str.rev (Str.take_while Str.is_space s)) in *.
  assert (Nx : x <> EmptyString).
  { intros E. apply (f_equal Str.rev) in E. unfold x in E.
    rewrite rev_rev in E. discriminate E. }
  destruct x as [| d x']; [contradiction Nx; reflexivity |].
  simpl in H |- *. destruct (Str.is_space d); [| reflexivity].
  exfalso.
  assert (L : forall u, (String.length (Str.drop_while Str.is_space u)
                         <= String.length u)%nat).
  { clear. induction u as [| e u IH]; simpl; [lia |].
    destruct (Str.is_space e); simpl; lia. }
  specialize (L (x' ++ y)). rewrite H in L. simpl in L. lia.
Qed.

Lemma trim_idem s : Str.trim (Str.trim s) = Str.trim s.
Proof.
  unfold Str.trim.
  set (u := Str.drop_while Str.is_space s).
  set (v := Str.drop_while Str.is_space (Str.rev u)).
  assert (Hv : Str.drop_while Str.is_space (Str.rev v) = Str.rev v).
  { unfold v. apply clean_end_drop. rewrite rev_rev. unfold u.
    apply drop_while_idem. }
  rewrite Hv, rev_rev. unfold v. rewrite drop_while_idem. reflexivity.
Qed.

Lemma trim_inside s : exists a b, s = a ++ Str.trim s ++ b.
Proof.
  unfold Str.trim.
  set (u := Str.drop_while Str.is_space s).
  exists (Str.take_while Str.is_space s),
         (Str.rev (Str.take_while Str.is_space (Str.rev u))).
  rewrite <- rev_app, <- take_drop_while, rev_rev.
  apply take_drop_while.
Qed.

Lemma substring_inside a m b :
  substring (String.length a) (String.length m) (a ++ m ++ b) = m.
Proof.
  induction a as [| c r IH]; simpl; [| exact IH].
  induction m as [| d m IHm]; simpl.
  - destruct b; reflexivity.
  - rewrite IHm. reflexivity.
Qed.

Lemma includes_inside a m b : Str.includes m (a ++ m ++ b) = true.
Proof.
  unfold Str.includes.
  destruct (index 0 m (a ++ m ++ b)) eqn:E; [reflexivity |]. exfalso.
  destruct m as [| d m].
  - apply index_correct4 in E. lia.
  - apply (index_correct3 0 (String.length a) _ _ E);
      [discriminate | lia | apply substring_inside].
Qed.

Lemma length_zero s : (String.length s =? 0)%nat = true <-> s = EmptyString.
Proof. destruct s; simpl; split; intros H; try reflexivity; discriminate H. Qed.

Lemma blank_lower q :
  (String.length (Str.trim (ProductsQueries.toLowerCase q)) =? 0)%nat
  = (String.length (Str.trim q) =? 0)%nat.
Proof. rewrite <- toLowerCase_trim, toLowerCase_length. reflexivity. Qed.

(** X21. [searchProducts] returns the whole loaded catalog for a query that
    is not a string or holds white space only, and otherwise products of
    the catalog in its order. The letter case of the query and the white
    space around it make no difference, and every loaded product is found
    by its own name. *)
Theorem searchProducts_finds env :
  (forall v, (forall q, v = VStr q -> Str.trim q = EmptyString) ->
     ProductsQueries.searchProducts env v = ProductsModule.products env)
  /\ (forall v, exists keep,
        ProductsQueries.searchProducts env v
        = List.filter keep (ProductsModule.products env))
  /\ (forall q,
        ProductsQueries.searchProducts env (VStr (ProductsQueries.toLowerCase q))
        = ProductsQueries.searchProducts env (VStr q)
        /\ ProductsQueries.searchProducts env (VStr (Str.trim q))
           = ProductsQueries.searchProducts env (VStr q))
  /\ (forall p, In p (ProductsModule.products env) ->
        In p (ProductsQueries.searchProducts env (VStr (Product.name p)))).
Proof.
  split; [| split; [| split]].
  - intros v Hv. destruct v; try reflexivity.
    unfold ProductsQueries.searchProducts. rewrite (Hv s eq_refl). reflexivity.
  - intros v.
    assert (A : exists keep : Product.t -> bool,
              ProductsModule.products env
              = List.filter keep (ProductsModule.products env)).
    { exists (fun _ => true).
      induction (ProductsModule.products env) as [| x r IH]; simpl;
        [| rewrite <- IH]; reflexivity. }
    destruct v; try exact A. unfold ProductsQueries.searchProducts.
    destruct (String.length (Str.trim s) =? 0)%nat; [exact A |].
    eexists. reflexivity.
  - intros q. unfold ProductsQueries.searchProducts. split.
    + rewrite blank_lower, toLowerCase_idem. reflexivity.
    + rewrite trim_idem, <- (toLowerCase_trim (Str.trim q)), trim_idem,
        toLowerCase_trim. reflexivity.
  - intros p Hp. unfold ProductsQueries.searchProducts.
    assert (N : Str.trim (Product.name p) <> EmptyString).
    { apply loaded_product in Hp. destruct Hp as [_ V].
      unfold Product.validate in V.
      destruct (Num.truthy (Product.id p)); [| discriminate V]. simpl in V.
      destruct (String.eqb_spec (Str.trim (Product.name p)) EmptyString)
        as [E | E]; [| exact E].
      rewrite Bool.orb_true_r in V. discriminate V. }
    destruct (String.length (Str.trim (Product.name p)) =? 0)%nat eqn:B.
    + apply length_zero in B. contradiction.
    + apply filter_In. split; [exact Hp |].
      apply Bool.orb_true_iff. left.
      destruct (trim_inside (ProductsQueries.toLowerCase (Product.name p)))
        as [a [b E]].
      rewrite E at 2. apply includes_inside.
Qed.

Lemma getCategories_lists_each_category_once_witness :
  let p :=
    Product.mk 5 "Laptop Stand"
      "Ergonomic aluminum laptop stand with adjustable height and cooling design."
      (dec 4999 2)
      "https://images.unsplash.com/photo-1527864550417-7fd91fc51a46?w=300&h=300&fit=crop"
      "accessories" in
  ProductsQueries.getCategories browser = ["accessories"; "electronics"]
  /\ In p (ProductsModule.products browser)
  /\ exists l,
       ProductsQueries.getProductsByCategory browser
         (VStr (Product.category p)) = Ok l /\ In p l.
Proof.
  intros p.
  assert (H : In p (ProductsModule.products browser)).
  { vm_compute. do 4 right. left. reflexivity. }
  split; [reflexivity |]. split; [exact H |].
  exact (proj1 (proj2 (proj2 (proj2
           (getCategories_lists_each_category_once browser)))) p H).
Defined.

Lemma searchProducts_finds_witness :
  let p :=
    Product.mk 5 "Laptop Stand"
      "Ergonomic aluminum laptop stand with adjustable height and cooling design."
      (dec 4999 2)
      "https://images.unsplash.com/photo-1527864550417-7fd91fc51a46?w=300&h=300&fit=crop"
      "accessories" in
  In p (ProductsModule.products browser)
  /\ In p (ProductsQueries.searchProducts browser (VStr (Product.name p))).
Proof.
  intros p.
  assert (H : In p (ProductsModule.products browser)).
  { vm_compute. do 4 right. left. reflexivity. }
  split; [exact H |].
  exact (proj2 (proj2 (proj2 (searchProducts_finds browser))) p H).
Defined.

(** * The quantity controls of the page *)

(** the difference of two integers is exact as long as it has at most 53
    bits *)
Lemma Num_sub_Z (a b : Z) :
  Z.abs (a - b) <= 9007199254740992 -> Num.sub a b = num_of_Z (a - b).
Proof.
  intros H. unfold Num.sub, num_of_Z. f_equal.
  rewrite <- (b64_Z (a - b) H). apply b64_comp.
  unfold Z.sub. rewrite inject_Z_plus, inject_Z_opp. reflexivity.
Qed.

(** rounded or not, a difference below zero stays below the maximum with
    zero *)
Lemma Math_max_0_sub (a b : Z) :
  a - b <= 0 -> UIModule.Math_max 0 (Num.sub a b) = num_of_Z 0.
Proof.
  intros H. destruct (Z_le_gt_dec (Z.abs (a - b)) 9007199254740992) as [L | G].
  - rewrite Num_sub_Z by exact L.
    change (UIModule.Math_max 0 (num_of_Z (a - b)))
      with (UIModule.Math_max (num_of_Z 0) (num_of_Z (a - b))).
    unfold UIModule.Math_max, num_of_Z. rewrite Qle_bool_inject_Z.
    destruct (0 <=? a - b) eqn:E; [| reflexivity].
    apply Z.leb_le in E. replace (a - b) with 0 by lia. reflexivity.
  - unfold UIModule.Math_max, Num.sub, num_of_Z.
    assert (N : (Num.b64 (inject_Z a - inject_Z b) < 0)%Q).
    { apply b64_neg. unfold Qminus. rewrite <- inject_Z_opp, <- inject_Z_plus.
      change 0%Q with (inject_Z 0). rewrite <- Zlt_Qlt. lia. }
    destruct (Qle_bool (inject_Z 0) (Num.b64 (inject_Z a - inject_Z b))) eqn:E;
      [| reflexivity].
    apply Qle_bool_iff in E. change (inject_Z 0) with 0%Q in E. lra.
Qed.

Lemma Math_max_Z (a b : Z) : UIModule.Math_max a b = num_of_Z (Z.max a b).
Proof.
  unfold UIModule.Math_max, num_of_Z. rewrite Qle_bool_inject_Z.
  destruct (a <=? b) eqn:E.
  - apply Z.leb_le in E. rewrite Z.max_r by exact E. reflexivity.
  - apply Z.leb_gt in E. rewrite Z.max_l by lia. reflexivity.
Qed.

Lemma valid_id_positive env id : valid_id env id = true -> 1 <= id.
Proof.
  unfold valid_id. intros H. apply andb_true_iff in H. destruct H as [H _].
  apply Z.leb_le. exact H.
Qed.

Lemma updateQuantity_run env (id q : Z) item w :
  valid_id env id = true ->
  CartModule.map_get (VNum (num_of_Z id)) (items w) = Some item ->
  1 <= q <= 999 ->
  CartModule.updateQuantity env (VNum (num_of_Z id)) (VNum (num_of_Z q)) w
  = (Ok tt,
     exec (CartModule.saveToStorage env)
       (notified "quantityUpdated"
          (VObj [("productId", VNum (num_of_Z id));
                 ("quantity", VNum (num_of_Z q))])
          (with_items
             (CartModule.map_set (VNum (num_of_Z id))
                (CartItem.mk (CartItem.productId item) (num_of_Z q)
                   (CartItem.addedAt item))
                (items w)) w))).
Proof.
  intros Hid G Hq.
  unfold CartModule.updateQuantity. unfold bind at 1.
  rewrite (validated_Z env id q w (fun _ => Hid)) by lia.
  assert (H0 : (0 <? id) = true).
  { apply Z.ltb_lt. apply valid_id_positive in Hid. lia. }
  rewrite H0, orb_true_r. cbv beta iota. cbn [fst snd]. cbv zeta.
  unfold bind at 1, gets. rewrite G.
  unfold strict_eq_num. rewrite Num_eqb_Z.
  destruct (q =? 0) eqn:Eq0; [lia |].
  unfold try_catch, bind at 1, lift.
  rewrite CartItem_updateQuantity_Z by lia.
  unfold bind at 1, modify at 1. cbv beta iota.
  unfold bind at 1, CartModule._notifyListeners at 1, modify.
  cbv beta iota.
  match goal with
  | |- context [CartModule.saveToStorage env ?w1] =>
      pose proof (saveToStorage_total env w1) as Ht;
      unfold exec, notified;
      destruct (CartModule.saveToStorage env w1) as [[[] | e] w2];
      [reflexivity | discriminate Ht]
  end.
Qed.

Lemma removeItem_run env (id : Z) item w :
  1 <= id ->
  CartModule.map_get (VNum (num_of_Z id)) (items w) = Some item ->
  CartModule.removeItem env (VNum (num_of_Z id)) w
  = (Ok tt, exec (CartModule.saveToStorage env) (removed (VNum (num_of_Z id)) w)).
Proof.
  intros Hid G. rewrite removeItem_unfold.
  unfold accepted_id. rewrite Num_le_Z.
  destruct (id <=? 0) eqn:E; [apply Z.leb_le in E; lia |]. cbn [negb].
  rewrite map_get_has, G.
  pose proof (saveToStorage_total env (removed (VNum (num_of_Z id)) w)) as Ht.
  unfold exec.
  destruct (CartModule.saveToStorage env (removed (VNum (num_of_Z id)) w))
    as [[[] | e] w2]; [reflexivity | discriminate Ht].
Qed.

Lemma saved_items env w : items (exec (CartModule.saveToStorage env) w) = items w.
Proof. destruct (saveToStorage_same_cart env w) as [H _]. exact H. Qed.

Lemma getCartItem_run (id : Z) w :
  CartModule.getCartItem (VNum (num_of_Z id)) w
  = (Ok (CartModule.map_get (VNum (num_of_Z id)) (items w)), w).
Proof. reflexivity. Qed.

Lemma caught_returns {A : Type} (m : M A) (h : Error -> A) w :
  returns (result (try_catch m (fun e => ret (h e))) w) = true.
Proof.
  unfold result, try_catch. destruct (m w) as [[a | e] w']; reflexivity.
Qed.

Lemma decrementQuantity_removes env (id q : Z) item w :
  valid_id env id = true ->
  CartModule.map_get (VNum (num_of_Z id)) (items w) = Some item ->
  CartItem.quantity item = num_of_Z q ->
  q <= 1 ->
  UIModule.decrementQuantity env (VNum (num_of_Z id)) w
  = (Ok [], exec (CartModule.saveToStorage env)
              (removed (VNum (num_of_Z id)) w)).
Proof.
  intros Hid G Hq Hle.
  unfold UIModule.decrementQuantity, try_catch at 1, bind at 1.
  rewrite getCartItem_run, G. cbv beta iota zeta.
  rewrite Hq.
  change (UIModule.Math_max 0 (Num.sub q (num_of_Z 1)))
    with (UIModule.Math_max 0 (Num.sub q 1)).
  rewrite Math_max_0_sub by lia.
  unfold bind at 1, UIModule.updateCartQuantity, try_catch.
  unfold strict_eq_num. rewrite Num_eqb_Z. cbn [Z.eqb].
  rewrite (removeItem_run env id item w (valid_id_positive env id Hid) G).
  reflexivity.
Qed.

Lemma decrementQuantity_updates env (id q : Z) item w :
  valid_id env id = true ->
  CartModule.map_get (VNum (num_of_Z id)) (items w) = Some item ->
  CartItem.quantity item = num_of_Z q ->
  2 <= q <= 1000 ->
  UIModule.decrementQuantity env (VNum (num_of_Z id)) w
  = (Ok [],
     exec (CartModule.saveToStorage env)
       (notified "quantityUpdated"
          (VObj [("productId", VNum (num_of_Z id));
                 ("quantity", VNum (num_of_Z (q - 1)))])
          (with_items
             (CartModule.map_set (VNum (num_of_Z id))
                (CartItem.mk (CartItem.productId item)
                   (num_of_Z (q - 1)) (CartItem.addedAt item))
                (items w)) w))).
Proof.
  intros Hid G Hq Hr.
  unfold UIModule.decrementQuantity, try_catch at 1, bind at 1.
  rewrite getCartItem_run, G. cbv beta iota zeta.
  rewrite Hq, Num_sub_Z, Math_max_Z by lia.
  replace (Z.max 0 (q - 1)) with (q - 1) by lia.
  unfold bind at 1, UIModule.updateCartQuantity, try_catch.
  unfold strict_eq_num. rewrite Num_eqb_Z.
  destruct (q - 1 =? 0) eqn:Z0; [apply Z.eqb_eq in Z0; lia |].
  rewrite (updateQuantity_run env id (q - 1) item w Hid G) by lia.
  reflexivity.
Qed.

Lemma incrementQuantity_updates env (id q : Z) item w :
  valid_id env id = true ->
  CartModule.map_get (VNum (num_of_Z id)) (items w) = Some item ->
  CartItem.quantity item = num_of_Z q ->
  0 <= q <= 998 ->
  UIModule.incrementQuantity env (VNum (num_of_Z id)) w
  = (Ok [],
     exec (CartModule.saveToStorage env)
       (notified "quantityUpdated"
          (VObj [("productId", VNum (num_of_Z id));
                 ("quantity", VNum (num_of_Z (q + 1)))])
          (with_items
             (CartModule.map_set (VNum (num_of_Z id))
                (CartItem.mk (CartItem.productId item)
                   (num_of_Z (q + 1)) (CartItem.addedAt item))
                (items w)) w))).
Proof.
  intros Hid G Hq Hr.
  unfold UIModule.incrementQuantity, try_catch at 1, bind at 1.
  rewrite getCartItem_run, G. cbv beta iota zeta.
  rewrite Hq, Num_add_Z, validateQuantity_Z by lia.
  replace ((0 <=? q + 1) && (q + 1 <=? 999)) with true
    by (symmetry; apply andb_true_iff; split; apply Z.leb_le; lia).
  cbn [InputValidator.isValid negb]. rewrite andb_false_r.
  unfold bind at 1, UIModule.updateCartQuantity, try_catch.
  unfold strict_eq_num. rewrite Num_eqb_Z.
  destruct (q + 1 =? 0) eqn:Z0; [apply Z.eqb_eq in Z0; lia |].
  rewrite (updateQuantity_run env id (q + 1) item w Hid G) by lia.
  reflexivity.
Qed.

Lemma map_set_twice n v v' its :
  CartModule.map_set (VNum n) v (CartModule.map_set (VNum n) v' its)
  = CartModule.map_set (VNum n) v its.
Proof.
  induction its as [| kv r IH]; cbn [CartModule.map_set].
  - rewrite key_is_refl. reflexivity.
  - destruct (CartModule.key_is (VNum n) kv) eqn:E; cbn [CartModule.map_set].
    + assert (CartModule.key_is (VNum n) (fst kv, v') = true) as ->
        by (destruct kv; exact E).
      reflexivity.
    + rewrite E, IH. reflexivity.
Qed.

Lemma map_set_same n v its :
  CartModule.map_get (VNum n) its = Some v ->
  CartModule.map_set (VNum n) v its = its.
Proof.
  unfold CartModule.map_get.
  induction its as [| kv r IH]; cbn [List.find CartModule.map_set];
    [discriminate |].
  destruct (CartModule.key_is (VNum n) kv) eqn:E.
  - cbn [option_map]. intros H. injection H as <-. destruct kv; reflexivity.
  - intros H. rewrite (IH H). reflexivity.
Qed.

(** X22. [decrementQuantity] never throws. On an entry of a product of the
    catalog it lowers the quantity by one and asks for no notification; an
    entry whose quantity is 1 or less is removed from the cart. For a
    product without entry it does nothing. *)
Theorem decrementQuantity_lowers env (id q : Z) item w :
  valid_id env id = true ->
  CartModule.map_get (VNum (num_of_Z id)) (items w) = Some item ->
  CartItem.quantity item = num_of_Z q ->
  let w' := exec (UIModule.decrementQuantity env (VNum (num_of_Z id))) w in
  (forall p w0,
     returns (result (UIModule.decrementQuantity env p) w0) = true
     /\ (result (CartModule.getCartItem p) w0 = Ok None ->
         UIModule.decrementQuantity env p w0 = (Ok [], w0)))
  /\ (q <= 1 ->
      result (UIModule.decrementQuantity env (VNum (num_of_Z id))) w = Ok []
      /\ items w' = CartModule.map_delete (VNum (num_of_Z id)) (items w))
  /\ (2 <= q <= 1000 ->
      result (UIModule.decrementQuantity env (VNum (num_of_Z id))) w = Ok []
      /\ items w'
         = CartModule.map_set (VNum (num_of_Z id))
             (CartItem.mk (CartItem.productId item) (num_of_Z (q - 1))
                (CartItem.addedAt item))
             (items w)).
Proof.
  intros Hid G Hq w'. split; [| split].
  - intros p w0. split; [apply caught_returns |].
    intros H. unfold UIModule.decrementQuantity, try_catch, bind.
    unfold result in H.
    destruct (CartModule.getCartItem p w0) as [r w1] eqn:E.
    assert (w1 = w0) as ->.
    { destruct p; unfold CartModule.getCartItem, ret, gets in E;
        injection E as _ <-; reflexivity. }
    cbn [fst] in H. rewrite H. reflexivity.
  - intros Hle. unfold w', exec, result.
    rewrite (decrementQuantity_removes env id q item w Hid G Hq Hle).
    cbn [fst snd]. split; [reflexivity |]. rewrite saved_items. reflexivity.
  - intros Hr. unfold w', exec, result.
    rewrite (decrementQuantity_updates env id q item w Hid G Hq Hr).
    cbn [fst snd]. split; [reflexivity |]. rewrite saved_items. reflexivity.
Qed.

Lemma decrementQuantity_lowers_witness :
  let w := exec (CartModule.addItem browser (VNum 1) (VNum 2))
             (fresh (mkClock 0 "1970-01-01T00:00:00.000Z")) in
  let w' := exec (UIModule.decrementQuantity browser (VNum (num_of_Z 1))) w in
  result (UIModule.decrementQuantity browser (VNum (num_of_Z 1))) w = Ok []
  /\ items w'
     = CartModule.map_set (VNum (num_of_Z 1))
         (CartItem.mk 1 (num_of_Z (2 - 1)) (VStr "1970-01-01T00:00:00.000Z"))
         (items w).
Proof.
  intros w.
  apply (proj2 (proj2 (decrementQuantity_lowers browser 1 2
                         (CartItem.mk 1 2 (VStr "1970-01-01T00:00:00.000Z")) w
                         eq_refl eq_refl eq_refl))).
  lia.
Defined.

(** X23. [incrementQuantity] never throws. On an entry of a product of the
    catalog with a quantity from 0 to 998 it raises the quantity by one.
    With the validator loaded, an entry at 999 or more is left alone: the
    cart and the storage are untouched and the user is told [Cannot
    increase quantity: Value is too large (maximum: 999)]. Pressing plus
    and then minus on a quantity from 1 to 998 gives back the cart as it
    was. *)
Theorem incrementQuantity_raises env (id q : Z) item w :
  valid_id env id = true ->
  CartModule.map_get (VNum (num_of_Z id)) (items w) = Some item ->
  CartItem.quantity item = num_of_Z q ->
  let w' := exec (UIModule.incrementQuantity env (VNum (num_of_Z id))) w in
  (forall p w0,
     returns (result (UIModule.incrementQuantity env p) w0) = true)
  /\ (0 <= q <= 998 ->
      result (UIModule.incrementQuantity env (VNum (num_of_Z id))) w = Ok []
      /\ items w'
         = CartModule.map_set (VNum (num_of_Z id))
             (CartItem.mk (CartItem.productId item) (num_of_Z (q + 1))
                (CartItem.addedAt item))
             (items w))
  /\ (validation_loaded env = true -> 999 <= q ->
      UIModule.incrementQuantity env (VNum (num_of_Z id)) w
      = (Ok (UIModule.shown env
               (ErrorHandler.mkConfig "error"
                  "Cannot increase quantity: Value is too large (maximum: 999)"
                  5000 true "quantity-increment")), w))
  /\ (1 <= q <= 998 ->
      items (exec (UIModule.decrementQuantity env (VNum (num_of_Z id))) w')
      = items w).
Proof.
  intros Hid G Hq w'. split; [| split; [| split]].
  - intros p w0. apply caught_returns.
  - intros Hr. unfold w', exec, result.
    rewrite (incrementQuantity_updates env id q item w Hid G Hq Hr).
    cbn [fst snd]. split; [reflexivity |]. rewrite saved_items. reflexivity.
  - intros Hv Hr.
    unfold UIModule.incrementQuantity, try_catch at 1, bind at 1.
    rewrite getCartItem_run, G. cbv beta iota zeta.
    rewrite Hq.
    destruct (Num_add_above q 1 999) as (z & E & Hz); [lia | lia |].
    change (Num.add q (num_of_Z 1)) with (Num.add q 1).
    rewrite E, validateQuantity_Z, Hv.
    destruct ((0 <=? z) && (z <=? 999)) eqn:B;
      [apply andb_true_iff in B; lia |].
    cbn [InputValidator.isValid negb andb InputValidator.errors].
    destruct (z <? 0) eqn:B1; [lia |].
    destruct (999 <? z) eqn:B2; [| lia].
    destruct (z =? 0) eqn:B3; [lia |].
    destruct (0 <? z) eqn:B4; [| lia].
    reflexivity.
  - intros Hr.
    assert (Hi : items w'
                 = CartModule.map_set (VNum (num_of_Z id))
                     (CartItem.mk (CartItem.productId item) (num_of_Z (q + 1))
                        (CartItem.addedAt item)) (items w)).
    { unfold w', exec.
      rewrite (incrementQuantity_updates env id q item w Hid G Hq)
        by lia.
      cbn [snd]. rewrite saved_items. reflexivity. }
    assert (G' : CartModule.map_get (VNum (num_of_Z id)) (items w')
                 = Some (CartItem.mk (CartItem.productId item)
                           (num_of_Z (q + 1)) (CartItem.addedAt item))).
    { rewrite Hi. apply map_get_set. }
    unfold exec at 1.
    rewrite (decrementQuantity_updates env id (q + 1) _ w' Hid G' eq_refl)
      by lia.
    cbn [snd]. rewrite saved_items. cbn [notified with_items items with_calls
      CartItem.productId CartItem.addedAt].
    unfold notified. cbn [items with_calls with_items].
    rewrite Hi, map_set_twice.
    replace (q + 1 - 1) with q by lia.
    apply map_set_same. rewrite G. f_equal.
    destruct item as [pid qty added]. cbn in Hq |- *. rewrite Hq. reflexivity.
Qed.

Lemma incrementQuantity_raises_witness :
  let w := exec (CartModule.addItem browser (VNum 1) (VNum 2))
             (fresh (mkClock 0 "1970-01-01T00:00:00.000Z")) in
  let w' := exec (UIModule.incrementQuantity browser (VNum (num_of_Z 1))) w in
  items (exec (UIModule.decrementQuantity browser (VNum (num_of_Z 1))) w')
  = items w.
Proof.
  intros w.
  apply (proj2 (proj2 (proj2 (incrementQuantity_raises browser 1 2
                         (CartItem.mk 1 2 (VStr "1970-01-01T00:00:00.000Z")) w
                         eq_refl eq_refl eq_refl)))).
  lia.
Defined.

(** X24. [removeFromCart] never throws. For a product id that is a
    positive number the cart afterwards has no entry for it and the other
    entries are as before, and the success message is asked for even when
    the cart had no such entry; for any other id the cart is untouched
    and the error [Product ID must be a positive number] is shown. *)
Theorem removeFromCart_removes env p w :
  let w' := exec (UIModule.removeFromCart env p) w in
  returns (result (UIModule.removeFromCart env p) w) = true
  /\ (accepted_id p = true ->
      result (UIModule.removeFromCart env p) w
      = Ok (UIModule.shown env
              (ErrorHandler.mkConfig "success" "Item removed from cart"
                 3000 true "remove-item"))
      /\ items w' = CartModule.map_delete p (items w))
  /\ (accepted_id p = false ->
      UIModule.removeFromCart env p w
      = (Ok (UIModule.shown env
               (ErrorHandler.mkConfig "error"
                  "Product ID must be a positive number" 5000 true "cart")),
         w)).
Proof.
  intros w'. split; [apply caught_returns |]. split.
  - intros Ha.
    assert (E : UIModule.removeFromCart env p w
                = (Ok (UIModule.shown env
                         (ErrorHandler.mkConfig "success"
                            "Item removed from cart" 3000 true "remove-item")),
                   if CartModule.map_has p (items w)
                   then exec (CartModule.saveToStorage env) (removed p w)
                   else w)).
    { unfold UIModule.removeFromCart, try_catch, bind.
      rewrite removeItem_unfold, Ha.
      destruct (CartModule.map_has p (items w)); [| reflexivity].
      pose proof (saveToStorage_total env (removed p w)) as Ht.
      unfold exec.
      destruct (CartModule.saveToStorage env (removed p w))
        as [[[] | e] w2]; [reflexivity | discriminate Ht]. }
    unfold w', exec, result. rewrite E. cbn [fst snd].
    split; [reflexivity |].
    destruct (CartModule.map_has p (items w)) eqn:H.
    + rewrite saved_items. reflexivity.
    + unfold CartModule.map_delete, CartModule.map_has in *.
      induction (items w) as [| kv r IH]; [reflexivity |].
      cbn [existsb List.filter] in H |- *.
      apply orb_false_iff in H. destruct H as [H1 H2].
      rewrite H1. cbn [negb]. rewrite <- (IH H2). reflexivity.
  - intros Ha. unfold UIModule.removeFromCart, try_catch, bind.
    rewrite removeItem_unfold, Ha. reflexivity.
Qed.

Lemma removeFromCart_removes_witness :
  let w := exec (CartModule.addItem browser (VNum 1) (VNum 2))
             (fresh (mkClock 0 "1970-01-01T00:00:00.000Z")) in
  let w' := exec (UIModule.removeFromCart browser (VNum 1)) w in
  result (UIModule.removeFromCart browser (VNum 1)) w
  = Ok (UIModule.shown browser
          (ErrorHandler.mkConfig "success" "Item removed from cart"
             3000 true "remove-item"))
  /\ items w' = CartModule.map_delete (VNum 1) (items w).
Proof.
  intros w.
  exact (proj1 (proj2 (removeFromCart_removes browser (VNum 1) w)) eq_refl).
Defined.

(** * The order of initialization *)

Lemma set_add_iff k x l : In x (DataRecovery.set_add k l) <-> x = k \/ In x l.
Proof.
  unfold DataRecovery.set_add.
  destruct (existsb (String.eqb k) l) eqn:E.
  - apply existsb_eqb_In in E. split; [auto |].
    intros [-> | H]; assumption.
  - rewrite in_app_iff. simpl. split.
    + intros [H | [H | []]]; auto.
    + intros [H | H]; auto.
Qed.

Lemma set_delete_added m l :
  ~ In m l -> DataRecovery.set_delete m (l ++ [m]) = l.
Proof.
  intros H. unfold DataRecovery.set_delete. rewrite filter_app. simpl.
  rewrite String.eqb_refl. simpl. rewrite app_nil_r.
  induction l as [| a r IH]; simpl; [reflexivity |].
  destruct (String.eqb_spec m a) as [-> | N].
  - exfalso. apply H. left. reflexivity.
  - simpl. rewrite IH; [reflexivity |]. intros Hi. apply H. right. exact Hi.
Qed.

Lemma assoc_In {A : Type} k (l : list (string * A)) v :
  assoc k l = Some v -> In v (map snd l).
Proof.
  induction l as [| [k' v'] r IH]; simpl; [discriminate |].
  destruct (k =? k')%string.
  - intros H. injection H as ->. left. reflexivity.
  - intros H. right. apply IH, H.
Qed.

Lemma needs_names deps m d :
  needs deps m d -> In d (ShoppingCartApp.names deps).
Proof.
  unfold needs, ShoppingCartApp.deps_of, ShoppingCartApp.names. intros H.
  destruct (assoc m deps) as [ds |] eqn:E; [| destruct H].
  apply in_or_app. right. apply in_concat. exists ds.
  split; [apply (assoc_In m deps ds E) | exact H].
Qed.

Lemma depends_snoc deps a b c :
  depends_on deps a b -> needs deps b c -> depends_on deps a c.
Proof.
  induction 1 as [a b H | a b b' H _ IH]; intros Hc.
  - apply depends_more with b; [exact H | apply depends_step, Hc].
  - apply depends_more with b; [exact H | apply IH, Hc].
Qed.

Lemma snoc_split {A : Type} (o l1 l2 : list A) (m x : A) :
  (o ++ [m] = l1 ++ x :: l2)%list ->
  (l2 = [] /\ x = m /\ l1 = o)
  \/ exists l2', l2 = (l2' ++ [m])%list /\ o = (l1 ++ x :: l2')%list.
Proof.
  destruct l2 as [| y l2] using rev_ind.
  - intros H. apply app_inj_tail in H. destruct H as [-> ->]. left. auto.
  - clear IHl2. intros H.
    change (l1 ++ x :: l2 ++ [y])%list with (l1 ++ (x :: l2) ++ [y])%list in H.
    rewrite app_assoc in H. apply app_inj_tail in H. destruct H as [-> ->].
    right. exists l2. split; reflexivity.
Qed.

Lemma dependencies_first_snoc deps o m :
  dependencies_first deps o ->
  (forall d, needs deps m d -> In d o) ->
  dependencies_first deps (o ++ [m]).
Proof.
  intros Ho Hm l1 x l2 E d Hd.
  destruct (snoc_split _ _ _ _ _ E) as [(_ & -> & ->) | (l2' & _ & ->)].
  - apply Hm, Hd.
  - apply (Ho l1 x l2' eq_refl d Hd).
Qed.

Section InitializationOrder.

Variable deps : ShoppingCartApp.Dependencies.

Lemma each_sound f :
  (forall m s,
     consistent deps s ->
     In m (ShoppingCartApp.names deps) ->
     (forall x, In x (ShoppingCartApp.visiting s) -> depends_on deps x m) ->
     (List.length (ShoppingCartApp.names deps)
      < f + List.length (ShoppingCartApp.visiting s))%nat ->
     visit_ok deps [m] s (ShoppingCartApp.visit f deps m s)) ->
  forall ds s,
    consistent deps s ->
    (forall d, In d ds ->
       In d (ShoppingCartApp.names deps)
       /\ forall x, In x (ShoppingCartApp.visiting s) -> depends_on deps x d) ->
    (List.length (ShoppingCartApp.names deps)
     < f + List.length (ShoppingCartApp.visiting s))%nat ->
    visit_ok deps ds s
      (ShoppingCartApp.each (ShoppingCartApp.visit f deps) ds s).
Proof.
  intros IH. induction ds as [| d r IHr]; intros s Hs Hd Hf;
    cbn [ShoppingCartApp.each].
  - cbn [visit_ok]. split; [exact Hs |]. split; [reflexivity |].
    split; [exists []; symmetry; apply app_nil_r |]. intros m [].
  - destruct (Hd d (or_introl eq_refl)) as [Hn Hx].
    pose proof (IH d s Hs Hn Hx Hf) as V.
    destruct (ShoppingCartApp.visit f deps d s) as [[s1 | e] |];
      cbn [visit_ok] in V; [| exact V | exact V].
    destruct V as (Hs1 & Hv1 & [ext1 Ho1] & Hin1).
    assert (V2 : visit_ok deps r s1
                   (ShoppingCartApp.each (ShoppingCartApp.visit f deps) r s1)).
    { apply IHr; [exact Hs1 | | rewrite Hv1; exact Hf].
      intros d' Hd'. rewrite Hv1. apply Hd. right. exact Hd'. }
    destruct (ShoppingCartApp.each (ShoppingCartApp.visit f deps) r s1)
      as [[s2 | e] |]; cbn [visit_ok] in V2 |- *; [| exact V2 | exact V2].
    destruct V2 as (Hs2 & Hv2 & [ext2 Ho2] & Hin2).
    split; [exact Hs2 |]. split; [congruence |]. split.
    + exists (ext1 ++ ext2)%list. rewrite Ho2, Ho1, app_assoc. reflexivity.
    + intros m [<- | Hm]; [| apply Hin2, Hm].
      rewrite Ho2. apply in_or_app. left. apply Hin1. left. reflexivity.
Qed.

Lemma visit_sound f : forall m s,
  consistent deps s ->
  In m (ShoppingCartApp.names deps) ->
  (forall x, In x (ShoppingCartApp.visiting s) -> depends_on deps x m) ->
  (List.length (ShoppingCartApp.names deps)
   < f + List.length (ShoppingCartApp.visiting s))%nat ->
  visit_ok deps [m] s (ShoppingCartApp.visit f deps m s).
Proof.
  induction f as [| f IH]; intros m s Hs Hm Hx Hf.
  - exfalso. destruct Hs as (_ & _ & _ & _ & Hnd & Hincl & _).
    pose proof (NoDup_incl_length Hnd Hincl). lia.
  - cbn [ShoppingCartApp.visit]. unfold ShoppingCartApp.has.
    destruct (existsb (String.eqb m) (ShoppingCartApp.visiting s)) eqn:Ving.
    { apply existsb_eqb_In in Ving. cbn [visit_ok]. exists m.
      split; [reflexivity | apply Hx, Ving]. }
    destruct (existsb (String.eqb m) (ShoppingCartApp.visited s)) eqn:Ved.
    { apply existsb_eqb_In in Ved. cbn [visit_ok].
      split; [exact Hs |]. split; [reflexivity |].
      split; [exists []; symmetry; apply app_nil_r |].
      intros x [<- | []]. destruct Hs as (_ & Hvo & _). apply Hvo, Ved. }
    assert (Nving : ~ In m (ShoppingCartApp.visiting s)).
    { intros H. apply existsb_eqb_In in H. congruence. }
    assert (Nved : ~ In m (ShoppingCartApp.visited s)).
    { intros H. apply existsb_eqb_In in H. congruence. }
    assert (Eadd : DataRecovery.set_add m (ShoppingCartApp.visiting s)
                   = (ShoppingCartApp.visiting s ++ [m])%list).
    { unfold DataRecovery.set_add. rewrite Ving. reflexivity. }
    rewrite Eadd.
    set (s1 := ShoppingCartApp.mkVisit (ShoppingCartApp.visited s)
                 (ShoppingCartApp.visiting s ++ [m]) (ShoppingCartApp.order s)).
    destruct Hs as (Hnd & Hvo & Hfirst & Hdisj & Hndv & Hinclv & Hinclo).
    assert (Hs1 : consistent deps s1).
    { unfold consistent, s1. cbn [ShoppingCartApp.order ShoppingCartApp.visited
        ShoppingCartApp.visiting].
      refine (conj Hnd (conj Hvo (conj Hfirst (conj _ (conj _ (conj _ Hinclo)))))).
      - intros x Hin. apply in_app_or in Hin.
        destruct Hin as [Hin | [<- | []]]; [apply Hdisj, Hin |].
        intros Ho. apply Nved, Hvo, Ho.
      - apply NoDup_app; [exact Hndv | constructor; [intros [] | constructor] |].
        intros x Hin [<- | []]. exact (Nving Hin).
      - intros x Hin. apply in_app_or in Hin.
        destruct Hin as [Hin | [<- | []]]; [apply Hinclv, Hin | exact Hm]. }
    assert (V : visit_ok deps (ShoppingCartApp.deps_of deps m) s1
                  (ShoppingCartApp.each (ShoppingCartApp.visit f deps)
                     (ShoppingCartApp.deps_of deps m) s1)).
    { apply (each_sound f IH); [exact Hs1 | |].
      - intros d Hd. split; [apply (needs_names deps m d Hd) |].
        intros x Hin. unfold s1 in Hin. cbn [ShoppingCartApp.visiting] in Hin.
        apply in_app_or in Hin. destruct Hin as [Hin | [<- | []]].
        + apply depends_snoc with m; [apply Hx, Hin | exact Hd].
        + apply depends_step, Hd.
      - unfold s1. cbn [ShoppingCartApp.visiting]. rewrite length_app.
        simpl. lia. }
    destruct (ShoppingCartApp.each (ShoppingCartApp.visit f deps)
                (ShoppingCartApp.deps_of deps m) s1) as [[s2 | e] |];
      cbn [visit_ok] in V |- *; [| exact V | exact V].
    destruct V as (Hs2 & Hv2 & [ext Ho2] & Hin2).
    unfold s1 in Hv2, Ho2.
    cbn [ShoppingCartApp.visiting ShoppingCartApp.order] in Hv2, Ho2.
    destruct Hs2 as (Hnd2 & Hvo2 & Hfirst2 & Hdisj2 & Hndv2 & Hinclv2 & Hinclo2).
    assert (Nm : ~ In m (ShoppingCartApp.order s2)).
    { apply Hdisj2. rewrite Hv2. apply in_or_app. right. left. reflexivity. }
    rewrite Hv2, (set_delete_added m _ Nving).
    split; [| split; [reflexivity | split]].
    + unfold consistent. cbn [ShoppingCartApp.order ShoppingCartApp.visited
        ShoppingCartApp.visiting].
      refine (conj _ (conj _ (conj _ (conj _ (conj Hndv (conj Hinclv _)))))).
      * apply NoDup_app; [exact Hnd2 | constructor; [intros [] | constructor] |].
        intros x Hin [<- | []]. exact (Nm Hin).
      * intros x. split.
        -- intros Hin. apply set_add_iff in Hin. apply in_or_app.
           destruct Hin as [-> | Hin]; [right; left; reflexivity |].
           left. apply Hvo2, Hin.
        -- intros Hin. apply set_add_iff. apply in_app_or in Hin.
           destruct Hin as [Hin | [<- | []]]; [right; apply Hvo2, Hin |].
           left. reflexivity.
      * apply dependencies_first_snoc; [exact Hfirst2 | exact Hin2].
      * intros x Hin Ho. apply in_app_or in Ho.
        destruct Ho as [Ho | [<- | []]]; [| exact (Nving Hin)].
        apply (Hdisj2 x); [| exact Ho].
        rewrite Hv2. apply in_or_app. left. exact Hin.
      * intros x Hin. apply in_app_or in Hin.
        destruct Hin as [Hin | [<- | []]]; [apply Hinclo2, Hin | exact Hm].
    + cbn [ShoppingCartApp.order]. exists (ext ++ [m])%list.
      rewrite Ho2, app_assoc. reflexivity.
    + cbn [ShoppingCartApp.order]. intros x [<- | []].
      apply in_or_app. right. left. reflexivity.
Qed.

End InitializationOrder.

(** X25. [calculateInitializationOrder] always comes to an end. When it
    returns, the order holds every module of the dependencies once, and
    every module comes after all the modules it needs. When it throws, the
    error names a module that depends on itself through one or more
    steps, so dependencies without a cycle always get an order. *)
Theorem calculateInitializationOrder_sorts deps :
  match ShoppingCartApp.calculateInitializationOrder deps with
  | None => False
  | Some (Ok order) =>
      NoDup order
      /\ (forall m, In m (map fst deps) -> In m order)
      /\ dependencies_first deps order
      /\ incl order (ShoppingCartApp.names deps)
  | Some (Throw e) => circular deps e
  end.
Proof.
  unfold ShoppingCartApp.calculateInitializationOrder.
  assert (V : visit_ok deps (map fst deps) (ShoppingCartApp.mkVisit [] [] [])
                (ShoppingCartApp.each
                   (ShoppingCartApp.visit
                      (S (List.length (ShoppingCartApp.names deps))) deps)
                   (map fst deps) (ShoppingCartApp.mkVisit [] [] []))).
  { apply each_sound.
    - intros m s. apply visit_sound.
    - unfold consistent. cbn [ShoppingCartApp.order ShoppingCartApp.visited
        ShoppingCartApp.visiting].
      refine (conj (NoDup_nil _) (conj _ (conj _ (conj _
                (conj (NoDup_nil _) (conj _ _)))))).
      + intros x. split; intros [].
      + intros l1 x l2 E. destruct l1; discriminate E.
      + intros x [].
      + intros x [].
      + intros x [].
    - intros d Hd. split; [| intros x []].
      unfold ShoppingCartApp.names. apply in_or_app. left. exact Hd.
    - cbn. lia. }
  destruct (ShoppingCartApp.each _ _ _) as [[s | e] |]; cbn [visit_ok] in V;
    [| exact V | exact V].
  destruct V as ((Hnd & _ & Hfirst & _ & _ & _ & Hincl) & _ & _ & Hin).
  repeat split; assumption.
Qed.

(** the order in which the application initializes its modules *)
Example initializationOrder_of_the_application :
  ShoppingCartApp.calculateInitializationOrder
    ShoppingCartApp.setupDependencies
  = Some (Ok ["errorHandler"; "models"; "validation"; "products"; "cart";
              "ui"; "accessibility"]).
Proof. reflexivity. Qed.

(** * What the user is told about the storage *)

Lemma substring_splits t : forall m s,
  t <> EmptyString ->
  substring m (String.length t) s = t ->
  exists a b, s = (a ++ t ++ b)%string /\ String.length a = m.
Proof.
  assert (P : forall t s, substring 0 (String.length t) s = t ->
                exists b, s = (t ++ b)%string).
  { induction t0 as [| c r IH]; intros s H.
    - exists s. reflexivity.
    - destruct s as [| c' s']; cbn [String.length substring] in H;
        [discriminate |].
      injection H as -> H. destruct (IH s' H) as [b ->]. exists b. reflexivity. }
  induction m as [| m IH]; intros s Ht H.
  - destruct (P t s H) as [b ->]. exists EmptyString, b. split; reflexivity.
  - destruct s as [| c s'].
    + destruct t; [contradiction | discriminate H].
    + cbn [substring] in H. destruct (IH s' Ht H) as (a & b & -> & L).
      exists (String c a), b. split; [reflexivity | cbn; rewrite L; reflexivity].
Qed.

Lemma substring_at a t b :
  substring (String.length a) (String.length t) (a ++ t ++ b) = t.
Proof.
  induction a as [| c r IH]; cbn [String.length append substring].
  - induction t as [| c r IH]; cbn [String.length append substring].
    + destruct b; reflexivity.
    + rewrite IH. reflexivity.
  - exact IH.
Qed.

Lemma includes_contains t s :
  t <> EmptyString -> (Str.includes t s = true <-> contains t s).
Proof.
  intros Ht. unfold Str.includes, contains. split.
  - destruct (index 0 t s) as [m |] eqn:E; [| discriminate]. intros _.
    apply index_correct1 in E.
    destruct (substring_splits t m s Ht E) as (a & b & H & _).
    exists a, b. exact H.
  - intros (a & b & ->).
    destruct (index 0 t (a ++ t ++ b)) as [m |] eqn:E; [reflexivity |].
    exfalso. apply (index_correct3 0 (String.length a) _ _ E Ht (Nat.le_0_l _)).
    apply substring_at.
Qed.

Lemma quota_error_test e :
  (err_name e =? "QuotaExceededError")%string
  || Str.includes "quota" (err_message e) = true
  <-> quota_error e.
Proof.
  unfold quota_error. rewrite orb_true_iff, String.eqb_eq.
  rewrite includes_contains by discriminate. reflexivity.
Qed.

Lemma access_error_test e :
  (err_name e =? "SecurityError")%string
  || Str.includes "access" (err_message e) = true
  <-> access_error e.
Proof.
  unfold access_error. rewrite orb_true_iff, String.eqb_eq.
  rewrite includes_contains by discriminate. reflexivity.
Qed.

(** X26. The warning of [handleStorageError] and the event of the cart's
    [_handleStorageError] sort an error alike. A quota error, one named
    [QuotaExceededError] or whose message contains [quota], gives the
    event [storageQuotaExceeded] and the quota warning, shown for 8
    seconds; an access error that is not a quota error, one named
    [SecurityError] or whose message contains [access], gives
    [storageAccessDenied] and the access warning, shown for 8 seconds;
    any other error gives [storageError] and a warning with its message,
    shown for 5 seconds. In each case the listeners are called once each
    with the message of the error, the manager ends in session-only mode,
    and the warning is dismissible and keeps the context it was given,
    or [general] for an empty one. *)
Theorem storage_error_is_told_alike e ctx w :
  let n := ErrorHandler.handleStorageError e ctx in
  let w' := exec (CartModule._handleStorageError e) w in
  let told event message duration :=
    w' = notified event (VObj [("error", VStr (err_message e))])
           (with_sessionOnly true w)
    /\ ErrorHandler.message n = message
    /\ ErrorHandler.duration n = duration in
  ErrorHandler.type n = "warning"
  /\ ErrorHandler.dismissible n = true
  /\ ErrorHandler.context n
     = (if (ctx =? EmptyString)%string then "general" else ctx)
  /\ (quota_error e ->
      told "storageQuotaExceeded"
        "Storage quota exceeded. Your cart will work in session-only mode."
        8000)
  /\ (~ quota_error e -> access_error e ->
      told "storageAccessDenied"
        "Storage access denied. Your cart will work in session-only mode."
        8000)
  /\ (~ quota_error e -> ~ access_error e ->
      told "storageError"
        ("Storage error: " ++ err_message e
           ++ ". Your cart will work in session-only mode.")
        5000).
Proof.
  intros n w' told. unfold told, n, w', ErrorHandler.handleStorageError,
    CartModule._handleStorageError.
  pose proof (quota_error_test e) as Q. pose proof (access_error_test e) as A.
  destruct ((err_name e =? "QuotaExceededError")%string
            || Str.includes "quota" (err_message e)).
  - assert (HQ : quota_error e) by (apply Q; reflexivity).
    repeat split; auto; contradiction.
  - assert (HQ : ~ quota_error e) by (intros H; apply Q in H; discriminate H).
    destruct ((err_name e =? "SecurityError")%string
              || Str.includes "access" (err_message e)).
    + assert (HA : access_error e) by (apply A; reflexivity).
      repeat split; auto; contradiction.
    + assert (HA : ~ access_error e) by (intros H; apply A in H; discriminate H).
      repeat split; auto; contradiction.
Qed.

Lemma storage_error_is_told_alike_witness :
  let e := mkErr "Error" "The quota has been exceeded" in
  let w := fresh (mkClock 0 "1970-01-01T00:00:00.000Z") in
  quota_error e
  /\ exec (CartModule._handleStorageError e) w
     = notified "storageQuotaExceeded"
         (VObj [("error", VStr "The quota has been exceeded")])
         (with_sessionOnly true w)
  /\ ErrorHandler.duration (ErrorHandler.handleStorageError e "cart-save")
     = 8000.
Proof.
  intros e w.
  assert (H : quota_error e).
  { right. exists "The ", " has been exceeded". reflexivity. }
  split; [exact H |].
  destruct (proj1 (proj2 (proj2 (proj2
              (storage_error_is_told_alike e "cart-save" w)))) H)
    as (H1 & _ & H3).
  split; [exact H1 | exact H3].
Defined.

(** * A stored cart that is gone *)

Lemma assoc_removed k (l : list (string * string)) :
  distinct (keys_of l) = true -> assoc k (assoc_remove k l) = None.
Proof.
  unfold keys_of. induction l as [| [k' v'] r IH]; simpl; [reflexivity |].
  intros H. apply andb_true_iff in H. destruct H as [Hk Hr].
  destruct (k =? k')%string eqn:E; simpl.
  - apply String.eqb_eq in E. subst k'. apply negb_true_iff in Hk.
    clear - Hk. induction r as [| [k2 v2] r IH]; simpl in *; [reflexivity |].
    apply orb_false_iff in Hk. destruct Hk as [H1 H2]. rewrite H1. auto.
  - rewrite E. apply IH, Hr.
Qed.

Lemma clearStorage_healthy w :
  faults w = [] ->
  CartModule.clearStorage w
  = (Ok tt,
     with_localStorage
       (assoc_remove CartModule.timestampKey
          (assoc_remove CartModule.storageKey (localStorage w))) w).
Proof.
  intros Hf. unfold CartModule.clearStorage, try_catch, bind.
  rewrite (removeItem_healthy _ w Hf).
  rewrite (removeItem_healthy _ (with_localStorage _ w)) by exact Hf.
  destruct w; reflexivity.
Qed.

Lemma loadFromStorage_missing env w :
  faults w = [] ->
  assoc CartModule.storageKey (localStorage w) = None ->
  CartModule.loadFromStorage env w
  = (Ok tt, if validation_loaded env then with_items [] w else w).
Proof.
  intros Hf Hk.
  unfold CartModule.loadFromStorage. cbn [CartModule.loadFromStorage_fuel].
  assert (E : CartModule.load_attempt env w
              = (Ok tt, if validation_loaded env then with_items [] w else w)).
  { unfold CartModule.load_attempt.
    destruct (validation_loaded env).
    - unfold DataRecovery.recoverData, attempt.
      unfold bind at 1. unfold bind at 1.
      rewrite (getItem_healthy _ _ w Hf). cbn [Storage.content]. rewrite Hk.
      unfold DataRecovery.fallback_result. mrun. cbn. reflexivity.
    - unfold bind at 1, ret at 1. cbv beta iota. unfold bind.
      rewrite (getItem_healthy _ _ w Hf). cbn [Storage.content]. rewrite Hk.
      reflexivity. }
  unfold try_catch. rewrite E. reflexivity.
Qed.

(** X27. [clearStorage] never throws. On a storage that does not fail it
    removes the stored cart and its timestamp and nothing else, and leaves
    the cart in memory alone; [getStorageInfo] then reports no stored
    data. A reload from the emptied storage returns without an error: with
    the data recovery loaded it empties the cart in memory, without it the
    cart in memory stays as it is. *)
Theorem cleared_storage_reloads env w :
  faults w = [] ->
  distinct (keys_of (localStorage w)) = true ->
  let w1 := exec CartModule.clearStorage w in
  (forall w0, result CartModule.clearStorage w0 = Ok tt)
  /\ assoc CartModule.storageKey (localStorage w1) = None
  /\ assoc CartModule.timestampKey (localStorage w1) = None
  /\ (forall k, k <> CartModule.storageKey -> k <> CartModule.timestampKey ->
        assoc k (localStorage w1) = assoc k (localStorage w))
  /\ items w1 = items w
  /\ result CartModule.getStorageInfo w1
     = Ok (CartModule.mkStorageInfo false None (sessionOnly w) O true None)
  /\ CartModule.reloadFromStorage env w1
     = (Ok tt, if validation_loaded env then with_items [] w1 else w1).
Proof.
  intros Hf Hd w1.
  assert (E1 : w1 = with_localStorage
                      (assoc_remove CartModule.timestampKey
                         (assoc_remove CartModule.storageKey (localStorage w)))
                      w).
  { unfold w1, exec. rewrite (clearStorage_healthy w Hf). reflexivity. }
  assert (Hf1 : faults w1 = []) by (rewrite E1; exact Hf).
  assert (Hs : assoc CartModule.storageKey (localStorage w1) = None).
  { rewrite E1. cbn [localStorage with_localStorage].
    rewrite assoc_assoc_remove_other by discriminate.
    apply assoc_removed, Hd. }
  assert (Ht : assoc CartModule.timestampKey (localStorage w1) = None).
  { rewrite E1. cbn [localStorage with_localStorage].
    apply assoc_removed. rewrite keys_assoc_remove by exact Hd.
    apply distinct_filter, Hd. }
  split; [| split; [exact Hs | split; [exact Ht | split; [| split; [| split]]]]].
  - intros w0. unfold result, CartModule.clearStorage, try_catch.
    match goal with
    | |- fst (match ?m w0 with _ => _ end) = _ =>
        destruct (m w0) as [[[] | e] w2]; reflexivity
    end.
  - intros k H1 H2. rewrite E1. cbn [localStorage with_localStorage].
    rewrite !assoc_assoc_remove_other by assumption. reflexivity.
  - rewrite E1. reflexivity.
  - unfold result, CartModule.getStorageInfo, try_catch.
    unfold bind at 1. rewrite (getItem_healthy _ _ w1 Hf1).
    cbn [Storage.content]. rewrite Hs.
    unfold bind at 1. rewrite (getItem_healthy _ _ w1 Hf1).
    cbn [Storage.content]. rewrite Ht.
    unfold bind at 1, gets at 1. cbv beta iota.
    unfold bind at 1, ret at 1. cbv beta iota.
    unfold bind at 1, CartModule._isStorageAvailable, try_catch.
    unfold bind at 1. rewrite (setItem_healthy _ _ w1 Hf1).
    unfold bind at 1.
    rewrite (removeItem_healthy _ (with_localStorage _ w1)) by exact Hf1.
    unfold ret. cbn [fst]. rewrite E1. reflexivity.
  - unfold CartModule.reloadFromStorage.
    apply loadFromStorage_missing; assumption.
Qed.

Lemma cleared_storage_reloads_witness :
  let w := exec (CartModule.addItem browser (VNum 1) (VNum 2))
             (fresh (mkClock 0 "1970-01-01T00:00:00.000Z")) in
  let w1 := exec CartModule.clearStorage w in
  items w = [(num_of_Z 1,
              CartItem.mk 1 2 (VStr "1970-01-01T00:00:00.000Z"))]
  /\ CartModule.reloadFromStorage browser w1 = (Ok tt, with_items [] w1).
Proof.
  intros w. split; [reflexivity |].
  exact (proj2 (proj2 (proj2 (proj2 (proj2 (proj2
           (cleared_storage_reloads browser w eq_refl eq_refl))))))).
Defined.

(** * The count of the cart *)

(** a quantity of a well-formed cart is an integer that is not negative *)
Lemma quantity_integer (q : num) :
  Num.lt q 0 = false -> Num.isInteger q = true ->
  exists y, q = Fin y /\ (y == inject_Z (Qfloor y))%Q /\ 0 <= Qfloor y.
Proof.
  destruct q as [| y]; [discriminate |]. intros Hlt Hint. exists y.
  split; [reflexivity |].
  unfold Num.isInteger in Hint. apply Qeq_bool_iff in Hint.
  split; [symmetry; exact Hint |].
  unfold Num.lt, Num.le in Hlt.
  destruct (Qlt_le_dec y 0) as [L | G].
  - exfalso. revert Hlt. change (num_of_Z 0) with (Fin (inject_Z 0)).
    cbv beta iota. unfold Qlt_bool.
    destruct (Qle_bool (inject_Z 0) y) eqn:E.
    + apply Qle_bool_iff in E. change (inject_Z 0) with 0%Q in E. lra.
    + discriminate.
  - change 0 with (Qfloor 0). apply Qfloor_resp_le, G.
Qed.

Lemma cart_ok_quantities env its :
  cart_ok env its = true ->
  forall item, In item (map snd its) ->
    Num.lt (CartItem.quantity item) 0 = false
    /\ Num.isInteger (CartItem.quantity item) = true.
Proof.
  unfold cart_ok. intros H item Hin. apply andb_true_iff in H.
  destruct H as [H _]. rewrite forallb_forall in H.
  apply in_map_iff in Hin. destruct Hin as [kv [<- Hkv]].
  specialize (H kv Hkv). unfold entry_ok, quantity_ok in H.
  apply andb_true_iff in H. destruct H as [_ H].
  apply andb_true_iff in H. destruct H as [H _].
  apply andb_true_iff in H. destruct H as [H1 H2].
  split; [apply negb_true_iff, H1 | exact H2].
Qed.

Lemma quantity_sum_nonneg l :
  (forall item, In item l ->
     Num.lt (CartItem.quantity item) 0 = false
     /\ Num.isInteger (CartItem.quantity item) = true) ->
  0 <= quantity_sum l.
Proof.
  induction l as [| x r IH]; intros H; cbn [quantity_sum fold_right]; [lia |].
  fold (quantity_sum r).
  destruct (H x (or_introl eq_refl)) as [H1 H2].
  destruct (quantity_integer _ H1 H2) as (y & -> & _ & Hy). cbn [Qof].
  assert (0 <= quantity_sum r) by (apply IH; intros i Hi; apply H; right; exact Hi).
  lia.
Qed.

(** the count is the sum of the quantities as long as the sum has at
    most 53 bits, and is not below 2^53 otherwise *)
Lemma count_fold l : forall a : Z,
  0 <= a ->
  (forall item, In item l ->
     Num.lt (CartItem.quantity item) 0 = false
     /\ Num.isInteger (CartItem.quantity item) = true) ->
  exists c : Z,
    fold_left (fun count cartItem => Num.add count (CartItem.quantity cartItem))
      l (num_of_Z a) = num_of_Z c
    /\ (a + quantity_sum l <= 9007199254740992 -> c = a + quantity_sum l)
    /\ (9007199254740992 < a + quantity_sum l -> 9007199254740992 <= c).
Proof.
  induction l as [| x r IH]; intros a Ha H; cbn [fold_left quantity_sum fold_right].
  - exists a. split; [reflexivity |]. split; lia.
  - fold (quantity_sum r).
    destruct (H x (or_introl eq_refl)) as [H1 H2].
    destruct (quantity_integer _ H1 H2) as (y & Ey & Hy & Hy0).
    rewrite Ey. cbn [Qof].
    assert (Hr : forall item, In item r ->
              Num.lt (CartItem.quantity item) 0 = false
              /\ Num.isInteger (CartItem.quantity item) = true)
      by (intros i Hi; apply H; right; exact Hi).
    pose proof (quantity_sum_nonneg r Hr) as Hs.
    assert (Hadd : exists b, Num.add (num_of_Z a) (Fin y) = num_of_Z b
                     /\ 0 <= b
                     /\ (a + Qfloor y <= 9007199254740992 -> b = a + Qfloor y)
                     /\ (9007199254740992 < a + Qfloor y
                         -> 9007199254740992 <= b)).
    { assert (E : Num.add (num_of_Z a) (Fin y)
                  = Num.add (num_of_Z a) (num_of_Z (Qfloor y))).
      { unfold Num.add, num_of_Z. f_equal. apply b64_comp.
        rewrite <- Hy. reflexivity. }
      rewrite E.
      destruct (Z_le_gt_dec (a + Qfloor y) 9007199254740992) as [L | G].
      - exists (a + Qfloor y). split; [apply Num_add_Z; lia |].
        split; [lia |]. split; lia.
      - destruct (Num_add_above a (Qfloor y) 9007199254740991)
          as (b & Eb & Hb); [lia | lia |].
        exists b. split; [exact Eb |]. split; [lia |]. split; lia. }
    destruct Hadd as (b & Eb & Hb0 & Hb1 & Hb2). rewrite Eb.
    destruct (IH b Hb0 Hr) as (c & Ec & Hc1 & Hc2).
    exists c. split; [exact Ec |]. split; intros Hle.
    + rewrite Hc1; [rewrite Hb1; lia |]. rewrite Hb1; lia.
    + destruct (Z_le_gt_dec (a + Qfloor y) 9007199254740992) as [L | G].
      * apply Hc2. rewrite Hb1 by exact L. lia.
      * specialize (Hb2 ltac:(lia)).
        destruct (Z_le_gt_dec (b + quantity_sum r) 9007199254740992) as [L2 | G2].
        -- rewrite Hc1 by exact L2. lia.
        -- apply Hc2. lia.
Qed.

(** the count of a well-formed cart, when it has less than 54 bits, is
    the sum of the quantities *)
Lemma getCartCount_sum env w (n : Z) :
  well_formed env w ->
  result CartModule.getCartCount w = Ok (num_of_Z n) ->
  n < 9007199254740992 ->
  quantity_sum (map snd (items w)) = n.
Proof.
  intros Hw Hn Hlt. unfold result, CartModule.getCartCount, gets in Hn.
  cbn [fst] in Hn.
  destruct (count_fold (map snd (items w)) 0 (Z.le_refl 0)
              (cart_ok_quantities env _ Hw)) as (c & E & H1 & H2).
  rewrite E in Hn. injection Hn as Hn. subst c.
  destruct (Z_le_gt_dec (quantity_sum (map snd (items w))) 9007199254740992)
    as [L | G].
  - rewrite H1; lia.
  - specialize (H2 ltac:(lia)). lia.
Qed.

Lemma getCartCount_run env w :
  well_formed env w ->
  quantity_sum (map snd (items w)) <= 9007199254740992 ->
  result CartModule.getCartCount w
  = Ok (num_of_Z (quantity_sum (map snd (items w)))).
Proof.
  intros Hw Hle. unfold result, CartModule.getCartCount, gets. cbn [fst].
  destruct (count_fold (map snd (items w)) 0 (Z.le_refl 0)
              (cart_ok_quantities env _ Hw)) as (c & E & H1 & _).
  rewrite E, H1 by lia. reflexivity.
Qed.

Lemma quantity_sum_cons x l :
  quantity_sum (x :: l) = Qfloor (Qof (CartItem.quantity x)) + quantity_sum l.
Proof. reflexivity. Qed.

Lemma quantity_sum_app a b :
  quantity_sum (a ++ b) = quantity_sum a + quantity_sum b.
Proof.
  induction a as [| x r IH]; [reflexivity |].
  cbn [app]. rewrite !quantity_sum_cons, IH. lia.
Qed.

Lemma quantity_sum_set n v its item :
  CartModule.map_get (VNum n) its = Some item ->
  quantity_sum (map snd (CartModule.map_set (VNum n) v its))
  + Qfloor (Qof (CartItem.quantity item))
  = quantity_sum (map snd its) + Qfloor (Qof (CartItem.quantity v)).
Proof.
  unfold CartModule.map_get.
  induction its as [| kv r IH]; cbn [List.find CartModule.map_set];
    [discriminate |].
  destruct (CartModule.key_is (VNum n) kv).
  - cbn [option_map]. intros H. injection H as <-.
    cbn [map snd]. rewrite !quantity_sum_cons. lia.
  - intros H. cbn [map]. rewrite !quantity_sum_cons.
    specialize (IH H). lia.
Qed.

Lemma key_is_others n kv r :
  CartModule.key_is (VNum n) kv = true ->
  existsb (fun kv' => Num.same (fst kv') (fst kv)) r = false ->
  List.filter (fun kv' => negb (CartModule.key_is (VNum n) kv')) r = r.
Proof.
  intros Hk. induction r as [| x r IH]; cbn [existsb List.filter];
    [reflexivity |].
  intros H. apply orb_false_iff in H. destruct H as [Hx Hr].
  assert (E : CartModule.key_is (VNum n) x = false).
  { unfold CartModule.key_is in *.
    destruct (Num.same (fst x) n) eqn:S; [| reflexivity].
    rewrite <- Hx. symmetry. apply same_trans with n; [exact S |].
    rewrite same_sym. exact Hk. }
  rewrite E. cbn [negb]. rewrite (IH Hr). reflexivity.
Qed.

Lemma quantity_sum_delete n its item :
  keys_distinct its = true ->
  CartModule.map_get (VNum n) its = Some item ->
  quantity_sum (map snd (CartModule.map_delete (VNum n) its))
  + Qfloor (Qof (CartItem.quantity item))
  = quantity_sum (map snd its).
Proof.
  unfold CartModule.map_get, CartModule.map_delete.
  induction its as [| kv r IH]; cbn [List.find keys_distinct List.filter];
    [discriminate |].
  intros Hd. apply andb_true_iff in Hd. destruct Hd as [Hk Hr].
  apply negb_true_iff in Hk.
  destruct (CartModule.key_is (VNum n) kv) eqn:E.
  - cbn [option_map negb]. intros H. injection H as <-.
    rewrite (key_is_others n kv r E Hk).
    cbn [map]. rewrite quantity_sum_cons. lia.
  - intros H. cbn [negb map]. rewrite !quantity_sum_cons.
    specialize (IH Hr H). lia.
Qed.

(** X28. [getCartCount] follows the cart. On a well-formed cart whose
    count is the integer [n], with [n + q] at most 2^53: after
    [addItem(id, q)] for a product of the catalog and an integer quantity
    from 1 to 999 that the product's entry can take (with the validator
    the entry stays at 999 or less), the count is [n + q], whether the
    product was in the cart or not; after [removeItem(id)] of an entry of
    quantity [q0] it is [n - q0]. *)
Theorem getCartCount_follows env (id q n : Z) w :
  well_formed env w ->
  valid_id env id = true ->
  1 <= q <= 999 ->
  (forall item,
     CartModule.map_get (VNum (num_of_Z id)) (items w) = Some item ->
     exists q0 : Z,
       CartItem.quantity item = num_of_Z q0
       /\ (validation_loaded env = true -> q0 + q <= 999)) ->
  result CartModule.getCartCount w = Ok (num_of_Z n) ->
  n + q <= 9007199254740992 ->
  result CartModule.getCartCount
    (exec (CartModule.addItem env (VNum (num_of_Z id)) (VNum (num_of_Z q))) w)
  = Ok (num_of_Z (n + q))
  /\ (forall item (q0 : Z),
        CartModule.map_get (VNum (num_of_Z id)) (items w) = Some item ->
        CartItem.quantity item = num_of_Z q0 ->
        result CartModule.getCartCount
          (exec (CartModule.removeItem env (VNum (num_of_Z id))) w)
        = Ok (num_of_Z (n - q0))).
Proof.
  intros Hw Hid Hq Hentry Hc Hmax.
  pose proof (getCartCount_sum env w n Hw Hc ltac:(lia)) as Hn.
  pose proof (quantity_sum_nonneg _ (cart_ok_quantities env _ Hw)) as H0.
  assert (Hd : keys_distinct (items w) = true).
  { unfold well_formed, cart_ok in Hw. apply andb_true_iff in Hw. apply Hw. }
  split.
  - assert (Hw' : well_formed env
                    (exec (CartModule.addItem env (VNum (num_of_Z id))
                             (VNum (num_of_Z q))) w)).
    { apply (addItem_wf env). exact Hw. }
    assert (Hs : quantity_sum
                   (map snd
                      (items (exec (CartModule.addItem env (VNum (num_of_Z id))
                                      (VNum (num_of_Z q))) w)))
                 = n + q).
    { destruct (CartModule.map_get (VNum (num_of_Z id)) (items w))
        as [item |] eqn:G.
      - destruct (Hentry item eq_refl) as (q0 & Hq0 & Hsum).
        pose proof (quantity_sum_delete (num_of_Z id) (items w) item Hd G) as D.
        assert (Hdel : 0 <= quantity_sum
                              (map snd (CartModule.map_delete (VNum (num_of_Z id))
                                          (items w)))).
        { apply quantity_sum_nonneg. intros i Hi.
          apply (cart_ok_quantities env (items w) Hw).
          apply in_map_iff in Hi. destruct Hi as (kv & <- & Hkv).
          apply in_map. unfold CartModule.map_delete in Hkv.
          apply filter_In in Hkv. apply Hkv. }
        rewrite Hq0 in D. cbn [Qof num_of_Z] in D. rewrite Qfloor_Z in D.
        assert (Hq0' : 0 <= q0).
        { destruct (cart_ok_quantities env (items w) Hw item) as [Hlt _].
          - unfold CartModule.map_get in G.
            destruct (List.find _ (items w)) as [kv |] eqn:F; [| discriminate].
            injection G as <-. apply find_some in F. apply in_map, F.
          - rewrite Hq0, Num_lt_Z in Hlt. apply Z.ltb_ge, Hlt. }
        unfold exec at 1.
        rewrite (addItem_merges env id q q0 item w Hid Hq G Hq0 Hq0') by (assumption || lia).
        cbn [snd]. rewrite saved_items. unfold notified.
        cbn [items with_calls with_items].
        pose proof (quantity_sum_set (num_of_Z id)
                      (CartItem.mk (CartItem.productId item) (num_of_Z (q0 + q))
                         (CartItem.addedAt item)) (items w) item G) as S.
        rewrite Hq0 in S. cbn [CartItem.quantity Qof num_of_Z] in S.
        rewrite !Qfloor_Z in S. lia.
      - unfold exec at 1. rewrite (addItem_creates env id q w Hid Hq G).
        cbn [snd]. rewrite saved_items. unfold notified.
        cbn [items with_calls with_items]. rewrite map_app, quantity_sum_app.
        cbn [map snd]. rewrite quantity_sum_cons.
        cbn [quantity_sum fold_right CartItem.quantity Qof num_of_Z].
        rewrite Qfloor_Z. lia. }
    rewrite (getCartCount_run env _ Hw') by (rewrite Hs; exact Hmax).
    rewrite Hs. reflexivity.
  - intros item q0 G Hq0.
    assert (Hw' : well_formed env
                    (exec (CartModule.removeItem env (VNum (num_of_Z id))) w)).
    { apply (removeItem_wf env). exact Hw. }
    assert (Hs : quantity_sum
                   (map snd
                      (items (exec (CartModule.removeItem env
                                      (VNum (num_of_Z id))) w)))
                 = n - q0).
    { unfold exec at 1.
      rewrite (removeItem_run env id item w (valid_id_positive env id Hid) G).
      cbn [snd]. rewrite saved_items. unfold removed, notified.
      cbn [items with_calls with_items].
      pose proof (quantity_sum_delete (num_of_Z id) (items w) item Hd G) as D.
      rewrite Hq0 in D. cbn [Qof num_of_Z] in D. rewrite Qfloor_Z in D. lia. }
    assert (Hq0' : 0 <= q0).
    { destruct (cart_ok_quantities env (items w) Hw item) as [Hlt _].
      - unfold CartModule.map_get in G.
        destruct (List.find _ (items w)) as [kv |] eqn:F; [| discriminate].
        injection G as <-. apply find_some in F. apply in_map, F.
      - rewrite Hq0, Num_lt_Z in Hlt. apply Z.ltb_ge, Hlt. }
    rewrite (getCartCount_run env _ Hw') by (rewrite Hs; lia).
    rewrite Hs. reflexivity.
Qed.

Lemma getCartCount_follows_witness :
  let w := exec (CartModule.addItem browser (VNum 1) (VNum 2))
             (fresh (mkClock 0 "1970-01-01T00:00:00.000Z")) in
  result CartModule.getCartCount w = Ok (num_of_Z 2)
  /\ result CartModule.getCartCount
       (exec (CartModule.addItem browser (VNum (num_of_Z 1))
                (VNum (num_of_Z 3))) w)
     = Ok (num_of_Z 5).
Proof.
  intros w. split; [reflexivity |].
  refine (proj1 (getCartCount_follows browser 1 3 2 w
                   eq_refl eq_refl _ _ eq_refl _)).
  - lia.
  - intros item H. vm_compute in H. injection H as <-.
    exists 2. split; [reflexivity | lia].
  - lia.
Defined.

(** * The sanitizer of text inputs *)

Lemma count_filter p q s :
  (forall c, q c = true -> p c = false) ->
  Str.count p (Str.filter q s) = O.
Proof.
  intros H. induction s as [| c r IH]; simpl; [reflexivity |].
  destruct (q c) eqn:E; [| exact IH]. simpl. rewrite (H c E). exact IH.
Qed.

Lemma count_filter_zero p q s :
  Str.count p s = O -> Str.count p (Str.filter q s) = O.
Proof.
  induction s as [| c r IH]; simpl; [reflexivity |].
  destruct (p c) eqn:E; [discriminate |]. intros H.
  destruct (q c); simpl; [rewrite E |]; apply IH, H.
Qed.

Lemma collapse_spaces b s :
  Str.count odd_space (TextSanitizer.collapse b s) = O.
Proof.
  revert b. induction s as [| c r IH]; intros b; simpl; [reflexivity |].
  destruct (Str.is_space c) eqn:E.
  - destruct b; [apply IH |]. simpl. apply IH.
  - simpl. unfold odd_space at 1. rewrite E. simpl. apply IH.
Qed.

(** X29. The sanitizer of text inputs returns a text without angle
    brackets, in which the only white space is the space character, and
    the empty text for [null] and [undefined]. It is not idempotent: white
    space on both sides of a bracket is left as two spaces, which a second
    pass joins. *)
Theorem sanitize_text_removes_brackets v :
  Str.count TextSanitizer.is_angle (TextSanitizer.sanitize_text v) = O
  /\ Str.count odd_space (TextSanitizer.sanitize_text v) = O
  /\ TextSanitizer.sanitize_text VNull = EmptyString
  /\ TextSanitizer.sanitize_text VUndef = EmptyString
  /\ TextSanitizer.sanitize_text (VStr "a <b> c") = "a b c"
  /\ TextSanitizer.sanitize_text (VStr "a < b") = "a  b"
  /\ TextSanitizer.sanitize_text
       (VStr (TextSanitizer.sanitize_text (VStr "a < b"))) = "a b".
Proof.
  split; [| split; [| repeat split]].
  - destruct v; try reflexivity; unfold TextSanitizer.sanitize_text;
      apply count_filter; intros c H; apply negb_true_iff, H.
  - destruct v; try reflexivity; unfold TextSanitizer.sanitize_text;
      apply count_filter_zero, collapse_spaces.
Qed.

(** * What the storage is reported to hold *)

(** X30. After a save on a working [localStorage] that does not fail,
    [getStorageInfo] reports the stored cart: there is stored data, it
    was saved at the time of the save, its size is that of the serialized
    cart, the storage is available and the manager is not in session-only
    mode. *)
Theorem getStorageInfo_after_save env w :
  native env = true ->
  faults w = [] ->
  sessionOnly w = false ->
  let w' := exec (CartModule.saveToStorage env) w in
  result CartModule.getStorageInfo w'
  = Ok (CartModule.mkStorageInfo true
          (match iso (clock w) with
           | EmptyString => None
           | t => Some t
           end)
          false
          (CartModule.blob_size
             (DataRecovery.stringify_text
                (CartModule.serialize (items w) (iso (clock w)))))
          true None).
Proof.
  intros Hn Hf Hs w'.
  destruct (saveToStorage_healthy env w Hn Hf Hs)
    as (w1 & E & Hf1 & Hs1 & _ & Hk & Ht).
  assert (w' = w1) as -> by (unfold w', exec; rewrite E; reflexivity).
  unfold result, CartModule.getStorageInfo, try_catch.
  unfold bind at 1. rewrite (getItem_healthy _ _ w1 Hf1).
  cbn [Storage.content]. rewrite Hk.
  unfold bind at 1. rewrite (getItem_healthy _ _ w1 Hf1).
  cbn [Storage.content]. rewrite Ht.
  unfold bind at 1, gets at 1. cbv beta iota.
  unfold bind at 1. unfold bind at 1. rewrite (getItem_healthy _ _ w1 Hf1).
  cbn [Storage.content]. rewrite Hk. unfold ret at 1. cbv beta iota.
  unfold bind at 1, CartModule._isStorageAvailable, try_catch.
  unfold bind at 1. rewrite (setItem_healthy _ _ w1 Hf1).
  unfold bind at 1.
  rewrite (removeItem_healthy _ (with_localStorage _ w1)) by exact Hf1.
  unfold ret. cbn [fst]. rewrite Hs1.
  destruct (iso (clock w)); reflexivity.
Qed.

Lemma getStorageInfo_after_save_witness :
  let w := with_items [(num_of_Z 1,
                        CartItem.mk 1 2 (VStr "1970-01-01T00:00:00.000Z"))]
             (fresh (mkClock 0 "1970-01-01T00:00:00.000Z")) in
  result CartModule.getStorageInfo (exec (CartModule.saveToStorage browser) w)
  = Ok (CartModule.mkStorageInfo true (Some "1970-01-01T00:00:00.000Z")
          false
          (CartModule.blob_size
             (DataRecovery.stringify_text
                (CartModule.serialize (items w) (iso (clock w)))))
          true None).
Proof.
  intros w.
  exact (getStorageInfo_after_save browser w eq_refl eq_refl eq_refl).
Defined.
